(** * Generic_Domain: the time-evolution driver of a finite-volume solver

    A shallow embedding of [anuga/abstract_2d_finite_volumes/generic_domain.py]
    (class [Generic_Domain]) and the properties of its accessors, boundary
    binding, boundary update, timestep controller, Runge-Kutta schemes and
    [evolve] generator.

    Conventions of the embedding.
    - Python floats are idealised as exact rationals [Q]; comparisons are the
      order of [Q] and float equality is [Qeq] ([==]).  The properties below
      only use comparisons, [min], [max] and a handful of sums and products.
    - Python ints used as counters or orders are [Z]; cell, edge and slot
      indices are [nat] (non-negative indices only).
    - dicts are [gmap]s, numpy arrays are lists, with the [IndexError] and
      [KeyError] of the source written out.
    - A method that mutates [self] is a function [Domain -> outcome]; an
      outcome keeps the domain as the method left it, also when it raised.
    - Methods of collaborators whose code lives in other modules ([Quantity],
      boundary objects, forcing terms, the flux kernel of the subclass, the
      checkpoint routines, configuration constants) are the fields of the
      class [External]. *)

From Stdlib Require Import QArith Qminmax Qround Lqa ZArith Lia.
From stdpp Require Import base gmap strings list sorting.

Local Open Scope Z_scope.

(** ** Exceptions and results *)

(** A Python value that can be passed where the source expects a name or a
    number. *)
Inductive PyArg : Type :=
  | PyStr (s : string)
  | PyInt (n : Z).

(** One constructor per [raise] site of the module (all of them raise the
    plain [Exception] class, told apart by their message), plus the built-in
    errors of Python and numpy that the modelled statements can produce. *)
Inductive exn : Type :=
  | BothVertexAndEdge
      (* 'Values for both vertex and edge was specified. ...' *)
  | IncorrectTimesteppingType (arg : PyArg)
      (* '%s is an incorrect timestepping type' *)
  | TagNotBound (tag : string) (tags : list string)
      (* 'Tag "%s" has not been bound ... The tags are: %s' *)
  | ConservedToEvolvedNotOverridden
      (* 'Method conserved_values_to_evolved_values must be overridden ...' *)
  | BoundaryWrongLength
      (* 'Boundary must return array of either conserved or evolved ...' *)
  | ComputeFluxesNotOverridden
      (* 'Method compute_fluxes must be overridden by Domain subclass' *)
  | TooSmallTimestep (timestep : Q) (max_smallsteps : Z)
      (* 'WARNING: Too small timestep %.16f reached even after %d steps ...' *)
  | TimeOvershotFinaltime
      (* 'WARNING (domain.py): time overshot finaltime. ...' *)
  | OnlyOneOfFinaltimeAndDuration
      (* 'Only one of finaltime and duration may be specified' *)
  | UnknownOrder
      (* 'Unknown order' *)
  | AssertionError (msg : string)
  | KeyError (key : string)
  | KeyErrorEdge (vol_id edge_id : nat)
  | AttributeError (name : string)
  | IndexError
  | ValueError
  | ExternalError (msg : string).

Inductive result (A : Type) : Type :=
  | Ok (a : A)
  | Error (e : exn).
Arguments Ok {A} a.
Arguments Error {A} e.

Definition rbind {A B : Type} (r : result A) (k : A -> result B) : result B :=
  match r with
  | Ok a => k a
  | Error e => Error e
  end.

Notation "x <~ r ;; k" := (rbind r (fun x => k))
  (at level 100, r at next level, right associativity).

Fixpoint rmap {A B : Type} (f : A -> result B) (l : list A) : result (list B) :=
  match l with
  | [] => Ok []
  | a :: l' => b <~ f a ;; bs <~ rmap f l' ;; Ok (b :: bs)
  end.

(** ** numpy arrays as lists *)

(** [a[i]] *)
Definition getitem {A : Type} (a : list A) (i : nat) : result A :=
  match a !! i with
  | Some x => Ok x
  | None => Error IndexError
  end.

(** [a[i, j]] *)
Definition getitem2 {A : Type} (a : list (list A)) (i j : nat) : result A :=
  row <~ getitem a i ;; getitem row j.

(** [a[i] = x] *)
Definition setitem {A : Type} (a : list A) (i : nat) (x : A) : result (list A) :=
  if decide (i < length a)%nat then Ok (<[i := x]> a) else Error IndexError.

(** [a[i, j] = x] *)
Definition setitem2 {A : Type} (a : list (list A)) (i j : nat) (x : A)
  : result (list (list A)) :=
  row <~ getitem a i ;; row' <~ setitem row j x ;; setitem a i row'.

(** [num.zeros(n, num.float)] *)
Definition zeros (n : nat) : list Q := replicate n 0%Q.

(** Python's two-argument [min] and [max] on floats: the first argument wins
    ties, as [Qmin] and [Qmax] do. *)
Definition py_min (a b : Q) : Q := Qmin a b.
Definition py_max (a b : Q) : Q := Qmax a b.

(** [a < b] on floats, as a boolean *)
Definition Qltb (a b : Q) : bool := if Qlt_le_dec a b then true else false.

(** ** Collaborators: quantities, boundary objects, forcing terms *)

(** The arrays of a [Quantity] object that the driver reads or writes. *)
Record Quantity : Type := mkQuantity {
  centroid_values : list Q;
  vertex_values : list (list Q);
  edge_values : list (list Q);
  boundary_values : list Q;
  explicit_update : list Q;
  semi_implicit_update : list Q;
  centroid_backup_values : list Q
}.

Definition upd_centroid_values (v : list Q) (q : Quantity) : Quantity :=
  mkQuantity v (vertex_values q) (edge_values q) (boundary_values q)
    (explicit_update q) (semi_implicit_update q) (centroid_backup_values q).

Definition upd_vertex_values (v : list (list Q)) (q : Quantity) : Quantity :=
  mkQuantity (centroid_values q) v (edge_values q) (boundary_values q)
    (explicit_update q) (semi_implicit_update q) (centroid_backup_values q).

Definition upd_edge_values (v : list (list Q)) (q : Quantity) : Quantity :=
  mkQuantity (centroid_values q) (vertex_values q) v (boundary_values q)
    (explicit_update q) (semi_implicit_update q) (centroid_backup_values q).

Definition upd_boundary_values (v : list Q) (q : Quantity) : Quantity :=
  mkQuantity (centroid_values q) (vertex_values q) (edge_values q) v
    (explicit_update q) (semi_implicit_update q) (centroid_backup_values q).

Definition upd_explicit_update (v : list Q) (q : Quantity) : Quantity :=
  mkQuantity (centroid_values q) (vertex_values q) (edge_values q)
    (boundary_values q) v (semi_implicit_update q) (centroid_backup_values q).

Definition upd_semi_implicit_update (v : list Q) (q : Quantity) : Quantity :=
  mkQuantity (centroid_values q) (vertex_values q) (edge_values q)
    (boundary_values q) (explicit_update q) v (centroid_backup_values q).

Definition upd_centroid_backup_values (v : list Q) (q : Quantity) : Quantity :=
  mkQuantity (centroid_values q) (vertex_values q) (edge_values q)
    (boundary_values q) (explicit_update q) (semi_implicit_update q) v.

(** A boundary object.  [evaluate(vol_id, edge_id)] reads the domain the
    object was built over; the model hands it the model time and the quantity
    store. [tag_name] only identifies the object. *)
Record Boundary : Type := mkBoundary {
  tag_name : string;
  evaluate : Q -> gmap string Quantity -> nat -> nat -> list Q
}.

(** What a flux kernel or a forcing term may write: explicit and
    semi-implicit updates per quantity name, the flux timestep and the
    maximal speeds. *)
Record Updates : Type := mkUpdates {
  new_explicit_update : gmap string (list Q);
  new_semi_implicit_update : gmap string (list Q);
  new_flux_timestep : Q;
  new_max_speed : list Q
}.

(** A forcing term [f(domain)]: reads time, quantities, flux timestep and
    maximal speeds. *)
Definition ForcingTerm : Type :=
  Q -> gmap string Quantity -> Q -> list Q -> Updates.

(** Extrema block of one monitored quantity. *)
Record InfoBlock : Type := mkInfoBlock {
  info_min : option Q;
  info_max : option Q;
  info_min_location : option (Q * Q);
  info_max_location : option (Q * Q);
  info_min_time : option Q;
  info_max_time : option Q
}.

(** What [log.critical] receives. *)
Inductive LogEntry : Type :=
  | LogTooSmallTimestep (timestep : Q) (max_smallsteps : Z)
  | LogStatistics (stats : string)
  | LogIgnoredBoundary.

(** Names of the methods of the driver, for the ghost call trace. *)
Inductive Call : Type :=
  | backup_conserved_quantities_
  | saxpy_conserved_quantities_ (a b : Q)
  | compute_fluxes_
  | compute_forcing_terms_
  | update_timestep_
  | update_conserved_quantities_
  | update_ghosts_
  | distribute_to_vertices_and_edges_
  | update_boundary_
  | update_extrema_.

(** ** The domain *)

(** The attributes of [self] that the modelled methods touch, under the names
    of the source.  [timetepping_method] is the attribute that the integer
    branch of [set_timestepping_method] creates.  [boundary_objects] is absent
    ([None]) until [set_boundary] ran.  [calls] is ghost state: the methods
    entered so far, each with the model time at entry, most recent last. *)
Record Domain : Type := mkDomain {
  number_of_triangles : nat;
  number_of_full_triangles : nat;
  boundary : gmap (nat * nat) string;
  neighbours : list (list Z);
  conserved_quantities : list string;
  evolved_quantities : list string;
  quantities : gmap string Quantity;
  forcing_terms : list ForcingTerm;
  processor : nat;
  full_send_dict : gmap nat (list nat);
  ghost_recv_dict : gmap nat (list nat);
  protect_against_isolated_degenerate_timesteps : bool;
  default_order : Z;
  _order_ : Z;
  smallsteps : Z;
  max_smallsteps : Z;
  number_of_steps : Z;
  number_of_first_order_steps : Z;
  CFL : Q;
  timestepping_method : string;
  timetepping_method : option string;
  evolve_max_timestep : Q;
  evolve_min_timestep : Q;
  boundary_map : option (gmap string (option Boundary));
  boundary_objects : option (list ((nat * nat) * option Boundary));
  time : Q;
  finaltime : option Q;
  recorded_min_timestep : Q;
  recorded_max_timestep : Q;
  starttime : Q;
  timestep : Q;
  flux_timestep : Q;
  yieldtime : Q;
  quantities_to_be_monitored : option (gmap string InfoBlock);
  monitor_time_interval : option (Q * Q);
  monitor_indices : option (list nat);
  checkpoint : bool;
  max_speed : list Q;
  log : list LogEntry;
  calls : list (Call * Q)
}.

Definition upd_neighbours (v : list (list Z)) (d : Domain) : Domain :=
  mkDomain (number_of_triangles d) (number_of_full_triangles d) (boundary d) v
  (conserved_quantities d) (evolved_quantities d) (quantities d)
  (forcing_terms d) (processor d) (full_send_dict d) (ghost_recv_dict d)
  (protect_against_isolated_degenerate_timesteps d) (default_order d) (_order_
  d) (smallsteps d) (max_smallsteps d) (number_of_steps d)
  (number_of_first_order_steps d) (CFL d) (timestepping_method d)
  (timetepping_method d) (evolve_max_timestep d) (evolve_min_timestep d)
  (boundary_map d) (boundary_objects d) (time d) (finaltime d)
  (recorded_min_timestep d) (recorded_max_timestep d) (starttime d) (timestep
  d) (flux_timestep d) (yieldtime d) (quantities_to_be_monitored d)
  (monitor_time_interval d) (monitor_indices d) (checkpoint d) (max_speed d)
  (log d) (calls d).

Definition upd_quantities (v : gmap string Quantity) (d : Domain) : Domain :=
  mkDomain (number_of_triangles d) (number_of_full_triangles d) (boundary d)
  (neighbours d) (conserved_quantities d) (evolved_quantities d) v
  (forcing_terms d) (processor d) (full_send_dict d) (ghost_recv_dict d)
  (protect_against_isolated_degenerate_timesteps d) (default_order d) (_order_
  d) (smallsteps d) (max_smallsteps d) (number_of_steps d)
  (number_of_first_order_steps d) (CFL d) (timestepping_method d)
  (timetepping_method d) (evolve_max_timestep d) (evolve_min_timestep d)
  (boundary_map d) (boundary_objects d) (time d) (finaltime d)
  (recorded_min_timestep d) (recorded_max_timestep d) (starttime d) (timestep
  d) (flux_timestep d) (yieldtime d) (quantities_to_be_monitored d)
  (monitor_time_interval d) (monitor_indices d) (checkpoint d) (max_speed d)
  (log d) (calls d).

Definition upd_order (v : Z) (d : Domain) : Domain :=
  mkDomain (number_of_triangles d) (number_of_full_triangles d) (boundary d)
  (neighbours d) (conserved_quantities d) (evolved_quantities d) (quantities
  d) (forcing_terms d) (processor d) (full_send_dict d) (ghost_recv_dict d)
  (protect_against_isolated_degenerate_timesteps d) (default_order d) v
  (smallsteps d) (max_smallsteps d) (number_of_steps d)
  (number_of_first_order_steps d) (CFL d) (timestepping_method d)
  (timetepping_method d) (evolve_max_timestep d) (evolve_min_timestep d)
  (boundary_map d) (boundary_objects d) (time d) (finaltime d)
  (recorded_min_timestep d) (recorded_max_timestep d) (starttime d) (timestep
  d) (flux_timestep d) (yieldtime d) (quantities_to_be_monitored d)
  (monitor_time_interval d) (monitor_indices d) (checkpoint d) (max_speed d)
  (log d) (calls d).

Definition upd_smallsteps (v : Z) (d : Domain) : Domain :=
  mkDomain (number_of_triangles d) (number_of_full_triangles d) (boundary d)
  (neighbours d) (conserved_quantities d) (evolved_quantities d) (quantities
  d) (forcing_terms d) (processor d) (full_send_dict d) (ghost_recv_dict d)
  (protect_against_isolated_degenerate_timesteps d) (default_order d) (_order_
  d) v (max_smallsteps d) (number_of_steps d) (number_of_first_order_steps d)
  (CFL d) (timestepping_method d) (timetepping_method d) (evolve_max_timestep
  d) (evolve_min_timestep d) (boundary_map d) (boundary_objects d) (time d)
  (finaltime d) (recorded_min_timestep d) (recorded_max_timestep d) (starttime
  d) (timestep d) (flux_timestep d) (yieldtime d) (quantities_to_be_monitored
  d) (monitor_time_interval d) (monitor_indices d) (checkpoint d) (max_speed
  d) (log d) (calls d).

Definition upd_number_of_steps (v : Z) (d : Domain) : Domain :=
  mkDomain (number_of_triangles d) (number_of_full_triangles d) (boundary d)
  (neighbours d) (conserved_quantities d) (evolved_quantities d) (quantities
  d) (forcing_terms d) (processor d) (full_send_dict d) (ghost_recv_dict d)
  (protect_against_isolated_degenerate_timesteps d) (default_order d) (_order_
  d) (smallsteps d) (max_smallsteps d) v (number_of_first_order_steps d) (CFL
  d) (timestepping_method d) (timetepping_method d) (evolve_max_timestep d)
  (evolve_min_timestep d) (boundary_map d) (boundary_objects d) (time d)
  (finaltime d) (recorded_min_timestep d) (recorded_max_timestep d) (starttime
  d) (timestep d) (flux_timestep d) (yieldtime d) (quantities_to_be_monitored
  d) (monitor_time_interval d) (monitor_indices d) (checkpoint d) (max_speed
  d) (log d) (calls d).

Definition upd_number_of_first_order_steps (v : Z) (d : Domain) : Domain :=
  mkDomain (number_of_triangles d) (number_of_full_triangles d) (boundary d)
  (neighbours d) (conserved_quantities d) (evolved_quantities d) (quantities
  d) (forcing_terms d) (processor d) (full_send_dict d) (ghost_recv_dict d)
  (protect_against_isolated_degenerate_timesteps d) (default_order d) (_order_
  d) (smallsteps d) (max_smallsteps d) (number_of_steps d) v (CFL d)
  (timestepping_method d) (timetepping_method d) (evolve_max_timestep d)
  (evolve_min_timestep d) (boundary_map d) (boundary_objects d) (time d)
  (finaltime d) (recorded_min_timestep d) (recorded_max_timestep d) (starttime
  d) (timestep d) (flux_timestep d) (yieldtime d) (quantities_to_be_monitored
  d) (monitor_time_interval d) (monitor_indices d) (checkpoint d) (max_speed
  d) (log d) (calls d).

Definition upd_timestepping_method (v : string) (d : Domain) : Domain :=
  mkDomain (number_of_triangles d) (number_of_full_triangles d) (boundary d)
  (neighbours d) (conserved_quantities d) (evolved_quantities d) (quantities
  d) (forcing_terms d) (processor d) (full_send_dict d) (ghost_recv_dict d)
  (protect_against_isolated_degenerate_timesteps d) (default_order d) (_order_
  d) (smallsteps d) (max_smallsteps d) (number_of_steps d)
  (number_of_first_order_steps d) (CFL d) v (timetepping_method d)
  (evolve_max_timestep d) (evolve_min_timestep d) (boundary_map d)
  (boundary_objects d) (time d) (finaltime d) (recorded_min_timestep d)
  (recorded_max_timestep d) (starttime d) (timestep d) (flux_timestep d)
  (yieldtime d) (quantities_to_be_monitored d) (monitor_time_interval d)
  (monitor_indices d) (checkpoint d) (max_speed d) (log d) (calls d).

Definition upd_timetepping_method (v : option string) (d : Domain) : Domain :=
  mkDomain (number_of_triangles d) (number_of_full_triangles d) (boundary d)
  (neighbours d) (conserved_quantities d) (evolved_quantities d) (quantities
  d) (forcing_terms d) (processor d) (full_send_dict d) (ghost_recv_dict d)
  (protect_against_isolated_degenerate_timesteps d) (default_order d) (_order_
  d) (smallsteps d) (max_smallsteps d) (number_of_steps d)
  (number_of_first_order_steps d) (CFL d) (timestepping_method d) v
  (evolve_max_timestep d) (evolve_min_timestep d) (boundary_map d)
  (boundary_objects d) (time d) (finaltime d) (recorded_min_timestep d)
  (recorded_max_timestep d) (starttime d) (timestep d) (flux_timestep d)
  (yieldtime d) (quantities_to_be_monitored d) (monitor_time_interval d)
  (monitor_indices d) (checkpoint d) (max_speed d) (log d) (calls d).

Definition upd_boundary_map (v : option (gmap string (option Boundary))) (d : Domain) : Domain :=
  mkDomain (number_of_triangles d) (number_of_full_triangles d) (boundary d)
  (neighbours d) (conserved_quantities d) (evolved_quantities d) (quantities
  d) (forcing_terms d) (processor d) (full_send_dict d) (ghost_recv_dict d)
  (protect_against_isolated_degenerate_timesteps d) (default_order d) (_order_
  d) (smallsteps d) (max_smallsteps d) (number_of_steps d)
  (number_of_first_order_steps d) (CFL d) (timestepping_method d)
  (timetepping_method d) (evolve_max_timestep d) (evolve_min_timestep d) v
  (boundary_objects d) (time d) (finaltime d) (recorded_min_timestep d)
  (recorded_max_timestep d) (starttime d) (timestep d) (flux_timestep d)
  (yieldtime d) (quantities_to_be_monitored d) (monitor_time_interval d)
  (monitor_indices d) (checkpoint d) (max_speed d) (log d) (calls d).

Definition upd_boundary_objects (v : option (list ((nat * nat) * option Boundary))) (d : Domain) : Domain :=
  mkDomain (number_of_triangles d) (number_of_full_triangles d) (boundary d)
  (neighbours d) (conserved_quantities d) (evolved_quantities d) (quantities
  d) (forcing_terms d) (processor d) (full_send_dict d) (ghost_recv_dict d)
  (protect_against_isolated_degenerate_timesteps d) (default_order d) (_order_
  d) (smallsteps d) (max_smallsteps d) (number_of_steps d)
  (number_of_first_order_steps d) (CFL d) (timestepping_method d)
  (timetepping_method d) (evolve_max_timestep d) (evolve_min_timestep d)
  (boundary_map d) v (time d) (finaltime d) (recorded_min_timestep d)
  (recorded_max_timestep d) (starttime d) (timestep d) (flux_timestep d)
  (yieldtime d) (quantities_to_be_monitored d) (monitor_time_interval d)
  (monitor_indices d) (checkpoint d) (max_speed d) (log d) (calls d).

Definition upd_time (v : Q) (d : Domain) : Domain :=
  mkDomain (number_of_triangles d) (number_of_full_triangles d) (boundary d)
  (neighbours d) (conserved_quantities d) (evolved_quantities d) (quantities
  d) (forcing_terms d) (processor d) (full_send_dict d) (ghost_recv_dict d)
  (protect_against_isolated_degenerate_timesteps d) (default_order d) (_order_
  d) (smallsteps d) (max_smallsteps d) (number_of_steps d)
  (number_of_first_order_steps d) (CFL d) (timestepping_method d)
  (timetepping_method d) (evolve_max_timestep d) (evolve_min_timestep d)
  (boundary_map d) (boundary_objects d) v (finaltime d) (recorded_min_timestep
  d) (recorded_max_timestep d) (starttime d) (timestep d) (flux_timestep d)
  (yieldtime d) (quantities_to_be_monitored d) (monitor_time_interval d)
  (monitor_indices d) (checkpoint d) (max_speed d) (log d) (calls d).

Definition upd_finaltime (v : option Q) (d : Domain) : Domain :=
  mkDomain (number_of_triangles d) (number_of_full_triangles d) (boundary d)
  (neighbours d) (conserved_quantities d) (evolved_quantities d) (quantities
  d) (forcing_terms d) (processor d) (full_send_dict d) (ghost_recv_dict d)
  (protect_against_isolated_degenerate_timesteps d) (default_order d) (_order_
  d) (smallsteps d) (max_smallsteps d) (number_of_steps d)
  (number_of_first_order_steps d) (CFL d) (timestepping_method d)
  (timetepping_method d) (evolve_max_timestep d) (evolve_min_timestep d)
  (boundary_map d) (boundary_objects d) (time d) v (recorded_min_timestep d)
  (recorded_max_timestep d) (starttime d) (timestep d) (flux_timestep d)
  (yieldtime d) (quantities_to_be_monitored d) (monitor_time_interval d)
  (monitor_indices d) (checkpoint d) (max_speed d) (log d) (calls d).

Definition upd_recorded_min_timestep (v : Q) (d : Domain) : Domain :=
  mkDomain (number_of_triangles d) (number_of_full_triangles d) (boundary d)
  (neighbours d) (conserved_quantities d) (evolved_quantities d) (quantities
  d) (forcing_terms d) (processor d) (full_send_dict d) (ghost_recv_dict d)
  (protect_against_isolated_degenerate_timesteps d) (default_order d) (_order_
  d) (smallsteps d) (max_smallsteps d) (number_of_steps d)
  (number_of_first_order_steps d) (CFL d) (timestepping_method d)
  (timetepping_method d) (evolve_max_timestep d) (evolve_min_timestep d)
  (boundary_map d) (boundary_objects d) (time d) (finaltime d) v
  (recorded_max_timestep d) (starttime d) (timestep d) (flux_timestep d)
  (yieldtime d) (quantities_to_be_monitored d) (monitor_time_interval d)
  (monitor_indices d) (checkpoint d) (max_speed d) (log d) (calls d).

Definition upd_recorded_max_timestep (v : Q) (d : Domain) : Domain :=
  mkDomain (number_of_triangles d) (number_of_full_triangles d) (boundary d)
  (neighbours d) (conserved_quantities d) (evolved_quantities d) (quantities
  d) (forcing_terms d) (processor d) (full_send_dict d) (ghost_recv_dict d)
  (protect_against_isolated_degenerate_timesteps d) (default_order d) (_order_
  d) (smallsteps d) (max_smallsteps d) (number_of_steps d)
  (number_of_first_order_steps d) (CFL d) (timestepping_method d)
  (timetepping_method d) (evolve_max_timestep d) (evolve_min_timestep d)
  (boundary_map d) (boundary_objects d) (time d) (finaltime d)
  (recorded_min_timestep d) v (starttime d) (timestep d) (flux_timestep d)
  (yieldtime d) (quantities_to_be_monitored d) (monitor_time_interval d)
  (monitor_indices d) (checkpoint d) (max_speed d) (log d) (calls d).

Definition upd_timestep (v : Q) (d : Domain) : Domain :=
  mkDomain (number_of_triangles d) (number_of_full_triangles d) (boundary d)
  (neighbours d) (conserved_quantities d) (evolved_quantities d) (quantities
  d) (forcing_terms d) (processor d) (full_send_dict d) (ghost_recv_dict d)
  (protect_against_isolated_degenerate_timesteps d) (default_order d) (_order_
  d) (smallsteps d) (max_smallsteps d) (number_of_steps d)
  (number_of_first_order_steps d) (CFL d) (timestepping_method d)
  (timetepping_method d) (evolve_max_timestep d) (evolve_min_timestep d)
  (boundary_map d) (boundary_objects d) (time d) (finaltime d)
  (recorded_min_timestep d) (recorded_max_timestep d) (starttime d) v
  (flux_timestep d) (yieldtime d) (quantities_to_be_monitored d)
  (monitor_time_interval d) (monitor_indices d) (checkpoint d) (max_speed d)
  (log d) (calls d).

Definition upd_flux_timestep (v : Q) (d : Domain) : Domain :=
  mkDomain (number_of_triangles d) (number_of_full_triangles d) (boundary d)
  (neighbours d) (conserved_quantities d) (evolved_quantities d) (quantities
  d) (forcing_terms d) (processor d) (full_send_dict d) (ghost_recv_dict d)
  (protect_against_isolated_degenerate_timesteps d) (default_order d) (_order_
  d) (smallsteps d) (max_smallsteps d) (number_of_steps d)
  (number_of_first_order_steps d) (CFL d) (timestepping_method d)
  (timetepping_method d) (evolve_max_timestep d) (evolve_min_timestep d)
  (boundary_map d) (boundary_objects d) (time d) (finaltime d)
  (recorded_min_timestep d) (recorded_max_timestep d) (starttime d) (timestep
  d) v (yieldtime d) (quantities_to_be_monitored d) (monitor_time_interval d)
  (monitor_indices d) (checkpoint d) (max_speed d) (log d) (calls d).

Definition upd_yieldtime (v : Q) (d : Domain) : Domain :=
  mkDomain (number_of_triangles d) (number_of_full_triangles d) (boundary d)
  (neighbours d) (conserved_quantities d) (evolved_quantities d) (quantities
  d) (forcing_terms d) (processor d) (full_send_dict d) (ghost_recv_dict d)
  (protect_against_isolated_degenerate_timesteps d) (default_order d) (_order_
  d) (smallsteps d) (max_smallsteps d) (number_of_steps d)
  (number_of_first_order_steps d) (CFL d) (timestepping_method d)
  (timetepping_method d) (evolve_max_timestep d) (evolve_min_timestep d)
  (boundary_map d) (boundary_objects d) (time d) (finaltime d)
  (recorded_min_timestep d) (recorded_max_timestep d) (starttime d) (timestep
  d) (flux_timestep d) v (quantities_to_be_monitored d) (monitor_time_interval
  d) (monitor_indices d) (checkpoint d) (max_speed d) (log d) (calls d).

Definition upd_quantities_to_be_monitored (v : option (gmap string InfoBlock)) (d : Domain) : Domain :=
  mkDomain (number_of_triangles d) (number_of_full_triangles d) (boundary d)
  (neighbours d) (conserved_quantities d) (evolved_quantities d) (quantities
  d) (forcing_terms d) (processor d) (full_send_dict d) (ghost_recv_dict d)
  (protect_against_isolated_degenerate_timesteps d) (default_order d) (_order_
  d) (smallsteps d) (max_smallsteps d) (number_of_steps d)
  (number_of_first_order_steps d) (CFL d) (timestepping_method d)
  (timetepping_method d) (evolve_max_timestep d) (evolve_min_timestep d)
  (boundary_map d) (boundary_objects d) (time d) (finaltime d)
  (recorded_min_timestep d) (recorded_max_timestep d) (starttime d) (timestep
  d) (flux_timestep d) (yieldtime d) v (monitor_time_interval d)
  (monitor_indices d) (checkpoint d) (max_speed d) (log d) (calls d).

Definition upd_max_speed (v : list Q) (d : Domain) : Domain :=
  mkDomain (number_of_triangles d) (number_of_full_triangles d) (boundary d)
  (neighbours d) (conserved_quantities d) (evolved_quantities d) (quantities
  d) (forcing_terms d) (processor d) (full_send_dict d) (ghost_recv_dict d)
  (protect_against_isolated_degenerate_timesteps d) (default_order d) (_order_
  d) (smallsteps d) (max_smallsteps d) (number_of_steps d)
  (number_of_first_order_steps d) (CFL d) (timestepping_method d)
  (timetepping_method d) (evolve_max_timestep d) (evolve_min_timestep d)
  (boundary_map d) (boundary_objects d) (time d) (finaltime d)
  (recorded_min_timestep d) (recorded_max_timestep d) (starttime d) (timestep
  d) (flux_timestep d) (yieldtime d) (quantities_to_be_monitored d)
  (monitor_time_interval d) (monitor_indices d) (checkpoint d) v (log d)
  (calls d).

Definition upd_log (v : list LogEntry) (d : Domain) : Domain :=
  mkDomain (number_of_triangles d) (number_of_full_triangles d) (boundary d)
  (neighbours d) (conserved_quantities d) (evolved_quantities d) (quantities
  d) (forcing_terms d) (processor d) (full_send_dict d) (ghost_recv_dict d)
  (protect_against_isolated_degenerate_timesteps d) (default_order d) (_order_
  d) (smallsteps d) (max_smallsteps d) (number_of_steps d)
  (number_of_first_order_steps d) (CFL d) (timestepping_method d)
  (timetepping_method d) (evolve_max_timestep d) (evolve_min_timestep d)
  (boundary_map d) (boundary_objects d) (time d) (finaltime d)
  (recorded_min_timestep d) (recorded_max_timestep d) (starttime d) (timestep
  d) (flux_timestep d) (yieldtime d) (quantities_to_be_monitored d)
  (monitor_time_interval d) (monitor_indices d) (checkpoint d) (max_speed d) v
  (calls d).

Definition upd_calls (v : list (Call * Q)) (d : Domain) : Domain :=
  mkDomain (number_of_triangles d) (number_of_full_triangles d) (boundary d)
  (neighbours d) (conserved_quantities d) (evolved_quantities d) (quantities
  d) (forcing_terms d) (processor d) (full_send_dict d) (ghost_recv_dict d)
  (protect_against_isolated_degenerate_timesteps d) (default_order d) (_order_
  d) (smallsteps d) (max_smallsteps d) (number_of_steps d)
  (number_of_first_order_steps d) (CFL d) (timestepping_method d)
  (timetepping_method d) (evolve_max_timestep d) (evolve_min_timestep d)
  (boundary_map d) (boundary_objects d) (time d) (finaltime d)
  (recorded_min_timestep d) (recorded_max_timestep d) (starttime d) (timestep
  d) (flux_timestep d) (yieldtime d) (quantities_to_be_monitored d)
  (monitor_time_interval d) (monitor_indices d) (checkpoint d) (max_speed d)
  (log d) v.

Definition upd_default_order (v : Z) (d : Domain) : Domain :=
  mkDomain (number_of_triangles d) (number_of_full_triangles d) (boundary d)
  (neighbours d) (conserved_quantities d) (evolved_quantities d) (quantities
  d) (forcing_terms d) (processor d) (full_send_dict d) (ghost_recv_dict d)
  (protect_against_isolated_degenerate_timesteps d) v (_order_ d) (smallsteps
  d) (max_smallsteps d) (number_of_steps d) (number_of_first_order_steps d)
  (CFL d) (timestepping_method d) (timetepping_method d) (evolve_max_timestep
  d) (evolve_min_timestep d) (boundary_map d) (boundary_objects d) (time d)
  (finaltime d) (recorded_min_timestep d) (recorded_max_timestep d) (starttime
  d) (timestep d) (flux_timestep d) (yieldtime d) (quantities_to_be_monitored
  d) (monitor_time_interval d) (monitor_indices d) (checkpoint d) (max_speed
  d) (log d) (calls d).

Definition upd_max_smallsteps (v : Z) (d : Domain) : Domain :=
  mkDomain (number_of_triangles d) (number_of_full_triangles d) (boundary d)
  (neighbours d) (conserved_quantities d) (evolved_quantities d) (quantities
  d) (forcing_terms d) (processor d) (full_send_dict d) (ghost_recv_dict d)
  (protect_against_isolated_degenerate_timesteps d) (default_order d) (_order_
  d) (smallsteps d) v (number_of_steps d) (number_of_first_order_steps d) (CFL
  d) (timestepping_method d) (timetepping_method d) (evolve_max_timestep d)
  (evolve_min_timestep d) (boundary_map d) (boundary_objects d) (time d)
  (finaltime d) (recorded_min_timestep d) (recorded_max_timestep d) (starttime
  d) (timestep d) (flux_timestep d) (yieldtime d) (quantities_to_be_monitored
  d) (monitor_time_interval d) (monitor_indices d) (checkpoint d) (max_speed
  d) (log d) (calls d).

Definition upd_CFL (v : Q) (d : Domain) : Domain :=
  mkDomain (number_of_triangles d) (number_of_full_triangles d) (boundary d)
  (neighbours d) (conserved_quantities d) (evolved_quantities d) (quantities
  d) (forcing_terms d) (processor d) (full_send_dict d) (ghost_recv_dict d)
  (protect_against_isolated_degenerate_timesteps d) (default_order d) (_order_
  d) (smallsteps d) (max_smallsteps d) (number_of_steps d)
  (number_of_first_order_steps d) v (timestepping_method d)
  (timetepping_method d) (evolve_max_timestep d) (evolve_min_timestep d)
  (boundary_map d) (boundary_objects d) (time d) (finaltime d)
  (recorded_min_timestep d) (recorded_max_timestep d) (starttime d) (timestep
  d) (flux_timestep d) (yieldtime d) (quantities_to_be_monitored d)
  (monitor_time_interval d) (monitor_indices d) (checkpoint d) (max_speed d)
  (log d) (calls d).

Definition upd_evolve_max_timestep (v : Q) (d : Domain) : Domain :=
  mkDomain (number_of_triangles d) (number_of_full_triangles d) (boundary d)
  (neighbours d) (conserved_quantities d) (evolved_quantities d) (quantities
  d) (forcing_terms d) (processor d) (full_send_dict d) (ghost_recv_dict d)
  (protect_against_isolated_degenerate_timesteps d) (default_order d) (_order_
  d) (smallsteps d) (max_smallsteps d) (number_of_steps d)
  (number_of_first_order_steps d) (CFL d) (timestepping_method d)
  (timetepping_method d) v (evolve_min_timestep d) (boundary_map d)
  (boundary_objects d) (time d) (finaltime d) (recorded_min_timestep d)
  (recorded_max_timestep d) (starttime d) (timestep d) (flux_timestep d)
  (yieldtime d) (quantities_to_be_monitored d) (monitor_time_interval d)
  (monitor_indices d) (checkpoint d) (max_speed d) (log d) (calls d).

Definition upd_evolve_min_timestep (v : Q) (d : Domain) : Domain :=
  mkDomain (number_of_triangles d) (number_of_full_triangles d) (boundary d)
  (neighbours d) (conserved_quantities d) (evolved_quantities d) (quantities
  d) (forcing_terms d) (processor d) (full_send_dict d) (ghost_recv_dict d)
  (protect_against_isolated_degenerate_timesteps d) (default_order d) (_order_
  d) (smallsteps d) (max_smallsteps d) (number_of_steps d)
  (number_of_first_order_steps d) (CFL d) (timestepping_method d)
  (timetepping_method d) (evolve_max_timestep d) v (boundary_map d)
  (boundary_objects d) (time d) (finaltime d) (recorded_min_timestep d)
  (recorded_max_timestep d) (starttime d) (timestep d) (flux_timestep d)
  (yieldtime d) (quantities_to_be_monitored d) (monitor_time_interval d)
  (monitor_indices d) (checkpoint d) (max_speed d) (log d) (calls d).

Definition upd_starttime (v : Q) (d : Domain) : Domain :=
  mkDomain (number_of_triangles d) (number_of_full_triangles d) (boundary d)
  (neighbours d) (conserved_quantities d) (evolved_quantities d) (quantities
  d) (forcing_terms d) (processor d) (full_send_dict d) (ghost_recv_dict d)
  (protect_against_isolated_degenerate_timesteps d) (default_order d) (_order_
  d) (smallsteps d) (max_smallsteps d) (number_of_steps d)
  (number_of_first_order_steps d) (CFL d) (timestepping_method d)
  (timetepping_method d) (evolve_max_timestep d) (evolve_min_timestep d)
  (boundary_map d) (boundary_objects d) (time d) (finaltime d)
  (recorded_min_timestep d) (recorded_max_timestep d) v (timestep d)
  (flux_timestep d) (yieldtime d) (quantities_to_be_monitored d)
  (monitor_time_interval d) (monitor_indices d) (checkpoint d) (max_speed d)
  (log d) (calls d).

Definition upd_checkpoint (v : bool) (d : Domain) : Domain :=
  mkDomain (number_of_triangles d) (number_of_full_triangles d) (boundary d)
  (neighbours d) (conserved_quantities d) (evolved_quantities d) (quantities
  d) (forcing_terms d) (processor d) (full_send_dict d) (ghost_recv_dict d)
  (protect_against_isolated_degenerate_timesteps d) (default_order d) (_order_
  d) (smallsteps d) (max_smallsteps d) (number_of_steps d)
  (number_of_first_order_steps d) (CFL d) (timestepping_method d)
  (timetepping_method d) (evolve_max_timestep d) (evolve_min_timestep d)
  (boundary_map d) (boundary_objects d) (time d) (finaltime d)
  (recorded_min_timestep d) (recorded_max_timestep d) (starttime d) (timestep
  d) (flux_timestep d) (yieldtime d) (quantities_to_be_monitored d)
  (monitor_time_interval d) (monitor_indices d) v (max_speed d) (log d) (calls
  d).

Definition upd_protect_against_isolated_degenerate_timesteps (v : bool) (d : Domain) : Domain :=
  mkDomain (number_of_triangles d) (number_of_full_triangles d) (boundary d)
  (neighbours d) (conserved_quantities d) (evolved_quantities d) (quantities
  d) (forcing_terms d) (processor d) (full_send_dict d) (ghost_recv_dict d) v
  (default_order d) (_order_ d) (smallsteps d) (max_smallsteps d)
  (number_of_steps d) (number_of_first_order_steps d) (CFL d)
  (timestepping_method d) (timetepping_method d) (evolve_max_timestep d)
  (evolve_min_timestep d) (boundary_map d) (boundary_objects d) (time d)
  (finaltime d) (recorded_min_timestep d) (recorded_max_timestep d) (starttime
  d) (timestep d) (flux_timestep d) (yieldtime d) (quantities_to_be_monitored
  d) (monitor_time_interval d) (monitor_indices d) (checkpoint d) (max_speed
  d) (log d) (calls d).

Definition upd_forcing_terms (v : list ForcingTerm) (d : Domain) : Domain :=
  mkDomain (number_of_triangles d) (number_of_full_triangles d) (boundary d)
  (neighbours d) (conserved_quantities d) (evolved_quantities d) (quantities
  d) v (processor d) (full_send_dict d) (ghost_recv_dict d)
  (protect_against_isolated_degenerate_timesteps d) (default_order d) (_order_
  d) (smallsteps d) (max_smallsteps d) (number_of_steps d)
  (number_of_first_order_steps d) (CFL d) (timestepping_method d)
  (timetepping_method d) (evolve_max_timestep d) (evolve_min_timestep d)
  (boundary_map d) (boundary_objects d) (time d) (finaltime d)
  (recorded_min_timestep d) (recorded_max_timestep d) (starttime d) (timestep
  d) (flux_timestep d) (yieldtime d) (quantities_to_be_monitored d)
  (monitor_time_interval d) (monitor_indices d) (checkpoint d) (max_speed d)
  (log d) (calls d).

Definition upd_full_send_dict (v : gmap nat (list nat)) (d : Domain) : Domain :=
  mkDomain (number_of_triangles d) (number_of_full_triangles d) (boundary d)
  (neighbours d) (conserved_quantities d) (evolved_quantities d) (quantities
  d) (forcing_terms d) (processor d) v (ghost_recv_dict d)
  (protect_against_isolated_degenerate_timesteps d) (default_order d) (_order_
  d) (smallsteps d) (max_smallsteps d) (number_of_steps d)
  (number_of_first_order_steps d) (CFL d) (timestepping_method d)
  (timetepping_method d) (evolve_max_timestep d) (evolve_min_timestep d)
  (boundary_map d) (boundary_objects d) (time d) (finaltime d)
  (recorded_min_timestep d) (recorded_max_timestep d) (starttime d) (timestep
  d) (flux_timestep d) (yieldtime d) (quantities_to_be_monitored d)
  (monitor_time_interval d) (monitor_indices d) (checkpoint d) (max_speed d)
  (log d) (calls d).

Definition upd_ghost_recv_dict (v : gmap nat (list nat)) (d : Domain) : Domain :=
  mkDomain (number_of_triangles d) (number_of_full_triangles d) (boundary d)
  (neighbours d) (conserved_quantities d) (evolved_quantities d) (quantities
  d) (forcing_terms d) (processor d) (full_send_dict d) v
  (protect_against_isolated_degenerate_timesteps d) (default_order d) (_order_
  d) (smallsteps d) (max_smallsteps d) (number_of_steps d)
  (number_of_first_order_steps d) (CFL d) (timestepping_method d)
  (timetepping_method d) (evolve_max_timestep d) (evolve_min_timestep d)
  (boundary_map d) (boundary_objects d) (time d) (finaltime d)
  (recorded_min_timestep d) (recorded_max_timestep d) (starttime d) (timestep
  d) (flux_timestep d) (yieldtime d) (quantities_to_be_monitored d)
  (monitor_time_interval d) (monitor_indices d) (checkpoint d) (max_speed d)
  (log d) (calls d).

(** Outcome of a method that mutates the domain. *)
Inductive outcome : Type :=
  | Normal (d : Domain)
  | Raised (e : exn) (d : Domain).

Definition and_then (o : outcome) (k : Domain -> outcome) : outcome :=
  match o with
  | Normal d => k d
  | Raised e d => Raised e d
  end.

Notation "x <- o ;;; k" := (and_then o (fun x => k))
  (at level 100, o at next level, right associativity).

(** Run a read-only query inside a method. *)
Definition query {A : Type} (d : Domain) (r : result A)
  (k : A -> outcome) : outcome :=
  match r with
  | Ok a => k a
  | Error e => Raised e d
  end.

Definition final (o : outcome) : Domain :=
  match o with
  | Normal d => d
  | Raised _ d => d
  end.

Definition enter (c : Call) (d : Domain) : Domain :=
  upd_calls (calls d ++ [(c, time d)]) d.

(** ** Code that lives outside the module

    [Quantity] methods, the flux kernel and the checkpoint routines of the
    subclass, helpers of [anuga.utilities] and constants of [anuga.config].
    Each field is typed by what the driver lets the collaborator write. *)
Class External : Type := {
  (** [anuga.config.epsilon] *)
  epsilon : Q;
  (** [anuga.config.single_precision] *)
  single_precision : Q;
  (** [Quantity.update(timestep)]: new centroid values and new
      semi-implicit update *)
  Quantity_update : Q -> Quantity -> list Q * list Q;
  (** [Quantity.extrapolate_first_order()]: new vertex and edge values *)
  Quantity_extrapolate_first_order : Quantity -> list (list Q) * list (list Q);
  (** [Quantity.extrapolate_second_order()]: new vertex and edge values *)
  Quantity_extrapolate_second_order : Quantity -> list (list Q) * list (list Q);
  (** [Quantity.get_maximum_value(indices)] and friends *)
  Quantity_get_maximum_value : Quantity -> option (list nat) -> Q;
  Quantity_get_maximum_location : Quantity -> Q * Q;
  Quantity_get_minimum_value : Quantity -> option (list nat) -> Q;
  Quantity_get_minimum_location : Quantity -> Q * Q;
  (** [util.apply_expression_to_dictionary(expression, quantities)] *)
  apply_expression_to_dictionary :
    string -> gmap string Quantity -> result Quantity;
  (** [compute_fluxes] of the subclass; [None] for [Generic_Domain] itself *)
  compute_fluxes_override : option (Domain -> result Updates);
  (** [conserved_values_to_evolved_values] of the subclass, if overridden *)
  conserved_values_to_evolved_values_override :
    option (list Q -> list Q -> result (list Q));
  (** the text built by [timestepping_statistics(track_speeds)] *)
  timestepping_statistics : Domain -> bool -> string;
  (** [Mesh.get_boundary_tags()] *)
  get_boundary_tags : Domain -> list string;
  (** checkpoint routines of the subclass *)
  goto_latest_checkpoint : Domain -> outcome;
  store_checkpoint : Domain -> outcome;
  delete_old_checkpoints : Domain -> outcome
}.

(** ** Accessors *)

Definition is_Some_b {A : Type} (o : option A) : bool :=
  match o with Some _ => true | None => false end.

(** The body of the loop of [get_conserved_quantities] and
    [get_evolved_quantities]: the value of one quantity at [vol_id]. *)
Definition value_at (Qn : Quantity) (vol_id : nat) (vertex edge : option nat)
  : result Q :=
  match vertex, edge with
  | Some v, _ => getitem2 (vertex_values Qn) vol_id v
  | None, Some e => getitem2 (edge_values Qn) vol_id e
  | None, None => getitem (centroid_values Qn) vol_id
  end.

(** [self.quantities[name]] *)
Definition get_quantity (d : Domain) (name : string) : result Quantity :=
  match quantities d !! name with
  | Some Qn => Ok Qn
  | None => Error (KeyError name)
  end.

Definition get_conserved_quantities (d : Domain) (vol_id : nat)
  (vertex edge : option nat) : result (list Q) :=
  if is_Some_b vertex && is_Some_b edge then Error BothVertexAndEdge
  else
    rmap (fun name => Qn <~ get_quantity d name ;;
                      value_at Qn vol_id vertex edge)
         (conserved_quantities d).

Definition get_evolved_quantities (d : Domain) (vol_id : nat)
  (vertex edge : option nat) : result (list Q) :=
  if is_Some_b vertex && is_Some_b edge then Error BothVertexAndEdge
  else
    rmap (fun name => Qn <~ get_quantity d name ;;
                      value_at Qn vol_id vertex edge)
         (evolved_quantities d).

(** [set_time] stores the relative model time. *)
Definition set_time (t : Q) (d : Domain) : Domain := upd_time t d.

(** [get_time] returns the absolute model time. *)
Definition get_time (d : Domain) : Q := (time d + starttime d)%Q.

Definition get_starttime (d : Domain) : Q := starttime d.

Definition get_timestepping_method (d : Domain) : string :=
  timestepping_method d.

Definition methods : list string := ["euler"; "rk2"; "rk3"]%string.

Definition set_timestepping_method (arg : PyArg) (d : Domain) : outcome :=
  match arg with
  | PyStr s =>
      if decide (s ∈ methods) then Normal (upd_timestepping_method s d)
      else Raised (IncorrectTimesteppingType arg) d
  | PyInt n =>
      if decide (n ∈ [1; 2; 3]) then
        match methods !! Z.to_nat (n - 1) with
        | Some m => Normal (upd_timetepping_method (Some m) d)
        | None => Raised IndexError d
        end
      else Raised (IncorrectTimesteppingType arg) d
  end.

(** [self.starttime = float(time)] *)
Definition set_starttime (t : Q) (d : Domain) : Domain := upd_starttime t d.

Definition set_evolve_max_timestep (max_timestep : Q) (d : Domain) : Domain :=
  upd_evolve_max_timestep max_timestep d.

Definition set_evolve_min_timestep (min_timestep : Q) (d : Domain) : Domain :=
  upd_evolve_min_timestep min_timestep d.

(** [set_default_order]: the order must be 1 or 2. *)
Definition set_default_order (n : Z) (d : Domain) : outcome :=
  if decide (n ∈ [1; 2]) then Normal (upd_order n (upd_default_order n d))
  else Raised (AssertionError "Default order must be either 1 or 2.") d.

(** ** Boundary binding *)

(** Order of Python tuples [(vol_id, edge_id)], as [list.sort] uses it. *)
Definition key_le (a b : nat * nat) : Prop :=
  (a.1 < b.1)%nat ∨ (a.1 = b.1 ∧ (a.2 ≤ b.2)%nat).

Definition key_lt (a b : nat * nat) : Prop :=
  (a.1 < b.1)%nat ∨ (a.1 = b.1 ∧ (a.2 < b.2)%nat).

#[global] Instance key_le_dec : RelDecision key_le.
Proof. intros a b. unfold key_le. apply _. Defined.

#[global] Instance key_lt_dec : RelDecision key_lt.
Proof. intros a b. unfold key_lt. apply _. Defined.

(** [x = self.boundary.keys(); x.sort()] *)
Definition sorted_boundary_keys (d : Domain) : list (nat * nat) :=
  merge_sort key_le ((map_to_list (boundary d)).*1).

(** The first lines of [set_boundary]: store the map on the first call,
    update the stored map key by key on later calls. *)
Definition store_boundary_map (new : gmap string (option Boundary))
  (d : Domain) : Domain :=
  match boundary_map d with
  | None => upd_boundary_map (Some new) d
  | Some old => upd_boundary_map (Some (new ∪ old)) d
  end.

(** [len(self.boundary_objects)] and [append] on the list being rebuilt *)
Definition current_objects (d : Domain)
  : list ((nat * nat) * option Boundary) :=
  default [] (boundary_objects d).

(** The loop of [set_boundary] over the sorted boundary edges. *)
Fixpoint bind_boundary_edges `{External} (bm : gmap string (option Boundary))
  (x : list (nat * nat)) (d : Domain) : outcome :=
  match x with
  | [] => Normal d
  | (vol_id, edge_id) :: x' =>
      match boundary d !! (vol_id, edge_id) with
      | None => Raised (KeyErrorEdge vol_id edge_id) d
      | Some tag =>
          match bm !! tag with
          | Some (Some B) =>
              let objs := current_objects d ++ [((vol_id, edge_id), Some B)] in
              let d1 := upd_boundary_objects (Some objs) d in
              query d1 (setitem2 (neighbours d1) vol_id edge_id
                          (- Z.of_nat (length objs)))
                (fun nb => bind_boundary_edges bm x' (upd_neighbours nb d1))
          | Some None => bind_boundary_edges bm x' d
          | None => Raised (TagNotBound tag (get_boundary_tags d)) d
          end
      end
  end.

Definition set_boundary `{External} (new : gmap string (option Boundary))
  (d : Domain) : outcome :=
  let d1 := store_boundary_map new d in
  let x := sorted_boundary_keys d1 in
  let d2 := upd_boundary_objects (Some []) d1 in
  bind_boundary_edges (default ∅ (boundary_map d2)) x d2.

(** ** Boundary-value update *)

(** The base-class method [conserved_values_to_evolved_values]:
    [q_evol[:] = q_cons] when the lengths agree. *)
Definition conserved_values_to_evolved_values_default
  (q_cons q_evol : list Q) : result (list Q) :=
  if decide (length q_cons = length q_evol) then Ok q_cons
  else Error ConservedToEvolvedNotOverridden.

(** The method as [self] dispatches it. *)
Definition conserved_values_to_evolved_values `{External}
  (q_cons q_evol : list Q) : result (list Q) :=
  match conserved_values_to_evolved_values_override with
  | Some f => f q_cons q_evol
  | None => conserved_values_to_evolved_values_default q_cons q_evol
  end.

(** [for j, name in enumerate(self.evolved_quantities):
       Q.boundary_values[i] = q_evol[j]], from position [j] on. *)
Fixpoint write_boundary_values (i : nat) (q_evol : list Q) (j : nat)
  (names : list string) (d : Domain) : outcome :=
  match names with
  | [] => Normal d
  | name :: names' =>
      query d (get_quantity d name) (fun Qn =>
      query d (getitem q_evol j) (fun x =>
      query d (setitem (boundary_values Qn) i x) (fun bv =>
        write_boundary_values i q_evol (S j) names'
          (upd_quantities
             (<[name := upd_boundary_values bv Qn]> (quantities d)) d))))
  end.

(** The body of the loop of [update_boundary] for slot [i]. *)
Definition update_boundary_entry `{External} (i : nat)
  (entry : (nat * nat) * option Boundary) (d : Domain) : outcome :=
  let '((vol_id, edge_id), B) := entry in
  match B with
  | None => Normal (upd_log (log d ++ [LogIgnoredBoundary]) d)
  | Some B =>
      let q_bdry := evaluate B (time d) (quantities d) vol_id edge_id in
      if decide (length q_bdry = length (evolved_quantities d)) then
        write_boundary_values i q_bdry 0 (evolved_quantities d) d
      else if decide (length q_bdry = length (conserved_quantities d)) then
        query d (get_evolved_quantities d vol_id None (Some edge_id))
          (fun q_evol =>
        query d (conserved_values_to_evolved_values q_bdry q_evol)
          (fun q_evol' =>
             write_boundary_values i q_evol' 0 (evolved_quantities d) d))
      else Raised BoundaryWrongLength d
  end.

Fixpoint update_boundary_from `{External} (i : nat)
  (objs : list ((nat * nat) * option Boundary)) (d : Domain) : outcome :=
  match objs with
  | [] => Normal d
  | entry :: objs' =>
      d1 <- update_boundary_entry i entry d ;;;
      update_boundary_from (S i) objs' d1
  end.

Definition update_boundary `{External} (d : Domain) : outcome :=
  let d := enter update_boundary_ d in
  match boundary_objects d with
  | None => Raised (AttributeError "boundary_objects") d
  | Some objs => update_boundary_from 0 objs d
  end.

(** ** Ghosts, fluxes, forcing terms and centroid updates *)

(** [num.take(a, ids, axis=0)] *)
Definition num_take (a : list Q) (ids : list nat) : result (list Q) :=
  rmap (getitem a) ids.

(** [num.put(a, ids, vals)]: [a[ids[k]] = vals[k % len(vals)]] from position
    [k] on; nothing is written when [vals] is empty. *)
Fixpoint num_put (a : list Q) (ids : list nat) (vals : list Q) (k : nat)
  : result (list Q) :=
  match ids with
  | [] => Ok a
  | i :: ids' =>
      match vals !! (k mod length vals)%nat with
      | Some v => a' <~ setitem a i v ;; num_put a' ids' vals (S k)
      | None => Ok a
      end
  end.

(** Apply [f] to the quantity object of each name in turn, in place. *)
Fixpoint for_each_quantity (f : Quantity -> result Quantity)
  (names : list string) (d : Domain) : outcome :=
  match names with
  | [] => Normal d
  | name :: names' =>
      query d (get_quantity d name) (fun Qn =>
      query d (f Qn) (fun Qn' =>
        for_each_quantity f names'
          (upd_quantities (<[name := Qn']> (quantities d)) d)))
  end.

Definition update_ghosts (d : Domain) : outcome :=
  let d := enter update_ghosts_ d in
  let iproc := processor d in
  match full_send_dict d !! iproc with
  | None => Normal d
  | Some Idf =>
      match ghost_recv_dict d !! iproc with
      | None => Raised (KeyError "ghost_recv_dict") d
      | Some Idg =>
          for_each_quantity
            (fun Qn =>
               vals <~ num_take (centroid_values Qn) Idf ;;
               cv <~ num_put (centroid_values Qn) Idg vals 0 ;;
               Ok (upd_centroid_values cv Qn))
            (conserved_quantities d) d
      end
  end.

(** Modelled from the spec: [Quantity.backup_centroid_values()], whose code is
    in quantity.py; the spec has it keep a copy [S] of the centroid values
    for the later SAXPY. *)
Definition Quantity_backup_centroid_values (Qn : Quantity) : Quantity :=
  upd_centroid_backup_values (centroid_values Qn) Qn.

(** Modelled from the spec: [Quantity.saxpy_centroid_values(a, b)], whose code
    is in quantity.py; the spec gives [centroid <- a*centroid + b*backup]. *)
Definition Quantity_saxpy_centroid_values (a b : Q) (Qn : Quantity)
  : Quantity :=
  upd_centroid_values
    (zip_with (fun c s => (a * c + b * s)%Q)
       (centroid_values Qn) (centroid_backup_values Qn)) Qn.

Definition backup_conserved_quantities (d : Domain) : outcome :=
  let d := enter backup_conserved_quantities_ d in
  for_each_quantity (fun Qn => Ok (Quantity_backup_centroid_values Qn))
    (conserved_quantities d) d.

Definition saxpy_conserved_quantities (a b : Q) (d : Domain) : outcome :=
  let d := enter (saxpy_conserved_quantities_ a b) d in
  for_each_quantity (fun Qn => Ok (Quantity_saxpy_centroid_values a b Qn))
    (conserved_quantities d) d.

(** Write what a flux kernel or forcing term produced into the domain. *)
Definition apply_updates (u : Updates) (d : Domain) : Domain :=
  let write name Qn :=
    let Qn1 := match new_explicit_update u !! name with
               | Some eu => upd_explicit_update eu Qn
               | None => Qn
               end in
    match new_semi_implicit_update u !! name with
    | Some su => upd_semi_implicit_update su Qn1
    | None => Qn1
    end in
  upd_max_speed (new_max_speed u)
    (upd_flux_timestep (new_flux_timestep u)
       (upd_quantities (map_imap (fun name Qn => Some (write name Qn))
                          (quantities d)) d)).

Definition compute_fluxes `{External} (d : Domain) : outcome :=
  let d := enter compute_fluxes_ d in
  match compute_fluxes_override with
  | None => Raised ComputeFluxesNotOverridden d
  | Some kernel => query d (kernel d) (fun u => Normal (apply_updates u d))
  end.

Definition compute_forcing_terms (d : Domain) : outcome :=
  let d := enter compute_forcing_terms_ d in
  Normal (foldl (fun d (f : ForcingTerm) =>
                   apply_updates
                     (f (time d) (quantities d) (flux_timestep d) (max_speed d))
                     d)
                d (forcing_terms d)).

Definition update_conserved_quantities `{External} (d : Domain) : outcome :=
  let d := enter update_conserved_quantities_ d in
  let timestep := timestep d in
  for_each_quantity
    (fun Qn =>
       let '(cv, su) := Quantity_update timestep Qn in
       Ok (upd_semi_implicit_update su (upd_centroid_values cv Qn)))
    (conserved_quantities d) d.

Definition distribute_to_vertices_and_edges `{External} (d : Domain)
  : outcome :=
  let d := enter distribute_to_vertices_and_edges_ d in
  for_each_quantity
    (fun Qn =>
       if decide (_order_ d = 1) then
         let '(vv, ev) := Quantity_extrapolate_first_order Qn in
         Ok (upd_edge_values ev (upd_vertex_values vv Qn))
       else if decide (_order_ d = 2) then
         let '(vv, ev) := Quantity_extrapolate_second_order Qn in
         Ok (upd_edge_values ev (upd_vertex_values vv Qn))
       else Error UnknownOrder)
    (conserved_quantities d) d.

(** ** Extrema monitoring *)

Definition update_info_block `{External} (t : Q) (Qn : Quantity)
  (indices : option (list nat)) (info : InfoBlock) : InfoBlock :=
  let maxval := Quantity_get_maximum_value Qn indices in
  let info1 :=
    if match info_max info with
       | None => true
       | Some m => Qltb (m + single_precision) maxval
       end
    then mkInfoBlock (info_min info) (Some maxval) (info_min_location info)
           (Some (Quantity_get_maximum_location Qn)) (info_min_time info)
           (Some t)
    else info in
  let minval := Quantity_get_minimum_value Qn indices in
  if match info_min info1 with
     | None => true
     | Some m => Qltb minval (m - single_precision)
     end
  then mkInfoBlock (Some minval) (info_max info1)
         (Some (Quantity_get_minimum_location Qn)) (info_max_location info1)
         (Some t) (info_max_time info1)
  else info1.

Definition update_extrema `{External} (d : Domain) : outcome :=
  let d := enter update_extrema_ d in
  match quantities_to_be_monitored d with
  | None => Normal d
  | Some monitored =>
      if match monitor_time_interval d with
         | Some (t0, t1) => Qltb (time d) t0 || Qltb t1 (time d)
         | None => false
         end
      then Normal d
      else
        foldr (fun '(quantity_name, info) o =>
                 d <- o ;;;
                 query d (match quantities d !! quantity_name with
                          | Some Qn => Ok Qn
                          | None => apply_expression_to_dictionary
                                      quantity_name (quantities d)
                          end)
                   (fun Qn =>
                      let info' := update_info_block (time d) Qn
                                     (monitor_indices d) info in
                      Normal (upd_quantities_to_be_monitored
                                (Some (<[quantity_name := info']>
                                         (default ∅
                                            (quantities_to_be_monitored d))))
                                d)))
              (Normal d) (map_to_list monitored)
  end.

(** ** Protection against isolated degenerate timesteps *)

(** [num.max(a)] and [num.min(a)]; an empty array raises [ValueError]. *)
Definition num_max (a : list Q) : result Q :=
  match a with
  | [] => Error ValueError
  | x :: a' => Ok (foldl Qmax x a')
  end.

Definition num_min (a : list Q) : result Q :=
  match a with
  | [] => Error ValueError
  | x :: a' => Ok (foldl Qmin x a')
  end.

(** Modelled from the spec: [numerical_tools.create_bins(data, 10)], whose
    code is in anuga/utilities; the spec builds a 10-bin histogram that may
    degenerate to a single bin.  The bins are given by their lower edges,
    evenly spaced from the minimum to the maximum of the data; constant data
    gives one bin. *)
Definition create_bins (data : list Q) (number_of_bins : nat)
  : result (list Q) :=
  mx <~ num_max data ;;
  mn <~ num_min data ;;
  if Qeq_bool mx mn then Ok [mn]
  else
    let width := ((mx - mn) / inject_Z (Z.of_nat number_of_bins))%Q in
    Ok (map (fun i => (mn + inject_Z (Z.of_nat i) * width)%Q)
          (seq 0 number_of_bins)).

(** Modelled from the spec: [numerical_tools.histogram(a, bins)], whose code
    is in anuga/utilities: entry [i] counts the data in bin [i], from its
    lower edge up to the lower edge of the next bin; the last bin has no
    upper edge. *)
Definition histogram (a : list Q) (bins : list Q) : list Z :=
  imap (fun i lo =>
          Z.of_nat (length (List.filter
            (fun x => Qle_bool lo x &&
                      match bins !! S i with
                      | Some hi => Qltb x hi
                      | None => true
                      end) a)))
       bins.

(** [len(hist) > 1 and hist[-1] > 0 and
     hist[4] == hist[5] == hist[6] == hist[7] == hist[8] == 0] *)
Definition characteristic_signature (hist : list Z) : result bool :=
  if decide (1 < length hist)%nat then
    h_last <~ getitem hist (length hist - 1) ;;
    if decide (0 < h_last) then
      h4 <~ getitem hist 4 ;;
      h5 <~ getitem hist 5 ;;
      if decide (h4 = h5) then
        h6 <~ getitem hist 6 ;;
        if decide (h5 = h6) then
          h7 <~ getitem hist 7 ;;
          if decide (h6 = h7) then
            h8 <~ getitem hist 8 ;;
            if decide (h7 = h8) then Ok (bool_decide (h8 = 0))
            else Ok false
          else Ok false
        else Ok false
      else Ok false
    else Ok false
  else Ok false.

(** Modelled from the spec: [Quantity.set_values(0.0, indices=[i])], whose
    code is in quantity.py; the spec has it set the component to zero at
    that cell: its vertex, centroid and edge values. *)
Definition Quantity_set_values_zero (i : nat) (Qn : Quantity)
  : result Quantity :=
  vv <~ setitem (vertex_values Qn) i [0; 0; 0]%Q ;;
  cv <~ setitem (centroid_values Qn) i 0%Q ;;
  ev <~ setitem (edge_values Qn) i [0; 0; 0]%Q ;;
  Ok (upd_edge_values ev (upd_centroid_values cv (upd_vertex_values vv Qn))).

(** [self.get_quantity(name).set_values(0.0, indices=[i])] *)
Definition zero_quantity_at (name : string) (i : nat) (d : Domain) : outcome :=
  query d (get_quantity d name) (fun Qn =>
  query d (Quantity_set_values_zero i Qn) (fun Qn' =>
    Normal (upd_quantities (<[name := Qn']> (quantities d)) d))).

(** The loop [for i in range(self.number_of_full_triangles)] over the
    triangles [ids]; [bins_last] is [bins[-1]]. *)
Fixpoint ignore_isolated_triangles (bins_last : Q) (ids : list nat)
  (d : Domain) : outcome :=
  match ids with
  | [] => Normal d
  | i :: ids' =>
      query d (getitem (max_speed d) i) (fun speed =>
        if Qltb bins_last speed then
          d <- zero_quantity_at "xmomentum" i d ;;;
          d <- zero_quantity_at "ymomentum" i d ;;;
          query d (setitem (max_speed d) i 0%Q) (fun ms =>
            ignore_isolated_triangles bins_last ids' (upd_max_speed ms d))
        else ignore_isolated_triangles bins_last ids' d)
  end.

Definition apply_protection_against_isolated_degenerate_timesteps
  (d : Domain) : outcome :=
  if negb (protect_against_isolated_degenerate_timesteps d) then Normal d
  else
    query d (num_max (max_speed d)) (fun top =>
      if Qltb top 10 then Normal d
      else
        query d (create_bins (max_speed d) 10) (fun bins =>
          let hist := histogram (max_speed d) bins in
          query d (characteristic_signature hist) (fun danger =>
            if danger then
              query d (getitem bins (length bins - 1)) (fun bins_last =>
                ignore_isolated_triangles bins_last
                  (seq 0 (number_of_full_triangles d)) d)
            else Normal d))).

(** ** Timestep controller *)

(** The block "Protect against degenerate time steps" of [update_timestep].
    Returns the local variable [timestep] as the block leaves it, next to
    the outcome. *)
Definition small_step_protection `{External} (timestep : Q) (d : Domain)
  : Q * outcome :=
  if Qltb timestep (evolve_min_timestep d) then
    let d := upd_smallsteps (smallsteps d + 1) d in
    if decide (smallsteps d > max_smallsteps d) then
      let d := upd_smallsteps 0 d in
      if decide (_order_ d = 1) then
        let d := upd_log (log d ++ [LogTooSmallTimestep timestep
                                      (max_smallsteps d)]) d in
        let timestep' := evolve_min_timestep d in
        let stats := timestepping_statistics d true in
        let d := upd_log (log d ++ [LogStatistics stats]) d in
        (timestep', Raised (TooSmallTimestep timestep (max_smallsteps d)) d)
      else (timestep, Normal (upd_order 1 d))
    else (timestep, Normal d)
  else
    let d := upd_smallsteps 0 d in
    if decide (_order_ d = 1 ∧ default_order d = 2) then
      (timestep, Normal (upd_order 2 d))
    else (timestep, Normal d).

(** The CFL-limited timestep, [min(self.CFL*self.flux_timestep,
    self.evolve_max_timestep)]. *)
Definition cfl_timestep (d : Domain) : Q :=
  py_min (CFL d * flux_timestep d) (evolve_max_timestep d).

(** The two final clamps of [update_timestep]. *)
Definition fit_to_finaltime (finaltime : option Q) (timestep : Q)
  (d : Domain) : Q :=
  match finaltime with
  | Some ft => if Qltb ft (time d + timestep) then (ft - time d)%Q
               else timestep
  | None => timestep
  end.

Definition fit_to_yieldtime (timestep : Q) (d : Domain) : Q :=
  if Qltb (yieldtime d) (time d + timestep) then (yieldtime d - time d)%Q
  else timestep.

Definition update_timestep `{External} (yieldstep : Q) (finaltime : option Q)
  (d : Domain) : outcome :=
  d <- apply_protection_against_isolated_degenerate_timesteps
         (enter update_timestep_ d) ;;;
  let timestep := cfl_timestep d in
  let d := upd_recorded_max_timestep
             (py_max timestep (recorded_max_timestep d)) d in
  let d := upd_recorded_min_timestep
             (py_min timestep (recorded_min_timestep d)) d in
  let '(timestep, o) := small_step_protection timestep d in
  d <- o ;;;
  let timestep := fit_to_finaltime finaltime timestep d in
  let timestep := fit_to_yieldtime timestep d in
  Normal (upd_timestep timestep d).

(** ** Evolution schemes *)

Definition evolve_one_euler_step `{External} (yieldstep : Q)
  (finaltime : option Q) (d : Domain) : outcome :=
  d <- compute_fluxes d ;;;
  d <- compute_forcing_terms d ;;;
  d <- update_timestep yieldstep finaltime d ;;;
  d <- update_conserved_quantities d ;;;
  d <- update_ghosts d ;;;
  let d := upd_time (time d + timestep d) d in
  d <- distribute_to_vertices_and_edges d ;;;
  update_boundary d.

Definition evolve_one_rk2_step `{External} (yieldstep : Q)
  (finaltime : option Q) (d : Domain) : outcome :=
  d <- backup_conserved_quantities d ;;;
  (* First euler step *)
  d <- compute_fluxes d ;;;
  d <- compute_forcing_terms d ;;;
  d <- update_timestep yieldstep finaltime d ;;;
  d <- update_conserved_quantities d ;;;
  d <- update_ghosts d ;;;
  let d := upd_time (time d + timestep d) d in
  d <- distribute_to_vertices_and_edges d ;;;
  d <- update_boundary d ;;;
  (* Second Euler step using the same timestep *)
  d <- compute_fluxes d ;;;
  d <- compute_forcing_terms d ;;;
  d <- update_conserved_quantities d ;;;
  (* Combine initial and final values *)
  d <- saxpy_conserved_quantities (1 # 2) (1 # 2) d ;;;
  d <- update_ghosts d ;;;
  d <- distribute_to_vertices_and_edges d ;;;
  update_boundary d.

Definition evolve_one_rk3_step `{External} (yieldstep : Q)
  (finaltime : option Q) (d : Domain) : outcome :=
  d <- backup_conserved_quantities d ;;;
  let initial_time := time d in
  (* First euler step *)
  d <- compute_fluxes d ;;;
  d <- compute_forcing_terms d ;;;
  d <- update_timestep yieldstep finaltime d ;;;
  d <- update_conserved_quantities d ;;;
  d <- update_ghosts d ;;;
  let d := upd_time (time d + timestep d) d in
  d <- distribute_to_vertices_and_edges d ;;;
  d <- update_boundary d ;;;
  (* Second Euler step using the same timestep *)
  d <- compute_fluxes d ;;;
  d <- compute_forcing_terms d ;;;
  d <- update_conserved_quantities d ;;;
  (* Combine steps to obtain intermediate solution at time t^n + 0.5 h *)
  d <- saxpy_conserved_quantities (1 # 4) (3 # 4) d ;;;
  d <- update_ghosts d ;;;
  let d := upd_time (initial_time + timestep d * (1 # 2)) d in
  d <- distribute_to_vertices_and_edges d ;;;
  d <- update_boundary d ;;;
  (* Third Euler step *)
  d <- compute_fluxes d ;;;
  d <- compute_forcing_terms d ;;;
  d <- update_conserved_quantities d ;;;
  (* Combine final and initial values *)
  d <- saxpy_conserved_quantities (2 # 3) (1 # 3) d ;;;
  d <- update_ghosts d ;;;
  let d := upd_time (initial_time + timestep d) d in
  d <- distribute_to_vertices_and_edges d ;;;
  update_boundary d.

(** ** The evolve generator *)

(** The [if / elif / elif] on the timestepping method at the top of the
    loop; any other method name runs no step. *)
Definition evolve_one_step `{External} (yieldstep : Q) (finaltime : option Q)
  (d : Domain) : outcome :=
  if decide (get_timestepping_method d = "euler") then
    evolve_one_euler_step yieldstep finaltime d
  else if decide (get_timestepping_method d = "rk2") then
    evolve_one_rk2_step yieldstep finaltime d
  else if decide (get_timestepping_method d = "rk3") then
    evolve_one_rk3_step yieldstep finaltime d
  else Normal d.

(** [self.number_of_steps += 1] and the first-order counter *)
Definition count_step (d : Domain) : Domain :=
  let d := upd_number_of_steps (number_of_steps d + 1) d in
  if decide (_order_ d = 1) then
    upd_number_of_first_order_steps (number_of_first_order_steps d + 1) d
  else d.

(** How one pass through the body of [while True] ends. *)
Inductive iteration : Type :=
  | FinalYield (d : Domain)   (* yield(self.time); break *)
  | Yield (d : Domain)        (* yield(self.time), the loop goes on *)
  | Continue (d : Domain)     (* no yield *)
  | Abort (e : exn) (d : Domain).

Definition evolve_iteration `{External} (yieldstep : Q)
  (finaltime : option Q) (d : Domain) : iteration :=
  match (d <- evolve_one_step yieldstep finaltime d ;;;
         d <- update_extrema d ;;;
         Normal (count_step d)) with
  | Raised e d => Abort e d
  | Normal d =>
      let at_yieldtime :=
        if negb (Qltb (time d) (yieldtime d)) then
          match (if checkpoint d then
                   d <- store_checkpoint d ;;; delete_old_checkpoints d
                 else Normal d) with
          | Raised e d => Abort e d
          | Normal d => Yield d
          end
        else Continue d in
      match finaltime with
      | Some ft =>
          if negb (Qltb (time d) (ft - epsilon)) then
            if Qltb ft (time d) then Abort TimeOvershotFinaltime d
            else FinalYield (upd_time ft d)
          else at_yieldtime
      | None => at_yieldtime
      end
  end.

(** The statements after an intermediate [yield], run when the caller asks
    for the next value. *)
Definition reinitialise (yieldstep : Q) (d : Domain) : Domain :=
  let d := upd_yieldtime (yieldtime d + yieldstep) d in
  let d := upd_recorded_min_timestep (evolve_max_timestep d) d in
  let d := upd_recorded_max_timestep (evolve_min_timestep d) d in
  let d := upd_number_of_steps 0 d in
  let d := upd_number_of_first_order_steps 0 d in
  upd_max_speed (zeros (number_of_triangles d)) d.

(** How a run of the generator stands after a bounded number of passes. *)
Inductive status : Type :=
  | Finished                (* the generator returned *)
  | Failed (e : exn)        (* the generator raised *)
  | Running.                (* still inside [while True] *)

Record run : Type := mkRun {
  yields : list Q;
  ending : status;
  domain_after : Domain
}.

Definition yield_first (t : Q) (r : run) : run :=
  mkRun (t :: yields r) (ending r) (domain_after r).

(** [fuel] passes through the body of [while True], with a caller that
    consumes the yielded times and leaves the domain alone. *)
Fixpoint evolve_loop `{External} (fuel : nat) (yieldstep : Q)
  (finaltime : option Q) (d : Domain) : run :=
  match fuel with
  | O => mkRun [] Running d
  | S fuel' =>
      match evolve_iteration yieldstep finaltime d with
      | Abort e d' => mkRun [] (Failed e) d'
      | FinalYield d' => mkRun [time d'] Finished d'
      | Yield d' =>
          yield_first (time d')
            (evolve_loop fuel' yieldstep finaltime (reinitialise yieldstep d'))
      | Continue d' => evolve_loop fuel' yieldstep finaltime d'
      end
  end.

(** The statements of [evolve] before its first [yield]. *)
Definition evolve_prologue `{External} (yieldstep : Q)
  (finaltime duration : option Q) (d : Domain) : outcome :=
  match boundary_objects d with
  | None =>
      Raised (AssertionError
        "Boundary tags must be bound to boundary objects before evolving system")
        d
  | Some _ =>
      let d := upd_order (default_order d) d in
      if is_Some_b finaltime && is_Some_b duration then
        Raised OnlyOneOfFinaltimeAndDuration d
      else
        let d := match finaltime with
                 | Some ft => upd_finaltime (Some ft) d
                 | None => d
                 end in
        let d := match duration with
                 | Some du => upd_finaltime (Some (starttime d + du)%Q) d
                 | None => d
                 end in
        let d := upd_yieldtime (time d + yieldstep) d in
        let d := upd_recorded_min_timestep (evolve_max_timestep d) d in
        let d := upd_recorded_max_timestep (evolve_min_timestep d) d in
        let d := upd_number_of_steps 0 d in
        let d := upd_number_of_first_order_steps 0 d in
        d <- update_ghosts d ;;;
        d <- distribute_to_vertices_and_edges d ;;;
        d <- update_extrema d ;;;
        d <- update_boundary d ;;;
        if checkpoint d then goto_latest_checkpoint d else Normal d
  end.

(** [evolve(yieldstep, finaltime, duration, skip_initial_step)], run for at
    most [fuel] passes of its loop. *)
Definition evolve `{External} (fuel : nat) (yieldstep finaltime
  duration : option Q) (skip_initial_step : bool) (d : Domain) : run :=
  let yieldstep := default (evolve_max_timestep d) yieldstep in
  match evolve_prologue yieldstep finaltime duration d with
  | Raised e d => mkRun [] (Failed e) d
  | Normal d =>
      if skip_initial_step then evolve_loop fuel yieldstep finaltime d
      else yield_first (time d) (evolve_loop fuel yieldstep finaltime d)
  end.

(** ** Views of the domain used in the statements *)

(** The attributes that no quantity-level operation, flux kernel or forcing
    term writes. *)
Definition controls (d : Domain) :=
  (time d, yieldtime d, timestep d, checkpoint d, _order_ d, default_order d,
   smallsteps d, max_smallsteps d, CFL d, evolve_min_timestep d,
   evolve_max_timestep d, recorded_min_timestep d, recorded_max_timestep d,
   timestepping_method d, starttime d, finaltime d, number_of_steps d,
   number_of_first_order_steps d, conserved_quantities d,
   evolved_quantities d, boundary_objects d, forcing_terms d, processor d,
   full_send_dict d, ghost_recv_dict d, number_of_triangles d,
   number_of_full_triangles d,
   protect_against_isolated_degenerate_timesteps d).

(** The flux timestep, the log and the call trace. *)
Definition journal (d : Domain) := (flux_timestep d, log d, calls d).

(** The domain [update_timestep] works on once the isolated-triangle
    protection returned [d0]: the recorded extremes take in the CFL-limited
    timestep. *)
Definition with_recorded_timestep (d0 : Domain) : Domain :=
  let timestep := cfl_timestep d0 in
  let d := upd_recorded_max_timestep
             (py_max timestep (recorded_max_timestep d0)) d0 in
  upd_recorded_min_timestep (py_min timestep (recorded_min_timestep d)) d.

(** The attributes that [update_timestep] leaves alone as well. *)
Definition schedule (d : Domain) :=
  (time d, yieldtime d, checkpoint d, default_order d, max_smallsteps d,
   CFL d, evolve_min_timestep d, evolve_max_timestep d,
   timestepping_method d, starttime d, finaltime d, number_of_steps d,
   number_of_first_order_steps d, conserved_quantities d,
   evolved_quantities d, boundary_objects d, forcing_terms d, processor d,
   full_send_dict d, ghost_recv_dict d, number_of_triangles d,
   number_of_full_triangles d,
   protect_against_isolated_degenerate_timesteps d).

(** [min(timestep, finaltime - time, yieldtime - time)], the final time
    taking part only when it is set. *)
Definition clamped_timestep (timestep : Q) (finaltime : option Q)
  (d : Domain) : Q :=
  match finaltime with
  | Some ft => Qmin (Qmin timestep (ft - time d)) (yieldtime d - time d)
  | None => Qmin timestep (yieldtime d - time d)
  end.

(** The map [self.boundary_map] holds after [set_boundary(new)]: the new
    bindings laid over the stored ones. *)
Definition accumulated_boundary_map (new : gmap string (option Boundary))
  (d : Domain) : gmap string (option Boundary) :=
  match boundary_map d with
  | None => new
  | Some old => new ∪ old
  end.

(** [key] is a valid index pair of the array [a]. *)
Definition in_range (a : list (list Z)) (key : nat * nat) : Prop :=
  exists row, a !! key.1 = Some row /\ (key.2 < length row)%nat.

(** Every entry of [objs] is pointed at by its edge:
    [neighbours[vol_id, edge_id] == -(i+1)] for the entry at position [i]. *)
Definition slots_encoded (a : list (list Z))
  (objs : list ((nat * nat) * option Boundary)) : Prop :=
  forall i vol_id edge_id B,
    objs !! i = Some ((vol_id, edge_id), B) ->
    getitem2 a vol_id edge_id = Ok (- (Z.of_nat i + 1)).

(** A quantity-level operation [c] took the domain from [d] to [d']: the
    controls are untouched and the call is the one entry added to the
    trace. *)
Definition traced (c : Call) (d d' : Domain) : Prop :=
  controls d' = controls d /\ calls d' = calls d ++ [(c, time d)].

(** Slot [i] of the boundary values of every evolved quantity of [d] holds
    the matching entry of [q] in [d']; nothing else of the quantity
    changed. *)
Definition written (i : nat) (q : list Q) (d d' : Domain) : Prop :=
  forall j name, evolved_quantities d !! j = Some name ->
    exists Qn x, quantities d !! name = Some Qn /\ q !! j = Some x /\
      quantities d' !! name
      = Some (upd_boundary_values (<[i := x]> (boundary_values Qn)) Qn).

(** [Quantity_set_values_zero] inside the arrays: the three values of cell
    [i] set to zero. *)
Definition zero_cell (Qn : Quantity) (i : nat) : Quantity :=
  upd_edge_values (<[i := [0; 0; 0]%Q]> (edge_values Qn))
    (upd_centroid_values (<[i := 0%Q]> (centroid_values Qn))
       (upd_vertex_values (<[i := [0; 0; 0]%Q]> (vertex_values Qn)) Qn)).

(** The triangles of [ids] whose maximal speed exceeds [bins_last]. *)
Definition isolated_triangles (bins_last : Q) (speeds : list Q)
  (ids : list nat) : list nat :=
  List.filter (fun i => match speeds !! i with
                        | Some speed => Qltb bins_last speed
                        | None => false
                        end) ids.

(** The arrays of the quantity [Qn] cover the cells [ids]. *)
Definition covers (Qn : Quantity) (ids : list nat) : Prop :=
  forall i, i ∈ ids ->
    (i < length (vertex_values Qn))%nat /\
    (i < length (centroid_values Qn))%nat /\
    (i < length (edge_values Qn))%nat.

(** The three values of cell [i] of [Qn] are zero. *)
Definition cell_is_zero (Qn : Quantity) (i : nat) : Prop :=
  vertex_values Qn !! i = Some [0; 0; 0]%Q /\
  centroid_values Qn !! i = Some 0%Q /\
  edge_values Qn !! i = Some [0; 0; 0]%Q.

(** The signature [apply_protection_against_isolated_degenerate_timesteps]
    looks for in the histogram: more than one bin, the last bin not empty,
    bins 4 to 8 empty. *)
Definition signature_holds (hist : list Z) : Prop :=
  (1 < length hist)%nat /\
  (exists h, hist !! (length hist - 1)%nat = Some h /\ 0 < h) /\
  hist !! 4%nat = Some 0 /\ hist !! 5%nat = Some 0 /\
  hist !! 6%nat = Some 0 /\ hist !! 7%nat = Some 0 /\
  hist !! 8%nat = Some 0.

(** Cell [i] has the same three values in [Qn'] as in [Qn]. *)
Definition same_cell (Qn Qn' : Quantity) (i : nat) : Prop :=
  vertex_values Qn' !! i = vertex_values Qn !! i /\
  centroid_values Qn' !! i = centroid_values Qn !! i /\
  edge_values Qn' !! i = edge_values Qn !! i.

(** The yield time, the checkpoint flag and the list of conserved names. *)
Definition pace (d : Domain) := (yieldtime d, checkpoint d, conserved_quantities d).

(** The backup copies [S] of the centroid values, by quantity name. *)
Definition backups (d : Domain) : gmap string (list Q) :=
  centroid_backup_values <$> quantities d.

(** [a*Q + b*S] on arrays of centroid values. *)
Definition saxpy (a b : Q) (q s : list Q) : list Q :=
  zip_with (fun c s => (a * c + b * s)%Q) q s.

(** The calls of one RK3 step started at time [t0] with timestep [Dt], up
    to the second [update_conserved_quantities]. *)
Definition rk3_calls_to_Q2 (t0 Dt : Q) : list (Call * Q) :=
  [ (backup_conserved_quantities_, t0);
    (compute_fluxes_, t0);
    (compute_forcing_terms_, t0);
    (update_timestep_, t0);
    (update_conserved_quantities_, t0);
    (update_ghosts_, t0);
    (distribute_to_vertices_and_edges_, (t0 + Dt)%Q);
    (update_boundary_, (t0 + Dt)%Q);
    (compute_fluxes_, (t0 + Dt)%Q);
    (compute_forcing_terms_, (t0 + Dt)%Q);
    (update_conserved_quantities_, (t0 + Dt)%Q) ].

(** From the first combine to the third [update_conserved_quantities]. *)
Definition rk3_calls_to_Q3 (t0 Dt : Q) : list (Call * Q) :=
  [ (saxpy_conserved_quantities_ (1 # 4) (3 # 4), (t0 + Dt)%Q);
    (update_ghosts_, (t0 + Dt)%Q);
    (distribute_to_vertices_and_edges_, (t0 + Dt * (1 # 2))%Q);
    (update_boundary_, (t0 + Dt * (1 # 2))%Q);
    (compute_fluxes_, (t0 + Dt * (1 # 2))%Q);
    (compute_forcing_terms_, (t0 + Dt * (1 # 2))%Q);
    (update_conserved_quantities_, (t0 + Dt * (1 # 2))%Q) ].

(** From the second combine to the end of the step. *)
Definition rk3_calls_to_end (t0 Dt : Q) : list (Call * Q) :=
  [ (saxpy_conserved_quantities_ (2 # 3) (1 # 3), (t0 + Dt * (1 # 2))%Q);
    (update_ghosts_, (t0 + Dt * (1 # 2))%Q);
    (distribute_to_vertices_and_edges_, (t0 + Dt)%Q);
    (update_boundary_, (t0 + Dt)%Q) ].

(** The yield times of an evolve that starts at time [t0] with the yield
    step [ys]: [t0 + k*ys]. *)
Definition yield_point (t0 ys : Q) (k : nat) : Q :=
  (t0 + inject_Z (Z.of_nat k) * ys)%Q.

(** What the time yielded at an intermediate or final yield can be. *)
Definition aligned (t0 ys : Q) (finaltime : option Q) (y : Q) : Prop :=
  (exists k : nat, y == yield_point t0 ys k)%Q \/ finaltime = Some y.

(** The state of the loop of [evolve] between two passes. *)
Definition between_passes (t0 ys : Q) (d : Domain) : Prop :=
  checkpoint d = false /\
  (exists k : nat, yieldtime d == yield_point t0 ys k)%Q /\
  ((time d <= yieldtime d)%Q \/
   (exists k : nat, time d == yield_point t0 ys k)%Q).

(** ** Runs of evolve that reach the final time *)

(** The number of boundary slots of each quantity, by name. *)
Definition slots (d : Domain) : gmap string nat :=
  (fun Qn => length (boundary_values Qn)) <$> quantities d.

(** What the quantity-level operations leave alone besides the controls. *)
Definition layout (d : Domain) :=
  (slots d, quantities_to_be_monitored d, max_speed d).

(** The settings of a run. *)
Definition regime (d : Domain) :=
  (timestepping_method d, default_order d, forcing_terms d, full_send_dict d,
   processor d, checkpoint d, evolve_min_timestep d, evolve_max_timestep d,
   conserved_quantities d, evolved_quantities d, boundary_objects d,
   protect_against_isolated_degenerate_timesteps d, number_of_triangles d,
   CFL d).

(** The maximal speeds do not set off the protection against isolated
    degenerate timesteps. *)
Definition calm (protect : bool) (speeds : list Q) : Prop :=
  protect = false \/ exists top, num_max speeds = Ok top /\ (top < 10)%Q.

(** Every bound boundary object returns one value per evolved quantity, and
    every evolved quantity has a boundary slot for each boundary edge. *)
Definition boundary_fits (d : Domain) : Prop :=
  exists objs, boundary_objects d = Some objs /\
    forall i vol_id edge_id B,
      objs !! i = Some ((vol_id, edge_id), B) ->
      (forall B', B = Some B' -> forall t qs,
         length (evaluate B' t qs vol_id edge_id)
         = length (evolved_quantities d)) /\
      (forall name, name ∈ evolved_quantities d ->
         exists k, slots d !! name = Some k /\ (i < k)%nat).

(** A serial run of one of the three schemes without forcing terms,
    monitoring or checkpoints, whose quantities and boundary objects are all
    in place, whose timestep limits leave room for steps of [delta], and
    whose CFL number is [cfl]. *)
Definition steady (cfl delta : Q) (d : Domain) : Prop :=
  timestepping_method d ∈ methods /\
  (_order_ d = 1 \/ _order_ d = 2) /\
  (default_order d = 1 \/ default_order d = 2) /\
  forcing_terms d = [] /\
  full_send_dict d !! processor d = None /\
  quantities_to_be_monitored d = None /\
  checkpoint d = false /\
  (evolve_min_timestep d <= delta <= evolve_max_timestep d)%Q /\
  (forall name, name ∈ conserved_quantities d -> is_Some (slots d !! name)) /\
  boundary_fits d /\
  calm (protect_against_isolated_degenerate_timesteps d) (max_speed d) /\
  (protect_against_isolated_degenerate_timesteps d = false \/
   (0 < number_of_triangles d)%nat) /\
  CFL d = cfl.

(** A flux kernel that never fails on a steady domain, reports a
    CFL-limited timestep of at least [delta] and leaves calm speeds. *)
Definition steady_kernel (cfl delta : Q)
  (kernel : Domain -> result Updates) : Prop :=
  forall d, steady cfl delta d ->
    exists u, kernel d = Ok u /\
      (delta <= cfl * new_flux_timestep u)%Q /\
      calm (protect_against_isolated_degenerate_timesteps d) (new_max_speed u).

(** Passes of the loop of [evolve] that suffice to go from time [t] to the
    final time [ft] with steps of at least [delta] and yields every [ys]. *)
Definition passes (delta ys ft t : Q) : nat :=
  S (Z.to_nat (Qceiling ((ft - t) / delta))
     + Z.to_nat (Qceiling ((ft - t) / ys))).

(** ** Runs of evolve that end *)

(** The controls with the time blanked: what a timestepping scheme leaves
    alone outside [update_timestep], whatever it sets the time to. *)
Definition standing (d : Domain) := controls (upd_time 0 d).

(** The settings that decide how far a step goes and whether it counts as
    small; no step changes them. *)
Definition gait (d : Domain) :=
  (checkpoint d, max_smallsteps d, CFL d, evolve_min_timestep d,
   evolve_max_timestep d, timestepping_method d, forcing_terms d).

(** A flux kernel that reports no negative flux timestep. *)
Definition forward_kernel (kernel : Domain -> result Updates) : Prop :=
  forall d u, kernel d = Ok u -> (0 <= new_flux_timestep u)%Q.

(** Forcing terms that leave no negative flux timestep behind when they
    find none. *)
Definition forward_terms (terms : list ForcingTerm) : Prop :=
  Forall (fun f : ForcingTerm =>
            forall t qs dt ms, (0 <= dt)%Q ->
                               (0 <= new_flux_timestep (f t qs dt ms))%Q)
    terms.

(** The state of a run between two passes of the loop of [evolve] towards
    the final time [ft]: one of the three schemes, a positive minimal
    timestep, and a CFL-limited timestep that cannot be negative. *)
Definition marching (ft : Q) (d : Domain) : Prop :=
  checkpoint d = false /\
  timestepping_method d ∈ methods /\
  (0 < evolve_min_timestep d)%Q /\
  (0 <= CFL d)%Q /\ (0 <= evolve_max_timestep d)%Q /\
  forward_terms (forcing_terms d) /\
  (time d <= yieldtime d)%Q /\ (time d <= ft)%Q.

(** Small steps in a row that [update_timestep] still lets pass: up to
    [max_smallsteps] on the counter, once more after the fall back to
    order 1. *)
Definition patience (d : Domain) : nat :=
  Z.to_nat (max_smallsteps d - smallsteps d)
  + (if decide (_order_ d = 1) then 0%nat
     else S (Z.to_nat (max_smallsteps d))).

(** Steps of at least [evolve_min_timestep] that fit before the final time
    [ft], and yield points before it. *)
Definition strides (ys ft : Q) (d : Domain) : nat :=
  (Z.to_nat (Qceiling ((ft - time d) / evolve_min_timestep d))
   + Z.to_nat (Qceiling ((ft - yieldtime d) / ys)))%nat.

(** Passes of the loop the run can still make without finishing or
    raising. *)
Definition effort (ys ft : Q) (d : Domain) : nat :=
  (strides ys ft d * (2 * Z.to_nat (max_smallsteps d) + 2) + patience d)%nat.

(** Passes of the loop after which an [evolve(yieldstep=ys, finaltime=ft)]
    called on [d] has finished or raised. *)
Definition tries (ys ft : Q) (d : Domain) : nat :=
  S ((Z.to_nat (Qceiling ((ft - time d) / evolve_min_timestep d))
      + Z.to_nat (Qceiling ((ft - time d) / ys)))
     * (2 * Z.to_nat (max_smallsteps d) + 2)
     + Z.to_nat (max_smallsteps d - smallsteps d)
     + S (Z.to_nat (max_smallsteps d))).

(** ** Sample collaborators and domains *)

(** [Mesh.get_boundary_tags] for the samples: the tags of the boundary map. *)
Definition boundary_tags_of (d : Domain) : list string :=
  remove_dups ((map_to_list (boundary d)).*2).

(** Centroid update by the explicit update only. *)
Definition explicit_update_only (timestep : Q) (Qn : Quantity)
  : list Q * list Q :=
  (zip_with (fun c u => (c + timestep * u)%Q)
     (centroid_values Qn) (explicit_update Qn),
   semi_implicit_update Qn).

(** Piecewise constant reconstruction. *)
Definition constant_reconstruction (Qn : Quantity)
  : list (list Q) * list (list Q) :=
  (map (fun c => [c; c; c]) (centroid_values Qn),
   map (fun c => [c; c; c]) (centroid_values Qn)).

(** [Generic_Domain] itself: nothing overridden. *)
Definition Generic_Domain_class : External := {|
  epsilon := 1 # 1000000000000;
  single_precision := 1 # 1000000;
  Quantity_update := explicit_update_only;
  Quantity_extrapolate_first_order := constant_reconstruction;
  Quantity_extrapolate_second_order := constant_reconstruction;
  Quantity_get_maximum_value := fun Qn _ => foldr Qmax 0%Q (centroid_values Qn);
  Quantity_get_maximum_location := fun _ => (0%Q, 0%Q);
  Quantity_get_minimum_value := fun Qn _ => foldr Qmin 0%Q (centroid_values Qn);
  Quantity_get_minimum_location := fun _ => (0%Q, 0%Q);
  apply_expression_to_dictionary :=
    fun _ _ => Error (ExternalError "expression");
  compute_fluxes_override := None;
  conserved_values_to_evolved_values_override := None;
  timestepping_statistics := fun _ _ => "statistics"%string;
  get_boundary_tags := boundary_tags_of;
  goto_latest_checkpoint := Normal;
  store_checkpoint := Normal;
  delete_old_checkpoints := Normal
|}.

(** A subclass whose flux kernel leaves the water at rest and reports the
    flux timestep [dt]. *)
Definition rest_kernel (dt : Q) (d : Domain) : result Updates :=
  Ok (mkUpdates
        ((fun Qn => zeros (length (centroid_values Qn))) <$> quantities d)
        ∅ dt (max_speed d)).

Definition Rest_class (dt : Q) : External := {|
  epsilon := 1 # 1000000000000;
  single_precision := 1 # 1000000;
  Quantity_update := explicit_update_only;
  Quantity_extrapolate_first_order := constant_reconstruction;
  Quantity_extrapolate_second_order := constant_reconstruction;
  Quantity_get_maximum_value := fun Qn _ => foldr Qmax 0%Q (centroid_values Qn);
  Quantity_get_maximum_location := fun _ => (0%Q, 0%Q);
  Quantity_get_minimum_value := fun Qn _ => foldr Qmin 0%Q (centroid_values Qn);
  Quantity_get_minimum_location := fun _ => (0%Q, 0%Q);
  apply_expression_to_dictionary :=
    fun _ _ => Error (ExternalError "expression");
  compute_fluxes_override := Some (rest_kernel dt);
  conserved_values_to_evolved_values_override := None;
  timestepping_statistics := fun _ _ => "statistics"%string;
  get_boundary_tags := boundary_tags_of;
  goto_latest_checkpoint := Normal;
  store_checkpoint := Normal;
  delete_old_checkpoints := Normal
|}.

(** A quantity with the constant value [c] on [n] cells and [b] boundary
    slots. *)
Definition constant_quantity (n b : nat) (c : Q) : Quantity :=
  mkQuantity (replicate n c) (replicate n [c; c; c]) (replicate n [c; c; c])
    (replicate b 0%Q) (replicate n 0%Q) (replicate n 0%Q) (replicate n 0%Q).

(** A Dirichlet boundary returning the fixed vector [q]. *)
Definition Dirichlet_boundary (name : string) (q : list Q) : Boundary :=
  mkBoundary name (fun _ _ _ _ => q).

(** A pond of [n] triangles at rest: stage 10, no momentum; the three edges
    of triangle 0 are boundary edges, two tagged wall and one tagged open.
    Defaults as [__init__] sets them with the configuration values
    [CFL = 1], [max_timestep = 1000], [min_timestep = 1e-6],
    [max_smallsteps = 50], [default_order = 1], method 'euler'. *)
Definition pond (n : nat) : Domain := {|
  number_of_triangles := n;
  number_of_full_triangles := n;
  boundary := {[ (0, 0)%nat := "wall"; (0, 1)%nat := "open";
                 (0, 2)%nat := "wall" ]}%string;
  neighbours := replicate n [-1; -1; -1];
  conserved_quantities := ["stage"; "xmomentum"; "ymomentum"]%string;
  evolved_quantities := ["stage"; "xmomentum"; "ymomentum"]%string;
  quantities := {[ "stage" := constant_quantity n 3 10;
                   "xmomentum" := constant_quantity n 3 0;
                   "ymomentum" := constant_quantity n 3 0 ]}%string;
  forcing_terms := [];
  processor := 0%nat;
  full_send_dict := ∅;
  ghost_recv_dict := ∅;
  protect_against_isolated_degenerate_timesteps := true;
  default_order := 1;
  _order_ := 1;
  smallsteps := 0;
  max_smallsteps := 50;
  number_of_steps := 0;
  number_of_first_order_steps := 0;
  CFL := 1;
  timestepping_method := "euler";
  timetepping_method := None;
  evolve_max_timestep := 1000;
  evolve_min_timestep := 1 # 1000000;
  boundary_map := None;
  boundary_objects := None;
  time := 0;
  finaltime := None;
  recorded_min_timestep := 0;
  recorded_max_timestep := 0;
  starttime := 0;
  timestep := 0;
  flux_timestep := 0;
  yieldtime := 0;
  quantities_to_be_monitored := None;
  monitor_time_interval := None;
  monitor_indices := None;
  checkpoint := false;
  max_speed := zeros n;
  log := [];
  calls := []
|}.

(** The usual binding of the pond: a reflecting wall stood in for by a
    Dirichlet vector, and a fixed open boundary. *)
Definition pond_boundary_map : gmap string (option Boundary) :=
  {[ "wall" := Some (Dirichlet_boundary "wall" [10; 0; 0]%Q);
     "open" := Some (Dirichlet_boundary "open" [11; 0; 0]%Q) ]}%string.

(** The pond after [set_boundary(pond_boundary_map)]. *)
Definition bound_pond (n : nat) : Domain :=
  final (@set_boundary Generic_Domain_class pond_boundary_map (pond n)).

(** The bound pond in the middle of an evolve with yield time 1, its flux
    kernel having reported the flux timestep 1e-8. *)
Definition slow_pond : Domain :=
  upd_flux_timestep (1 # 100000000) (upd_yieldtime 1 (bound_pond 1)).

(** The slow pond with [default_order = 2] and [max_smallsteps = 3], at the
    given active order and count of small steps. *)
Definition stalled_pond (order small : Z) : Domain :=
  upd_smallsteps small
    (upd_order order (upd_default_order 2 (upd_max_smallsteps 3 slow_pond))).

(** A domain of three triangles that conserves a tracer only, as an
    advection domain does; the flux kernel has left the maximal speeds
    0, 0 and 100. *)
Definition tracer_domain : Domain := {|
  number_of_triangles := 3;
  number_of_full_triangles := 3;
  boundary := ∅;
  neighbours := replicate 3 [-1; -1; -1];
  conserved_quantities := ["stage"]%string;
  evolved_quantities := ["stage"]%string;
  quantities := {[ "stage"%string := constant_quantity 3 0 1 ]};
  forcing_terms := [];
  processor := 0%nat;
  full_send_dict := ∅;
  ghost_recv_dict := ∅;
  protect_against_isolated_degenerate_timesteps := true;
  default_order := 1;
  _order_ := 1;
  smallsteps := 0;
  max_smallsteps := 50;
  number_of_steps := 0;
  number_of_first_order_steps := 0;
  CFL := 1;
  timestepping_method := "euler";
  timetepping_method := None;
  evolve_max_timestep := 1000;
  evolve_min_timestep := 1 # 1000000;
  boundary_map := Some ∅;
  boundary_objects := Some [];
  time := 0;
  finaltime := None;
  recorded_min_timestep := 0;
  recorded_max_timestep := 0;
  starttime := 0;
  timestep := 0;
  flux_timestep := 0;
  yieldtime := 1;
  quantities_to_be_monitored := None;
  monitor_time_interval := None;
  monitor_indices := None;
  checkpoint := false;
  max_speed := [0; 0; 100]%Q;
  log := [];
  calls := []
|}.

(** The bound pond of three triangles with the maximal speeds 0, 0 and
    100. *)
Definition racing_pond : Domain := upd_max_speed [0; 0; 100]%Q (bound_pond 3).

(** The bound pond at the start of an evolve with yield time 1. *)
Definition ready_pond : Domain := upd_yieldtime 1 (bound_pond 1).

(** The bound pond with its relative model time set to 10, as after
    [set_time(10)]. *)
Definition pond_at_10 : Domain := set_time 10 (bound_pond 1).

(** The bound pond after [set_starttime(10)]: the relative model time is
    still 0. *)
Definition pond_started_at_10 : Domain := set_starttime 10 (bound_pond 1).

(** The pond at the relative model time 10 with a minimal timestep of 1:
    every step of a smaller flux timestep is a small one. *)
Definition patient_pond : Domain := set_evolve_min_timestep 1 pond_at_10.

(** The pond at the relative model time 10, evolved by the scheme
    [method]. *)
Definition pond_at_10_by (method : string) : Domain :=
  final (set_timestepping_method (PyStr method) pond_at_10).

(** ** Further methods of the domain *)

(** [evolve_to_end(finaltime)]: the generator
    [evolve(yieldstep=None, finaltime=finaltime)] driven through [fuel]
    passes of its loop, the yielded times dropped. *)
Definition evolve_to_end `{External} (fuel : nat) (finaltime : Q)
  (d : Domain) : status * Domain :=
  let r := evolve fuel None (Some finaltime) None false d in
  (ending r, domain_after r).

(** The configuration of a run: what is set up before [evolve] is called. *)
Definition configuration (d : Domain) :=
  (CFL d, evolve_min_timestep d, evolve_max_timestep d, default_order d,
   max_smallsteps d, timestepping_method d, starttime d,
   conserved_quantities d, evolved_quantities d, boundary_objects d,
   forcing_terms d, processor d, full_send_dict d, ghost_recv_dict d,
   number_of_triangles d, number_of_full_triangles d,
   protect_against_isolated_degenerate_timesteps d, checkpoint d).

(** The calls of one Euler step started at time [t0] with timestep [Dt]. *)
Definition euler_calls (t0 Dt : Q) : list (Call * Q) :=
  [ (compute_fluxes_, t0);
    (compute_forcing_terms_, t0);
    (update_timestep_, t0);
    (update_conserved_quantities_, t0);
    (update_ghosts_, t0);
    (distribute_to_vertices_and_edges_, (t0 + Dt)%Q);
    (update_boundary_, (t0 + Dt)%Q) ].

(** The calls of one RK2 step started at time [t0] with timestep [Dt], up to
    the second [update_conserved_quantities], and from the combine on. *)
Definition rk2_calls_to_Q2 (t0 Dt : Q) : list (Call * Q) :=
  (backup_conserved_quantities_, t0) :: euler_calls t0 Dt ++
  [ (compute_fluxes_, (t0 + Dt)%Q);
    (compute_forcing_terms_, (t0 + Dt)%Q);
    (update_conserved_quantities_, (t0 + Dt)%Q) ].

Definition rk2_calls_to_end (t0 Dt : Q) : list (Call * Q) :=
  [ (saxpy_conserved_quantities_ (1 # 2) (1 # 2), (t0 + Dt)%Q);
    (update_ghosts_, (t0 + Dt)%Q);
    (distribute_to_vertices_and_edges_, (t0 + Dt)%Q);
    (update_boundary_, (t0 + Dt)%Q) ].

(** The quantity object that [update_extrema] monitors under [name]: the
    quantity of that name, or the value of the name as an expression. *)
Definition monitored_quantity `{External} (d : Domain) (name : string)
  : result Quantity :=
  match quantities d !! name with
  | Some Qn => Ok Qn
  | None => apply_expression_to_dictionary name (quantities d)
  end.

(** The model time lies in the monitored time interval, if there is one. *)
Definition in_monitor_interval (d : Domain) : Prop :=
  forall t0 t1, monitor_time_interval d = Some (t0, t1) ->
                (t0 <= time d <= t1)%Q.

(** The extrema block as [set_quantities_to_be_monitored] initialises it. *)
Definition empty_info_block : InfoBlock :=
  mkInfoBlock None None None None None None.

(** The bound pond with the stage monitored, nothing recorded yet. *)
Definition monitored_pond : Domain :=
  upd_quantities_to_be_monitored
    (Some {[ "stage"%string := empty_info_block ]}) (bound_pond 1).

(** A pond of two triangles, the second a ghost of the first: stage 10 in
    the full triangle and a stale 7 in the ghost. *)
Definition ghost_pond : Domain :=
  upd_ghost_recv_dict {[ 0%nat := [1%nat] ]}
    (upd_full_send_dict {[ 0%nat := [0%nat] ]}
       (upd_quantities
          (<["stage"%string :=
               upd_centroid_values [10; 7]%Q (constant_quantity 2 3 10)]>
             (quantities (pond 2)))
          (pond 2))).

(** Updaters of further attributes. *)
Definition upd_evolved_quantities (v : list string) (d : Domain) : Domain :=
  mkDomain (number_of_triangles d) (number_of_full_triangles d) (boundary d)
    (neighbours d) (conserved_quantities d) v (quantities d) (forcing_terms
    d) (processor d) (full_send_dict d) (ghost_recv_dict d)
    (protect_against_isolated_degenerate_timesteps d) (default_order d)
    (_order_ d) (smallsteps d) (max_smallsteps d) (number_of_steps d)
    (number_of_first_order_steps d) (CFL d) (timestepping_method d)
    (timetepping_method d) (evolve_max_timestep d) (evolve_min_timestep d)
    (boundary_map d) (boundary_objects d) (time d) (finaltime d)
    (recorded_min_timestep d) (recorded_max_timestep d) (starttime d)
    (timestep d) (flux_timestep d) (yieldtime d) (quantities_to_be_monitored
    d) (monitor_time_interval d) (monitor_indices d) (checkpoint d)
    (max_speed d) (log d) (calls d).

Definition upd_conserved_quantities (v : list string) (d : Domain) : Domain :=
  mkDomain (number_of_triangles d) (number_of_full_triangles d) (boundary d)
    (neighbours d) v (evolved_quantities d) (quantities d) (forcing_terms d)
    (processor d) (full_send_dict d) (ghost_recv_dict d)
    (protect_against_isolated_degenerate_timesteps d) (default_order d)
    (_order_ d) (smallsteps d) (max_smallsteps d) (number_of_steps d)
    (number_of_first_order_steps d) (CFL d) (timestepping_method d)
    (timetepping_method d) (evolve_max_timestep d) (evolve_min_timestep d)
    (boundary_map d) (boundary_objects d) (time d) (finaltime d)
    (recorded_min_timestep d) (recorded_max_timestep d) (starttime d)
    (timestep d) (flux_timestep d) (yieldtime d) (quantities_to_be_monitored
    d) (monitor_time_interval d) (monitor_indices d) (checkpoint d)
    (max_speed d) (log d) (calls d).

Definition upd_monitor_time_interval (v : option (Q * Q)) (d : Domain) : Domain :=
  mkDomain (number_of_triangles d) (number_of_full_triangles d) (boundary d)
    (neighbours d) (conserved_quantities d) (evolved_quantities d)
    (quantities d) (forcing_terms d) (processor d) (full_send_dict d)
    (ghost_recv_dict d) (protect_against_isolated_degenerate_timesteps d)
    (default_order d) (_order_ d) (smallsteps d) (max_smallsteps d)
    (number_of_steps d) (number_of_first_order_steps d) (CFL d)
    (timestepping_method d) (timetepping_method d) (evolve_max_timestep d)
    (evolve_min_timestep d) (boundary_map d) (boundary_objects d) (time d)
    (finaltime d) (recorded_min_timestep d) (recorded_max_timestep d)
    (starttime d) (timestep d) (flux_timestep d) (yieldtime d)
    (quantities_to_be_monitored d) v (monitor_indices d) (checkpoint d)
    (max_speed d) (log d) (calls d).

Definition upd_monitor_indices (v : option (list nat)) (d : Domain) : Domain :=
  mkDomain (number_of_triangles d) (number_of_full_triangles d) (boundary d)
    (neighbours d) (conserved_quantities d) (evolved_quantities d)
    (quantities d) (forcing_terms d) (processor d) (full_send_dict d)
    (ghost_recv_dict d) (protect_against_isolated_degenerate_timesteps d)
    (default_order d) (_order_ d) (smallsteps d) (max_smallsteps d)
    (number_of_steps d) (number_of_first_order_steps d) (CFL d)
    (timestepping_method d) (timetepping_method d) (evolve_max_timestep d)
    (evolve_min_timestep d) (boundary_map d) (boundary_objects d) (time d)
    (finaltime d) (recorded_min_timestep d) (recorded_max_timestep d)
    (starttime d) (timestep d) (flux_timestep d) (yieldtime d)
    (quantities_to_be_monitored d) (monitor_time_interval d) v (checkpoint
    d) (max_speed d) (log d) (calls d).

(** ** Integrity of the domain *)

(** The loop [for quantity in self.conserved_quantities:
    assert quantity in self.quantities]. *)
Fixpoint check_conserved_are_quantities (names : list string)
  (d : Domain) : result unit :=
  match names with
  | [] => Ok tt
  | quantity :: names' =>
      if decide (is_Some (quantities d !! quantity)) then
        check_conserved_are_quantities names' d
      else
        Error (AssertionError
                 "Conserved quantities must be a subset of all quantities")
  end.

(** The loop [for i, quantity in enumerate(self.conserved_quantities):
    assert quantity == self.evolved_quantities[i]], from position [i] on. *)
Fixpoint check_conserved_come_first (i : nat) (names : list string)
  (d : Domain) : result unit :=
  match names with
  | [] => Ok tt
  | quantity :: names' =>
      first <~ getitem (evolved_quantities d) i ;;
      if decide (quantity = first) then
        check_conserved_come_first (S i) names' d
      else
        Error (AssertionError
                 "Conserved quantities must be the first entries of evolved_quantities")
  end.

(** [check_integrity()]; [mesh_check_integrity] is the outcome of
    [self.mesh.check_integrity()], whose code is in the mesh module. *)
Definition check_integrity (mesh_check_integrity : result unit)
  (d : Domain) : result unit :=
  _ <~ mesh_check_integrity ;;
  _ <~ check_conserved_are_quantities (conserved_quantities d) d ;;
  check_conserved_come_first 0 (conserved_quantities d) d.

(** A domain that evolves a tracer besides the three conserved quantities
    of the pond. *)
Definition tracer_pond : Domain :=
  upd_quantities
    (<["tracer"%string := constant_quantity 1 3 5]> (quantities (pond 1)))
    (upd_evolved_quantities
       ["stage"; "xmomentum"; "ymomentum"; "tracer"]%string (pond 1)).

(** ** Naming of the simulation *)

(** The attributes behind the name of the simulation and its data
    directory. *)
Record Storage : Type := mkStorage {
  simulation_name : string;
  datadir : string
}.

(** [name.endswith(suffix)] *)
Definition endswith (name suffix : string) : bool :=
  (String.length suffix <=? String.length name)%nat &&
  String.eqb
    (String.substring (String.length name - String.length suffix)
       (String.length suffix) name)
    suffix.

(** [set_name(name)]: a trailing '.sww' is removed, [name[:-4]]. *)
Definition set_name (name : string) (s : Storage) : Storage :=
  let name :=
    if endswith name ".sww" then String.substring 0 (String.length name - 4) name
    else name in
  mkStorage name (datadir s).

Definition get_name (s : Storage) : string := simulation_name s.

Definition set_datadir (name : string) (s : Storage) : Storage :=
  mkStorage (simulation_name s) name.

Definition get_datadir (s : Storage) : string := datadir s.

(** ** Further setters and getters *)

(** [set_CFL(cfl)]: the messages handed to [log.warn], and the outcome. *)
Definition set_CFL (cfl : Q) (d : Domain) : list string * outcome :=
  let '(warnings, d) :=
    if Qltb 1 cfl then (["Setting CFL > 1.0"%string], upd_CFL cfl d)
    else ([], d) in
  if Qltb 0 cfl then (warnings, Normal (upd_CFL cfl d))
  else (warnings, Raised (AssertionError "") d).

(** [get_quantity_names()]: [self.quantities.keys()], in the order of the
    dictionary. *)
Definition get_quantity_names (d : Domain) : list string :=
  (map_to_list (quantities d)).*1.

(** The tracer pond with the boundary objects of the pond, which return the
    three conserved values. *)
Definition bound_tracer_pond : Domain :=
  final (@set_boundary Generic_Domain_class pond_boundary_map tracer_pond).

(** ** Setting up the monitoring of extrema *)

(** The argument [q] of [set_quantities_to_be_monitored]: [None], a name or
    a list of names. *)
Inductive NamesArg : Type :=
  | NoNames
  | OneName (name : string)
  | NameList (names : list string).

(** Its argument [polygon]: [None], a string or a list of points. *)
Inductive PolygonArg : Type :=
  | NoPolygon
  | PolygonString (s : string)
  | PolygonPoints (points : list (Q * Q)).

(** What the method raises: its two exceptions about a polygon given as a
    string, or an error of a collaborator or of its assertion. *)
Inductive monitor_exn : Type :=
  | QuantitiesNotInAList (polygon : string)
      (* 'Multiple quantities must be specified in a list. ...' *)
  | PolygonIsAString (polygon : string)
      (* 'argument "polygon" must not be a string: ...' *)
  | Propagated (e : exn).

(** The loop over the names: each has to be a quantity or a valid
    expression, and gets an empty extrema block. *)
Fixpoint monitor_names `{External} (names : list string) (d : Domain)
  : outcome :=
  match names with
  | [] => Normal d
  | quantity_name :: names' =>
      query d (if decide (is_Some (quantities d !! quantity_name))
               then Ok tt
               else _ <~ apply_expression_to_dictionary quantity_name
                           (quantities d) ;; Ok tt)
        (fun _ =>
           monitor_names names'
             (upd_quantities_to_be_monitored
                (Some (<[quantity_name := empty_info_block]>
                         (default ∅ (quantities_to_be_monitored d))))
                d))
  end.

(** [set_quantities_to_be_monitored(q, polygon, time_interval)].  The
    attribute [monitor_polygon] is passed and returned next to the domain;
    [inside_polygon_of_centroids polygon] stands for
    [inside_polygon(self.get_centroid_coordinates(absolute=True), polygon)],
    whose code is in the mesh and geometry modules.  Returns the exception
    raised, if any, with the state as the method left it. *)
Definition set_quantities_to_be_monitored `{External}
  (inside_polygon_of_centroids : list (Q * Q) -> result (list nat))
  (q : NamesArg) (polygon : PolygonArg) (time_interval : option (list Q))
  (d : Domain) (monitor_polygon : option (list (Q * Q)))
  : option monitor_exn * Domain * option (list (Q * Q)) :=
  match q with
  | NoNames =>
      (None,
       upd_monitor_indices None
         (upd_monitor_time_interval None
            (upd_quantities_to_be_monitored None d)),
       None)
  | _ =>
      let names := match q with
                   | OneName name => [name]
                   | NameList names => names
                   | NoNames => []
                   end in
      match monitor_names names
              (upd_quantities_to_be_monitored (Some ∅) d) with
      | Raised e d => (Some (Propagated e), d, monitor_polygon)
      | Normal d =>
          let after_polygon : monitor_exn + Domain :=
            match polygon with
            | NoPolygon => inr d
            | PolygonString s =>
                if decide (is_Some (quantities d !! s)) then
                  inl (QuantitiesNotInAList s)
                else
                  match apply_expression_to_dictionary s (quantities d) with
                  | Ok _ => inl (QuantitiesNotInAList s)
                  | Error _ => inl (PolygonIsAString s)
                  end
            | PolygonPoints points =>
                match inside_polygon_of_centroids points with
                | Ok indices => inr (upd_monitor_indices (Some indices) d)
                | Error e => inl (Propagated e)
                end
            end in
          match after_polygon with
          | inl e => (Some e, d, monitor_polygon)
          | inr d =>
              let new_polygon := match polygon with
                                 | PolygonPoints points => Some points
                                 | _ => None
                                 end in
              match time_interval with
              | None => (None, upd_monitor_time_interval None d, new_polygon)
              | Some [t0; t1] =>
                  (None, upd_monitor_time_interval (Some (t0, t1)) d,
                   new_polygon)
              | Some _ =>
                  (Some (Propagated (AssertionError "")), d, monitor_polygon)
              end
          end
      end
  end.

(** ** The constructor *)

(** The constants of [anuga.config] that [__init__] reads into the
    attributes modelled here. *)
Record Config : Type := mkConfig {
  config_max_smallsteps : Z;
  config_CFL : Q;
  config_timestepping_method : string;
  config_protect_against_isolated_degenerate_timesteps : bool;
  config_default_order : Z;
  config_max_timestep : Q;
  config_min_timestep : Q
}.

(** What [__init__] copies from the [Mesh] object it builds;
    [len(self)] is [len(self.mesh)], the number of triangles. *)
Record MeshData : Type := mkMeshData {
  mesh_boundary : gmap (nat * nat) string;
  mesh_neighbours : list (list Z);
  mesh_number_of_triangles : nat;
  mesh_number_of_full_triangles : nat;
  mesh_number_of_full_nodes : nat
}.

(** The loop of [__init__] over [enumerate(self.conserved_quantities)],
    from position [i] on: [assert quantity == self.evolved_quantities[i]]. *)
Fixpoint init_conserved_come_first (i : nat) (conserved evolved : list string)
  : result unit :=
  match conserved with
  | [] => Ok tt
  | quantity :: conserved' =>
      first <~ getitem evolved i ;;
      if decide (quantity = first) then
        init_conserved_come_first (S i) conserved' evolved
      else
        Error (AssertionError
                 "The conserved quantities must be the first entries of evolved_quantities")
  end.

(** [for name in names: self.quantities[name] = Quantity(self)] *)
Definition add_quantities (new_quantity : Quantity) (names : list string)
  (quantities : gmap string Quantity) : gmap string Quantity :=
  foldl (fun m name => <[name := new_quantity]> m) quantities names.

(** The ghost ids in the order [__init__] visits them:
    [for i in self.ghost_recv_dict.keys(): for id in
    self.ghost_recv_dict[i][0]]. *)
Definition ghost_ids (ghost_recv_dict : gmap nat (list nat)) : list nat :=
  mjoin (map_to_list ghost_recv_dict).*2.

(** [Generic_Domain.__init__] for a [source] that is not a file name, from
    the point where the [Mesh] has been built.  [new_quantity] is what
    [Quantity(self)] builds, whose code is in quantity.py.  Of the
    attributes set, those of the record [Domain] are kept; the result comes
    with the warnings handed to [log.critical].  The attributes
    [boundary_objects] and [timetepping_method] are not created, and
    [yieldtime] is not set before [evolve] sets it. *)
Definition Generic_Domain_init (config : Config) (mesh : MeshData)
  (new_quantity : Quantity)
  (conserved evolved other : option (list string))
  (send recv : option (gmap nat (list nat)))
  (iproc numproc : nat) : list string * result Domain :=
  let conserved := default [] conserved in
  let evolved := default conserved evolved in
  let other := default [] other in
  let N := mesh_number_of_triangles mesh in
  let send := default ∅ send in
  let recv := default ∅ recv in
  let d :=
    mkDomain N (mesh_number_of_full_triangles mesh) (mesh_boundary mesh)
      (mesh_neighbours mesh) conserved evolved
      (add_quantities new_quantity other
         (add_quantities new_quantity evolved ∅))
      [] iproc send recv
      (config_protect_against_isolated_degenerate_timesteps config)
      (config_default_order config) (config_default_order config)
      0 (config_max_smallsteps config) 0 0 (config_CFL config)
      (config_timestepping_method config) None
      (config_max_timestep config) (config_min_timestep config)
      None None 0 None 0 0 0 0 0 0 None None None false (zeros N) [] [] in
  match init_conserved_come_first 0 conserved evolved with
  | Error e => ([], Error e)
  | Ok _ =>
      (* self.tri_full_flag[id] = 0 for every ghost id *)
      match rmap (fun id => if decide (id < N)%nat then Ok tt
                            else Error IndexError) (ghost_ids recv) with
      | Error e => ([], Error e)
      | Ok _ =>
          let warnings :=
            if existsb (fun id => id <? mesh_number_of_full_nodes mesh)%nat
                 (ghost_ids recv) && (1 <? numproc)%nat
            then ["WARNING: Not all full triangles are store before ghost triangles"%string]
            else [] in
          match set_default_order (config_default_order config) d with
          | Raised e _ => (warnings, Error e)
          | Normal d =>
              match set_timestepping_method
                      (PyStr (config_timestepping_method config)) d with
              | Raised e _ => (warnings, Error e)
              | Normal d =>
                  (warnings,
                   Ok (set_evolve_min_timestep (config_min_timestep config)
                         (set_evolve_max_timestep
                            (config_max_timestep config) d)))
              end
          end
      end
  end.

(** The values of [anuga.config] behind the sample ponds. *)
Definition pond_config : Config :=
  mkConfig 50 1 "euler" true 1 1000 (1 # 1000000).

(** The mesh of the pond of one triangle. *)
Definition pond_mesh : MeshData :=
  mkMeshData {[ (0, 0)%nat := "wall"; (0, 1)%nat := "open";
                (0, 2)%nat := "wall" ]}%string
    [[-1; -1; -1]] 1 1 3.

(** * Properties *)

(** ** Arithmetic helpers *)

Lemma Qltb_true (a b : Q) : Qltb a b = true <-> (a < b)%Q.
Proof. unfold Qltb. destruct (Qlt_le_dec a b); split; intros; try done; lra. Qed.

Lemma Qltb_false (a b : Q) : Qltb a b = false <-> (b <= a)%Q.
Proof. unfold Qltb. destruct (Qlt_le_dec a b); split; intros; try done; lra. Qed.


Example bound_pond_objects :
  (current_objects (bound_pond 1)).*1 = [(0, 0); (0, 1); (0, 2)]%nat
  /\ neighbours (bound_pond 1) = [[-1; -2; -3]].
Proof. vm_compute. done. Qed.

(** ** Results and array access *)

Lemma rmap_Ok_length {A B : Type} (f : A -> result B) (l : list A) (bs : list B) :
  rmap f l = Ok bs -> length bs = length l.
Proof.
  revert bs. induction l as [|a l IH]; intros bs; simpl.
  - intros [= <-]. done.
  - destruct (f a) as [b|e]; simpl; [|done].
    destruct (rmap f l) as [bs'|e]; simpl; [|done].
    intros [= <-]. simpl. f_equal. by apply IH.
Qed.

Lemma rmap_Ok_lookup {A B : Type} (f : A -> result B) (l : list A) (bs : list B) :
  rmap f l = Ok bs ->
  forall i a, l !! i = Some a -> exists b, bs !! i = Some b /\ f a = Ok b.
Proof.
  revert bs. induction l as [|a0 l IH]; intros bs; simpl.
  - intros _ i a Hi. by rewrite lookup_nil in Hi.
  - destruct (f a0) as [b0|e] eqn:Hf; simpl; [|done].
    destruct (rmap f l) as [bs'|e]; simpl; [|done].
    intros [= <-] [|i] a Hi; simpl in *.
    + injection Hi as <-. eauto.
    + by apply IH.
Qed.

Lemma rmap_total {A B : Type} (f : A -> result B) (l : list A) :
  (forall a, a ∈ l -> exists b, f a = Ok b) -> exists bs, rmap f l = Ok bs.
Proof.
  induction l as [|a l IH]; intros Hall; simpl.
  - eauto.
  - destruct (Hall a) as [b ->]; [by left|]. simpl.
    destruct IH as [bs ->]; [intros; apply Hall; by right|]. simpl. eauto.
Qed.

Lemma getitem_Ok {A : Type} (a : list A) (i : nat) (x : A) :
  getitem a i = Ok x <-> a !! i = Some x.
Proof. unfold getitem. destruct (a !! i); split; congruence. Qed.

Lemma setitem_Ok {A : Type} (a : list A) (i : nat) (x : A) (a' : list A) :
  setitem a i x = Ok a' <-> (i < length a)%nat /\ a' = <[i := x]> a.
Proof.
  unfold setitem. destruct (decide (i < length a)%nat); split.
  - intros [= <-]. done.
  - intros [_ ->]. done.
  - done.
  - intros [? _]. done.
Qed.

(** ** Accessors *)

Lemma value_at_centroid (Qn : Quantity) (vol_id : nat) :
  value_at Qn vol_id None None = getitem (centroid_values Qn) vol_id.
Proof. reflexivity. Qed.

(** The vector built for a list of names has one entry per name, read from
    the quantity of that name. *)
Lemma collected_values (d : Domain) (vol_id : nat) (vertex edge : option nat)
  (names : list string) (q : list Q) :
  rmap (fun name => Qn <~ get_quantity d name ;;
                    value_at Qn vol_id vertex edge) names = Ok q ->
  length q = length names /\
  forall i name, names !! i = Some name ->
    exists Qn x, quantities d !! name = Some Qn /\ q !! i = Some x /\
                 value_at Qn vol_id vertex edge = Ok x.
Proof.
  intros Hq. split; [by eapply rmap_Ok_length|].
  intros i name Hi.
  destruct (rmap_Ok_lookup _ _ _ Hq i name Hi) as (x & Hx & Hf).
  unfold get_quantity in Hf.
  destruct (quantities d !! name) as [Qn|]; simpl in Hf; [|done].
  eauto.
Qed.

(** C9: [get_conserved_quantities] and [get_evolved_quantities] raise when
    both [vertex] and [edge] are given; a returned vector has the length of
    the corresponding name list and its entry [i] is read from the quantity
    named at position [i]; and, for a cell covered by the centroid arrays of
    the quantities involved, the call with neither [vertex] nor [edge]
    returns, entry by entry, the centroid values. *)
Theorem get_quantities_contract (d : Domain) (vol_id : nat)
  (Hcells : forall name,
     name ∈ conserved_quantities d ++ evolved_quantities d ->
     exists Qn, quantities d !! name = Some Qn /\
                (vol_id < length (centroid_values Qn))%nat) :
  (forall v e,
     get_conserved_quantities d vol_id (Some v) (Some e) = Error BothVertexAndEdge /\
     get_evolved_quantities d vol_id (Some v) (Some e) = Error BothVertexAndEdge) /\
  (forall vertex edge q,
     get_conserved_quantities d vol_id vertex edge = Ok q ->
     length q = length (conserved_quantities d) /\
     forall i name, conserved_quantities d !! i = Some name ->
       exists Qn x, quantities d !! name = Some Qn /\ q !! i = Some x /\
                    value_at Qn vol_id vertex edge = Ok x) /\
  (forall vertex edge q,
     get_evolved_quantities d vol_id vertex edge = Ok q ->
     length q = length (evolved_quantities d) /\
     forall i name, evolved_quantities d !! i = Some name ->
       exists Qn x, quantities d !! name = Some Qn /\ q !! i = Some x /\
                    value_at Qn vol_id vertex edge = Ok x) /\
  (exists q,
     get_conserved_quantities d vol_id None None = Ok q /\
     length q = length (conserved_quantities d) /\
     forall i name, conserved_quantities d !! i = Some name ->
       exists Qn, quantities d !! name = Some Qn /\
                  q !! i = centroid_values Qn !! vol_id) /\
  (exists q,
     get_evolved_quantities d vol_id None None = Ok q /\
     length q = length (evolved_quantities d) /\
     forall i name, evolved_quantities d !! i = Some name ->
       exists Qn, quantities d !! name = Some Qn /\
                  q !! i = centroid_values Qn !! vol_id).
Proof.
  assert (Hcentroid : forall names,
    (forall name, name ∈ names ->
       exists Qn, quantities d !! name = Some Qn /\
                  (vol_id < length (centroid_values Qn))%nat) ->
    exists q,
      rmap (fun name => Qn <~ get_quantity d name ;;
                        value_at Qn vol_id None None) names = Ok q /\
      length q = length names /\
      forall i name, names !! i = Some name ->
        exists Qn, quantities d !! name = Some Qn /\
                   q !! i = centroid_values Qn !! vol_id).
  { intros names Hnames.
    destruct (rmap_total
      (fun name => Qn <~ get_quantity d name ;; value_at Qn vol_id None None)
      names) as [q Hq].
    - intros name Hin. destruct (Hnames name Hin) as (Qn & HQ & Hlt).
      unfold get_quantity. rewrite HQ. simpl.
      destruct (lookup_lt_is_Some_2 _ _ Hlt) as [x Hx].
      exists x. by apply getitem_Ok.
    - exists q. split; [done|].
      destruct (collected_values _ _ _ _ _ _ Hq) as [Hlen Hent].
      split; [done|]. intros i name Hi.
      destruct (Hent i name Hi) as (Qn & x & HQ & Hqi & Hv).
      exists Qn. split; [done|].
      rewrite value_at_centroid in Hv. apply getitem_Ok in Hv. congruence. }
  split; [done|].
  split; [|split; [|split]].
  - intros vertex edge q. unfold get_conserved_quantities.
    destruct (is_Some_b vertex && is_Some_b edge); [done|].
    apply collected_values.
  - intros vertex edge q. unfold get_evolved_quantities.
    destruct (is_Some_b vertex && is_Some_b edge); [done|].
    apply collected_values.
  - apply (Hcentroid (conserved_quantities d)).
    intros name Hin. apply Hcells. apply elem_of_app. by left.
  - apply (Hcentroid (evolved_quantities d)).
    intros name Hin. apply Hcells. apply elem_of_app. by right.
Qed.

(** C10: [set_time] stores the relative model time and [get_time] adds the
    start time, so [get_time] after [set_time t] gives [t + starttime], which
    is [t] only when the start time is 0. *)
Theorem set_time_get_time_not_inverse (d : Domain) (t : Q) :
  time (set_time t d) = t /\
  get_time (set_time t d) = (t + starttime d)%Q /\
  (get_time (set_time t d) == t <-> starttime d == 0)%Q.
Proof.
  unfold get_time, set_time. simpl.
  split; [done|]. split; [done|]. split; intros; lra.
Qed.

(** ** Timestepping method *)

Lemma set_timestepping_method_name (d : Domain) (s : string) :
  s ∈ methods ->
  set_timestepping_method (PyStr s) d = Normal (upd_timestepping_method s d).
Proof. intros Hs. simpl. by rewrite decide_True. Qed.

Lemma set_timestepping_method_rejects (d : Domain) (arg : PyArg) :
  match arg with
  | PyStr s => s ∉ methods
  | PyInt n => n ∉ [1; 2; 3]
  end ->
  set_timestepping_method arg d = Raised (IncorrectTimesteppingType arg) d.
Proof. destruct arg; intros Hn; simpl; by rewrite decide_False. Qed.

Lemma set_timestepping_method_number (d : Domain) (n : Z) :
  n ∈ [1; 2; 3] ->
  exists m, methods !! Z.to_nat (n - 1) = Some m /\
    set_timestepping_method (PyInt n) d
    = Normal (upd_timetepping_method (Some m) d) /\
    get_timestepping_method (upd_timetepping_method (Some m) d)
    = get_timestepping_method d.
Proof.
  intros Hn. simpl. rewrite decide_True by done.
  rewrite !elem_of_cons, elem_of_nil in Hn.
  destruct Hn as [-> | [-> | [-> | []]]].
  all: eexists; split; [reflexivity|]; split; reflexivity.
Qed.

(** C4, at the failing input: [set_timestepping_method(2)] on a domain whose
    method is 'euler' returns normally, stores 'rk2' under the attribute
    [timetepping_method], and leaves [get_timestepping_method()] at
    'euler'. *)
Theorem set_timestepping_method_2_keeps_euler :
  exists d',
    set_timestepping_method (PyInt 2) (pond 1) = Normal d' /\
    timetepping_method d' = Some "rk2"%string /\
    get_timestepping_method (pond 1) = "euler"%string /\
    get_timestepping_method d' = "euler"%string.
Proof. eexists. split; [reflexivity|]. repeat split. Qed.

(** ** Frame properties of the quantity-level operations *)

Lemma for_each_quantity_frame (f : Quantity -> result Quantity)
  (names : list string) (d : Domain) :
  controls (final (for_each_quantity f names d)) = controls d /\
  journal (final (for_each_quantity f names d)) = journal d /\
  max_speed (final (for_each_quantity f names d)) = max_speed d.
Proof.
  revert d. induction names as [|name names IH]; intros d; simpl; [done|].
  unfold query. destruct (get_quantity d name) as [Qn|e]; [|done].
  destruct (f Qn) as [Qn'|e]; [|done].
  destruct (IH (upd_quantities (<[name:=Qn']> (quantities d)) d))
    as (-> & -> & ->). done.
Qed.

Lemma zero_quantity_at_frame (name : string) (i : nat) (d : Domain) :
  controls (final (zero_quantity_at name i d)) = controls d /\
  journal (final (zero_quantity_at name i d)) = journal d /\
  max_speed (final (zero_quantity_at name i d)) = max_speed d.
Proof.
  unfold zero_quantity_at, query.
  destruct (get_quantity d name) as [Qn|e]; [|done].
  destruct (Quantity_set_values_zero i Qn) as [Qn'|e]; done.
Qed.

Lemma ignore_isolated_triangles_frame (bins_last : Q) (ids : list nat)
  (d : Domain) :
  controls (final (ignore_isolated_triangles bins_last ids d)) = controls d /\
  journal (final (ignore_isolated_triangles bins_last ids d)) = journal d.
Proof.
  revert d. induction ids as [|i ids IH]; intros d; simpl; [done|].
  unfold query. destruct (getitem (max_speed d) i) as [speed|e]; [|done].
  destruct (Qltb bins_last speed); [|apply IH].
  pose proof (zero_quantity_at_frame "xmomentum" i d) as (Hc1 & Hj1 & Hm1).
  destruct (zero_quantity_at "xmomentum" i d) as [d1|e d1]; simpl in *;
    [|done].
  pose proof (zero_quantity_at_frame "ymomentum" i d1) as (Hc2 & Hj2 & Hm2).
  destruct (zero_quantity_at "ymomentum" i d1) as [d2|e d2]; simpl in *;
    [|by rewrite Hc2, Hj2].
  destruct (setitem (max_speed d2) i 0%Q) as [ms|e]; simpl.
  - destruct (IH (upd_max_speed ms d2)) as (-> & ->).
    by rewrite <- Hc1, <- Hj1, <- Hc2, <- Hj2.
  - by rewrite Hc2, Hj2.
Qed.

Lemma apply_protection_frame (d : Domain) :
  controls (final (apply_protection_against_isolated_degenerate_timesteps d))
  = controls d /\
  journal (final (apply_protection_against_isolated_degenerate_timesteps d))
  = journal d.
Proof.
  unfold apply_protection_against_isolated_degenerate_timesteps, query.
  destruct (negb _); [done|].
  destruct (num_max (max_speed d)) as [top|e]; [|done].
  destruct (Qltb top 10); [done|].
  destruct (create_bins (max_speed d) 10) as [bins|e]; [|done].
  destruct (characteristic_signature _) as [[|]|e]; try done.
  destruct (getitem bins (length bins - 1)) as [bins_last|e]; [|done].
  apply ignore_isolated_triangles_frame.
Qed.

(** ** The timestep controller *)

Lemma update_timestep_after_protection `{External} (yieldstep : Q)
  (finaltime : option Q) (d d0 : Domain) :
  apply_protection_against_isolated_degenerate_timesteps
    (enter update_timestep_ d) = Normal d0 ->
  update_timestep yieldstep finaltime d
  = (let d1 := with_recorded_timestep d0 in
     let block := small_step_protection (cfl_timestep d0) d1 in
     d2 <- block.2 ;;;
     Normal (upd_timestep
               (fit_to_yieldtime (fit_to_finaltime finaltime block.1 d2) d2)
               d2)) /\
  controls d0 = controls d /\
  cfl_timestep d0 = cfl_timestep d /\
  log d0 = log d /\
  calls d0 = calls d ++ [(update_timestep_, time d)].
Proof.
  intros Hprot. unfold update_timestep. rewrite Hprot. simpl.
  split.
  { unfold with_recorded_timestep.
    destruct (small_step_protection _ _) as [ts o]. done. }
  pose proof (apply_protection_frame (enter update_timestep_ d)) as [Hc Hj].
  rewrite Hprot in Hc, Hj. simpl in Hc, Hj.
  unfold journal in Hj. simpl in Hj. injection Hj as Hf Hl Hcalls.
  split; [exact Hc|]. unfold controls in Hc. simpl in Hc.
  injection Hc as ?. unfold cfl_timestep. split; [congruence|]. done.
Qed.

(** C2: the small-step protection of [update_timestep].  With [dt] the
    CFL-limited timestep: when [dt] is below [evolve_min_timestep] the counter
    [smallsteps] is incremented; once it exceeds [max_smallsteps] it is reset
    and, at order 1, the local timestep is set to [evolve_min_timestep], the
    warning and the timestepping statistics are logged and the stability
    exception is raised, while at another order [_order_] drops to 1 and the
    call returns; when [dt] is at least [evolve_min_timestep] the counter is
    reset and an order that had dropped to 1 goes back to 2 when
    [default_order] is 2. *)
Theorem small_step_protection_contract `{External} (yieldstep : Q)
  (finaltime : option Q) (d d0 : Domain)
  (Hprot : apply_protection_against_isolated_degenerate_timesteps
             (enter update_timestep_ d) = Normal d0) :
  let dt := cfl_timestep d in
  let o := update_timestep yieldstep finaltime d in
  ((dt < evolve_min_timestep d)%Q ->
     (smallsteps d + 1 <= max_smallsteps d ->
        (exists d', o = Normal d') /\
        smallsteps (final o) = smallsteps d + 1 /\
        _order_ (final o) = _order_ d) /\
     (smallsteps d + 1 > max_smallsteps d -> _order_ d = 1 ->
        o = Raised (TooSmallTimestep dt (max_smallsteps d)) (final o) /\
        smallsteps (final o) = 0 /\
        (small_step_protection dt (with_recorded_timestep d0)).1
        = evolve_min_timestep d /\
        (exists dX, log (final o)
           = log d ++ [LogTooSmallTimestep dt (max_smallsteps d);
                       LogStatistics (timestepping_statistics dX true)]) /\
        timestep (final o) = timestep d) /\
     (smallsteps d + 1 > max_smallsteps d -> _order_ d <> 1 ->
        (exists d', o = Normal d') /\
        smallsteps (final o) = 0 /\
        _order_ (final o) = 1)) /\
  ((evolve_min_timestep d <= dt)%Q ->
     (exists d', o = Normal d') /\
     smallsteps (final o) = 0 /\
     (_order_ d = 1 -> default_order d = 2 -> _order_ (final o) = 2) /\
     (~ (_order_ d = 1 /\ default_order d = 2) ->
        _order_ (final o) = _order_ d)).
Proof.
  intros dt o.
  destruct (update_timestep_after_protection yieldstep finaltime d d0 Hprot)
    as (Ho & Hc & Hdt & Hlog & _).
  unfold controls in Hc. injection Hc as ?.
  subst o dt. rewrite Ho. clear Ho. rewrite Hdt.
  unfold small_step_protection. simpl.
  repeat match goal with Heq : _ d0 = _ d |- _ => rewrite Heq end.
  split.
  - intros Hsmall. apply Qltb_true in Hsmall. rewrite Hsmall.
    split; [|split].
    + intros Hle. rewrite decide_False by lia. simpl.
      repeat split; eauto; congruence.
    + intros Hgt Hord. rewrite decide_True by lia.
      rewrite decide_True by done. simpl.
      repeat split; eauto; try congruence.
      rewrite <- app_assoc. simpl. eauto.
    + intros Hgt Hord. rewrite decide_True by lia.
      rewrite decide_False by done. simpl.
      repeat split; eauto; congruence.
  - intros Hbig. apply Qltb_false in Hbig. rewrite Hbig.
    destruct (decide (_order_ d = 1 /\ default_order d = 2)) as [[? ?]|Hno];
      simpl.
    + repeat split; eauto; try congruence. intros []. done.
    + repeat split; eauto; try congruence. intros; tauto.
Qed.

Lemma small_step_protection_normal `{External} (ts : Q) (d1 : Domain)
  (ts' : Q) (d2 : Domain) :
  small_step_protection ts d1 = (ts', Normal d2) ->
  ts' = ts /\ schedule d2 = schedule d1 /\ journal d2 = journal d1 /\
  timestep d2 = timestep d1.
Proof.
  unfold small_step_protection.
  repeat case_match; intros [= <- <-]; done.
Qed.

Lemma schedule_of_controls (d d' : Domain) :
  controls d' = controls d -> schedule d' = schedule d.
Proof. unfold controls, schedule. intros [= ]. congruence. Qed.

Lemma and_then_Normal (o : outcome) (k : Domain -> outcome) (d' : Domain) :
  (d1 <- o ;;; k d1) = Normal d' ->
  exists d1, o = Normal d1 /\ k d1 = Normal d'.
Proof. destruct o as [d1|e d1]; simpl; [eauto|done]. Qed.

Lemma fit_to_finaltime_min (finaltime : option Q) (ts : Q) (d : Domain) :
  (fit_to_finaltime finaltime ts d
   == match finaltime with
      | Some ft => Qmin ts (ft - time d)
      | None => ts
      end)%Q.
Proof.
  unfold fit_to_finaltime. destruct finaltime as [ft|]; [|reflexivity].
  destruct (Qltb ft (time d + ts)) eqn:Hlt.
  - apply Qltb_true in Hlt. rewrite Q.min_r; [reflexivity | lra].
  - apply Qltb_false in Hlt. rewrite Q.min_l; [reflexivity | lra].
Qed.

Lemma fit_to_yieldtime_min (ts : Q) (d : Domain) :
  (fit_to_yieldtime ts d == Qmin ts (yieldtime d - time d))%Q.
Proof.
  unfold fit_to_yieldtime.
  destruct (Qltb (yieldtime d) (time d + ts)) eqn:Hlt.
  - apply Qltb_true in Hlt. rewrite Q.min_r; [reflexivity | lra].
  - apply Qltb_false in Hlt. rewrite Q.min_l; [reflexivity | lra].
Qed.

(** What a normal return of [update_timestep] leaves behind. *)
Lemma update_timestep_normal `{External} (yieldstep : Q)
  (finaltime : option Q) (d d' : Domain) :
  update_timestep yieldstep finaltime d = Normal d' ->
  schedule d' = schedule d /\
  timestep d' = fit_to_yieldtime
                  (fit_to_finaltime finaltime (cfl_timestep d) d) d /\
  calls d' = calls d ++ [(update_timestep_, time d)].
Proof.
  intros Hret.
  destruct (apply_protection_against_isolated_degenerate_timesteps
              (enter update_timestep_ d)) as [d0|e d0] eqn:Hprot.
  2: { unfold update_timestep in Hret. by rewrite Hprot in Hret. }
  destruct (update_timestep_after_protection yieldstep finaltime d d0 Hprot)
    as (Ho & Hc & Hdt & Hlog & Hcalls).
  rewrite Ho in Hret. clear Ho. simpl in Hret.
  destruct (small_step_protection (cfl_timestep d0)
              (with_recorded_timestep d0)) as [ts o] eqn:Hblock.
  simpl in Hret. destruct o as [d2|e d2]; simpl in Hret; [|done].
  injection Hret as <-.
  apply small_step_protection_normal in Hblock as (-> & Hs & Hj & _).
  apply schedule_of_controls in Hc.
  assert (Hs' : schedule d2 = schedule d) by (rewrite Hs, <- Hc; done).
  unfold journal in Hj. simpl in Hj. injection Hj as _ _ Hcalls2.
  split; [exact Hs'|].
  unfold schedule in Hs'. injection Hs' as Ht Hy.
  split.
  - simpl. rewrite Hdt. unfold fit_to_yieldtime, fit_to_finaltime.
    by rewrite Ht, Hy.
  - simpl. congruence.
Qed.

(** The timestep after a normal return of [update_timestep]: the minimum
    of the CFL-limited timestep and the distances to the final time and to
    the yield time. *)
Lemma update_timestep_clamped `{External} (yieldstep : Q)
  (finaltime : option Q) (d d' : Domain) :
  update_timestep yieldstep finaltime d = Normal d' ->
  (timestep d' == clamped_timestep (cfl_timestep d) finaltime d)%Q /\
  (time d + timestep d' <= yieldtime d)%Q /\
  (forall ft, finaltime = Some ft -> time d + timestep d' <= ft)%Q.
Proof.
  intros Hret.
  destruct (update_timestep_normal _ _ _ _ Hret) as (_ & Hts & _).
  set (dt := cfl_timestep d) in *.
  assert (Hmin : (timestep d' == clamped_timestep dt finaltime d)%Q).
  { rewrite Hts, fit_to_yieldtime_min, fit_to_finaltime_min.
    unfold clamped_timestep. destruct finaltime; reflexivity. }
  split; [exact Hmin|]. unfold clamped_timestep in Hmin. clear Hts.
  destruct finaltime as [ft|].
  - pose proof (Q.le_min_r (Qmin dt (ft - time d)) (yieldtime d - time d)).
    pose proof (Q.le_min_l (Qmin dt (ft - time d)) (yieldtime d - time d)).
    pose proof (Q.le_min_r dt (ft - time d)).
    split; [lra|]. intros ? [= <-]. lra.
  - pose proof (Q.le_min_r dt (yieldtime d - time d)).
    split; [lra|]. intros ? [=].
Qed.




(** C2, witness: the stalled pond at order 1 with three small steps behind
    it and [max_smallsteps = 3]; the fourth small step raises. *)
Lemma small_step_protection_contract_witness :
  let d := stalled_pond 1 3 in
  let o := @update_timestep Generic_Domain_class 1 None d in
  o = Raised (TooSmallTimestep (cfl_timestep d) (max_smallsteps d)) (final o) /\
  smallsteps (final o) = 0 /\
  timestep (final o) = timestep d.
Proof.
  assert (Hprot : apply_protection_against_isolated_degenerate_timesteps
                    (enter update_timestep_ (stalled_pond 1 3))
                  = Normal (enter update_timestep_ (stalled_pond 1 3)))
    by (vm_compute; reflexivity).
  destruct (@small_step_protection_contract Generic_Domain_class 1 None
              (stalled_pond 1 3) _ Hprot) as [Hsmall _].
  destruct Hsmall as (_ & Hraise & _); [vm_compute; reflexivity|].
  destruct Hraise as (Ho & Hs & _ & _ & Hts);
    [vm_compute; reflexivity | vm_compute; reflexivity |].
  exact (conj Ho (conj Hs Hts)).
Defined.

Example order_fallback :
  let o := @update_timestep Generic_Domain_class 1 None (stalled_pond 2 3) in
  (exists d', o = Normal d') /\ _order_ (final o) = 1 /\ smallsteps (final o) = 0.
Proof. split; [eexists|split]; vm_compute; reflexivity. Qed.

(** ** Boundary binding *)

#[local] Instance key_le_transitive : Transitive key_le.
Proof. intros [a1 a2] [b1 b2] [c1 c2]. unfold key_le. simpl. lia. Qed.

#[local] Instance key_le_total : Total key_le.
Proof. intros [a1 a2] [b1 b2]. unfold key_le. simpl. lia. Qed.

Lemma key_le_lt (a b : nat * nat) : key_le a b -> a <> b -> key_lt a b.
Proof.
  destruct a as [a1 a2], b as [b1 b2]. unfold key_le, key_lt. simpl.
  intros Hle Hne.
  destruct (decide (a2 = b2)) as [->|]; [|lia].
  destruct Hle as [?|[-> _]]; [lia|]. done.
Qed.

Lemma key_lt_irrefl (a : nat * nat) : ~ key_lt a a.
Proof. unfold key_lt. lia. Qed.

Lemma strictly_sorted (x : list (nat * nat)) :
  StronglySorted key_le x -> NoDup x -> StronglySorted key_lt x.
Proof.
  induction 1 as [|a x Hx IH Ha]; intros Hnd; [constructor|].
  apply NoDup_cons in Hnd as [Hnotin Hnd].
  constructor; [by apply IH|].
  rewrite Forall_forall in Ha |- *. intros b Hb.
  apply key_le_lt; [by apply Ha|]. intros ->. done.
Qed.

Lemma sorted_boundary_keys_spec (d : Domain) :
  StronglySorted key_lt (sorted_boundary_keys d) /\
  forall key, key ∈ sorted_boundary_keys d <-> is_Some (boundary d !! key).
Proof.
  unfold sorted_boundary_keys.
  pose proof (merge_sort_Permutation key_le ((map_to_list (boundary d)).*1))
    as Hperm.
  split.
  - apply strictly_sorted; [apply StronglySorted_merge_sort; apply _|].
    rewrite Hperm. apply NoDup_fst_map_to_list.
  - intros key. rewrite Hperm. rewrite list_elem_of_fmap. split.
    + intros [[k tag] [-> Hin]]. apply elem_of_map_to_list in Hin. eauto.
    + intros [tag Htag]. exists (key, tag). split; [done|].
      by apply elem_of_map_to_list.
Qed.

Lemma getitem2_Ok {A : Type} (a : list (list A)) (i j : nat) (x : A) :
  getitem2 a i j = Ok x <->
  exists row, a !! i = Some row /\ row !! j = Some x.
Proof.
  unfold getitem2, getitem. destruct (a !! i) as [row|]; simpl.
  - destruct (row !! j) eqn:Hj; split.
    + intros [= <-]. eauto.
    + intros (row' & [= <-] & Hx). congruence.
    + done.
    + intros (row' & [= <-] & Hx). congruence.
  - split; [done|]. intros (row & ? & _). done.
Qed.

(** Writing one entry of a two-dimensional array: it succeeds inside the
    array, changes that entry only and keeps the shape. *)
Lemma setitem2_spec (a : list (list Z)) (key : nat * nat) (x : Z) :
  in_range a key ->
  exists a', setitem2 a key.1 key.2 x = Ok a' /\
    getitem2 a' key.1 key.2 = Ok x /\
    (forall i j, (i, j) <> key -> getitem2 a' i j = getitem2 a i j) /\
    (forall key', in_range a key' -> in_range a' key').
Proof.
  destruct key as [i j]. simpl. intros (row & Hrow & Hj). simpl in *.
  assert (Hi : (i < length a)%nat) by (by eapply lookup_lt_Some).
  exists (<[i := <[j := x]> row]> a). split; [|split; [|split]].
  - unfold setitem2, getitem, setitem. rewrite Hrow. simpl.
    rewrite decide_True by done. simpl. by rewrite decide_True.
  - apply getitem2_Ok. exists (<[j := x]> row).
    split; [by apply list_lookup_insert_eq|by apply list_lookup_insert_eq].
  - intros i' j' Hne. unfold getitem2, getitem.
    destruct (decide (i' = i)) as [->|Hi'].
    + rewrite list_lookup_insert_eq by done. rewrite Hrow. simpl.
      rewrite list_lookup_insert_ne by congruence. done.
    + by rewrite list_lookup_insert_ne.
  - intros [i' j'] (row' & Hrow' & Hj'). simpl in *. unfold in_range. simpl.
    destruct (decide (i' = i)) as [->|Hi'].
    + exists (<[j := x]> row). rewrite list_lookup_insert_eq by done.
      split; [done|]. rewrite length_insert. congruence.
    + exists row'. by rewrite list_lookup_insert_ne.
Qed.

Lemma elem_of_fst_lookup {A B : Type} (l : list (A * B)) (i : nat) (a : A)
  (b : B) : l !! i = Some (a, b) -> a ∈ l.*1.
Proof.
  intros Hi. apply list_elem_of_fmap. exists (a, b). split; [done|].
  by eapply list_elem_of_lookup_2.
Qed.

(** The loop of [set_boundary], started with the entries [objs0] already
    appended for edges below those of [x]. *)
Lemma bind_boundary_edges_spec `{External}
  (bm : gmap string (option Boundary)) (x : list (nat * nat)) :
  forall (d : Domain) (objs0 : list ((nat * nat) * option Boundary)),
  boundary_objects d = Some objs0 ->
  StronglySorted key_lt x ->
  (forall k k', k ∈ objs0.*1 -> k' ∈ x -> key_lt k k') ->
  StronglySorted key_lt objs0.*1 ->
  (forall key, key ∈ x -> in_range (neighbours d) key) ->
  (forall key, key ∈ x -> is_Some (boundary d !! key)) ->
  slots_encoded (neighbours d) objs0 ->
  match bind_boundary_edges bm x d with
  | Normal d' =>
      exists objs',
        boundary_objects d' = Some (objs0 ++ objs') /\
        boundary_map d' = boundary_map d /\
        StronglySorted key_lt (objs0 ++ objs').*1 /\
        slots_encoded (neighbours d') (objs0 ++ objs') /\
        (forall key B, (key, B) ∈ objs' <->
           key ∈ x /\ exists tag Bo, boundary d !! key = Some tag /\
                        bm !! tag = Some (Some Bo) /\ B = Some Bo) /\
        (forall key tag, key ∈ x -> boundary d !! key = Some tag ->
           is_Some (bm !! tag))
  | Raised e d' =>
      exists key tag, key ∈ x /\ boundary d !! key = Some tag /\
        bm !! tag = None /\ e = TagNotBound tag (get_boundary_tags d')
  end.
Proof.
  induction x as [|[vol_id edge_id] x IH];
    intros d objs0 Hobjs Hsorted Hbelow Hsorted0 Hrange Hbound Hslots.
  { simpl. exists []. rewrite app_nil_r.
    split; [done|]. split; [done|]. split; [done|]. split; [done|]. split.
    - intros key B. split.
      + intros Hin. by apply elem_of_nil in Hin.
      + intros [Hin _]. by apply elem_of_nil in Hin.
    - intros key tag Hin. by apply elem_of_nil in Hin. }
  apply StronglySorted_cons in Hsorted as [Hhead Hsorted].
  rewrite Forall_forall in Hhead.
  simpl.
  destruct (Hbound (vol_id, edge_id)) as [tag Htag]; [by left|].
  rewrite Htag.
  destruct (bm !! tag) as [[B|]|] eqn:Hbm.
  - (* a boundary object: append and point the edge at its slot *)
    unfold current_objects. rewrite Hobjs. simpl.
    destruct (setitem2_spec (neighbours d) (vol_id, edge_id)
                (- Z.of_nat (length (objs0 ++ [((vol_id, edge_id), Some B)]))))
      as (nb & Hset & Hget & Hother & Hshape); [apply Hrange; by left|].
    simpl in Hset, Hget. unfold query. rewrite Hset.
    set (objs1 := objs0 ++ [((vol_id, edge_id), Some B)]).
    assert (Hbelow1 : forall k k', k ∈ objs1.*1 -> k' ∈ x -> key_lt k k').
    { intros k k'. unfold objs1. rewrite fmap_app, elem_of_app. simpl.
      rewrite list_elem_of_singleton. intros [Hk| ->] Hk'.
      - apply Hbelow; [done|by right].
      - by apply Hhead. }
    assert (Hsorted1 : StronglySorted key_lt objs1.*1).
    { unfold objs1. rewrite fmap_app. apply StronglySorted_app_2.
      - intros k k' Hk Hk'. simpl in Hk'.
        apply list_elem_of_singleton in Hk' as ->.
        apply Hbelow; [done|by left].
      - done.
      - repeat constructor. }
    assert (Hslots1 : slots_encoded nb objs1).
    { intros i v e' B' Hi.
      apply lookup_app_Some in Hi as [Hi|[Hlen Hi]].
      - rewrite Hother; [by eapply Hslots|].
        intros [= -> ->].
        apply (key_lt_irrefl (vol_id, edge_id)).
        apply Hbelow; [by eapply elem_of_fst_lookup|by left].
      - apply list_lookup_singleton_Some in Hi as [Hi [= <- <- <-]].
        rewrite Hget. f_equal. unfold objs1. rewrite length_app. simpl. lia. }
    specialize (IH (upd_neighbours nb (upd_boundary_objects (Some objs1) d))
                  objs1 eq_refl Hsorted Hbelow1 Hsorted1).
    simpl in IH.
    specialize (IH (fun key Hkey => Hshape key (Hrange key (list_elem_of_further _ _ _ Hkey)))
                  (fun key Hkey => Hbound key (list_elem_of_further _ _ _ Hkey))
                  Hslots1).
    destruct (bind_boundary_edges bm x _) as [d'|e d'].
    + destruct IH as (objs' & Hobjs' & Hmap' & Hs' & Hslots' & Hent & Hall).
      exists (((vol_id, edge_id), Some B) :: objs').
      unfold objs1 in Hobjs', Hs', Hslots'.
      rewrite <- app_assoc in Hobjs', Hs', Hslots'. simpl in *.
      split; [done|]. split; [done|]. split; [done|]. split; [done|].
      split.
      * intros key B'. rewrite elem_of_cons, Hent, elem_of_cons.
        split.
        -- intros [[= -> ->]|[Hin Hrest]]; [|by eauto].
           split; [by left|]. eauto.
        -- intros [[->|Hin] (tag' & Bo & Htag' & Hbm' & ->)].
           ++ left. rewrite Htag in Htag'. injection Htag' as <-.
              rewrite Hbm in Hbm'. by injection Hbm' as <-.
           ++ right. split; [done|]. eauto.
      * intros key tag' Hkey Htag'.
        apply elem_of_cons in Hkey as [->|Hkey]; [|by eauto].
        rewrite Htag in Htag'. injection Htag' as <-. by rewrite Hbm.
    + destruct IH as (key & tag' & Hkey & Htag' & Hbm' & ->).
      exists key, tag'. split; [by right|]. done.
  - (* bound to None: no entry *)
    specialize (IH d objs0 Hobjs Hsorted
                  (fun k k' Hk Hk' => Hbelow k k' Hk (list_elem_of_further _ _ _ Hk'))
                  Hsorted0
                  (fun key Hkey => Hrange key (list_elem_of_further _ _ _ Hkey))
                  (fun key Hkey => Hbound key (list_elem_of_further _ _ _ Hkey))
                  Hslots).
    destruct (bind_boundary_edges bm x d) as [d'|e d'].
    + destruct IH as (objs' & Hobjs' & Hmap' & Hs' & Hslots' & Hent & Hall).
      exists objs'. split; [done|]. split; [done|]. split; [done|].
      split; [done|]. split.
      * intros key B'. rewrite Hent, elem_of_cons. split.
        -- intros [Hin Hrest]. eauto.
        -- intros [[->|Hin] (tag' & Bo & Htag' & Hbm' & ->)].
           ++ rewrite Htag in Htag'. injection Htag' as <-. congruence.
           ++ split; [done|]. eauto.
      * intros key tag' Hkey Htag'.
        apply elem_of_cons in Hkey as [->|Hkey]; [|by eauto].
        rewrite Htag in Htag'. injection Htag' as <-. by rewrite Hbm.
    + destruct IH as (key & tag' & Hkey & Htag' & Hbm' & ->).
      exists key, tag'. split; [by right|]. done.
  - (* the tag is not bound *)
    exists (vol_id, edge_id), tag. split; [by left|]. done.
Qed.

Lemma store_boundary_map_spec (new : gmap string (option Boundary))
  (d : Domain) :
  boundary_map (store_boundary_map new d)
  = Some (accumulated_boundary_map new d) /\
  boundary (store_boundary_map new d) = boundary d /\
  neighbours (store_boundary_map new d) = neighbours d.
Proof.
  unfold store_boundary_map, accumulated_boundary_map.
  destruct (boundary_map d); done.
Qed.

(** The two ways [set_boundary] can end. *)
Lemma set_boundary_outcome `{External} (new : gmap string (option Boundary))
  (d : Domain) :
  (forall key, is_Some (boundary d !! key) -> in_range (neighbours d) key) ->
  let bm := accumulated_boundary_map new d in
  match set_boundary new d with
  | Normal d' =>
      boundary_map d' = Some bm /\
      exists objs,
        boundary_objects d' = Some objs /\
        StronglySorted key_lt objs.*1 /\
        slots_encoded (neighbours d') objs /\
        (forall key B, (key, B) ∈ objs <->
           exists tag Bo, boundary d !! key = Some tag /\
             bm !! tag = Some (Some Bo) /\ B = Some Bo) /\
        (forall key tag, boundary d !! key = Some tag -> is_Some (bm !! tag))
  | Raised e d' =>
      exists key tag, boundary d !! key = Some tag /\ bm !! tag = None /\
        e = TagNotBound tag (get_boundary_tags d')
  end.
Proof.
  intros Hmesh bm. unfold set_boundary.
  destruct (store_boundary_map_spec new d) as (Hmap & Hbnd & Hnb).
  destruct (sorted_boundary_keys_spec (store_boundary_map new d))
    as [Hsorted Hkeys].
  set (d1 := store_boundary_map new d) in *.
  set (d2 := upd_boundary_objects (Some []) d1).
  assert (Hbm : default ∅ (boundary_map d2) = bm).
  { unfold d2. simpl. by rewrite Hmap. }
  rewrite Hbm.
  assert (Hkeys2 : forall key, key ∈ sorted_boundary_keys d1 <->
                               is_Some (boundary d !! key)).
  { intros key. rewrite Hkeys. by rewrite Hbnd. }
  pose proof (bind_boundary_edges_spec bm (sorted_boundary_keys d1) d2 []
                eq_refl Hsorted) as Hloop.
  simpl in Hloop. rewrite Hbnd, Hnb in Hloop.
  specialize (Hloop (fun k k' Hk _ => False_ind _ (proj1 (elem_of_nil k) Hk))
                    (SSorted_nil _)
                    (fun key Hkey => Hmesh key (proj1 (Hkeys2 key) Hkey))
                    (fun key Hkey => proj1 (Hkeys2 key) Hkey)).
  destruct (bind_boundary_edges bm (sorted_boundary_keys d1) d2) as [d'|e d'].
  - destruct Hloop as (objs & Hobjs & Hmap' & Hs & Hslots & Hent & Hall).
    { intros i v e B Hi. by rewrite lookup_nil in Hi. }
    split; [rewrite Hmap'; unfold d2; simpl; by rewrite Hmap|].
    exists objs. split; [done|]. split; [done|]. split; [done|]. split.
    + intros key B. rewrite Hent. split.
      * intros [_ Hrest]. done.
      * intros (tag & Bo & Htag & Hrest). split; [|by eauto].
        apply Hkeys2. eauto.
    + intros key tag Htag. eapply Hall; [|done]. apply Hkeys2. eauto.
  - destruct Hloop as (key & tag & _ & Hrest).
    { intros i v e' B Hi. by rewrite lookup_nil in Hi. }
    eauto.
Qed.

(** C5: a successful [set_boundary] leaves [boundary_objects] in ascending
    [(cell, edge)] order with [neighbours[cell][edge] == -(i+1)] for the
    entry at position [i]; the entries are exactly the boundary edges whose
    tag is bound to an object, so an edge whose tag is bound to [None] has no
    entry; and when the tag of some boundary edge is missing from the
    accumulated map the call raises the error that names an unbound tag and
    lists the boundary tags, while it succeeds when every tag is bound. *)
Theorem set_boundary_contract `{External}
  (new : gmap string (option Boundary)) (d : Domain)
  (Hmesh : forall key, is_Some (boundary d !! key) ->
                       in_range (neighbours d) key) :
  let bm := accumulated_boundary_map new d in
  (forall d', set_boundary new d = Normal d' ->
     exists objs,
       boundary_objects d' = Some objs /\
       StronglySorted key_lt objs.*1 /\
       slots_encoded (neighbours d') objs /\
       (forall key B, (key, B) ∈ objs <->
          exists tag Bo, boundary d !! key = Some tag /\
            bm !! tag = Some (Some Bo) /\ B = Some Bo) /\
       (forall key tag, boundary d !! key = Some tag ->
          bm !! tag = Some None -> key ∉ objs.*1)) /\
  ((exists key tag, boundary d !! key = Some tag /\ bm !! tag = None) ->
   exists key tag d',
     boundary d !! key = Some tag /\ bm !! tag = None /\
     set_boundary new d
     = Raised (TagNotBound tag (get_boundary_tags d')) d') /\
  ((forall key tag, boundary d !! key = Some tag -> is_Some (bm !! tag)) ->
   exists d', set_boundary new d = Normal d').
Proof.
  intros bm. pose proof (set_boundary_outcome new d Hmesh) as Hout.
  simpl in Hout. fold bm in Hout.
  destruct (set_boundary new d) as [d'|e d'].
  - destruct Hout as (_ & objs & Hobjs & Hs & Hslots & Hent & Hall).
    split; [|split].
    + intros ? [= <-]. exists objs.
      split; [done|]. split; [done|]. split; [done|]. split; [done|].
      intros key tag Htag Hnone Hin.
      apply list_elem_of_fmap in Hin as ([key' B] & -> & Hin). simpl in *.
      apply Hent in Hin as (tag' & Bo & Htag' & Hbm & _). congruence.
    + intros (key & tag & Htag & Hnone).
      destruct (Hall key tag Htag) as [B HB]. congruence.
    + eauto.
  - destruct Hout as (key & tag & Htag & Hnone & ->).
    split; [done|]. split.
    + intros _. exists key, tag, d'. done.
    + intros Hall. destruct (Hall key tag Htag) as [B HB]. congruence.
Qed.

(** C5, witness: binding the walls and the open edge of the pond. *)
Lemma set_boundary_contract_witness :
  let d' := final (@set_boundary Generic_Domain_class pond_boundary_map
                     (pond 1)) in
  exists objs,
    boundary_objects d' = Some objs /\
    StronglySorted key_lt objs.*1 /\
    slots_encoded (neighbours d') objs.
Proof.
  assert (Hmesh : forall key, is_Some (boundary (pond 1) !! key) ->
                              in_range (neighbours (pond 1)) key).
  { intros key [tag Htag]. apply elem_of_map_to_list in Htag.
    let l := eval vm_compute in (map_to_list (boundary (pond 1))) in
    change (map_to_list (boundary (pond 1))) with l in Htag.
    repeat (apply elem_of_cons in Htag as [[= -> ->]|Htag]);
      try (by apply elem_of_nil in Htag);
      (exists [-1; -1; -1]; split; [reflexivity | simpl; lia]). }
  destruct (@set_boundary_contract Generic_Domain_class pond_boundary_map
              (pond 1) Hmesh) as [Hsucc _].
  destruct (Hsucc (final (@set_boundary Generic_Domain_class
                            pond_boundary_map (pond 1))))
    as (objs & Hobjs & Hsorted & Hslots & _).
  { vm_compute. reflexivity. }
  exists objs. exact (conj Hobjs (conj Hsorted Hslots)).
Defined.

(** C9, witness: cell 0 of the bound pond. *)
Lemma get_quantities_contract_witness :
  (exists q, get_conserved_quantities (bound_pond 1) 0 None None = Ok q /\
             length q = length (conserved_quantities (bound_pond 1))) /\
  get_evolved_quantities (bound_pond 1) 0 (Some 1%nat) (Some 2%nat)
  = Error BothVertexAndEdge.
Proof.
  assert (Hcells : forall name,
            name ∈ conserved_quantities (bound_pond 1)
                   ++ evolved_quantities (bound_pond 1) ->
            exists Qn, quantities (bound_pond 1) !! name = Some Qn /\
                       (0 < length (centroid_values Qn))%nat).
  { intros name Hin.
    let l := eval vm_compute in
      (conserved_quantities (bound_pond 1) ++ evolved_quantities (bound_pond 1))
    in change (conserved_quantities (bound_pond 1)
               ++ evolved_quantities (bound_pond 1)) with l in Hin.
    repeat (apply elem_of_cons in Hin as [->|Hin]);
      try (by apply elem_of_nil in Hin);
      (eexists; split; [vm_compute; reflexivity | simpl; lia]). }
  destruct (get_quantities_contract (bound_pond 1) 0 Hcells)
    as (Hboth & _ & _ & (q & Hq & Hlen & _) & _).
  split; [exists q; exact (conj Hq Hlen)|].
  exact (proj2 (Hboth 1%nat 2%nat)).
Defined.

(** ** Frame properties of the steps of a scheme *)

Lemma enter_controls (c : Call) (d : Domain) :
  controls (enter c d) = controls d /\
  calls (enter c d) = calls d ++ [(c, time d)].
Proof. done. Qed.

Lemma for_each_quantity_traced (c : Call)
  (f : Quantity -> result Quantity) (names : list string) (d d' : Domain) :
  for_each_quantity f names (enter c d) = Normal d' -> traced c d d'.
Proof.
  intros Hret.
  destruct (for_each_quantity_frame f names (enter c d)) as (Hc & Hj & _).
  rewrite Hret in Hc, Hj. simpl in Hc, Hj.
  unfold journal in Hj. injection Hj as _ _ Hcalls.
  split; [exact Hc | exact Hcalls].
Qed.

Lemma update_ghosts_traced (d d' : Domain) :
  update_ghosts d = Normal d' -> traced update_ghosts_ d d'.
Proof.
  unfold update_ghosts. simpl.
  destruct (full_send_dict d !! processor d) as [Idf|].
  - destruct (ghost_recv_dict d !! processor d) as [Idg|]; [|done].
    apply for_each_quantity_traced.
  - intros [= <-]. done.
Qed.

Lemma backup_conserved_quantities_traced (d d' : Domain) :
  backup_conserved_quantities d = Normal d' ->
  traced backup_conserved_quantities_ d d'.
Proof. apply for_each_quantity_traced. Qed.

Lemma saxpy_conserved_quantities_traced (a b : Q) (d d' : Domain) :
  saxpy_conserved_quantities a b d = Normal d' ->
  traced (saxpy_conserved_quantities_ a b) d d'.
Proof. apply for_each_quantity_traced. Qed.

Lemma update_conserved_quantities_traced `{External} (d d' : Domain) :
  update_conserved_quantities d = Normal d' ->
  traced update_conserved_quantities_ d d'.
Proof. apply for_each_quantity_traced. Qed.

Lemma distribute_to_vertices_and_edges_traced `{External} (d d' : Domain) :
  distribute_to_vertices_and_edges d = Normal d' ->
  traced distribute_to_vertices_and_edges_ d d'.
Proof. apply for_each_quantity_traced. Qed.

Lemma apply_updates_controls (u : Updates) (d : Domain) :
  controls (apply_updates u d) = controls d /\
  calls (apply_updates u d) = calls d /\
  log (apply_updates u d) = log d.
Proof. done. Qed.

Lemma compute_fluxes_traced `{External} (d d' : Domain) :
  compute_fluxes d = Normal d' -> traced compute_fluxes_ d d'.
Proof.
  unfold compute_fluxes. destruct compute_fluxes_override as [kernel|]; [|done].
  unfold query. destruct (kernel _) as [u|e]; [|done].
  intros [= <-]. done.
Qed.

Lemma compute_forcing_terms_traced (d d' : Domain) :
  compute_forcing_terms d = Normal d' -> traced compute_forcing_terms_ d d'.
Proof.
  unfold compute_forcing_terms. intros [= <-].
  set (d0 := enter compute_forcing_terms_ d).
  assert (Hgen : forall fs d1,
    controls (foldl (fun d (f : ForcingTerm) =>
                apply_updates
                  (f (time d) (quantities d) (flux_timestep d) (max_speed d)) d)
              d1 fs) = controls d1 /\
    calls (foldl (fun d (f : ForcingTerm) =>
                apply_updates
                  (f (time d) (quantities d) (flux_timestep d) (max_speed d)) d)
              d1 fs) = calls d1).
  { induction fs as [|f fs IH]; intros d1; simpl; [done|].
    destruct (IH (apply_updates
                    (f (time d1) (quantities d1) (flux_timestep d1)
                       (max_speed d1)) d1)) as [-> ->]. done. }
  destruct (Hgen (forcing_terms d0) d0) as [Hc Hcalls].
  split; [etrans; [apply Hc|done] | etrans; [apply Hcalls|done]].
Qed.

Lemma write_boundary_values_frame (i : nat) (q : list Q) (names : list string) :
  forall (j : nat) (d : Domain),
  controls (final (write_boundary_values i q j names d)) = controls d /\
  journal (final (write_boundary_values i q j names d)) = journal d.
Proof.
  induction names as [|name names IH]; intros j d; simpl; [done|].
  unfold query. destruct (get_quantity d name) as [Qn|e]; [|done].
  destruct (getitem q j) as [x|e]; [|done].
  destruct (setitem (boundary_values Qn) i x) as [bv|e]; [|done].
  destruct (IH (S j) (upd_quantities
                        (<[name:=upd_boundary_values bv Qn]> (quantities d)) d))
    as [-> ->]. done.
Qed.

Lemma update_boundary_entry_frame `{External} (i : nat)
  (entry : (nat * nat) * option Boundary) (d : Domain) :
  controls (final (update_boundary_entry i entry d)) = controls d /\
  calls (final (update_boundary_entry i entry d)) = calls d.
Proof.
  destruct entry as [[vol_id edge_id] [B|]]; simpl; [|done].
  assert (Hw : forall q,
    controls (final (write_boundary_values i q 0 (evolved_quantities d) d))
    = controls d /\
    calls (final (write_boundary_values i q 0 (evolved_quantities d) d))
    = calls d).
  { intros q. destruct (write_boundary_values_frame i q (evolved_quantities d) 0 d)
      as [Hc Hj]. split; [done|]. unfold journal in Hj. by injection Hj. }
  destruct (decide _); [apply Hw|].
  destruct (decide _); [|done].
  unfold query.
  destruct (get_evolved_quantities d vol_id None (Some edge_id)); [|done].
  destruct (conserved_values_to_evolved_values _ _); [apply Hw|done].
Qed.

Lemma update_boundary_from_frame `{External}
  (objs : list ((nat * nat) * option Boundary)) :
  forall (i : nat) (d : Domain),
  controls (final (update_boundary_from i objs d)) = controls d /\
  calls (final (update_boundary_from i objs d)) = calls d.
Proof.
  induction objs as [|entry objs IH]; intros i d; simpl; [done|].
  destruct (update_boundary_entry_frame i entry d) as [Hc Hcalls].
  destruct (update_boundary_entry i entry d) as [d1|e d1]; simpl in *;
    [|done].
  destruct (IH (S i) d1) as [-> ->]. done.
Qed.

Lemma update_boundary_traced `{External} (d d' : Domain) :
  update_boundary d = Normal d' -> traced update_boundary_ d d'.
Proof.
  unfold update_boundary. simpl.
  destruct (boundary_objects d) as [objs|]; [|done].
  intros Hret.
  destruct (update_boundary_from_frame objs 0 (enter update_boundary_ d))
    as [Hc Hcalls].
  rewrite Hret in Hc, Hcalls. done.
Qed.

Lemma update_extrema_traced `{External} (d d' : Domain) :
  update_extrema d = Normal d' -> traced update_extrema_ d d'.
Proof.
  unfold update_extrema. simpl.
  destruct (quantities_to_be_monitored d) as [monitored|];
    [|by intros [= <-]].
  destruct (match monitor_time_interval d with
            | Some (t0, t1) => _
            | None => false
            end); [by intros [= <-]|].
  set (d0 := enter update_extrema_ d).
  generalize (map_to_list monitored). intros l. revert d'.
  induction l as [|[quantity_name info] l IH]; intros d'; simpl.
  - intros [= <-]. done.
  - destruct (foldr _ _ l) as [d1|e d1]; simpl; [|done].
    unfold query. destruct (match quantities d1 !! quantity_name with
                            | Some Qn => _
                            | None => _
                            end) as [Qn|e]; [|done].
    intros [= <-]. destruct (IH d1 eq_refl) as [Hc Hcalls]. done.
Qed.

(** ** Boundary-value update *)

(** Writing the vector [q], from its position [j] on, into slot [i] of the
    quantities [names]. *)
Lemma write_boundary_values_spec (i : nat) (q : list Q) (names : list string) :
  forall (j : nat) (d : Domain),
  NoDup names ->
  (forall name, name ∈ names ->
     exists Qn, quantities d !! name = Some Qn /\
                (i < length (boundary_values Qn))%nat) ->
  (j + length names <= length q)%nat ->
  exists d',
    write_boundary_values i q j names d = Normal d' /\
    (forall k name, names !! k = Some name ->
       exists Qn x, quantities d !! name = Some Qn /\
         q !! (j + k)%nat = Some x /\
         quantities d' !! name
         = Some (upd_boundary_values (<[i := x]> (boundary_values Qn)) Qn)) /\
    (forall name, name ∉ names -> quantities d' !! name = quantities d !! name).
Proof.
  induction names as [|name names IH]; intros j d Hnd Hslot Hlen; simpl.
  { exists d. split; [done|]. split; [|done].
    intros k name Hk. by rewrite lookup_nil in Hk. }
  apply NoDup_cons in Hnd as [Hfresh Hnd].
  destruct (Hslot name) as (Qn & HQn & Hi); [by left|].
  unfold query, get_quantity. rewrite HQn.
  simpl in Hlen.
  destruct (lookup_lt_is_Some_2 q j) as [x Hx]; [lia|].
  unfold getitem. rewrite Hx. unfold setitem. rewrite decide_True by done.
  set (d1 := upd_quantities _ d).
  destruct (IH (S j) d1 Hnd) as (d' & Hret & Hnew & Hold).
  { intros name' Hin. destruct (Hslot name') as (Qn' & HQn' & Hi');
      [by right|].
    exists Qn'. split; [|done]. unfold d1. simpl.
    rewrite lookup_insert_ne; [done|]. intros ->. done. }
  { lia. }
  exists d'. split; [done|]. split.
  - intros [|k] name' Hk; simpl in Hk.
    + injection Hk as <-. exists Qn, x. rewrite Nat.add_0_r.
      split; [done|]. split; [done|].
      rewrite Hold by done. unfold d1. simpl. by rewrite lookup_insert_eq.
    + destruct (Hnew k name' Hk) as (Qn' & x' & HQn' & Hx' & Hd').
      exists Qn', x'. unfold d1 in HQn'. simpl in HQn'.
      rewrite lookup_insert_ne in HQn'.
      * split; [done|]. split; [|done]. by rewrite <- Nat.add_succ_comm.
      * intros ->. apply Hfresh. by eapply list_elem_of_lookup_2.
  - intros name' Hnotin. rewrite not_elem_of_cons in Hnotin.
    destruct Hnotin as [Hne Hnotin]. rewrite Hold by done.
    unfold d1. simpl. by rewrite lookup_insert_ne.
Qed.

(** Every entry of [boundary_objects] is handled in turn, the entry at
    position [k] with slot [k]. *)
Lemma update_boundary_from_lookup `{External}
  (objs : list ((nat * nat) * option Boundary)) :
  forall (i k : nat) (entry : (nat * nat) * option Boundary) (d : Domain),
  objs !! k = Some entry ->
  update_boundary_from i objs d
  = (d1 <- update_boundary_from i (take k objs) d ;;;
     d2 <- update_boundary_entry (i + k) entry d1 ;;;
     update_boundary_from (S (i + k)) (drop (S k) objs) d2).
Proof.
  induction objs as [|entry0 objs IH]; intros i k entry d Hk.
  { by rewrite lookup_nil in Hk. }
  destruct k as [|k]; simpl in *.
  - injection Hk as <-. by rewrite Nat.add_0_r.
  - destruct (update_boundary_entry i entry0 d) as [d1|e d1]; simpl; [|done].
    rewrite (IH (S i) k entry d1 Hk). by rewrite Nat.add_succ_comm.
Qed.

(** C6: [update_boundary] handles every entry of [boundary_objects] in turn,
    the entry at position [k] with slot [k].  For an entry with a boundary
    object it evaluates the object and looks at the length of the vector: a
    vector of evolved length is written as it is into slot [i] of the
    boundary values of the evolved quantities; a vector of conserved length
    is passed, with the current evolved edge vector, through
    [conserved_values_to_evolved_values] and the result is written, an error
    of the conversion being raised; any other length raises the contract
    error and leaves the domain alone.  The conversion of the base class
    returns the conserved values when both vectors have the same length and
    raises otherwise. *)
Theorem update_boundary_contract `{External} (i vol_id edge_id : nat)
  (B : Boundary) (d : Domain)
  (Hnames : NoDup (evolved_quantities d))
  (Hslot : forall name, name ∈ evolved_quantities d ->
     exists Qn, quantities d !! name = Some Qn /\
                (i < length (boundary_values Qn))%nat) :
  let q_bdry := evaluate B (time d) (quantities d) vol_id edge_id in
  let o := update_boundary_entry i ((vol_id, edge_id), Some B) d in
  (length q_bdry = length (evolved_quantities d) ->
     exists d', o = Normal d' /\ written i q_bdry d d') /\
  (length q_bdry <> length (evolved_quantities d) ->
   length q_bdry = length (conserved_quantities d) ->
     match get_evolved_quantities d vol_id None (Some edge_id) with
     | Ok q_evol =>
         match conserved_values_to_evolved_values q_bdry q_evol with
         | Ok q_evol' =>
             (length (evolved_quantities d) <= length q_evol')%nat ->
             exists d', o = Normal d' /\ written i q_evol' d d'
         | Error e => o = Raised e d
         end
     | Error e => o = Raised e d
     end) /\
  (length q_bdry <> length (evolved_quantities d) ->
   length q_bdry <> length (conserved_quantities d) ->
     o = Raised BoundaryWrongLength d) /\
  (forall q_cons q_evol,
     conserved_values_to_evolved_values_default q_cons q_evol
     = if decide (length q_cons = length q_evol) then Ok q_cons
       else Error ConservedToEvolvedNotOverridden) /\
  (conserved_values_to_evolved_values_override = None ->
   forall q_cons q_evol,
     conserved_values_to_evolved_values q_cons q_evol
     = conserved_values_to_evolved_values_default q_cons q_evol) /\
  (forall objs k entry, boundary_objects d = Some objs ->
     objs !! k = Some entry ->
     update_boundary d
     = (d1 <- update_boundary_from 0 (take k objs) (enter update_boundary_ d) ;;;
        d2 <- update_boundary_entry k entry d1 ;;;
        update_boundary_from (S k) (drop (S k) objs) d2)).
Proof.
  intros q_bdry o.
  assert (Hwrite : forall q,
    (length (evolved_quantities d) <= length q)%nat ->
    exists d', write_boundary_values i q 0 (evolved_quantities d) d = Normal d'
               /\ written i q d d').
  { intros q Hlen.
    destruct (write_boundary_values_spec i q (evolved_quantities d) 0 d
                Hnames Hslot) as (d' & Hret & Hnew & _); [simpl; lia|].
    exists d'. split; [done|]. intros j name Hj.
    destruct (Hnew j name Hj) as (Qn & x & ? & ? & ?). eauto. }
  subst o. unfold update_boundary_entry. fold q_bdry.
  split; [|split; [|split; [|split; [|split]]]].
  - intros Hlen. rewrite decide_True by done. apply Hwrite. lia.
  - intros Hne Hlen. rewrite decide_False by done.
    rewrite decide_True by done. unfold query.
    destruct (get_evolved_quantities d vol_id None (Some edge_id))
      as [q_evol|e]; [|done].
    destruct (conserved_values_to_evolved_values q_bdry q_evol)
      as [q_evol'|e]; [|done].
    apply Hwrite.
  - intros Hne1 Hne2. by rewrite !decide_False by done.
  - done.
  - intros Hnone q_cons q_evol. unfold conserved_values_to_evolved_values.
    by rewrite Hnone.
  - intros objs k entry Hobjs Hk. unfold update_boundary. simpl.
    rewrite Hobjs. by rewrite (update_boundary_from_lookup objs 0 k entry).
Qed.

(** C6, witness: slot 0 of the bound pond, fed by the wall at edge 0 of
    triangle 0. *)
Lemma update_boundary_contract_witness :
  let d := bound_pond 1 in
  let B := Dirichlet_boundary "wall" [10; 0; 0]%Q in
  exists d',
    @update_boundary_entry Generic_Domain_class 0 ((0, 0)%nat, Some B) d
    = Normal d' /\
    written 0 [10; 0; 0]%Q d d'.
Proof.
  assert (Hnames : NoDup (evolved_quantities (bound_pond 1))).
  { apply (bool_decide_unpack _). vm_compute. exact I. }
  assert (Hslot : forall name, name ∈ evolved_quantities (bound_pond 1) ->
            exists Qn, quantities (bound_pond 1) !! name = Some Qn /\
                       (0 < length (boundary_values Qn))%nat).
  { intros name Hin.
    let l := eval vm_compute in (evolved_quantities (bound_pond 1)) in
    change (evolved_quantities (bound_pond 1)) with l in Hin.
    repeat (apply elem_of_cons in Hin as [->|Hin]);
      try (by apply elem_of_nil in Hin);
      (eexists; split; [vm_compute; reflexivity | simpl; lia]). }
  destruct (@update_boundary_contract Generic_Domain_class 0 0 0
              (Dirichlet_boundary "wall" [10; 0; 0]%Q) (bound_pond 1)
              Hnames Hslot) as [Hdirect _].
  apply Hdirect. vm_compute. reflexivity.
Defined.

(** ** Protection against isolated degenerate timesteps *)

Lemma zero_quantity_at_spec (name : string) (i : nat) (d : Domain)
  (Qn : Quantity) :
  quantities d !! name = Some Qn ->
  (i < length (vertex_values Qn))%nat ->
  (i < length (centroid_values Qn))%nat ->
  (i < length (edge_values Qn))%nat ->
  zero_quantity_at name i d
  = Normal (upd_quantities (<[name := zero_cell Qn i]> (quantities d)) d).
Proof.
  intros HQ Hv Hc He. unfold zero_quantity_at, query, get_quantity.
  rewrite HQ. unfold Quantity_set_values_zero, setitem.
  rewrite !decide_True by done. done.
Qed.

Lemma insert_pair_twice {A : Type} (m : gmap string A) (x y : string)
  (a b a' b' : A) :
  x <> y ->
  <[y := a]> (<[x := b]> (<[y := a']> (<[x := b']> m)))
  = <[y := a]> (<[x := b]> m).
Proof.
  intros Hxy. apply map_eq. intros k.
  destruct (decide (k = y)) as [->|Hy]; [by rewrite !lookup_insert_eq|].
  rewrite (lookup_insert_ne _ y k) by done.
  rewrite (lookup_insert_ne (<[x:=b]> m) y k) by done.
  destruct (decide (k = x)) as [->|Hx]; [by rewrite !lookup_insert_eq|].
  rewrite !lookup_insert_ne by done. done.
Qed.

Lemma isolated_triangles_ext (bins_last : Q) (speeds speeds' : list Q)
  (ids : list nat) :
  (forall i, i ∈ ids -> speeds' !! i = speeds !! i) ->
  isolated_triangles bins_last speeds' ids
  = isolated_triangles bins_last speeds ids.
Proof.
  intros Hsame. unfold isolated_triangles. apply List.filter_ext_in.
  intros i Hi. apply list_elem_of_In in Hi. by rewrite Hsame.
Qed.

Lemma zero_cell_covers (Qn : Quantity) (i : nat) (ids : list nat) :
  covers Qn ids -> covers (zero_cell Qn i) ids.
Proof.
  intros Hc j Hj. destruct (Hc j Hj) as (? & ? & ?).
  unfold zero_cell. simpl. by rewrite !length_insert.
Qed.

(** The loop over the full triangles, when both momenta exist: the isolated
    triangles are zeroed in both momenta and in [max_speed]. *)
Lemma ignore_isolated_triangles_spec (bins_last : Q) (ids : list nat) :
  forall (d : Domain) (Qx Qy : Quantity),
  NoDup ids ->
  quantities d !! "xmomentum"%string = Some Qx ->
  quantities d !! "ymomentum"%string = Some Qy ->
  covers Qx ids -> covers Qy ids ->
  (forall i, i ∈ ids -> (i < length (max_speed d))%nat) ->
  let hot := isolated_triangles bins_last (max_speed d) ids in
  exists d',
    ignore_isolated_triangles bins_last ids d = Normal d' /\
    max_speed d' = foldl (fun ms i => <[i := 0%Q]> ms) (max_speed d) hot /\
    quantities d'
    = <["ymomentum"%string := foldl zero_cell Qy hot]>
        (<["xmomentum"%string := foldl zero_cell Qx hot]> (quantities d)).
Proof.
  induction ids as [|i ids IH]; intros d Qx Qy Hnd HQx HQy Hcx Hcy Hms hot.
  { exists d. split; [done|]. split; [done|]. subst hot. simpl.
    rewrite (insert_id _ "xmomentum"%string Qx) by done.
    by rewrite (insert_id _ "ymomentum"%string Qy). }
  apply NoDup_cons in Hnd as [Hfresh Hnd].
  destruct (lookup_lt_is_Some_2 (max_speed d) i) as [speed Hspeed];
    [apply Hms; by left|].
  assert (Hcx' : covers Qx ids) by (intros j Hj; apply Hcx; by right).
  assert (Hcy' : covers Qy ids) by (intros j Hj; apply Hcy; by right).
  assert (Hms' : forall j, j ∈ ids -> (j < length (max_speed d))%nat)
    by (intros j Hj; apply Hms; by right).
  subst hot. simpl. unfold query, getitem. rewrite Hspeed.
  destruct (Qltb bins_last speed) eqn:Hhot.
  - destruct (Hcx i) as (Hx1 & Hx2 & Hx3); [by left|].
    destruct (Hcy i) as (Hy1 & Hy2 & Hy3); [by left|].
    rewrite (zero_quantity_at_spec _ i d Qx) by done. simpl.
    rewrite (zero_quantity_at_spec _ i _ Qy); simpl;
      [|by rewrite lookup_insert_ne|done..].
    unfold setitem. rewrite decide_True by (apply Hms; by left).
    set (d3 := upd_max_speed _ _).
    destruct (IH d3 (zero_cell Qx i) (zero_cell Qy i) Hnd)
      as (d' & Hret & Hspeeds & Hq).
    + unfold d3. simpl. rewrite lookup_insert_ne by done.
      by rewrite lookup_insert_eq.
    + unfold d3. simpl. by rewrite lookup_insert_eq.
    + by apply zero_cell_covers.
    + by apply zero_cell_covers.
    + intros j Hj. unfold d3. simpl. rewrite length_insert. by apply Hms'.
    + assert (Hsame : isolated_triangles bins_last (max_speed d3) ids
                      = isolated_triangles bins_last (max_speed d) ids).
      { apply isolated_triangles_ext. intros j Hj. unfold d3. simpl.
        apply list_lookup_insert_ne. intros ->. done. }
      rewrite Hsame in Hspeeds, Hq.
      exists d'. split; [done|]. split; [done|].
      rewrite Hq. unfold d3. simpl. by apply insert_pair_twice.
  - destruct (IH d Qx Qy Hnd HQx HQy Hcx' Hcy' Hms') as (d' & Hret & Hrest).
    exists d'. done.
Qed.

(** The same loop on a domain without x momentum: it stops at the first
    isolated triangle with a lookup error. *)
Lemma ignore_isolated_triangles_without_momentum (bins_last : Q)
  (ids : list nat) (d : Domain) :
  quantities d !! "xmomentum"%string = None ->
  (forall i, i ∈ ids -> (i < length (max_speed d))%nat) ->
  ignore_isolated_triangles bins_last ids d
  = match isolated_triangles bins_last (max_speed d) ids with
    | [] => Normal d
    | _ :: _ => Raised (KeyError "xmomentum") d
    end.
Proof.
  intros Hnone. induction ids as [|i ids IH]; intros Hms; simpl; [done|].
  destruct (lookup_lt_is_Some_2 (max_speed d) i) as [speed Hspeed];
    [apply Hms; by left|].
  unfold query, getitem. rewrite Hspeed.
  destruct (Qltb bins_last speed).
  - unfold zero_quantity_at, query, get_quantity. by rewrite Hnone.
  - apply IH. intros j Hj. apply Hms. by right.
Qed.

Lemma foldl_zero_lookup {A : Type} (z : A) (cells : list nat) :
  forall (a : list A) (i : nat),
  foldl (fun a i => <[i := z]> a) a cells !! i
  = if decide (i ∈ cells) then (fun _ => z) <$> a !! i else a !! i.
Proof.
  induction cells as [|c cells IH]; intros a i; cbn [foldl].
  { rewrite decide_False; [done|]. apply not_elem_of_nil. }
  rewrite IH. rewrite list_lookup_insert.
  destruct (decide (c = i /\ (c < length a)%nat)) as [[-> Hlt]|Hc].
  - destruct (lookup_lt_is_Some_2 a i Hlt) as [x ->].
    rewrite (decide_True (P := i ∈ i :: cells)) by (by left).
    by destruct (decide (i ∈ cells)).
  - destruct (decide (i ∈ cells)) as [Hin|Hnotin].
    + by rewrite (decide_True (P := i ∈ c :: cells)) by (by right).
    + destruct (decide (i ∈ c :: cells)) as [Hin|]; [|done].
      apply elem_of_cons in Hin as [->|]; [|done].
      destruct (a !! c) eqn:Hac; [|done].
      exfalso. apply Hc. split; [done|]. by eapply lookup_lt_Some.
Qed.

Lemma foldl_zero_cell_arrays (cells : list nat) :
  forall Qn : Quantity,
  vertex_values (foldl zero_cell Qn cells)
  = foldl (fun a i => <[i := [0; 0; 0]%Q]> a) (vertex_values Qn) cells /\
  centroid_values (foldl zero_cell Qn cells)
  = foldl (fun a i => <[i := 0%Q]> a) (centroid_values Qn) cells /\
  edge_values (foldl zero_cell Qn cells)
  = foldl (fun a i => <[i := [0; 0; 0]%Q]> a) (edge_values Qn) cells /\
  boundary_values (foldl zero_cell Qn cells) = boundary_values Qn.
Proof.
  induction cells as [|c cells IH]; intros Qn; simpl; [done|].
  destruct (IH (zero_cell Qn c)) as (-> & -> & -> & ->). done.
Qed.

Lemma elem_of_isolated_triangles (bins_last : Q) (speeds : list Q)
  (ids : list nat) (i : nat) :
  i ∈ isolated_triangles bins_last speeds ids <->
  i ∈ ids /\ exists speed, speeds !! i = Some speed /\ (bins_last < speed)%Q.
Proof.
  unfold isolated_triangles. rewrite list_elem_of_In, List.filter_In.
  rewrite <- list_elem_of_In. split.
  - intros [Hin Hhot]. split; [done|].
    destruct (speeds !! i) as [speed|]; [|done].
    exists speed. split; [done|]. by apply Qltb_true.
  - intros [Hin (speed & -> & Hlt)]. split; [done|]. by apply Qltb_true.
Qed.

Lemma characteristic_signature_true (hist : list Z) :
  signature_holds hist -> characteristic_signature hist = Ok true.
Proof.
  intros (Hlen & (h & Hlast & Hpos) & H4 & H5 & H6 & H7 & H8).
  unfold characteristic_signature, getitem.
  rewrite decide_True by done. rewrite Hlast. cbn [rbind].
  rewrite decide_True by done. rewrite H4, H5. cbn [rbind].
  rewrite decide_True by done. rewrite H6. cbn [rbind].
  rewrite decide_True by done. rewrite H7. cbn [rbind].
  rewrite decide_True by done. rewrite H8. cbn [rbind].
  rewrite decide_True by done. done.
Qed.

Lemma characteristic_signature_only (hist : list Z) :
  characteristic_signature hist = Ok true -> signature_holds hist.
Proof.
  unfold characteristic_signature, getitem, signature_holds.
  destruct (decide (1 < length hist)%nat) as [Hlen|]; [|done].
  destruct (hist !! (length hist - 1)%nat) as [h|]; cbn [rbind]; [|done].
  destruct (decide (0 < h)) as [Hpos|]; [|done].
  destruct (hist !! 4%nat) as [h4|]; cbn [rbind]; [|done].
  destruct (hist !! 5%nat) as [h5|]; cbn [rbind]; [|done].
  destruct (decide (h4 = h5)) as [->|]; [|done].
  destruct (hist !! 6%nat) as [h6|]; cbn [rbind]; [|done].
  destruct (decide (h5 = h6)) as [->|]; [|done].
  destruct (hist !! 7%nat) as [h7|]; cbn [rbind]; [|done].
  destruct (decide (h6 = h7)) as [->|]; [|done].
  destruct (hist !! 8%nat) as [h8|]; cbn [rbind]; [|done].
  destruct (decide (h7 = h8)) as [->|]; [|done].
  intros [= Hzero]. apply bool_decide_eq_true in Hzero as ->.
  split; [done|]. split; [by exists h|]. done.
Qed.

Lemma create_bins_length (data : list Q) (bins : list Q) :
  create_bins data 10 = Ok bins -> length bins = 10%nat \/ length bins = 1%nat.
Proof.
  unfold create_bins.
  destruct (num_max data) as [mx|]; simpl; [|done].
  destruct (num_min data) as [mn|]; simpl; [|done].
  destruct (Qeq_bool mx mn); intros [= <-]; [by right|by left].
Qed.

Lemma histogram_length (a bins : list Q) :
  length (histogram a bins) = length bins.
Proof. unfold histogram. apply length_imap. Qed.

(** C8, as the code has it.  The routine returns at once, leaving the domain
    as it is, when the feature is switched off or the largest maximal speed
    is below 10.  Otherwise, when the histogram over ten bins has the
    signature (more than one bin, last bin not empty, bins 4 to 8 empty),
    the isolated triangles are the full triangles whose maximal speed exceeds
    the edge between bin 8 and bin 9; on a domain that has the quantities
    xmomentum and ymomentum both are set to zero there, with the maximal
    speed, and nothing else changes; on a domain without xmomentum the
    routine raises the lookup error as soon as there is an isolated
    triangle, and leaves the domain as it is. *)
Theorem isolated_timestep_protection_contract (d : Domain) :
  let run := apply_protection_against_isolated_degenerate_timesteps d in
  let N := number_of_full_triangles d in
  (protect_against_isolated_degenerate_timesteps d = false ->
     run = Normal d) /\
  (forall top,
     num_max (max_speed d) = Ok top -> (top < 10)%Q -> run = Normal d) /\
  (forall top bins,
     protect_against_isolated_degenerate_timesteps d = true ->
     num_max (max_speed d) = Ok top -> (10 <= top)%Q ->
     create_bins (max_speed d) 10 = Ok bins ->
     signature_holds (histogram (max_speed d) bins) ->
     (N <= length (max_speed d))%nat ->
     exists edge8,
       bins !! 9%nat = Some edge8 /\
       let hot := isolated_triangles edge8 (max_speed d) (seq 0 N) in
       (forall i, i ∈ hot <->
          (i < N)%nat /\
          exists speed, max_speed d !! i = Some speed /\ (edge8 < speed)%Q) /\
       (forall Qx Qy,
          quantities d !! "xmomentum"%string = Some Qx ->
          quantities d !! "ymomentum"%string = Some Qy ->
          covers Qx (seq 0 N) -> covers Qy (seq 0 N) ->
          exists d' Qx' Qy',
            run = Normal d' /\
            quantities d' !! "xmomentum"%string = Some Qx' /\
            quantities d' !! "ymomentum"%string = Some Qy' /\
            (forall i, i ∈ hot ->
               max_speed d' !! i = Some 0%Q /\
               cell_is_zero Qx' i /\ cell_is_zero Qy' i) /\
            (forall i, i ∉ hot ->
               max_speed d' !! i = max_speed d !! i /\
               same_cell Qx Qx' i /\ same_cell Qy Qy' i) /\
            (forall name, name <> "xmomentum"%string ->
               name <> "ymomentum"%string ->
               quantities d' !! name = quantities d !! name)) /\
       (quantities d !! "xmomentum"%string = None ->
          run = match hot with
                | [] => Normal d
                | _ :: _ => Raised (KeyError "xmomentum") d
                end)).
Proof.
  intros run N. subst run.
  unfold apply_protection_against_isolated_degenerate_timesteps.
  split; [by intros ->|]. split.
  { intros top Htop Hlt. destruct (negb _); [done|].
    unfold query. rewrite Htop. apply Qltb_true in Hlt. by rewrite Hlt. }
  intros top bins Hflag Htop Hge Hbins Hsig Hfull.
  rewrite Hflag. simpl. unfold query. rewrite Htop.
  apply Qltb_false in Hge. rewrite Hge. rewrite Hbins.
  rewrite (characteristic_signature_true _ Hsig).
  assert (Hlen : length bins = 10%nat).
  { destruct Hsig as (Hmany & _). rewrite histogram_length in Hmany.
    destruct (create_bins_length _ _ Hbins); lia. }
  rewrite Hlen. simpl.
  destruct (lookup_lt_is_Some_2 bins 9) as [edge8 Hedge]; [lia|].
  unfold getitem. rewrite Hedge.
  exists edge8. split; [done|]. simpl.
  assert (Hids : forall i, i ∈ seq 0 N -> (i < length (max_speed d))%nat).
  { intros i Hi. apply elem_of_seq in Hi. lia. }
  split; [|split].
  - intros i. rewrite elem_of_isolated_triangles, elem_of_seq.
    split; intros [? ?]; split; (lia || done).
  - intros Qx Qy HQx HQy Hcx Hcy.
    destruct (ignore_isolated_triangles_spec edge8 (seq 0 N) d Qx Qy
                (NoDup_seq 0 N) HQx HQy Hcx Hcy Hids)
      as (d' & Hret & Hspeeds & Hq).
    set (hot := isolated_triangles edge8 (max_speed d) (seq 0 N)) in *.
    exists d', (foldl zero_cell Qx hot), (foldl zero_cell Qy hot).
    split; [done|]. rewrite Hq.
    split; [rewrite lookup_insert_ne by done; by rewrite lookup_insert_eq|].
    split; [by rewrite lookup_insert_eq|].
    destruct (foldl_zero_cell_arrays hot Qx) as (Hxv & Hxc & Hxe & _).
    destruct (foldl_zero_cell_arrays hot Qy) as (Hyv & Hyc & Hye & _).
    unfold cell_is_zero, same_cell.
    rewrite Hspeeds, Hxv, Hxc, Hxe, Hyv, Hyc, Hye.
    split; [|split].
    + intros i Hi. rewrite !foldl_zero_lookup. rewrite !decide_True by done.
      assert (Hin : i ∈ seq 0 N).
      { unfold hot in Hi. apply elem_of_isolated_triangles in Hi. tauto. }
      destruct (Hcx i Hin) as (Hx1 & Hx2 & Hx3).
      destruct (Hcy i Hin) as (Hy1 & Hy2 & Hy3).
      specialize (Hids i Hin).
      destruct (lookup_lt_is_Some_2 _ _ Hx1) as [? ->].
      destruct (lookup_lt_is_Some_2 _ _ Hx2) as [? ->].
      destruct (lookup_lt_is_Some_2 _ _ Hx3) as [? ->].
      destruct (lookup_lt_is_Some_2 _ _ Hy1) as [? ->].
      destruct (lookup_lt_is_Some_2 _ _ Hy2) as [? ->].
      destruct (lookup_lt_is_Some_2 _ _ Hy3) as [? ->].
      destruct (lookup_lt_is_Some_2 _ _ Hids) as [? ->].
      done.
    + intros i Hi. rewrite !foldl_zero_lookup. by rewrite !decide_False by done.
    + intros name Hx Hy. by rewrite !lookup_insert_ne by done.
  - intros Hnone.
    by apply ignore_isolated_triangles_without_momentum.
Qed.

(** C8, witness: the racing pond, whose third triangle is isolated at
    speed 100. *)
Lemma isolated_timestep_protection_contract_witness :
  exists d',
    apply_protection_against_isolated_degenerate_timesteps racing_pond
    = Normal d' /\
    max_speed d' !! 2%nat = Some 0%Q /\
    max_speed d' !! 0%nat = max_speed racing_pond !! 0%nat.
Proof.
  pose (bins := match create_bins (max_speed racing_pond) 10 with
                | Ok b => b
                | Error _ => []
                end).
  destruct (isolated_timestep_protection_contract racing_pond)
    as (_ & _ & Hsig).
  destruct (Hsig 100%Q bins) as (edge8 & Hedge & Hhot & Hzero & _).
  { reflexivity. }
  { vm_compute. reflexivity. }
  { vm_compute. intros [=]. }
  { vm_compute. reflexivity. }
  { apply characteristic_signature_only. vm_compute. reflexivity. }
  { vm_compute. lia. }
  vm_compute in Hedge. injection Hedge as <-.
  destruct (Hzero (constant_quantity 3 3 0) (constant_quantity 3 3 0))
    as (d' & Qx' & Qy' & Hret & _ & _ & Hin & Hout & _).
  { vm_compute. reflexivity. }
  { vm_compute. reflexivity. }
  { intros i Hi. apply elem_of_seq in Hi. vm_compute in Hi.
    vm_compute. lia. }
  { intros i Hi. apply elem_of_seq in Hi. vm_compute in Hi.
    vm_compute. lia. }
  exists d'. split; [exact Hret|]. split.
  - apply Hin. apply Hhot. split; [vm_compute; lia|].
    exists 100%Q. split; [reflexivity | vm_compute; reflexivity].
  - apply Hout. intros Hin0. apply Hhot in Hin0 as (_ & speed & Hs & Hlt).
    vm_compute in Hs. injection Hs as <-. vm_compute in Hlt. discriminate.
Defined.

(** C8, as stated, fails in its last part: the tracer domain has neither
    momentum, yet with the feature on and the signature present the routine
    is no no-op: it raises [KeyError] for 'xmomentum'. *)
Lemma protection_raises_without_momentum :
  quantities tracer_domain !! "xmomentum"%string = None /\
  quantities tracer_domain !! "ymomentum"%string = None /\
  apply_protection_against_isolated_degenerate_timesteps tracer_domain
  = Raised (KeyError "xmomentum") tracer_domain.
Proof. split; [|split]; vm_compute; reflexivity. Qed.

(** ** The Runge-Kutta step of third order *)

Lemma traced_clock (c : Call) (d d' : Domain) :
  traced c d d' ->
  time d' = time d /\ timestep d' = timestep d /\
  conserved_quantities d' = conserved_quantities d /\
  calls d' = calls d ++ [(c, time d)].
Proof.
  intros [Hc Hcalls]. unfold controls in Hc. injection Hc as ?.
  repeat split; congruence.
Qed.

Lemma traced_pace (c : Call) (d d' : Domain) :
  traced c d d' -> pace d' = pace d.
Proof.
  intros [Hc _]. unfold controls in Hc. injection Hc as ?.
  unfold pace. congruence.
Qed.

Lemma update_timestep_clock `{External} (yieldstep : Q)
  (finaltime : option Q) (d d' : Domain) :
  update_timestep yieldstep finaltime d = Normal d' ->
  time d' = time d /\
  conserved_quantities d' = conserved_quantities d /\
  calls d' = calls d ++ [(update_timestep_, time d)] /\
  pace d' = pace d /\
  (time d + timestep d' <= yieldtime d)%Q /\
  (forall ft, finaltime = Some ft -> time d + timestep d' <= ft)%Q.
Proof.
  intros Hret.
  destruct (update_timestep_normal _ _ _ _ Hret) as (Hs & _ & Hcalls).
  destruct (update_timestep_clamped _ _ _ _ Hret) as (_ & Hy & Hf).
  unfold schedule in Hs. injection Hs as ?.
  unfold pace. repeat split; (congruence || done).
Qed.

Lemma for_each_quantity_backups (f : Quantity -> result Quantity)
  (names : list string) :
  (forall Qn Qn', f Qn = Ok Qn' ->
     centroid_backup_values Qn' = centroid_backup_values Qn) ->
  forall d, backups (final (for_each_quantity f names d)) = backups d.
Proof.
  intros Hf. induction names as [|name names IH]; intros d; simpl; [done|].
  unfold query, get_quantity.
  destruct (quantities d !! name) as [Qn|] eqn:HQn; [|done].
  destruct (f Qn) as [Qn'|e] eqn:Hfq; [|done].
  rewrite IH. unfold backups. simpl. rewrite fmap_insert.
  apply insert_id. rewrite lookup_fmap, HQn. simpl. f_equal.
  symmetry. by apply Hf.
Qed.

(** With distinct names, [for_each_quantity] replaces the quantity of each
    name by its image and leaves the others. *)
Lemma for_each_quantity_lookup (f : Quantity -> result Quantity)
  (names : list string) :
  forall d d', NoDup names ->
  for_each_quantity f names d = Normal d' ->
  (forall name, name ∈ names ->
     exists Qn Qn', quantities d !! name = Some Qn /\ f Qn = Ok Qn' /\
                    quantities d' !! name = Some Qn') /\
  (forall name, name ∉ names -> quantities d' !! name = quantities d !! name).
Proof.
  induction names as [|name names IH]; intros d d' Hnd; simpl.
  { intros [= <-]. split; [|done]. intros name Hin.
    by apply elem_of_nil in Hin. }
  apply NoDup_cons in Hnd as [Hfresh Hnd].
  unfold query, get_quantity.
  destruct (quantities d !! name) as [Qn|] eqn:HQn; [|done].
  destruct (f Qn) as [Qn'|e] eqn:Hfq; [|done].
  intros Hret. destruct (IH _ _ Hnd Hret) as [Hin Hout]. simpl in *.
  split.
  - intros name' Hname'. apply elem_of_cons in Hname' as [->|Hname'].
    + exists Qn, Qn'. rewrite Hout by done. by rewrite lookup_insert_eq.
    + destruct (Hin name' Hname') as (Q1 & Q1' & HQ1 & Hf1 & HQ1').
      exists Q1, Q1'. rewrite lookup_insert_ne in HQ1; [done|].
      intros ->. done.
  - intros name' Hname'. apply not_elem_of_cons in Hname' as [Hne Hname'].
    rewrite Hout by done. by rewrite lookup_insert_ne.
Qed.

Lemma apply_updates_backups (u : Updates) (d : Domain) :
  backups (apply_updates u d) = backups d.
Proof.
  unfold backups, apply_updates. simpl. apply map_eq. intros name.
  rewrite !lookup_fmap, map_lookup_imap.
  destruct (quantities d !! name) as [Qn|]; simpl; [|done].
  by destruct (new_explicit_update u !! name),
              (new_semi_implicit_update u !! name).
Qed.

Lemma compute_fluxes_backups `{External} (d d' : Domain) :
  compute_fluxes d = Normal d' -> backups d' = backups d.
Proof.
  unfold compute_fluxes. destruct compute_fluxes_override as [kernel|]; [|done].
  unfold query. destruct (kernel _) as [u|e]; [|done].
  intros [= <-]. by rewrite apply_updates_backups.
Qed.

Lemma compute_forcing_terms_backups (d d' : Domain) :
  compute_forcing_terms d = Normal d' -> backups d' = backups d.
Proof.
  unfold compute_forcing_terms. intros [= <-].
  assert (Hgen : forall fs d1,
    backups (foldl (fun d (f : ForcingTerm) =>
               apply_updates
                 (f (time d) (quantities d) (flux_timestep d) (max_speed d)) d)
             d1 fs) = backups d1).
  { induction fs as [|f fs IH]; intros d1; simpl; [done|].
    rewrite IH. apply apply_updates_backups. }
  etrans; [apply Hgen|done].
Qed.

Lemma zero_quantity_at_backups (name : string) (i : nat) (d : Domain) :
  backups (final (zero_quantity_at name i d)) = backups d.
Proof.
  unfold zero_quantity_at, query, get_quantity.
  destruct (quantities d !! name) as [Qn|] eqn:HQn; [|done].
  unfold Quantity_set_values_zero.
  destruct (setitem (vertex_values Qn) i _); simpl; [|done].
  destruct (setitem (centroid_values Qn) i _); simpl; [|done].
  destruct (setitem (edge_values Qn) i _); simpl; [|done].
  unfold backups. simpl. rewrite fmap_insert. apply insert_id.
  by rewrite lookup_fmap, HQn.
Qed.

Lemma ignore_isolated_triangles_backups (bins_last : Q) (ids : list nat) :
  forall d,
  backups (final (ignore_isolated_triangles bins_last ids d)) = backups d.
Proof.
  induction ids as [|i ids IH]; intros d; simpl; [done|].
  unfold query. destruct (getitem (max_speed d) i) as [speed|e]; [|done].
  destruct (Qltb bins_last speed); [|apply IH].
  pose proof (zero_quantity_at_backups "xmomentum" i d) as Hx.
  destruct (zero_quantity_at "xmomentum" i d) as [d1|e d1]; simpl in *;
    [|done].
  pose proof (zero_quantity_at_backups "ymomentum" i d1) as Hy.
  destruct (zero_quantity_at "ymomentum" i d1) as [d2|e d2]; simpl in *;
    [|congruence].
  destruct (setitem (max_speed d2) i 0%Q) as [ms|e]; simpl; [|congruence].
  rewrite IH. unfold backups in *. simpl. congruence.
Qed.

Lemma small_step_protection_quantities `{External} (ts : Q) (d1 : Domain)
  (ts' : Q) (o : outcome) :
  small_step_protection ts d1 = (ts', o) ->
  quantities (final o) = quantities d1.
Proof.
  unfold small_step_protection.
  repeat case_match; intros [= <- <-]; done.
Qed.

Lemma update_timestep_backups `{External} (yieldstep : Q)
  (finaltime : option Q) (d d' : Domain) :
  update_timestep yieldstep finaltime d = Normal d' -> backups d' = backups d.
Proof.
  unfold update_timestep.
  destruct (apply_protection_against_isolated_degenerate_timesteps
              (enter update_timestep_ d)) as [d0|e d0] eqn:Hprot; [|done].
  assert (Hb : backups d0 = backups d).
  { revert Hprot.
    unfold apply_protection_against_isolated_degenerate_timesteps, query.
    destruct (negb _); [by intros [= <-]|].
    destruct (num_max _) as [top|e]; [|done].
    destruct (Qltb top 10); [by intros [= <-]|].
    destruct (create_bins _ 10) as [bins|e]; [|done].
    destruct (characteristic_signature _) as [[|]|e]; try done;
      [|by intros [= <-]].
    destruct (getitem bins (length bins - 1)) as [bins_last|e]; [|done].
    intros Hloop.
    pose proof (ignore_isolated_triangles_backups bins_last
                  (seq 0 (number_of_full_triangles (enter update_timestep_ d)))
                  (enter update_timestep_ d)) as Hb.
    rewrite Hloop in Hb. exact Hb. }
  simpl.
  destruct (small_step_protection _ _) as [ts o] eqn:Hblock.
  apply small_step_protection_quantities in Hblock.
  destruct o as [d2|e d2]; simpl; [|done].
  intros [= <-]. unfold backups in *. simpl in *. congruence.
Qed.

Lemma write_boundary_values_backups (i : nat) (q : list Q)
  (names : list string) :
  forall (j : nat) (d : Domain),
  backups (final (write_boundary_values i q j names d)) = backups d.
Proof.
  induction names as [|name names IH]; intros j d; simpl; [done|].
  unfold query, get_quantity.
  destruct (quantities d !! name) as [Qn|] eqn:HQn; [|done].
  destruct (getitem q j) as [x|e]; [|done].
  destruct (setitem (boundary_values Qn) i x) as [bv|e]; [|done].
  rewrite IH. unfold backups. simpl. rewrite fmap_insert. apply insert_id.
  by rewrite lookup_fmap, HQn.
Qed.

Lemma update_boundary_backups `{External} (d d' : Domain) :
  update_boundary d = Normal d' -> backups d' = backups d.
Proof.
  unfold update_boundary. simpl.
  destruct (boundary_objects d) as [objs|]; [|done].
  change (backups d) with (backups (enter update_boundary_ d)).
  generalize (enter update_boundary_ d). intros d0.
  generalize 0%nat. intros i. revert i d0 d'.
  induction objs as [|[[vol_id edge_id] B] objs IH]; intros i d0 d'; simpl.
  { by intros [= <-]. }
  assert (Hentry : backups (final (update_boundary_entry i
                                     ((vol_id, edge_id), B) d0)) = backups d0).
  { unfold update_boundary_entry. destruct B as [B|]; [|done].
    destruct (decide _); [apply write_boundary_values_backups|].
    destruct (decide _); [|done]. unfold query.
    destruct (get_evolved_quantities _ _ _ _); [|done].
    destruct (conserved_values_to_evolved_values _ _); [|done].
    apply write_boundary_values_backups. }
  simpl in Hentry.
  destruct (match B with Some _ => _ | None => _ end) as [d1|e d1];
    simpl in *; [|done].
  intros Hret. rewrite (IH _ _ _ Hret). exact Hentry.
Qed.

Lemma for_each_quantity_backups_Normal (c : Call)
  (f : Quantity -> result Quantity) (names : list string) (d d' : Domain) :
  (forall Qn Qn', f Qn = Ok Qn' ->
     centroid_backup_values Qn' = centroid_backup_values Qn) ->
  for_each_quantity f names (enter c d) = Normal d' ->
  backups d' = backups d.
Proof.
  intros Hf Hret.
  pose proof (for_each_quantity_backups f names Hf (enter c d)) as Hb.
  rewrite Hret in Hb. exact Hb.
Qed.

Lemma update_conserved_quantities_backups `{External} (d d' : Domain) :
  update_conserved_quantities d = Normal d' -> backups d' = backups d.
Proof.
  apply for_each_quantity_backups_Normal. intros Qn Qn'.
  destruct (Quantity_update _ _). by intros [= <-].
Qed.

Lemma update_ghosts_backups (d d' : Domain) :
  update_ghosts d = Normal d' -> backups d' = backups d.
Proof.
  unfold update_ghosts. simpl.
  destruct (full_send_dict d !! processor d) as [Idf|]; [|by intros [= <-]].
  destruct (ghost_recv_dict d !! processor d) as [Idg|]; [|done].
  apply for_each_quantity_backups_Normal. intros Qn Qn'.
  destruct (num_take _ _); simpl; [|done].
  destruct (num_put _ _ _ _); simpl; [|done]. by intros [= <-].
Qed.

Lemma distribute_to_vertices_and_edges_backups `{External} (d d' : Domain) :
  distribute_to_vertices_and_edges d = Normal d' -> backups d' = backups d.
Proof.
  apply for_each_quantity_backups_Normal. intros Qn Qn'.
  destruct (decide _).
  - destruct (Quantity_extrapolate_first_order _). by intros [= <-].
  - destruct (decide _); [|done].
    destruct (Quantity_extrapolate_second_order _). by intros [= <-].
Qed.

Lemma saxpy_conserved_quantities_backups (a b : Q) (d d' : Domain) :
  saxpy_conserved_quantities a b d = Normal d' -> backups d' = backups d.
Proof.
  apply for_each_quantity_backups_Normal. intros Qn Qn'. by intros [= <-].
Qed.

Tactic Notation "peel" hyp(Hret) "with" constr(lem) "as"
  ident(d1) ident(Hop) ident(Ht) ident(Hts) ident(Hp) ident(Hc) :=
  apply and_then_Normal in Hret as (d1 & Hop & Hret);
  cbv beta zeta in Hret;
  pose proof Hop as Hc; apply lem in Hc;
  apply traced_clock in Hc as (Ht & Hts & Hp & Hc);
  simpl in Ht, Hts, Hp, Hc.

(** What [saxpy_conserved_quantities] leaves in a conserved quantity whose
    backup is [S]. *)
Lemma saxpy_conserved_quantities_lookup (a b : Q) (d d' : Domain)
  (name : string) (S : list Q) :
  NoDup (conserved_quantities d) ->
  saxpy_conserved_quantities a b d = Normal d' ->
  name ∈ conserved_quantities d ->
  backups d !! name = Some S ->
  exists Qn Qn', quantities d !! name = Some Qn /\
    quantities d' !! name = Some Qn' /\
    centroid_values Qn' = saxpy a b (centroid_values Qn) S.
Proof.
  intros Hnd Hret Hin Hb. unfold saxpy_conserved_quantities in Hret.
  destruct (for_each_quantity_lookup _ _ _ _ Hnd Hret) as [Hnew _].
  destruct (Hnew name Hin) as (Qn & Qn' & HQn & [= <-] & HQn').
  simpl in HQn. exists Qn, (Quantity_saxpy_centroid_values a b Qn).
  split; [done|]. split; [done|].
  unfold backups in Hb. rewrite lookup_fmap, HQn in Hb.
  injection Hb as <-. done.
Qed.



Example rk3_step_of_the_pond :
  let d' := final (@evolve_one_rk3_step (Rest_class (1 # 2)) 1 (Some 1%Q)
                     ready_pond) in
  timestep d' = (1 # 2)%Q /\ Qred (time d') = (1 # 2)%Q /\
  length (calls d') = 22%nat.
Proof. vm_compute. done. Qed.

(** ** The evolve generator *)

Lemma pace_upd_time (t : Q) (d : Domain) : pace (upd_time t d) = pace d.
Proof. done. Qed.

Tactic Notation "tick" hyp(Hret) "with" constr(lem) "as"
  ident(d1) ident(Ht) ident(Hts) ident(Hp) :=
  let Hop := fresh "Hop" in
  apply and_then_Normal in Hret as (d1 & Hop & Hret);
  cbv beta zeta in Hret;
  apply lem in Hop;
  pose proof (traced_pace _ _ _ Hop) as Hp;
  apply traced_clock in Hop as (Ht & Hts & _ & _);
  simpl in Ht, Hts; rewrite ?pace_upd_time in Hp.

(** The first Euler sub-step shared by the three schemes, up to the time
    update: the time it reaches overshoots neither the yield time nor the
    final time. *)
Lemma euler_step_clock `{External} (yieldstep : Q) (finaltime : option Q)
  (d d' : Domain) :
  evolve_one_euler_step yieldstep finaltime d = Normal d' ->
  pace d' = pace d /\ (time d' <= yieldtime d)%Q /\
  (forall ft, finaltime = Some ft -> time d' <= ft)%Q.
Proof.
  intros Hret. unfold evolve_one_euler_step in Hret.
  tick Hret with compute_fluxes_traced as d1 Ht1 Hts1 Hp1.
  tick Hret with compute_forcing_terms_traced as d2 Ht2 Hts2 Hp2.
  apply and_then_Normal in Hret as (d3 & H3 & Hret). cbv beta zeta in Hret.
  destruct (update_timestep_clock _ _ _ _ H3) as (Ht3 & _ & _ & Hp3 & Hy & Hf).
  tick Hret with update_conserved_quantities_traced as d4 Ht4 Hts4 Hp4.
  tick Hret with update_ghosts_traced as d5 Ht5 Hts5 Hp5.
  tick Hret with distribute_to_vertices_and_edges_traced as d6 Ht6 Hts6 Hp6.
  apply update_boundary_traced in Hret.
  pose proof (traced_pace _ _ _ Hret) as Hp7.
  apply traced_clock in Hret as (Ht7 & _ & _ & _).
  assert (Hpace : pace d' = pace d).
  { rewrite Hp7, Hp6, Hp5, Hp4, Hp3, Hp2, Hp1. done. }
  assert (Htime : time d' = (time d2 + timestep d3)%Q).
  { rewrite Ht7, Ht6, Ht5, Ht4, Ht3, Hts5, Hts4. done. }
  assert (Hyt : yieldtime d2 = yieldtime d).
  { assert (Hp : pace d2 = pace d) by (rewrite Hp2, Hp1; done).
    unfold pace in Hp. by injection Hp. }
  rewrite Htime, <- Hyt. done.
Qed.

Lemma rk2_step_clock `{External} (yieldstep : Q) (finaltime : option Q)
  (d d' : Domain) :
  evolve_one_rk2_step yieldstep finaltime d = Normal d' ->
  pace d' = pace d /\ (time d' <= yieldtime d)%Q /\
  (forall ft, finaltime = Some ft -> time d' <= ft)%Q.
Proof.
  intros Hret. unfold evolve_one_rk2_step in Hret.
  tick Hret with backup_conserved_quantities_traced as d0 Ht0 Hts0 Hp0.
  tick Hret with compute_fluxes_traced as d1 Ht1 Hts1 Hp1.
  tick Hret with compute_forcing_terms_traced as d2 Ht2 Hts2 Hp2.
  apply and_then_Normal in Hret as (d3 & H3 & Hret). cbv beta zeta in Hret.
  destruct (update_timestep_clock _ _ _ _ H3) as (Ht3 & _ & _ & Hp3 & Hy & Hf).
  tick Hret with update_conserved_quantities_traced as d4 Ht4 Hts4 Hp4.
  tick Hret with update_ghosts_traced as d5 Ht5 Hts5 Hp5.
  tick Hret with distribute_to_vertices_and_edges_traced as d6 Ht6 Hts6 Hp6.
  tick Hret with update_boundary_traced as d7 Ht7 Hts7 Hp7.
  tick Hret with compute_fluxes_traced as d8 Ht8 Hts8 Hp8.
  tick Hret with compute_forcing_terms_traced as d9 Ht9 Hts9 Hp9.
  tick Hret with update_conserved_quantities_traced as d10 Ht10 Hts10 Hp10.
  tick Hret with saxpy_conserved_quantities_traced as d11 Ht11 Hts11 Hp11.
  tick Hret with update_ghosts_traced as d12 Ht12 Hts12 Hp12.
  tick Hret with distribute_to_vertices_and_edges_traced
    as d13 Ht13 Hts13 Hp13.
  apply update_boundary_traced in Hret.
  pose proof (traced_pace _ _ _ Hret) as Hp14.
  apply traced_clock in Hret as (Ht14 & _ & _ & _).
  assert (Hpace : pace d' = pace d).
  { rewrite Hp14, Hp13, Hp12, Hp11, Hp10, Hp9, Hp8, Hp7, Hp6, Hp5, Hp4, Hp3,
      Hp2, Hp1, Hp0. done. }
  assert (Htime : time d' = (time d2 + timestep d3)%Q).
  { rewrite Ht14, Ht13, Ht12, Ht11, Ht10, Ht9, Ht8, Ht7, Ht6, Ht5, Ht4, Ht3,
      Hts5, Hts4. done. }
  assert (Hyt : yieldtime d2 = yieldtime d).
  { assert (Hp : pace d2 = pace d) by (rewrite Hp2, Hp1, Hp0; done).
    unfold pace in Hp. by injection Hp. }
  rewrite Htime, <- Hyt. done.
Qed.

Lemma rk3_step_clock `{External} (yieldstep : Q) (finaltime : option Q)
  (d d' : Domain) :
  evolve_one_rk3_step yieldstep finaltime d = Normal d' ->
  pace d' = pace d /\ (time d' <= yieldtime d)%Q /\
  (forall ft, finaltime = Some ft -> time d' <= ft)%Q.
Proof.
  intros Hret. unfold evolve_one_rk3_step in Hret.
  tick Hret with backup_conserved_quantities_traced as d0 Ht0 Hts0 Hp0.
  tick Hret with compute_fluxes_traced as d1 Ht1 Hts1 Hp1.
  tick Hret with compute_forcing_terms_traced as d2 Ht2 Hts2 Hp2.
  apply and_then_Normal in Hret as (d3 & H3 & Hret). cbv beta zeta in Hret.
  destruct (update_timestep_clock _ _ _ _ H3) as (Ht3 & _ & _ & Hp3 & Hy & Hf).
  tick Hret with update_conserved_quantities_traced as d4 Ht4 Hts4 Hp4.
  tick Hret with update_ghosts_traced as d5 Ht5 Hts5 Hp5.
  tick Hret with distribute_to_vertices_and_edges_traced as d6 Ht6 Hts6 Hp6.
  tick Hret with update_boundary_traced as d7 Ht7 Hts7 Hp7.
  tick Hret with compute_fluxes_traced as d8 Ht8 Hts8 Hp8.
  tick Hret with compute_forcing_terms_traced as d9 Ht9 Hts9 Hp9.
  tick Hret with update_conserved_quantities_traced as d10 Ht10 Hts10 Hp10.
  tick Hret with saxpy_conserved_quantities_traced as d11 Ht11 Hts11 Hp11.
  tick Hret with update_ghosts_traced as d12 Ht12 Hts12 Hp12.
  tick Hret with distribute_to_vertices_and_edges_traced
    as d13 Ht13 Hts13 Hp13.
  tick Hret with update_boundary_traced as d14 Ht14 Hts14 Hp14.
  tick Hret with compute_fluxes_traced as d15 Ht15 Hts15 Hp15.
  tick Hret with compute_forcing_terms_traced as d16 Ht16 Hts16 Hp16.
  tick Hret with update_conserved_quantities_traced as d17 Ht17 Hts17 Hp17.
  tick Hret with saxpy_conserved_quantities_traced as d18 Ht18 Hts18 Hp18.
  tick Hret with update_ghosts_traced as d19 Ht19 Hts19 Hp19.
  tick Hret with distribute_to_vertices_and_edges_traced
    as d20 Ht20 Hts20 Hp20.
  apply update_boundary_traced in Hret.
  pose proof (traced_pace _ _ _ Hret) as Hp21.
  apply traced_clock in Hret as (Ht21 & _ & _ & _).
  assert (Hpace : pace d' = pace d).
  { rewrite Hp21, Hp20, Hp19, Hp18, Hp17, Hp16, Hp15, Hp14, Hp13, Hp12, Hp11,
      Hp10, Hp9, Hp8, Hp7, Hp6, Hp5, Hp4, Hp3, Hp2, Hp1, Hp0. done. }
  assert (Htime : time d' = (time d2 + timestep d3)%Q).
  { rewrite Ht21, Ht20, Hts19, Hts18, Hts17, Hts16, Hts15, Hts14, Hts13,
      Hts12, Hts11, Hts10, Hts9, Hts8, Hts7, Hts6, Hts5, Hts4.
    rewrite Ht2, Ht1. done. }
  assert (Hyt : yieldtime d2 = yieldtime d).
  { assert (Hp : pace d2 = pace d) by (rewrite Hp2, Hp1, Hp0; done).
    unfold pace in Hp. by injection Hp. }
  rewrite Htime, <- Hyt. done.
Qed.

Lemma evolve_one_step_clock `{External} (yieldstep : Q)
  (finaltime : option Q) (d d' : Domain) :
  evolve_one_step yieldstep finaltime d = Normal d' ->
  pace d' = pace d /\
  ((time d' <= yieldtime d)%Q \/ time d' = time d).
Proof.
  unfold evolve_one_step. repeat case_decide.
  - intros Hret. apply euler_step_clock in Hret as (? & ? & _). auto.
  - intros Hret. apply rk2_step_clock in Hret as (? & ? & _). auto.
  - intros Hret. apply rk3_step_clock in Hret as (? & ? & _). auto.
  - intros [= <-]. auto.
Qed.

Lemma count_step_clock (d : Domain) :
  time (count_step d) = time d /\ pace (count_step d) = pace d.
Proof. unfold count_step. simpl. by case_decide. Qed.

Lemma pace_fields (d d' : Domain) :
  pace d' = pace d ->
  yieldtime d' = yieldtime d /\ checkpoint d' = checkpoint d.
Proof. unfold pace. intros [= ]. done. Qed.

(** One pass through the loop of [evolve], checkpointing off.  [t] is the
    time the scheme reached, before a final yield sets it to the final
    time. *)
Lemma evolve_iteration_spec `{External} (yieldstep : Q)
  (finaltime : option Q) (d : Domain) :
  checkpoint d = false ->
  match evolve_iteration yieldstep finaltime d with
  | FinalYield d' =>
      pace d' = pace d /\ finaltime = Some (time d') /\
      exists t, (time d' - epsilon <= t)%Q /\
                ((t <= yieldtime d)%Q \/ t = time d)
  | Yield d' =>
      pace d' = pace d /\ (yieldtime d' <= time d')%Q /\
      ((time d' <= yieldtime d)%Q \/ time d' = time d) /\
      (forall ft, finaltime = Some ft -> time d' < ft - epsilon)%Q
  | Continue d' =>
      pace d' = pace d /\ (time d' < yieldtime d')%Q /\
      ((time d' <= yieldtime d)%Q \/ time d' = time d)
  | Abort _ _ => True
  end.
Proof.
  intros Hcp. unfold evolve_iteration.
  destruct (evolve_one_step yieldstep finaltime d) as [da|e da] eqn:Hstep;
    simpl; [|done].
  destruct (update_extrema da) as [db|e db] eqn:Hex; simpl; [|done].
  destruct (evolve_one_step_clock _ _ _ _ Hstep) as [Hpa Hta].
  apply update_extrema_traced in Hex.
  pose proof (traced_pace _ _ _ Hex) as Hpb.
  apply traced_clock in Hex as (Htb & _ & _ & _).
  destruct (count_step_clock db) as [Htc Hpc].
  set (d1 := count_step db) in *.
  assert (Hp1 : pace d1 = pace d) by (rewrite Hpc, Hpb, Hpa; done).
  assert (Ht1 : (time d1 <= yieldtime d)%Q \/ time d1 = time d).
  { rewrite Htc, Htb. exact Hta. }
  destruct (pace_fields _ _ Hp1) as [Hy1 Hc1].
  rewrite Hc1, Hcp.
  assert (Hat : match (if negb (Qltb (time d1) (yieldtime d1))
                       then Yield d1 else Continue d1) with
                | Yield d' =>
                    pace d' = pace d /\ (yieldtime d' <= time d')%Q /\
                    ((time d' <= yieldtime d)%Q \/ time d' = time d)
                | Continue d' =>
                    pace d' = pace d /\ (time d' < yieldtime d')%Q /\
                    ((time d' <= yieldtime d)%Q \/ time d' = time d)
                | _ => True
                end).
  { destruct (Qltb (time d1) (yieldtime d1)) eqn:Hlt; simpl.
    - apply Qltb_true in Hlt. done.
    - apply Qltb_false in Hlt. done. }
  destruct finaltime as [ft|].
  - destruct (Qltb (time d1) (ft - epsilon)) eqn:Hfin; simpl.
    + apply Qltb_true in Hfin.
      destruct (negb (Qltb (time d1) (yieldtime d1))); simpl in *.
      * destruct Hat as (? & ? & ?). repeat split; try done.
        intros ? [= <-]. done.
      * done.
    + apply Qltb_false in Hfin.
      destruct (Qltb ft (time d1)); [done|]. simpl.
      split; [done|]. split; [done|]. exists (time d1). done.
  - destruct (negb (Qltb (time d1) (yieldtime d1))); simpl in *; [|done].
    destruct Hat as (? & ? & ?). repeat split; try done.
Qed.

Lemma yield_point_succ (t0 ys : Q) (k : nat) :
  (yield_point t0 ys (S k) == yield_point t0 ys k + ys)%Q.
Proof.
  unfold yield_point. rewrite Nat2Z.inj_succ, <- Z.add_1_r, inject_Z_plus.
  change (inject_Z 1) with 1%Q. ring.
Qed.

Lemma yield_point_0 (t0 ys : Q) : (yield_point t0 ys 0 == t0)%Q.
Proof. unfold yield_point. change (inject_Z (Z.of_nat 0)) with 0%Q. ring. Qed.

Lemma yield_point_1 (t0 ys : Q) : (yield_point t0 ys 1 == t0 + ys)%Q.
Proof. unfold yield_point. change (inject_Z (Z.of_nat 1)) with 1%Q. ring. Qed.

Lemma reinitialise_clock (yieldstep : Q) (d : Domain) :
  time (reinitialise yieldstep d) = time d /\
  yieldtime (reinitialise yieldstep d) = (yieldtime d + yieldstep)%Q /\
  checkpoint (reinitialise yieldstep d) = checkpoint d.
Proof. done. Qed.

(** Every time the loop of [evolve] yields is a yield point or the final
    time. *)
Lemma evolve_loop_aligned `{External} (t0 ys : Q) (finaltime : option Q) :
  forall (fuel : nat) (d : Domain),
  between_passes t0 ys d ->
  Forall (aligned t0 ys finaltime) (yields (evolve_loop fuel ys finaltime d)).
Proof.
  induction fuel as [|fuel IH]; intros d (Hcp & [k Hk] & Htime); simpl.
  { constructor. }
  pose proof (evolve_iteration_spec ys finaltime d Hcp) as Hpass.
  destruct (evolve_iteration ys finaltime d) as [d'|d'|d'|e d']; simpl.
  - destruct Hpass as (_ & Hft & _). constructor; [|constructor].
    by right.
  - destruct Hpass as (Hp & Hreached & Hfrom & _).
    destruct (pace_fields _ _ Hp) as [Hy Hc].
    assert (Hpoint : exists k' : nat, (time d' == yield_point t0 ys k')%Q).
    { destruct Hfrom as [Hle | Heq].
      - exists k. rewrite Hy in Hreached. lra.
      - destruct Htime as [Hle | Hpt].
        + exists k. rewrite Hy, Heq in Hreached. rewrite Heq. lra.
        + by rewrite Heq. }
    constructor; [by left|].
    apply IH. destruct (reinitialise_clock ys d') as (Ht' & Hy' & Hc').
    split; [congruence|]. split.
    + exists (S k). rewrite Hy', Hy, yield_point_succ. lra.
    + right. by rewrite Ht'.
  - destruct Hpass as (Hp & _ & Hfrom).
    destruct (pace_fields _ _ Hp) as [Hy Hc].
    apply IH. split; [congruence|]. split.
    + exists k. by rewrite Hy.
    + destruct Hfrom as [Hle | Heq].
      * left. by rewrite Hy.
      * rewrite Heq, Hy. exact Htime.
  - constructor.
Qed.

Lemma evolve_prologue_clock `{External} (yieldstep : Q)
  (finaltime duration : option Q) (d d0 : Domain) :
  checkpoint d = false ->
  evolve_prologue yieldstep finaltime duration d = Normal d0 ->
  time d0 = time d /\ yieldtime d0 = (time d + yieldstep)%Q /\
  checkpoint d0 = false.
Proof.
  intros Hcp. unfold evolve_prologue.
  destruct (boundary_objects d); [|done].
  destruct (is_Some_b finaltime && is_Some_b duration); [done|].
  set (dA := upd_number_of_first_order_steps 0 _).
  assert (HA : time dA = time d /\ pace dA
               = (time d + yieldstep, checkpoint d, conserved_quantities d)%Q).
  { unfold dA. by destruct finaltime, duration. }
  destruct HA as [HtA HpA]. clearbody dA.
  intros Hret.
  tick Hret with update_ghosts_traced as d1 Ht1 Hts1 Hp1.
  tick Hret with distribute_to_vertices_and_edges_traced as d2 Ht2 Hts2 Hp2.
  tick Hret with update_extrema_traced as d3 Ht3 Hts3 Hp3.
  apply and_then_Normal in Hret as (d4 & Hop & Hret). cbv beta in Hret.
  apply update_boundary_traced in Hop.
  pose proof (traced_pace _ _ _ Hop) as Hp4.
  apply traced_clock in Hop as (Ht4 & _ & _ & _).
  assert (Hp : pace d4
               = (time d + yieldstep, checkpoint d, conserved_quantities d)%Q).
  { rewrite Hp4, Hp3, Hp2, Hp1. exact HpA. }
  unfold pace in Hp. injection Hp as Hy Hc _.
  rewrite Hc, Hcp in Hret. injection Hret as <-.
  split; [|split]; [|done|congruence].
  rewrite Ht4, Ht3, Ht2, Ht1. exact HtA.
Qed.

Lemma Forall2_Qeq_refl (l : list Q) : Forall2 Qeq l l.
Proof. induction l; constructor; [reflexivity|done]. Qed.

(** A run of the loop that finishes, with a yield step that is not
    negative: it yields the yield points after the [k]-th one by one, as
    long as they lie more than [epsilon] before the final time, then the
    final time itself. *)
Lemma evolve_loop_finished `{External} (t0 ys : Q) (finaltime : option Q) :
  (0 <= ys)%Q ->
  forall (fuel : nat) (d : Domain) (k : nat),
  checkpoint d = false ->
  (yieldtime d == yield_point t0 ys (S k))%Q ->
  (time d <= yieldtime d)%Q ->
  ending (evolve_loop fuel ys finaltime d) = Finished ->
  exists (m : nat) (ft : Q),
    finaltime = Some ft /\
    Forall2 Qeq (yields (evolve_loop fuel ys finaltime d))
      (map (fun j => yield_point t0 ys (k + j)) (seq 1 m) ++ [ft]) /\
    (forall j, (1 <= j <= m)%nat ->
       yield_point t0 ys (k + j) < ft - epsilon)%Q /\
    (ft - epsilon <= yield_point t0 ys (S (k + m)))%Q.
Proof.
  intros Hys. induction fuel as [|fuel IH]; intros d k Hcp Hk Htime; simpl.
  { done. }
  pose proof (evolve_iteration_spec ys finaltime d Hcp) as Hpass.
  destruct (evolve_iteration ys finaltime d) as [d'|d'|d'|e d']; simpl.
  - intros _. destruct Hpass as (_ & Hft & t & Hlow & Hfrom).
    exists 0%nat, (time d'). split; [done|]. simpl.
    split; [apply Forall2_Qeq_refl|]. split; [intros j; lia|].
    rewrite Nat.add_0_r.
    destruct Hfrom as [Hle | ->]; lra.
  - intros Hfin. destruct Hpass as (Hp & Hreached & Hfrom & Hbefore).
    destruct (pace_fields _ _ Hp) as [Hy Hc].
    assert (Hat : (time d' == yield_point t0 ys (S k))%Q).
    { rewrite Hy in Hreached. destruct Hfrom as [Hle | Heq]; [lra|].
      rewrite Heq in *. lra. }
    destruct (reinitialise_clock ys d') as (Ht' & Hy' & Hc').
    destruct (IH (reinitialise ys d') (S k)) as (m & ft & Hft & Hl & Hlt & Hge).
    + congruence.
    + rewrite Hy', Hy, (yield_point_succ t0 ys (S k)). lra.
    + rewrite Ht', Hy', Hy. lra.
    + exact Hfin.
    + exists (S m), ft. split; [done|]. split; [|split].
      * rewrite <- cons_seq, <- fmap_S_seq. simpl.
        constructor; [by rewrite Nat.add_1_r|].
        rewrite <- list_fmap_compose.
        erewrite list_fmap_ext; [exact Hl|].
        intros i j _. simpl. f_equal. lia.
      * intros j Hj. destruct (decide (j = 1%nat)) as [->|Hne].
        -- rewrite Nat.add_1_r, <- Hat. by apply Hbefore.
        -- replace (k + j)%nat with (S k + (j - 1))%nat by lia.
           apply Hlt. lia.
      * replace (S (k + S m)) with (S (S k + m)) by lia. exact Hge.
  - intros Hfin. destruct Hpass as (Hp & _ & Hfrom).
    destruct (pace_fields _ _ Hp) as [Hy Hc].
    apply (IH d' k); [congruence|by rewrite Hy| |exact Hfin].
    rewrite Hy. destruct Hfrom as [Hle | ->]; done.
  - done.
Qed.

Ltac literal_points H :=
  cbn [Nat.add] in H; unfold inject_Z in H;
  try change (Z.of_nat 1) with 1%Z in H;
  try change (Z.of_nat 2) with 2%Z in H;
  try change (Z.of_nat 3) with 3%Z in H;
  try change (Z.of_nat 4) with 4%Z in H.

(** ** Runs that reach the final time *)

Lemma slots_insert (d : Domain) (name : string) (Qn Qn' : Quantity) :
  quantities d !! name = Some Qn ->
  length (boundary_values Qn') = length (boundary_values Qn) ->
  slots (upd_quantities (<[name := Qn']> (quantities d)) d) = slots d.
Proof.
  intros Hq Hlen. unfold slots. simpl. rewrite fmap_insert, Hlen.
  apply insert_id. by rewrite lookup_fmap, Hq.
Qed.

Lemma regime_of_controls (d d' : Domain) :
  controls d' = controls d -> regime d' = regime d.
Proof. unfold controls, regime. intros [= ]. congruence. Qed.

Lemma regime_of_schedule (d d' : Domain) :
  schedule d' = schedule d -> regime d' = regime d.
Proof. unfold schedule, regime. intros [= ]. congruence. Qed.

Lemma steady_ext (cfl delta : Q) (d d' : Domain) :
  regime d' = regime d -> layout d' = layout d ->
  _order_ d' = 1 \/ _order_ d' = 2 ->
  steady cfl delta d -> steady cfl delta d'.
Proof.
  unfold regime, layout. intros [= ] [= ] Ho.
  unfold steady, boundary_fits.
  repeat match goal with
         | H : ?f d' = ?f d |- _ => rewrite ?H; clear H
         end.
  intros (? & _ & ?). done.
Qed.

Lemma steady_traced (cfl delta : Q) (c : Call) (d d' : Domain) :
  traced c d d' -> layout d' = layout d -> steady cfl delta d -> steady cfl delta d'.
Proof.
  intros [Hc _] Hl Hs. apply (steady_ext cfl delta d); try done.
  - by apply regime_of_controls.
  - unfold controls in Hc. injection Hc as _ _ _ _ -> _.
    by destruct Hs as (_ & ? & _).
Qed.

Lemma steady_enter (cfl delta : Q) (c : Call) (d : Domain) :
  steady cfl delta d -> steady cfl delta (enter c d).
Proof. done. Qed.

Lemma for_each_quantity_runs (f : Quantity -> result Quantity)
  (names : list string) :
  (forall Qn, exists Qn', f Qn = Ok Qn' /\
     length (boundary_values Qn') = length (boundary_values Qn)) ->
  forall d, (forall name, name ∈ names -> is_Some (slots d !! name)) ->
  exists d', for_each_quantity f names d = Normal d' /\ layout d' = layout d.
Proof.
  intros Hf. induction names as [|name names IH]; intros d Hn; simpl.
  { by exists d. }
  destruct (Hn name) as [k Hk]; [apply elem_of_cons; by left|].
  unfold slots in Hk. rewrite lookup_fmap in Hk.
  destruct (quantities d !! name) as [Qn|] eqn:Hq; [|done].
  unfold query, get_quantity. rewrite Hq.
  destruct (Hf Qn) as (Qn' & -> & Hlen).
  pose proof (slots_insert d name Qn Qn' Hq Hlen) as Hs.
  destruct (IH (upd_quantities (<[name:=Qn']> (quantities d)) d))
    as (d' & Hrun & Hl').
  { intros n Hin. rewrite Hs. apply Hn, elem_of_cons. by right. }
  exists d'. split; [done|]. rewrite Hl'. unfold layout. by rewrite Hs.
Qed.

Lemma steady_names (cfl delta : Q) (d : Domain) :
  steady cfl delta d ->
  forall name, name ∈ conserved_quantities d -> is_Some (slots d !! name).
Proof. intros (_ & _ & _ & _ & _ & _ & _ & _ & Hn & _). exact Hn. Qed.

Lemma update_conserved_quantities_steady `{External} (cfl delta : Q)
  (d : Domain) :
  steady cfl delta d ->
  exists d', update_conserved_quantities d = Normal d' /\ steady cfl delta d'.
Proof.
  intros Hs. unfold update_conserved_quantities.
  set (f := fun Qn =>
              let '(cv, su) := Quantity_update (timestep d) Qn in
              Ok (upd_semi_implicit_update su (upd_centroid_values cv Qn))).
  assert (Hf : forall Qn, exists Qn', f Qn = Ok Qn' /\
            length (boundary_values Qn') = length (boundary_values Qn)).
  { intros Qn. unfold f. destruct (Quantity_update _ _). by eexists. }
  destruct (for_each_quantity_runs f (conserved_quantities d) Hf
              (enter update_conserved_quantities_ d)
              (steady_names cfl delta d Hs)) as (d' & Hrun & Hl).
  exists d'. split; [exact Hrun|].
  apply (steady_traced cfl delta update_conserved_quantities_ d d'); try done.
  by apply update_conserved_quantities_traced.
Qed.

Lemma distribute_to_vertices_and_edges_steady `{External} (cfl delta : Q)
  (d : Domain) :
  steady cfl delta d ->
  exists d', distribute_to_vertices_and_edges d = Normal d' /\
             steady cfl delta d'.
Proof.
  intros Hs. unfold distribute_to_vertices_and_edges.
  assert (Ho : _order_ d = 1 \/ _order_ d = 2) by (by destruct Hs as (_ & ? & _)).
  set (f := fun Qn =>
              if decide (_order_ d = 1) then
                let '(vv, ev) := Quantity_extrapolate_first_order Qn in
                Ok (upd_edge_values ev (upd_vertex_values vv Qn))
              else if decide (_order_ d = 2) then
                let '(vv, ev) := Quantity_extrapolate_second_order Qn in
                Ok (upd_edge_values ev (upd_vertex_values vv Qn))
              else Error UnknownOrder).
  assert (Hf : forall Qn, exists Qn', f Qn = Ok Qn' /\
            length (boundary_values Qn') = length (boundary_values Qn)).
  { intros Qn. unfold f. repeat case_decide;
      [destruct (Quantity_extrapolate_first_order Qn)
      |destruct (Quantity_extrapolate_second_order Qn)
      |lia]; by eexists. }
  destruct (for_each_quantity_runs f (conserved_quantities d) Hf
              (enter distribute_to_vertices_and_edges_ d)
              (steady_names cfl delta d Hs)) as (d' & Hrun & Hl).
  exists d'. split; [exact Hrun|].
  apply (steady_traced cfl delta distribute_to_vertices_and_edges_ d d');
    try done.
  by apply distribute_to_vertices_and_edges_traced.
Qed.

Lemma update_ghosts_steady (cfl delta : Q) (d : Domain) :
  steady cfl delta d ->
  exists d', update_ghosts d = Normal d' /\ steady cfl delta d'.
Proof.
  intros Hs. exists (enter update_ghosts_ d). split; [|done].
  unfold update_ghosts. simpl.
  destruct Hs as (_ & _ & _ & _ & -> & _). done.
Qed.

Lemma compute_forcing_terms_steady (cfl delta : Q) (d : Domain) :
  steady cfl delta d ->
  exists d', compute_forcing_terms d = Normal d' /\ steady cfl delta d' /\
             flux_timestep d' = flux_timestep d.
Proof.
  intros Hs. exists (enter compute_forcing_terms_ d).
  split; [|done].
  unfold compute_forcing_terms. simpl.
  destruct Hs as (_ & _ & _ & -> & _). done.
Qed.

Lemma update_extrema_steady `{External} (cfl delta : Q) (d : Domain) :
  steady cfl delta d ->
  exists d', update_extrema d = Normal d' /\ steady cfl delta d'.
Proof.
  intros Hs. exists (enter update_extrema_ d). split; [|done].
  unfold update_extrema. simpl.
  destruct Hs as (_ & _ & _ & _ & _ & -> & _). done.
Qed.

Lemma slots_apply_updates (u : Updates) (d : Domain) :
  slots (apply_updates u d) = slots d.
Proof.
  unfold slots, apply_updates. simpl. apply map_eq. intros name.
  rewrite !lookup_fmap, map_lookup_imap.
  destruct (quantities d !! name) as [Qn|]; simpl; [|done].
  by repeat case_match.
Qed.

Lemma compute_fluxes_steady `{External} (cfl delta : Q)
  (kernel : Domain -> result Updates) (d : Domain) :
  compute_fluxes_override = Some kernel ->
  steady_kernel cfl delta kernel ->
  steady cfl delta d ->
  exists d', compute_fluxes d = Normal d' /\ steady cfl delta d' /\
             (delta <= CFL d' * flux_timestep d')%Q.
Proof.
  intros Hover Hk Hs. unfold compute_fluxes. rewrite Hover.
  destruct (Hk (enter compute_fluxes_ d) Hs) as (u & Hu & Hdt & Hcalm).
  rewrite Hu. simpl. eexists. split; [reflexivity|].
  destruct Hs as (? & ? & ? & ? & ? & ? & ? & H7 & ? & Hb & _ & ? & HC).
  split; [|simpl; by rewrite HC].
  unfold steady. simpl. rewrite slots_apply_updates.
  split_and!; try done; try apply H7.
  destruct Hb as (objs & Ho & Hb). exists objs. split; [done|].
  intros i vol_id edge_id B Hi. simpl. rewrite slots_apply_updates.
  by apply Hb.
Qed.

Lemma apply_protection_calm (d : Domain) :
  calm (protect_against_isolated_degenerate_timesteps d) (max_speed d) ->
  apply_protection_against_isolated_degenerate_timesteps d = Normal d.
Proof.
  unfold apply_protection_against_isolated_degenerate_timesteps.
  intros [-> | (top & -> & Hlt)]; [done|].
  destruct (negb _); [done|]. simpl. apply Qltb_true in Hlt. by rewrite Hlt.
Qed.

Lemma update_timestep_steady `{External} (cfl delta yieldstep : Q)
  (finaltime : option Q) (d : Domain) :
  steady cfl delta d -> (delta <= CFL d * flux_timestep d)%Q ->
  exists d', update_timestep yieldstep finaltime d = Normal d' /\
             steady cfl delta d'.
Proof.
  intros Hs Hdt.
  assert (Hprot : apply_protection_against_isolated_degenerate_timesteps
                    (enter update_timestep_ d)
                  = Normal (enter update_timestep_ d)).
  { apply apply_protection_calm. by destruct Hs as (_&_&_&_&_&_&_&_&_&_&?&_). }
  destruct (update_timestep_after_protection yieldstep finaltime d _ Hprot)
    as (-> & _).
  cbv zeta. unfold small_step_protection.
  assert (Hcfl : Qltb (cfl_timestep (enter update_timestep_ d))
                   (evolve_min_timestep
                      (with_recorded_timestep (enter update_timestep_ d)))
                 = false).
  { apply Qltb_false. simpl. unfold cfl_timestep, py_min. simpl.
    destruct Hs as (_&_&_&_&_&_&_& [Hlo Hhi] &_).
    apply Q.min_glb; lra. }
  rewrite Hcfl.
  assert (Ho : _order_ d = 1 \/ _order_ d = 2) by (by destruct Hs as (_&?&_)).
  case_decide; simpl; eexists; (split; [reflexivity|]);
    apply (steady_ext cfl delta d); auto.
Qed.

Lemma write_boundary_values_runs (i : nat) (q : list Q)
  (names : list string) :
  forall (j : nat) (d : Domain),
  (forall name, name ∈ names ->
     exists k, slots d !! name = Some k /\ (i < k)%nat) ->
  (j + length names <= length q)%nat ->
  exists d', write_boundary_values i q j names d = Normal d' /\
             layout d' = layout d.
Proof.
  induction names as [|name names IH]; intros j d Hn Hq; simpl.
  { by exists d. }
  destruct (Hn name) as (k & Hk & Hik); [apply elem_of_cons; by left|].
  unfold slots in Hk. rewrite lookup_fmap in Hk.
  destruct (quantities d !! name) as [Qn|] eqn:Hqn; [|done].
  simpl in Hk. injection Hk as Hk.
  unfold query, get_quantity, getitem, setitem. rewrite Hqn.
  destruct (lookup_lt_is_Some_2 q j) as [x ->]; [simpl in Hq; lia|].
  rewrite decide_True by lia.
  pose proof (slots_insert d name Qn
                (upd_boundary_values (<[i:=x]> (boundary_values Qn)) Qn) Hqn)
    as Hs.
  simpl in Hs. rewrite length_insert in Hs. specialize (Hs eq_refl).
  destruct (IH (S j) (upd_quantities
                        (<[name:=upd_boundary_values
                                   (<[i:=x]> (boundary_values Qn)) Qn]>
                           (quantities d)) d))
    as (d' & Hrun & Hl).
  - intros n Hin. rewrite Hs. apply Hn, elem_of_cons. by right.
  - simpl in Hq. lia.
  - exists d'. split; [done|]. rewrite Hl. unfold layout. by rewrite Hs.
Qed.

Lemma update_boundary_from_runs `{External} (names : list string)
  (sl : gmap string nat) (objs : list ((nat * nat) * option Boundary)) :
  forall (i : nat) (d : Domain),
  evolved_quantities d = names -> slots d = sl ->
  (forall k vol_id edge_id B,
     objs !! k = Some ((vol_id, edge_id), B) ->
     (forall B', B = Some B' -> forall t qs,
        length (evaluate B' t qs vol_id edge_id) = length names) /\
     (forall name, name ∈ names ->
        exists n, sl !! name = Some n /\ (i + k < n)%nat)) ->
  exists d', update_boundary_from i objs d = Normal d' /\
             layout d' = layout d.
Proof.
  induction objs as [|[[vol_id edge_id] B] objs IH]; intros i d Hev Hsl Hok;
    cbn [update_boundary_from].
  { by exists d. }
  destruct (Hok 0%nat vol_id edge_id B eq_refl) as [Hlen Hslot].
  assert (Hentry : exists d1,
            update_boundary_entry i ((vol_id, edge_id), B) d = Normal d1 /\
            layout d1 = layout d).
  { destruct B as [B'|]; simpl; [|by eexists].
    rewrite decide_True by (rewrite Hev; by apply Hlen).
    apply write_boundary_values_runs.
    - rewrite Hev, Hsl. intros name Hin.
      destruct (Hslot name Hin) as (n & ? & ?). exists n. split; [done|lia].
    - rewrite (Hlen B' eq_refl), Hev. lia. }
  destruct Hentry as (d1 & Hrun & Hl1).
  pose proof (update_boundary_entry_frame i ((vol_id, edge_id), B) d)
    as [Hc _].
  rewrite Hrun in *. simpl in Hc. cbn [and_then].
  destruct (IH (S i) d1) as (d' & Hrun' & Hl').
  - unfold controls in Hc. injection Hc as Hc. congruence.
  - unfold layout in Hl1. injection Hl1 as Hl1. congruence.
  - intros k v e B0 Hk. destruct (Hok (S k) v e B0 Hk) as [? Hslot'].
    split; [done|]. intros name Hin.
    destruct (Hslot' name Hin) as (n & ? & ?). exists n. split; [done|lia].
  - exists d'. split; [done|]. by rewrite Hl'.
Qed.

Lemma update_boundary_steady `{External} (cfl delta : Q) (d : Domain) :
  steady cfl delta d ->
  exists d', update_boundary d = Normal d' /\ steady cfl delta d'.
Proof.
  intros Hs.
  assert (Hb : boundary_fits d) by (by destruct Hs as (_&_&_&_&_&_&_&_&_&?&_)).
  destruct Hb as (objs & Hobjs & Hb).
  destruct (update_boundary_from_runs (evolved_quantities d) (slots d) objs
              0 (enter update_boundary_ d) eq_refl eq_refl)
    as (d' & Hrun & Hl).
  { intros k v e B Hk. by apply Hb. }
  assert (Hret : update_boundary d = Normal d').
  { unfold update_boundary. simpl. by rewrite Hobjs. }
  exists d'. split; [exact Hret|].
  apply (steady_traced cfl delta update_boundary_ d d'); try done.
  by apply update_boundary_traced.
Qed.

Lemma traced_step (c : Call) (d d' : Domain) :
  traced c d d' ->
  time d' = time d /\ yieldtime d' = yieldtime d /\
  timestep d' = timestep d /\ CFL d' = CFL d.
Proof.
  intros [Hc _]. unfold controls in Hc. injection Hc as ?. done.
Qed.

(** One Euler step of a steady run goes through, and advances the time by
    a timestep of at least [delta] clamped to the yield time and the final
    time. *)
Lemma euler_step_steady `{External} (cfl delta yieldstep : Q)
  (finaltime : option Q) (kernel : Domain -> result Updates) (d : Domain) :
  compute_fluxes_override = Some kernel ->
  steady_kernel cfl delta kernel ->
  steady cfl delta d ->
  exists d' dt,
    evolve_one_euler_step yieldstep finaltime d = Normal d' /\
    steady cfl delta d' /\ (delta <= dt)%Q /\
    (time d' == time d + clamped_timestep dt finaltime d)%Q.
Proof.
  intros Hover Hk Hs. unfold evolve_one_euler_step.
  destruct (compute_fluxes_steady cfl delta kernel d Hover Hk Hs)
    as (d1 & H1 & Hs1 & Hdt1).
  rewrite H1. cbn [and_then].
  apply compute_fluxes_traced, traced_step in H1 as (Ht1 & Hy1 & _ & _).
  destruct (compute_forcing_terms_steady cfl delta d1 Hs1)
    as (d2 & H2 & Hs2 & Hf2).
  rewrite H2. cbn [and_then].
  apply compute_forcing_terms_traced, traced_step in H2
    as (Ht2 & Hy2 & _ & HC2).
  destruct (update_timestep_steady cfl delta yieldstep finaltime d2 Hs2)
    as (d3 & H3 & Hs3).
  { by rewrite HC2, Hf2. }
  rewrite H3. cbn [and_then].
  destruct (update_timestep_clamped _ _ _ _ H3) as (Hts3 & _).
  apply update_timestep_clock in H3 as (Ht3 & _).
  destruct (update_conserved_quantities_steady cfl delta d3 Hs3)
    as (d4 & H4 & Hs4).
  rewrite H4. cbn [and_then].
  apply update_conserved_quantities_traced, traced_step in H4
    as (Ht4 & _ & Hts4 & _).
  destruct (update_ghosts_steady cfl delta d4 Hs4) as (d5 & H5 & Hs5).
  rewrite H5. cbn [and_then].
  apply update_ghosts_traced, traced_step in H5 as (Ht5 & _ & Hts5 & _).
  destruct (distribute_to_vertices_and_edges_steady cfl delta
              (upd_time (time d5 + timestep d5) d5) Hs5)
    as (d6 & H6 & Hs6).
  rewrite H6. cbn [and_then].
  apply distribute_to_vertices_and_edges_traced, traced_step in H6
    as (Ht6 & _).
  destruct (update_boundary_steady cfl delta d6 Hs6) as (d7 & H7 & Hs7).
  exists d7, (cfl_timestep d2). split; [exact H7|]. split; [exact Hs7|].
  apply update_boundary_traced, traced_step in H7 as (Ht7 & _).
  split.
  - unfold cfl_timestep, py_min. apply Q.min_glb.
    + by rewrite HC2, Hf2.
    + by destruct Hs2 as (_&_&_&_&_&_&_& [_ ?] &_).
  - rewrite Ht7, Ht6. simpl. rewrite Ht5, Ht4, Ht3, Hts5, Hts4, Hts3.
    unfold clamped_timestep. rewrite Ht2, Ht1, Hy2, Hy1. reflexivity.
Qed.

Lemma backup_conserved_quantities_steady (cfl delta : Q) (d : Domain) :
  steady cfl delta d ->
  exists d', backup_conserved_quantities d = Normal d' /\ steady cfl delta d'.
Proof.
  intros Hs. unfold backup_conserved_quantities.
  set (f := fun Qn => Ok (Quantity_backup_centroid_values Qn)).
  assert (Hf : forall Qn, exists Qn', f Qn = Ok Qn' /\
            length (boundary_values Qn') = length (boundary_values Qn)).
  { intros Qn. unfold f. by eexists. }
  destruct (for_each_quantity_runs f (conserved_quantities d) Hf
              (enter backup_conserved_quantities_ d)
              (steady_names cfl delta d Hs)) as (d' & Hrun & Hl).
  exists d'. split; [exact Hrun|].
  apply (steady_traced cfl delta backup_conserved_quantities_ d d'); try done.
  by apply backup_conserved_quantities_traced.
Qed.

Lemma saxpy_conserved_quantities_steady (cfl delta a b : Q) (d : Domain) :
  steady cfl delta d ->
  exists d', saxpy_conserved_quantities a b d = Normal d' /\
             steady cfl delta d'.
Proof.
  intros Hs. unfold saxpy_conserved_quantities.
  set (f := fun Qn => Ok (Quantity_saxpy_centroid_values a b Qn)).
  assert (Hf : forall Qn, exists Qn', f Qn = Ok Qn' /\
            length (boundary_values Qn') = length (boundary_values Qn)).
  { intros Qn. unfold f. by eexists. }
  destruct (for_each_quantity_runs f (conserved_quantities d) Hf
              (enter (saxpy_conserved_quantities_ a b) d)
              (steady_names cfl delta d Hs)) as (d' & Hrun & Hl).
  exists d'. split; [exact Hrun|].
  apply (steady_traced cfl delta (saxpy_conserved_quantities_ a b) d d');
    try done.
  by apply saxpy_conserved_quantities_traced.
Qed.

(** Fluxes and forcing terms of a later sub-step of a steady run. *)
Lemma compute_fluxes_goes `{External} (cfl delta : Q)
  (kernel : Domain -> result Updates) (d : Domain) :
  compute_fluxes_override = Some kernel ->
  steady_kernel cfl delta kernel ->
  steady cfl delta d ->
  exists d', compute_fluxes d = Normal d' /\ steady cfl delta d'.
Proof.
  intros Hover Hk Hs.
  destruct (compute_fluxes_steady cfl delta kernel d Hover Hk Hs)
    as (d' & ? & ? & _).
  by exists d'.
Qed.

Lemma compute_forcing_terms_goes (cfl delta : Q) (d : Domain) :
  steady cfl delta d ->
  exists d', compute_forcing_terms d = Normal d' /\ steady cfl delta d'.
Proof.
  intros Hs.
  destruct (compute_forcing_terms_steady cfl delta d Hs) as (d' & ? & ? & _).
  by exists d'.
Qed.

Lemma steady_upd_time (cfl delta t : Q) (d : Domain) :
  steady cfl delta d -> steady cfl delta (upd_time t d).
Proof. done. Qed.

(** One operation of a steady step: it returns, the domain stays steady,
    and the clock is where it was. *)
Tactic Notation "stride" constr(runs) "with" constr(frame) "as"
  ident(d1) ident(Hs1) ident(Ht) ident(Hy) ident(Hts) ident(HC) :=
  let Hrun := fresh "Hrun" in
  destruct runs as (d1 & Hrun & Hs1);
  rewrite Hrun; cbn [and_then];
  apply frame, traced_step in Hrun as (Ht & Hy & Hts & HC).

(** The first Euler sub-step of a steady step, up to its boundary update:
    the time is advanced by a timestep of at least [delta] clamped to the
    yield time and the final time. *)
Lemma first_substep_steady `{External} (cfl delta yieldstep : Q)
  (finaltime : option Q) (kernel : Domain -> result Updates)
  (k : Domain -> outcome) (d : Domain) :
  compute_fluxes_override = Some kernel ->
  steady_kernel cfl delta kernel ->
  steady cfl delta d ->
  exists d7 dt,
    (d <- compute_fluxes d ;;;
     d <- compute_forcing_terms d ;;;
     d <- update_timestep yieldstep finaltime d ;;;
     d <- update_conserved_quantities d ;;;
     d <- update_ghosts d ;;;
     let d := upd_time (time d + timestep d) d in
     d <- distribute_to_vertices_and_edges d ;;;
     d <- update_boundary d ;;;
     k d) = k d7 /\
    steady cfl delta d7 /\ (delta <= dt)%Q /\
    yieldtime d7 = yieldtime d /\
    (timestep d7 == clamped_timestep dt finaltime d)%Q /\
    (time d7 == time d + clamped_timestep dt finaltime d)%Q.
Proof.
  intros Hover Hk Hs.
  destruct (compute_fluxes_steady cfl delta kernel d Hover Hk Hs)
    as (d1 & H1 & Hs1 & Hdt1).
  rewrite H1. cbn [and_then].
  apply compute_fluxes_traced, traced_step in H1 as (Ht1 & Hy1 & _ & _).
  destruct (compute_forcing_terms_steady cfl delta d1 Hs1)
    as (d2 & H2 & Hs2 & Hf2).
  rewrite H2. cbn [and_then].
  apply compute_forcing_terms_traced, traced_step in H2
    as (Ht2 & Hy2 & _ & HC2).
  destruct (update_timestep_steady cfl delta yieldstep finaltime d2 Hs2)
    as (d3 & H3 & Hs3).
  { by rewrite HC2, Hf2. }
  rewrite H3. cbn [and_then].
  destruct (update_timestep_clamped _ _ _ _ H3) as (Hts3 & _).
  apply update_timestep_clock in H3 as (Ht3 & _ & _ & Hp3 & _).
  destruct (pace_fields _ _ Hp3) as [Hy3 _].
  stride (update_conserved_quantities_steady cfl delta d3 Hs3)
    with update_conserved_quantities_traced as d4 Hs4 Ht4 Hy4 Hts4 HC4.
  stride (update_ghosts_steady cfl delta d4 Hs4)
    with update_ghosts_traced as d5 Hs5 Ht5 Hy5 Hts5 HC5.
  cbv zeta.
  stride (distribute_to_vertices_and_edges_steady cfl delta
            (upd_time (time d5 + timestep d5) d5) Hs5)
    with distribute_to_vertices_and_edges_traced
    as d6 Hs6 Ht6 Hy6 Hts6 HC6.
  stride (update_boundary_steady cfl delta d6 Hs6)
    with update_boundary_traced as d7 Hs7 Ht7 Hy7 Hts7 HC7.
  exists d7, (cfl_timestep d2). split; [done|]. split; [exact Hs7|].
  simpl in Ht6, Hy6, Hts6.
  split; [|split; [|split]].
  - unfold cfl_timestep, py_min. apply Q.min_glb.
    + by rewrite HC2, Hf2.
    + by destruct Hs2 as (_&_&_&_&_&_&_& [_ ?] &_).
  - rewrite Hy7, Hy6, Hy5, Hy4, Hy3, Hy2, Hy1. done.
  - rewrite Hts7, Hts6, Hts5, Hts4, Hts3.
    unfold clamped_timestep. rewrite Ht2, Ht1, Hy2, Hy1. reflexivity.
  - rewrite Ht7, Ht6, Ht5, Ht4, Ht3, Hts5, Hts4, Hts3.
    unfold clamped_timestep. rewrite Ht2, Ht1, Hy2, Hy1. reflexivity.
Qed.

(** A later sub-step of a steady step, up to its update of the conserved
    quantities: it returns and moves neither time nor timestep. *)
Lemma later_substep_steady `{External} (cfl delta : Q)
  (kernel : Domain -> result Updates) (k : Domain -> outcome) (d : Domain) :
  compute_fluxes_override = Some kernel ->
  steady_kernel cfl delta kernel ->
  steady cfl delta d ->
  exists d3,
    (d <- compute_fluxes d ;;;
     d <- compute_forcing_terms d ;;;
     d <- update_conserved_quantities d ;;;
     k d) = k d3 /\
    steady cfl delta d3 /\ time d3 = time d /\ yieldtime d3 = yieldtime d /\
    timestep d3 = timestep d.
Proof.
  intros Hover Hk Hs.
  stride (compute_fluxes_goes cfl delta kernel d Hover Hk Hs)
    with compute_fluxes_traced as d1 Hs1 Ht1 Hy1 Hts1 HC1.
  stride (compute_forcing_terms_goes cfl delta d1 Hs1)
    with compute_forcing_terms_traced as d2 Hs2 Ht2 Hy2 Hts2 HC2.
  stride (update_conserved_quantities_steady cfl delta d2 Hs2)
    with update_conserved_quantities_traced as d3 Hs3 Ht3 Hy3 Hts3 HC3.
  exists d3. split; [done|]. split; [exact Hs3|].
  split_and!; congruence.
Qed.

(** The end of an RK sub-step of a steady step: combine, update the ghosts,
    set the time to [t], update vertex, edge and boundary values. *)
Lemma combine_steady `{External} (cfl delta a b : Q) (t : Domain -> Q)
  (d : Domain) :
  steady cfl delta d ->
  exists d4,
    (d <- saxpy_conserved_quantities a b d ;;;
     d <- update_ghosts d ;;;
     let d := upd_time (t d) d in
     d <- distribute_to_vertices_and_edges d ;;;
     update_boundary d) = Normal d4 /\
    steady cfl delta d4 /\ yieldtime d4 = yieldtime d /\
    timestep d4 = timestep d /\
    exists d2, time d4 = t d2 /\ timestep d2 = timestep d /\
               time d2 = time d.
Proof.
  intros Hs.
  stride (saxpy_conserved_quantities_steady cfl delta a b d Hs)
    with saxpy_conserved_quantities_traced as d1 Hs1 Ht1 Hy1 Hts1 HC1.
  stride (update_ghosts_steady cfl delta d1 Hs1)
    with update_ghosts_traced as d2 Hs2 Ht2 Hy2 Hts2 HC2.
  cbv zeta.
  stride (distribute_to_vertices_and_edges_steady cfl delta
            (upd_time (t d2) d2) Hs2)
    with distribute_to_vertices_and_edges_traced
    as d3 Hs3 Ht3 Hy3 Hts3 HC3.
  destruct (update_boundary_steady cfl delta d3 Hs3) as (d4 & Hrun & Hs4).
  exists d4. split; [exact Hrun|]. split; [exact Hs4|].
  apply update_boundary_traced, traced_step in Hrun as (Ht4 & Hy4 & Hts4 & _).
  simpl in Ht3, Hy3, Hts3.
  split; [congruence|]. split; [congruence|].
  exists d2. split; [congruence|]. split; congruence.
Qed.

(** One RK2 step of a steady run goes through, and advances the time as
    an Euler step does. *)
Lemma rk2_step_steady `{External} (cfl delta yieldstep : Q)
  (finaltime : option Q) (kernel : Domain -> result Updates) (d : Domain) :
  compute_fluxes_override = Some kernel ->
  steady_kernel cfl delta kernel ->
  steady cfl delta d ->
  exists d' dt,
    evolve_one_rk2_step yieldstep finaltime d = Normal d' /\
    steady cfl delta d' /\ (delta <= dt)%Q /\
    (time d' == time d + clamped_timestep dt finaltime d)%Q.
Proof.
  intros Hover Hk Hs. unfold evolve_one_rk2_step.
  stride (backup_conserved_quantities_steady cfl delta d Hs)
    with backup_conserved_quantities_traced as d0 Hs0 Ht0 Hy0 Hts0 HC0.
  pose (k := fun d : Domain =>
         d <- compute_fluxes d ;;;
         d <- compute_forcing_terms d ;;;
         d <- update_conserved_quantities d ;;;
         d <- saxpy_conserved_quantities (1 # 2) (1 # 2) d ;;;
         d <- update_ghosts d ;;;
         d <- distribute_to_vertices_and_edges d ;;;
         update_boundary d).
  destruct (first_substep_steady cfl delta yieldstep finaltime kernel k d0
              Hover Hk Hs0) as (d7 & dt & Hrun & Hs7 & Hdt & Hy7 & _ & Ht7).
  unfold k in Hrun. cbv beta zeta in Hrun. cbv zeta. rewrite Hrun.
  clear Hrun k.
  pose (k := fun d : Domain =>
         d <- saxpy_conserved_quantities (1 # 2) (1 # 2) d ;;;
         d <- update_ghosts d ;;;
         d <- distribute_to_vertices_and_edges d ;;;
         update_boundary d).
  destruct (later_substep_steady cfl delta kernel k d7 Hover Hk Hs7)
    as (d10 & Hrun & Hs10 & Ht10 & _).
  unfold k in Hrun. cbv beta in Hrun. rewrite Hrun. clear Hrun k.
  stride (saxpy_conserved_quantities_steady cfl delta (1 # 2) (1 # 2) d10
            Hs10)
    with saxpy_conserved_quantities_traced as d11 Hs11 Ht11 Hy11 Hts11 HC11.
  stride (update_ghosts_steady cfl delta d11 Hs11)
    with update_ghosts_traced as d12 Hs12 Ht12 Hy12 Hts12 HC12.
  stride (distribute_to_vertices_and_edges_steady cfl delta d12 Hs12)
    with distribute_to_vertices_and_edges_traced
    as d13 Hs13 Ht13 Hy13 Hts13 HC13.
  destruct (update_boundary_steady cfl delta d13 Hs13) as (d14 & Hrun & Hs14).
  exists d14, dt. split; [exact Hrun|]. split; [exact Hs14|].
  split; [exact Hdt|].
  apply update_boundary_traced, traced_step in Hrun as (Ht14 & _).
  rewrite Ht14, Ht13, Ht12, Ht11, Ht10, Ht7.
  unfold clamped_timestep. rewrite Ht0, Hy0. reflexivity.
Qed.

(** One RK3 step of a steady run goes through, and advances the time as
    an Euler step does. *)
Lemma rk3_step_steady `{External} (cfl delta yieldstep : Q)
  (finaltime : option Q) (kernel : Domain -> result Updates) (d : Domain) :
  compute_fluxes_override = Some kernel ->
  steady_kernel cfl delta kernel ->
  steady cfl delta d ->
  exists d' dt,
    evolve_one_rk3_step yieldstep finaltime d = Normal d' /\
    steady cfl delta d' /\ (delta <= dt)%Q /\
    (time d' == time d + clamped_timestep dt finaltime d)%Q.
Proof.
  intros Hover Hk Hs. unfold evolve_one_rk3_step.
  stride (backup_conserved_quantities_steady cfl delta d Hs)
    with backup_conserved_quantities_traced as d0 Hs0 Ht0 Hy0 Hts0 HC0.
  cbv zeta.
  pose (k := fun d : Domain =>
         d <- compute_fluxes d ;;;
         d <- compute_forcing_terms d ;;;
         d <- update_conserved_quantities d ;;;
         d <- saxpy_conserved_quantities (1 # 4) (3 # 4) d ;;;
         d <- update_ghosts d ;;;
         d <- distribute_to_vertices_and_edges
                (upd_time (time d0 + timestep d * (1 # 2)) d) ;;;
         d <- update_boundary d ;;;
         d <- compute_fluxes d ;;;
         d <- compute_forcing_terms d ;;;
         d <- update_conserved_quantities d ;;;
         d <- saxpy_conserved_quantities (2 # 3) (1 # 3) d ;;;
         d <- update_ghosts d ;;;
         d <- distribute_to_vertices_and_edges
                (upd_time (time d0 + timestep d) d) ;;;
         update_boundary d).
  destruct (first_substep_steady cfl delta yieldstep finaltime kernel k d0
              Hover Hk Hs0) as (d7 & dt & Hrun & Hs7 & Hdt & Hy7 & Hts7 & Ht7).
  unfold k in Hrun. cbv beta zeta in Hrun. rewrite Hrun. clear Hrun k.
  pose (k := fun d : Domain =>
         d <- saxpy_conserved_quantities (1 # 4) (3 # 4) d ;;;
         d <- update_ghosts d ;;;
         d <- distribute_to_vertices_and_edges
                (upd_time (time d0 + timestep d * (1 # 2)) d) ;;;
         d <- update_boundary d ;;;
         d <- compute_fluxes d ;;;
         d <- compute_forcing_terms d ;;;
         d <- update_conserved_quantities d ;;;
         d <- saxpy_conserved_quantities (2 # 3) (1 # 3) d ;;;
         d <- update_ghosts d ;;;
         d <- distribute_to_vertices_and_edges
                (upd_time (time d0 + timestep d) d) ;;;
         update_boundary d).
  destruct (later_substep_steady cfl delta kernel k d7 Hover Hk Hs7)
    as (d10 & Hrun & Hs10 & Ht10 & Hy10 & Hts10).
  unfold k in Hrun. cbv beta in Hrun. rewrite Hrun. clear Hrun k.
  stride (saxpy_conserved_quantities_steady cfl delta (1 # 4) (3 # 4) d10
            Hs10)
    with saxpy_conserved_quantities_traced as d11 Hs11 Ht11 Hy11 Hts11 HC11.
  stride (update_ghosts_steady cfl delta d11 Hs11)
    with update_ghosts_traced as d12 Hs12 Ht12 Hy12 Hts12 HC12.
  stride (distribute_to_vertices_and_edges_steady cfl delta
            (upd_time (time d0 + timestep d12 * (1 # 2)) d12) Hs12)
    with distribute_to_vertices_and_edges_traced
    as d13 Hs13 Ht13 Hy13 Hts13 HC13.
  stride (update_boundary_steady cfl delta d13 Hs13)
    with update_boundary_traced as d14 Hs14 Ht14 Hy14 Hts14 HC14.
  pose (k := fun d : Domain =>
         d <- saxpy_conserved_quantities (2 # 3) (1 # 3) d ;;;
         d <- update_ghosts d ;;;
         d <- distribute_to_vertices_and_edges
                (upd_time (time d0 + timestep d) d) ;;;
         update_boundary d).
  destruct (later_substep_steady cfl delta kernel k d14 Hover Hk Hs14)
    as (d17 & Hrun & Hs17 & Ht17 & Hy17 & Hts17).
  unfold k in Hrun. cbv beta in Hrun. rewrite Hrun. clear Hrun k.
  stride (saxpy_conserved_quantities_steady cfl delta (2 # 3) (1 # 3) d17
            Hs17)
    with saxpy_conserved_quantities_traced as d18 Hs18 Ht18 Hy18 Hts18 HC18.
  stride (update_ghosts_steady cfl delta d18 Hs18)
    with update_ghosts_traced as d19 Hs19 Ht19 Hy19 Hts19 HC19.
  stride (distribute_to_vertices_and_edges_steady cfl delta
            (upd_time (time d0 + timestep d19) d19) Hs19)
    with distribute_to_vertices_and_edges_traced
    as d20 Hs20 Ht20 Hy20 Hts20 HC20.
  destruct (update_boundary_steady cfl delta d20 Hs20) as (d21 & Hrun & Hs21).
  exists d21, dt. split; [exact Hrun|]. split; [exact Hs21|].
  split; [exact Hdt|].
  apply update_boundary_traced, traced_step in Hrun as (Ht21 & _).
  simpl in Ht20, Hts20, Hts13.
  rewrite Ht21, Ht20, Hts19, Hts18, Hts17, Hts14, Hts13, Hts12, Hts11,
    Hts10, Hts7, Ht0.
  unfold clamped_timestep. rewrite Ht0, Hy0. reflexivity.
Qed.

(** The step of a steady run, whichever of the three schemes it uses. *)
Lemma evolve_one_step_steady `{External} (cfl delta yieldstep : Q)
  (finaltime : option Q) (kernel : Domain -> result Updates) (d : Domain) :
  compute_fluxes_override = Some kernel ->
  steady_kernel cfl delta kernel ->
  steady cfl delta d ->
  exists d' dt,
    evolve_one_step yieldstep finaltime d = Normal d' /\
    steady cfl delta d' /\ (delta <= dt)%Q /\
    (time d' == time d + clamped_timestep dt finaltime d)%Q.
Proof.
  intros Hover Hk Hs. unfold evolve_one_step, get_timestepping_method.
  assert (Hm : timestepping_method d ∈ methods) by (by destruct Hs as (? & _)).
  unfold methods in Hm. rewrite !elem_of_cons, elem_of_nil in Hm.
  destruct Hm as [Hm|[Hm|[Hm|[]]]]; rewrite Hm.
  - rewrite decide_True by done. by apply (euler_step_steady _ _ _ _ kernel).
  - rewrite decide_False by done. rewrite decide_True by done.
    by apply (rk2_step_steady _ _ _ _ kernel).
  - rewrite decide_False by done. rewrite decide_False by done.
    rewrite decide_True by done. by apply (rk3_step_steady _ _ _ _ kernel).
Qed.

Lemma steady_count_step (cfl delta : Q) (d : Domain) :
  steady cfl delta d -> steady cfl delta (count_step d).
Proof. unfold count_step. by case_decide. Qed.

(** One pass through the loop of [evolve] in a steady run: it does not
    raise, and unless it yields it advances the time by [delta] at least. *)
Lemma steady_pass `{External} (cfl delta ys ft : Q)
  (kernel : Domain -> result Updates) (d : Domain) :
  compute_fluxes_override = Some kernel ->
  steady_kernel cfl delta kernel ->
  (0 <= epsilon)%Q ->
  steady cfl delta d -> (time d <= yieldtime d)%Q -> (time d <= ft)%Q ->
  match evolve_iteration ys (Some ft) d with
  | Abort _ _ => False
  | FinalYield _ => True
  | Yield d' =>
      steady cfl delta d' /\ yieldtime d' = yieldtime d /\
      (yieldtime d <= time d' <= yieldtime d)%Q /\ (time d' < ft - epsilon)%Q
  | Continue d' =>
      steady cfl delta d' /\ yieldtime d' = yieldtime d /\
      (time d + delta <= time d')%Q /\ (time d' < yieldtime d)%Q /\
      (time d' < ft - epsilon)%Q
  end.
Proof.
  intros Hover Hk Heps Hs Hy Hf. unfold evolve_iteration.
  destruct (evolve_one_step_steady cfl delta ys (Some ft) kernel d Hover Hk Hs)
    as (d1 & dt & H1 & Hs1 & Hdt & Ht1).
  rewrite H1. cbn [and_then].
  apply evolve_one_step_clock in H1 as (Hp1 & _).
  destruct (update_extrema_steady cfl delta d1 Hs1) as (d2 & H2 & Hs2).
  rewrite H2. cbn [and_then].
  apply update_extrema_traced in H2.
  pose proof (traced_pace _ _ _ H2) as Hp2.
  apply traced_step in H2 as (Ht2 & _).
  apply steady_count_step in Hs2.
  destruct (count_step_clock d2) as [Ht3 Hp3].
  set (d3 := count_step d2) in *.
  assert (Hp : pace d3 = pace d) by (rewrite Hp3, Hp2, Hp1; done).
  destruct (pace_fields _ _ Hp) as [Hy3 Hc3].
  assert (Hc : checkpoint d3 = false) by (by destruct Hs2 as (_&_&_&_&_&_&?&_)).
  assert (Ht : (time d3 == time d + clamped_timestep dt (Some ft) d)%Q)
    by (rewrite Ht3, Ht2; exact Ht1).
  clearbody d3. unfold clamped_timestep in Ht.
  destruct (Q.min_spec dt (ft - time d)) as [[? Hm1] | [? Hm1]];
    destruct (Q.min_spec (Qmin dt (ft - time d)) (yieldtime d - time d))
      as [[? Hm2] | [? Hm2]];
    rewrite Hm2 in Ht; rewrite Hm1 in *;
    (destruct (Qltb (time d3) (ft - epsilon)) eqn:Hfin; simpl;
     [apply Qltb_true in Hfin;
      destruct (Qltb (time d3) (yieldtime d3)) eqn:Hyld; simpl;
      [apply Qltb_true in Hyld | apply Qltb_false in Hyld; rewrite Hc];
      rewrite Hy3 in *; split_and?; try done; lra
     |apply Qltb_false in Hfin;
      destruct (Qltb ft (time d3)) eqn:Hover'; simpl; [|done];
      apply Qltb_true in Hover'; lra]).
Qed.

Lemma foldl_Qmax_zeros (n : nat) : foldl Qmax 0%Q (replicate n 0%Q) = 0%Q.
Proof. induction n as [|n IH]; simpl; [done|]. exact IH. Qed.

Lemma steady_reinitialise (cfl delta ys : Q) (d : Domain) :
  steady cfl delta d -> steady cfl delta (reinitialise ys d).
Proof.
  intros (? & ? & ? & ? & ? & ? & ? & Hlim & ? & Hb & _ & Hn & ?).
  unfold steady. split_and!; try done; try apply Hlim.
  unfold reinitialise. simpl. destruct Hn as [Hn | Hn]; [by left|].
  right. exists 0%Q. split; [|done].
  unfold zeros. destruct (number_of_triangles d) as [|n]; [lia|].
  simpl. by rewrite foldl_Qmax_zeros.
Qed.

Lemma inject_Z_of_S (n : nat) :
  (inject_Z (Z.of_nat (S n)) == inject_Z (Z.of_nat n) + 1)%Q.
Proof.
  rewrite Nat2Z.inj_succ, <- Z.add_1_r, inject_Z_plus. reflexivity.
Qed.

(** The loop of a steady run finishes: [a] steps of [delta] cover the
    distance to the final time, and [b] yield steps cover the distance from
    the yield time on. *)
Lemma evolve_loop_finishes `{External} (cfl delta ys ft : Q)
  (kernel : Domain -> result Updates) :
  compute_fluxes_override = Some kernel ->
  steady_kernel cfl delta kernel ->
  (0 <= epsilon)%Q -> (0 < delta)%Q -> (0 < ys)%Q ->
  forall (fuel a b : nat) (d : Domain),
  steady cfl delta d -> (time d <= yieldtime d)%Q -> (time d <= ft)%Q ->
  (ft - epsilon - time d <= inject_Z (Z.of_nat a) * delta)%Q ->
  (ft - epsilon - yieldtime d < inject_Z (Z.of_nat b) * ys)%Q ->
  (a + b < fuel)%nat ->
  ending (evolve_loop fuel ys (Some ft) d) = Finished.
Proof.
  intros Hover Hk Heps Hdelta Hys.
  induction fuel as [|fuel IH]; intros a b d Hs Hy Hf Ha Hb Hfuel; [lia|].
  pose proof (steady_pass cfl delta ys ft kernel d Hover Hk Heps Hs Hy Hf)
    as Hpass.
  cbn [evolve_loop].
  destruct (evolve_iteration ys (Some ft) d) as [d'|d'|d'|e d']; [done| | |done].
  - destruct Hpass as (Hs' & Hy' & Ht' & Hfin).
    destruct b as [|b].
    { change (inject_Z (Z.of_nat 0)) with 0%Q in Hb. lra. }
    rewrite inject_Z_of_S in Hb.
    simpl. apply (IH a b).
    + by apply steady_reinitialise.
    + simpl. rewrite Hy'. lra.
    + simpl. lra.
    + simpl. lra.
    + simpl. rewrite Hy'. lra.
    + lia.
  - destruct Hpass as (Hs' & Hy' & Ht' & Hlt & Hfin).
    destruct a as [|a].
    { change (inject_Z (Z.of_nat 0)) with 0%Q in Ha. lra. }
    rewrite inject_Z_of_S in Ha.
    apply (IH a b); try done.
    + rewrite Hy'. lra.
    + lra.
    + lra.
    + by rewrite Hy'.
    + lia.
Qed.

(** The statements of [evolve] before its first yield go through in a
    steady run. *)
Lemma evolve_prologue_steady `{External} (cfl delta ys : Q)
  (finaltime : option Q) (d : Domain) :
  steady cfl delta d ->
  exists d0, evolve_prologue ys finaltime None d = Normal d0 /\
             steady cfl delta d0.
Proof.
  intros Hs. unfold evolve_prologue.
  assert (Hb : boundary_fits d) by (by destruct Hs as (_&_&_&_&_&_&_&_&_&?&_)).
  destruct Hb as (objs & -> & _).
  rewrite andb_false_r.
  set (dA := upd_number_of_first_order_steps 0 _).
  assert (HA : steady cfl delta dA).
  { apply (steady_ext cfl delta d); try done.
    - unfold dA. by destruct finaltime.
    - unfold dA. by destruct finaltime.
    - replace (_order_ dA) with (default_order d)
        by (unfold dA; by destruct finaltime).
      by destruct Hs as (_ & _ & ? & _). }
  clearbody dA.
  destruct (update_ghosts_steady cfl delta dA HA) as (d1 & -> & Hs1).
  cbn [and_then].
  destruct (distribute_to_vertices_and_edges_steady cfl delta d1 Hs1)
    as (d2 & -> & Hs2).
  cbn [and_then].
  destruct (update_extrema_steady cfl delta d2 Hs2) as (d3 & -> & Hs3).
  cbn [and_then].
  destruct (update_boundary_steady cfl delta d3 Hs3) as (d4 & -> & Hs4).
  cbn [and_then].
  exists d4. split; [|done].
  by destruct Hs4 as (_&_&_&_&_&_& -> &_).
Qed.

Lemma ceiling_steps (x step : Q) :
  (0 < step)%Q ->
  (x <= inject_Z (Z.of_nat (Z.to_nat (Qceiling (x / step)))) * step)%Q.
Proof.
  intros Hstep.
  assert (Hx : (x == x / step * step)%Q) by (field; lra).
  rewrite Hx at 1. apply Qmult_le_compat_r; [|lra].
  eapply Qle_trans; [apply Qle_ceiling|].
  rewrite <- Zle_Qle. lia.
Qed.

(** A steady run of [evolve] reaches its final time within
    [passes delta ys ft t] passes of the loop. *)
Lemma evolve_finishes `{External} (cfl delta ys ft : Q)
  (kernel : Domain -> result Updates) (fuel : nat)
  (skip_initial_step : bool) (d : Domain) :
  compute_fluxes_override = Some kernel ->
  steady_kernel cfl delta kernel ->
  (0 <= epsilon)%Q -> (0 < delta)%Q -> (0 < ys)%Q ->
  steady cfl delta d -> (time d <= ft)%Q ->
  (passes delta ys ft (time d) <= fuel)%nat ->
  ending (evolve fuel (Some ys) (Some ft) None skip_initial_step d)
  = Finished.
Proof.
  intros Hover Hk Heps Hdelta Hys Hs Hf Hfuel. unfold evolve.
  change (default (evolve_max_timestep d) (Some ys)) with ys.
  destruct (evolve_prologue_steady cfl delta ys (Some ft) d Hs)
    as (d0 & Hpro & Hs0).
  rewrite Hpro.
  assert (Hcp : checkpoint d = false) by (by destruct Hs as (_&_&_&_&_&_&?&_)).
  destruct (evolve_prologue_clock _ _ _ _ _ Hcp Hpro) as (Ht0 & Hy0 & _).
  assert (Hloop : ending (evolve_loop fuel ys (Some ft) d0) = Finished).
  { unfold passes in Hfuel.
    pose proof (ceiling_steps (ft - time d) delta Hdelta).
    pose proof (ceiling_steps (ft - time d) ys Hys).
    eapply (evolve_loop_finishes cfl delta ys ft kernel Hover Hk Heps Hdelta Hys
              fuel _ _ d0 Hs0).
    - rewrite Ht0, Hy0. lra.
    - by rewrite Ht0.
    - rewrite Ht0. eapply Qle_trans; [|eassumption]. lra.
    - rewrite Hy0. eapply Qlt_le_trans; [|eassumption]. lra.
    - lia. }
  by destruct skip_initial_step.
Qed.

(** The flux kernel that leaves the water at rest is steady when its flux
    timestep [dt], scaled by the CFL number, is at least [delta]. *)
Lemma rest_kernel_steady (cfl delta dt : Q) :
  (delta <= cfl * dt)%Q -> steady_kernel cfl delta (rest_kernel dt).
Proof.
  intros Hdt d Hs. eexists. split; [reflexivity|]. split; [exact Hdt|].
  by destruct Hs as (_&_&_&_&_&_&_&_&_&_&?&_).
Qed.

(** The bound pond is steady at any model time, for steps between its
    timestep limits. *)
Lemma bound_pond_steady (t delta : Q) :
  (1 # 1000000 <= delta <= 1000)%Q ->
  steady 1 delta (set_time t (bound_pond 1)).
Proof.
  intros Hlim. set (d := set_time t (bound_pond 1)).
  assert (Hc : conserved_quantities d
               = ["stage"; "xmomentum"; "ymomentum"]%string)
    by (vm_compute; reflexivity).
  assert (He : evolved_quantities d
               = ["stage"; "xmomentum"; "ymomentum"]%string)
    by (vm_compute; reflexivity).
  unfold steady. split_and!; try (vm_compute; done); try apply Hlim.
  - replace (timestepping_method d) with "euler"%string
      by (vm_compute; reflexivity).
    unfold methods. apply elem_of_cons. by left.
  - left. vm_compute. done.
  - left. vm_compute. done.
  - intros name Hn. rewrite Hc, !elem_of_cons, elem_of_nil in Hn.
    destruct Hn as [->|[->|[->|[]]]]; vm_compute; by eexists.
  - eexists. split; [vm_compute; reflexivity|].
    intros [|[|[|i]]] vol_id edge_id B [= <- <- <-]; (split;
      [intros B' [= <-]; done|]); intros name Hn;
      rewrite He, !elem_of_cons, elem_of_nil in Hn;
      destruct Hn as [->|[->|[->|[]]]]; exists 3%nat;
      (split; [vm_compute; done|lia]).
  - right. exists 0%Q. vm_compute. done.
  - right. vm_compute. lia.
Qed.

(** The pond at rest, evolved from any model time [t] to a final time [ft]
    with Euler steps of flux timestep [dt] between the timestep limits:
    the run reaches its end within [passes dt ys ft t] passes. *)
Example pond_run_finishes (t dt ys ft : Q) (skip_initial_step : bool) :
  (1 # 1000000 <= dt <= 1000)%Q -> (0 < ys)%Q -> (t <= ft)%Q ->
  ending (@evolve (Rest_class dt) (passes dt ys ft t) (Some ys) (Some ft)
            None skip_initial_step (set_time t (bound_pond 1)))
  = Finished.
Proof.
  intros Hlim Hys Hft.
  apply (@evolve_finishes (Rest_class dt) 1 dt ys ft (rest_kernel dt)).
  - reflexivity.
  - apply rest_kernel_steady. lra.
  - vm_compute. intros [=].
  - lra.
  - exact Hys.
  - by apply bound_pond_steady.
  - exact Hft.
  - apply Nat.le_refl.
Qed.

(** ** Runs that end *)

Lemma traced_standing (c : Call) (d d' : Domain) :
  traced c d d' -> standing d' = standing d.
Proof.
  intros [Hc _]. unfold standing, controls in *. simpl.
  injection Hc as ?. congruence.
Qed.

Lemma standing_upd_time (t : Q) (d : Domain) :
  standing (upd_time t d) = standing d.
Proof. done. Qed.

Lemma standing_fields (d d' : Domain) :
  standing d' = standing d ->
  yieldtime d' = yieldtime d /\ checkpoint d' = checkpoint d /\
  _order_ d' = _order_ d /\ smallsteps d' = smallsteps d /\
  max_smallsteps d' = max_smallsteps d /\ CFL d' = CFL d /\
  evolve_min_timestep d' = evolve_min_timestep d /\
  evolve_max_timestep d' = evolve_max_timestep d /\
  timestepping_method d' = timestepping_method d /\
  forcing_terms d' = forcing_terms d.
Proof.
  unfold standing, controls. simpl. intros [= ]. split_and!; congruence.
Qed.

Lemma compute_fluxes_forward `{External} (d d' : Domain) :
  (forall kernel, compute_fluxes_override = Some kernel ->
                  forward_kernel kernel) ->
  compute_fluxes d = Normal d' -> (0 <= flux_timestep d')%Q.
Proof.
  intros Hfw. unfold compute_fluxes.
  destruct compute_fluxes_override as [kernel|]; [|done].
  unfold query. destruct (kernel _) as [u|e] eqn:Hu; [|done].
  intros [= <-]. simpl. exact (Hfw kernel eq_refl _ u Hu).
Qed.

Lemma compute_forcing_terms_forward (d d' : Domain) :
  forward_terms (forcing_terms d) -> (0 <= flux_timestep d)%Q ->
  compute_forcing_terms d = Normal d' -> (0 <= flux_timestep d')%Q.
Proof.
  unfold compute_forcing_terms. intros Hfw Hdt [= <-].
  change (forcing_terms (enter compute_forcing_terms_ d))
    with (forcing_terms d).
  assert (Hdt0 : (0 <= flux_timestep (enter compute_forcing_terms_ d))%Q)
    by done.
  revert Hdt0. generalize (enter compute_forcing_terms_ d). clear Hdt.
  induction Hfw as [|f fs Hf _ IH]; intros d0 Hdt0; simpl; [done|].
  apply IH. simpl. by apply Hf.
Qed.

(** What a normal return of [update_timestep] does to the counter of small
    steps: a small step uses up patience, any other step resets the
    counter. *)
Lemma update_timestep_progress `{External} (yieldstep : Q)
  (finaltime : option Q) (d d' : Domain) :
  update_timestep yieldstep finaltime d = Normal d' ->
  max_smallsteps d' = max_smallsteps d /\
  (((cfl_timestep d < evolve_min_timestep d)%Q /\
    (patience d' < patience d)%nat) \/
   ((evolve_min_timestep d <= cfl_timestep d)%Q /\ smallsteps d' = 0)).
Proof.
  intros Hret.
  destruct (apply_protection_against_isolated_degenerate_timesteps
              (enter update_timestep_ d)) as [d0|e d0] eqn:Hprot.
  2: { unfold update_timestep in Hret. by rewrite Hprot in Hret. }
  destruct (update_timestep_after_protection yieldstep finaltime d d0 Hprot)
    as (Ho & Hc & Hdt & _).
  rewrite Ho in Hret. clear Ho. cbv zeta in Hret.
  assert (Hf : smallsteps (with_recorded_timestep d0) = smallsteps d /\
               max_smallsteps (with_recorded_timestep d0) = max_smallsteps d /\
               _order_ (with_recorded_timestep d0) = _order_ d /\
               evolve_min_timestep (with_recorded_timestep d0)
               = evolve_min_timestep d).
  { unfold controls in Hc. injection Hc as ?. simpl. done. }
  destruct Hf as (Hs & HM & Hord & Hmin).
  rewrite Hdt in Hret. revert Hret.
  generalize (with_recorded_timestep d0) Hs HM Hord Hmin.
  clear Hs HM Hord Hmin. intros d1 Hs HM Hord Hmin.
  unfold small_step_protection. rewrite Hmin.
  destruct (Qltb (cfl_timestep d) (evolve_min_timestep d)) eqn:Hsmall.
  - apply Qltb_true in Hsmall. cbn [smallsteps upd_smallsteps max_smallsteps].
    change (max_smallsteps (upd_smallsteps (smallsteps d1 + 1) d1))
      with (max_smallsteps d1).
    change (smallsteps (upd_smallsteps (smallsteps d1 + 1) d1))
      with (smallsteps d1 + 1).
    destruct (decide (smallsteps d1 + 1 > max_smallsteps d1)) as [Hover|Hin].
    + change (_order_ (upd_smallsteps 0
                         (upd_smallsteps (smallsteps d1 + 1) d1)))
        with (_order_ d1).
      destruct (decide (_order_ d1 = 1)) as [H1|H1]; [done|].
      simpl. intros [= <-]. split; [done|]. left. split; [done|].
      unfold patience. simpl.
      destruct (decide (_order_ d = 1)); [congruence|]. lia.
    + simpl. intros [= <-]. split; [done|]. left. split; [done|].
      unfold patience. simpl. rewrite Hord.
      destruct (decide (_order_ d = 1)); lia.
  - apply Qltb_false in Hsmall.
    change (_order_ (upd_smallsteps 0 d1)) with (_order_ d1).
    change (default_order (upd_smallsteps 0 d1)) with (default_order d1).
    destruct (decide (_order_ d1 = 1 /\ default_order d1 = 2));
      simpl; intros [= <-]; (split; [done|]); right; done.
Qed.

Tactic Notation "tock" hyp(Hret) "with" constr(lem) "as"
  ident(d1) ident(Ht) ident(Hts) ident(Hst) :=
  let Hop := fresh "Hop" in
  apply and_then_Normal in Hret as (d1 & Hop & Hret);
  cbv beta zeta in Hret;
  apply lem in Hop;
  pose proof (traced_standing _ _ _ Hop) as Hst;
  apply traced_clock in Hop as (Ht & Hts & _ & _);
  simpl in Ht, Hts; rewrite ?standing_upd_time in Hst.

(** The first sub-step of a scheme: fluxes, forcing terms and the one call
    of [update_timestep], then the operations up to the update of vertex
    and edge values, which leave the controls alone but for the time. *)
Lemma first_substep_advance `{External} (yieldstep : Q)
  (finaltime : option Q) (k : Domain -> outcome) (d d' : Domain) :
  (d <- compute_fluxes d ;;;
   d <- compute_forcing_terms d ;;;
   d <- update_timestep yieldstep finaltime d ;;;
   d <- update_conserved_quantities d ;;;
   d <- update_ghosts d ;;;
   let d := upd_time (time d + timestep d) d in
   d <- distribute_to_vertices_and_edges d ;;;
   k d) = Normal d' ->
  exists d1 d2 d3 d6,
    compute_fluxes d = Normal d1 /\ compute_forcing_terms d1 = Normal d2 /\
    update_timestep yieldstep finaltime d2 = Normal d3 /\
    standing d6 = standing d3 /\ timestep d6 = timestep d3 /\
    time d6 = (time d + timestep d3)%Q /\
    k d6 = Normal d'.
Proof.
  intros Hret.
  apply and_then_Normal in Hret as (d1 & H1 & Hret). cbv beta in Hret.
  apply and_then_Normal in Hret as (d2 & H2 & Hret). cbv beta in Hret.
  apply and_then_Normal in Hret as (d3 & H3 & Hret). cbv beta zeta in Hret.
  tock Hret with update_conserved_quantities_traced as d4 Ht4 Hts4 Hst4.
  tock Hret with update_ghosts_traced as d5 Ht5 Hts5 Hst5.
  tock Hret with distribute_to_vertices_and_edges_traced
    as d6 Ht6 Hts6 Hst6.
  exists d1, d2, d3, d6. split_and!; try done.
  - rewrite Hst6, Hst5, Hst4. done.
  - rewrite Hts6, Hts5, Hts4. done.
  - pose proof (compute_fluxes_traced _ _ H1) as T1.
    pose proof (compute_forcing_terms_traced _ _ H2) as T2.
    apply traced_clock in T1 as (Ht1 & _).
    apply traced_clock in T2 as (Ht2 & _).
    apply update_timestep_clock in H3 as (Ht3 & _).
    rewrite Ht6, Ht5, Ht4, Hts5, Hts4, Ht3, Ht2, Ht1. done.
Qed.

(** A later sub-step, up to the update of the conserved quantities. *)
Lemma later_substep_advance `{External} (k : Domain -> outcome)
  (d d' : Domain) :
  (d <- compute_fluxes d ;;;
   d <- compute_forcing_terms d ;;;
   d <- update_conserved_quantities d ;;;
   k d) = Normal d' ->
  exists d3, standing d3 = standing d /\ timestep d3 = timestep d /\
             time d3 = time d /\ k d3 = Normal d'.
Proof.
  intros Hret.
  tock Hret with compute_fluxes_traced as d1 Ht1 Hts1 Hst1.
  tock Hret with compute_forcing_terms_traced as d2 Ht2 Hts2 Hst2.
  tock Hret with update_conserved_quantities_traced as d3 Ht3 Hts3 Hst3.
  exists d3. split_and!; [| | |done]; congruence.
Qed.

(** What a step of any of the three schemes that returns has done to the
    controls: the first sub-step ran [update_timestep] once, on a flux
    timestep that is not negative when kernel and forcing terms report
    none, and the time has advanced by the timestep it chose. *)
Lemma evolve_one_step_advance `{External} (yieldstep : Q)
  (finaltime : option Q) (d d' : Domain) :
  (forall kernel, compute_fluxes_override = Some kernel ->
                  forward_kernel kernel) ->
  forward_terms (forcing_terms d) ->
  timestepping_method d ∈ methods ->
  evolve_one_step yieldstep finaltime d = Normal d' ->
  exists d2 d3,
    standing d2 = standing d /\ time d2 = time d /\
    (0 <= flux_timestep d2)%Q /\
    update_timestep yieldstep finaltime d2 = Normal d3 /\
    standing d' = standing d3 /\ time d' = (time d + timestep d3)%Q.
Proof.
  intros Hfk Hft Hm.
  assert (Hsum : forall d0 d1 d2 : Domain,
            standing d0 = standing d -> time d0 = time d ->
            compute_fluxes d0 = Normal d1 ->
            compute_forcing_terms d1 = Normal d2 ->
            standing d2 = standing d /\ time d2 = time d /\
            (0 <= flux_timestep d2)%Q).
  { intros d0 d1 d2 Hst0 Ht0 H1 H2.
    pose proof (compute_fluxes_forward _ _ Hfk H1) as Hdt1.
    pose proof (compute_fluxes_traced _ _ H1) as T1.
    pose proof (compute_forcing_terms_traced _ _ H2) as T2.
    pose proof (traced_standing _ _ _ T1) as Hst1.
    pose proof (traced_standing _ _ _ T2) as Hst2.
    apply traced_clock in T1 as (Ht1 & _).
    apply traced_clock in T2 as (Ht2 & _).
    split; [congruence|]. split; [congruence|].
    apply (compute_forcing_terms_forward d1 d2); try done.
    destruct (standing_fields d d1) as (_&_&_&_&_&_&_&_&_& ->);
      [congruence|done]. }
  unfold evolve_one_step, get_timestepping_method.
  unfold methods in Hm. rewrite !elem_of_cons, elem_of_nil in Hm.
  destruct Hm as [Hm|[Hm|[Hm|[]]]]; rewrite Hm.
  - rewrite decide_True by done. unfold evolve_one_euler_step. intros Hret.
    apply (first_substep_advance yieldstep finaltime update_boundary)
      in Hret
      as (d1 & d2 & d3 & d6 & H1 & H2 & H3 & Hst6 & _ & Ht6 & Hret).
    apply update_boundary_traced in Hret.
    pose proof (traced_standing _ _ _ Hret) as Hst7.
    apply traced_clock in Hret as (Ht7 & _).
    destruct (Hsum d d1 d2 eq_refl eq_refl H1 H2) as (? & ? & ?).
    exists d2, d3. split_and!; try done; congruence.
  - rewrite decide_False by done. rewrite decide_True by done.
    unfold evolve_one_rk2_step. intros Hret.
    apply and_then_Normal in Hret as (d0 & H0 & Hret). cbv beta in Hret.
    apply backup_conserved_quantities_traced in H0.
    pose proof (traced_standing _ _ _ H0) as Hst0.
    apply traced_clock in H0 as (Ht0 & _).
    apply (first_substep_advance yieldstep finaltime
             (fun d => d <- update_boundary d ;;;
                       d <- compute_fluxes d ;;;
                       d <- compute_forcing_terms d ;;;
                       d <- update_conserved_quantities d ;;;
                       d <- saxpy_conserved_quantities (1 # 2) (1 # 2) d ;;;
                       d <- update_ghosts d ;;;
                       d <- distribute_to_vertices_and_edges d ;;;
                       update_boundary d)) in Hret
      as (d1 & d2 & d3 & d6 & H1 & H2 & H3 & Hst6 & Hts6 & Ht6 & Hret).
    tock Hret with update_boundary_traced as d7 Ht7 Hts7 Hst7.
    rewrite Hst6 in Hst7. rewrite Hts6 in Hts7. rewrite Ht6 in Ht7.
    apply (later_substep_advance
             (fun d => d <- saxpy_conserved_quantities (1 # 2) (1 # 2) d ;;;
                       d <- update_ghosts d ;;;
                       d <- distribute_to_vertices_and_edges d ;;;
                       update_boundary d)) in Hret
      as (d10 & Hst10 & Hts10 & Ht10 & Hret).
    tock Hret with saxpy_conserved_quantities_traced
      as d11 Ht11 Hts11 Hst11.
    tock Hret with update_ghosts_traced as d12 Ht12 Hts12 Hst12.
    tock Hret with distribute_to_vertices_and_edges_traced
      as d13 Ht13 Hts13 Hst13.
    apply update_boundary_traced in Hret.
    pose proof (traced_standing _ _ _ Hret) as Hst14.
    apply traced_clock in Hret as (Ht14 & _).
    destruct (Hsum d0 d1 d2 Hst0 Ht0 H1 H2) as (? & ? & ?).
    exists d2, d3. split_and!; try done.
    + rewrite Hst14, Hst13, Hst12, Hst11, Hst10, Hst7. done.
    + rewrite Ht14, Ht13, Ht12, Ht11, Ht10, Ht7, Ht0. done.
  - rewrite decide_False by done. rewrite decide_False by done.
    rewrite decide_True by done.
    unfold evolve_one_rk3_step. intros Hret.
    apply and_then_Normal in Hret as (d0 & H0 & Hret).
    cbv beta zeta in Hret.
    apply backup_conserved_quantities_traced in H0.
    pose proof (traced_standing _ _ _ H0) as Hst0.
    apply traced_clock in H0 as (Ht0 & _).
    apply (first_substep_advance yieldstep finaltime
             (fun d =>
                d <- update_boundary d ;;;
                d <- compute_fluxes d ;;;
                d <- compute_forcing_terms d ;;;
                d <- update_conserved_quantities d ;;;
                d <- saxpy_conserved_quantities (1 # 4) (3 # 4) d ;;;
                d <- update_ghosts d ;;;
                d <- distribute_to_vertices_and_edges
                       (upd_time (time d0 + timestep d * (1 # 2)) d) ;;;
                d <- update_boundary d ;;;
                d <- compute_fluxes d ;;;
                d <- compute_forcing_terms d ;;;
                d <- update_conserved_quantities d ;;;
                d <- saxpy_conserved_quantities (2 # 3) (1 # 3) d ;;;
                d <- update_ghosts d ;;;
                d <- distribute_to_vertices_and_edges
                       (upd_time (time d0 + timestep d) d) ;;;
                update_boundary d)) in Hret
      as (d1 & d2 & d3 & d6 & H1 & H2 & H3 & Hst6 & Hts6 & Ht6 & Hret).
    tock Hret with update_boundary_traced as d7 Ht7 Hts7 Hst7.
    rewrite Hst6 in Hst7. rewrite Hts6 in Hts7. rewrite Ht6 in Ht7.
    apply (later_substep_advance
             (fun d =>
                d <- saxpy_conserved_quantities (1 # 4) (3 # 4) d ;;;
                d <- update_ghosts d ;;;
                d <- distribute_to_vertices_and_edges
                       (upd_time (time d0 + timestep d * (1 # 2)) d) ;;;
                d <- update_boundary d ;;;
                d <- compute_fluxes d ;;;
                d <- compute_forcing_terms d ;;;
                d <- update_conserved_quantities d ;;;
                d <- saxpy_conserved_quantities (2 # 3) (1 # 3) d ;;;
                d <- update_ghosts d ;;;
                d <- distribute_to_vertices_and_edges
                       (upd_time (time d0 + timestep d) d) ;;;
                update_boundary d)) in Hret
      as (d10 & Hst10 & Hts10 & Ht10 & Hret).
    tock Hret with saxpy_conserved_quantities_traced
      as d11 Ht11 Hts11 Hst11.
    tock Hret with update_ghosts_traced as d12 Ht12 Hts12 Hst12.
    tock Hret with distribute_to_vertices_and_edges_traced
      as d13 Ht13 Hts13 Hst13.
    tock Hret with update_boundary_traced as d14 Ht14 Hts14 Hst14.
    apply (later_substep_advance
             (fun d =>
                d <- saxpy_conserved_quantities (2 # 3) (1 # 3) d ;;;
                d <- update_ghosts d ;;;
                d <- distribute_to_vertices_and_edges
                       (upd_time (time d0 + timestep d) d) ;;;
                update_boundary d)) in Hret
      as (d17 & Hst17 & Hts17 & Ht17 & Hret).
    tock Hret with saxpy_conserved_quantities_traced
      as d18 Ht18 Hts18 Hst18.
    tock Hret with update_ghosts_traced as d19 Ht19 Hts19 Hst19.
    tock Hret with distribute_to_vertices_and_edges_traced
      as d20 Ht20 Hts20 Hst20.
    apply update_boundary_traced in Hret.
    pose proof (traced_standing _ _ _ Hret) as Hst21.
    apply traced_clock in Hret as (Ht21 & _).
    destruct (Hsum d0 d1 d2 Hst0 Ht0 H1 H2) as (? & ? & ?).
    exists d2, d3. split_and!; try done.
    + rewrite Hst21, Hst20, Hst19, Hst18, Hst17, Hst14, Hst13, Hst12, Hst11,
        Hst10, Hst7. done.
    + rewrite Ht21, Ht20, Hts19, Hts18, Hts17, Hts14, Hts13, Hts12, Hts11,
        Hts10, Hts7, Ht0. done.
Qed.

Lemma ceiling_mono (x y : Q) :
  (x <= y)%Q -> (Z.to_nat (Qceiling x) <= Z.to_nat (Qceiling y))%nat.
Proof. intros Hle. apply Qceiling_resp_le in Hle. lia. Qed.

Lemma ceiling_drop (x y : Q) :
  (0 < y)%Q -> (x <= y - 1)%Q ->
  (Z.to_nat (Qceiling x) < Z.to_nat (Qceiling y))%nat.
Proof.
  intros Hy Hx.
  pose proof (Qceiling_lt x) as Hlow.
  pose proof (Qle_ceiling y) as Hup.
  assert (Hlt : (Qceiling x - 1 < Qceiling y - 1)%Z).
  { rewrite Zlt_Qlt. eapply Qlt_le_trans; [exact Hlow|].
    unfold Z.sub. rewrite inject_Z_plus, inject_Z_opp.
    change (inject_Z 1) with 1%Q. lra. }
  assert (Hpos : (0 < Qceiling y)%Z).
  { rewrite Zlt_Qlt. change (inject_Z 0) with 0%Q. lra. }
  lia.
Qed.

Lemma Qdiv_le (a b m : Q) : (0 < m)%Q -> (a <= b)%Q -> (a / m <= b / m)%Q.
Proof.
  intros Hm Hab. unfold Qdiv. apply Qmult_le_compat_r; [exact Hab|].
  apply Qinv_le_0_compat. lra.
Qed.

Lemma Qdiv_less_one (a m : Q) : (0 < m)%Q -> ((a - m) / m == a / m - 1)%Q.
Proof. intros Hm. field. lra. Qed.

Lemma Qdiv_pos (a m : Q) : (0 < m)%Q -> (0 < a)%Q -> (0 < a / m)%Q.
Proof.
  intros Hm Ha. unfold Qdiv. apply Qmult_lt_0_compat; [exact Ha|].
  by apply Qinv_lt_0_compat.
Qed.

Lemma gait_fields (d d' : Domain) :
  gait d' = gait d ->
  checkpoint d' = checkpoint d /\ max_smallsteps d' = max_smallsteps d /\
  CFL d' = CFL d /\ evolve_min_timestep d' = evolve_min_timestep d /\
  evolve_max_timestep d' = evolve_max_timestep d /\
  timestepping_method d' = timestepping_method d /\
  forcing_terms d' = forcing_terms d.
Proof. unfold gait. intros [= ]. done. Qed.

Lemma gait_of_standing (d d' : Domain) :
  standing d' = standing d -> gait d' = gait d.
Proof.
  intros Hst. apply standing_fields in Hst as (_&?&_&_&?&?&?&?&?&?).
  unfold gait. congruence.
Qed.

Lemma gait_of_schedule (d d' : Domain) :
  schedule d' = schedule d -> gait d' = gait d.
Proof. unfold schedule, gait. intros [= ]. congruence. Qed.

Lemma patience_of_standing (d d' : Domain) :
  standing d' = standing d -> patience d' = patience d.
Proof.
  intros Hst. apply standing_fields in Hst as (_&_&Ho&Hs&HM&_).
  unfold patience. by rewrite Ho, Hs, HM.
Qed.

Lemma marching_of (ft : Q) (d d' : Domain) :
  gait d' = gait d -> marching ft d ->
  (time d' <= yieldtime d')%Q -> (time d' <= ft)%Q -> marching ft d'.
Proof.
  intros Hg (? & ? & ? & ? & ? & ? & _) Hy Hf.
  apply gait_fields in Hg as (Hc & _ & HC & Hmin & Hmax & Hme & Hft).
  unfold marching. rewrite Hc, HC, Hmin, Hmax, Hme, Hft. done.
Qed.

(** A pass that took a small step: the patience went down, the strides did
    not go up. *)
Lemma effort_after_small_step (ys ft : Q) (d d' : Domain) :
  (0 < ys)%Q -> (0 < evolve_min_timestep d)%Q ->
  gait d' = gait d ->
  (time d <= time d')%Q -> (yieldtime d <= yieldtime d')%Q ->
  (patience d' < patience d)%nat ->
  (effort ys ft d' < effort ys ft d)%nat.
Proof.
  intros Hys Hm Hg Ht Hy Hp.
  apply gait_fields in Hg as (_ & HM & _ & Hmin & _).
  assert (Hs : (strides ys ft d' <= strides ys ft d)%nat).
  { unfold strides. rewrite Hmin. apply Nat.add_le_mono.
    - apply ceiling_mono, Qdiv_le; [done|lra].
    - apply ceiling_mono, Qdiv_le; [done|lra]. }
  unfold effort. rewrite HM.
  apply Nat.add_le_lt_mono; [|exact Hp].
  by apply Nat.mul_le_mono_r.
Qed.

(** A pass that took a step that is not small: one stride less, and the
    counter of small steps back at zero. *)
Lemma effort_after_stride (ys ft : Q) (d d' : Domain) :
  gait d' = gait d ->
  (strides ys ft d' < strides ys ft d)%nat -> smallsteps d' = 0 ->
  (effort ys ft d' < effort ys ft d)%nat.
Proof.
  intros Hg Hs H0.
  apply gait_fields in Hg as (_ & HM & _).
  assert (Hp : (patience d' < 2 * Z.to_nat (max_smallsteps d) + 2)%nat).
  { unfold patience. rewrite H0, HM, Z.sub_0_r.
    destruct (decide (_order_ d' = 1)); lia. }
  unfold effort. rewrite HM.
  set (W := (2 * Z.to_nat (max_smallsteps d) + 2)%nat) in *.
  assert (Hmul : (S (strides ys ft d') * W <= strides ys ft d * W)%nat)
    by (apply Nat.mul_le_mono_r; lia).
  simpl in Hmul. lia.
Qed.

(** A step that returns, in a marching run: the time advances by the
    CFL-limited timestep cut off at the final time and the yield time; a
    small step costs patience, any other resets the counter. *)
Lemma evolve_one_step_march `{External} (ys ft : Q) (d d' : Domain) :
  (forall kernel, compute_fluxes_override = Some kernel ->
                  forward_kernel kernel) ->
  marching ft d ->
  evolve_one_step ys (Some ft) d = Normal d' ->
  gait d' = gait d /\ yieldtime d' = yieldtime d /\
  exists dt,
    (0 <= dt)%Q /\
    (time d' == time d + Qmin (Qmin dt (ft - time d)) (yieldtime d - time d))%Q /\
    (((dt < evolve_min_timestep d)%Q /\ (patience d' < patience d)%nat) \/
     ((evolve_min_timestep d <= dt)%Q /\ smallsteps d' = 0)).
Proof.
  intros Hfk (Hcp & Hm & Hmin & HC & Hmax & Hfw & Hy & Hf) Hret.
  destruct (evolve_one_step_advance ys (Some ft) d d' Hfk Hfw Hm Hret)
    as (d2 & d3 & Hst2 & Ht2 & Hdt2 & H3 & Hst' & Ht').
  destruct (update_timestep_normal _ _ _ _ H3) as (Hsch & _).
  destruct (update_timestep_clamped _ _ _ _ H3) as (Hts & _).
  destruct (update_timestep_progress _ _ _ _ H3) as (_ & Hprog).
  pose proof (standing_fields _ _ Hst2)
    as (Hy2 & Hc2 & Ho2 & Hs2 & HM2 & HC2 & Hmin2 & Hmax2 & Hme2 & Hft2).
  split.
  { rewrite (gait_of_standing _ _ Hst'), (gait_of_schedule _ _ Hsch).
    by apply gait_of_standing. }
  split.
  { destruct (standing_fields _ _ Hst') as (-> & _).
    unfold schedule in Hsch. injection Hsch as ?. congruence. }
  exists (cfl_timestep d2). split; [|split].
  - unfold cfl_timestep, py_min. apply Q.min_glb.
    + rewrite HC2. by apply Qmult_le_0_compat.
    + by rewrite Hmax2.
  - rewrite Ht', Hts. unfold clamped_timestep. by rewrite Ht2, Hy2.
  - rewrite <- Hmin2, (patience_of_standing _ _ Hst'),
      <- (patience_of_standing _ _ Hst2).
    destruct (standing_fields _ _ Hst') as (_&_&_& -> &_).
    exact Hprog.
Qed.

Lemma count_step_march (d : Domain) :
  time (count_step d) = time d /\ yieldtime (count_step d) = yieldtime d /\
  gait (count_step d) = gait d /\ patience (count_step d) = patience d /\
  smallsteps (count_step d) = smallsteps d.
Proof. unfold count_step. by case_decide. Qed.

Lemma reinitialise_march (ys : Q) (d : Domain) :
  time (reinitialise ys d) = time d /\
  yieldtime (reinitialise ys d) = (yieldtime d + ys)%Q /\
  gait (reinitialise ys d) = gait d /\
  patience (reinitialise ys d) = patience d /\
  smallsteps (reinitialise ys d) = smallsteps d.
Proof. done. Qed.

(** One pass through the loop of [evolve] in a marching run: unless it
    ends the run, it leaves the run marching with less effort ahead. *)
Lemma evolve_iteration_progress `{External} (ys ft : Q) (d : Domain) :
  (forall kernel, compute_fluxes_override = Some kernel ->
                  forward_kernel kernel) ->
  (0 <= epsilon)%Q -> (0 < ys)%Q -> marching ft d ->
  match evolve_iteration ys (Some ft) d with
  | Abort _ _ | FinalYield _ => True
  | Yield d' =>
      marching ft (reinitialise ys d') /\
      (effort ys ft (reinitialise ys d') < effort ys ft d)%nat
  | Continue d' =>
      marching ft d' /\ (effort ys ft d' < effort ys ft d)%nat
  end.
Proof.
  intros Hfk Heps Hys Hmarch. unfold evolve_iteration.
  destruct (evolve_one_step ys (Some ft) d) as [da|e da] eqn:Hstep;
    simpl; [|done].
  destruct (update_extrema da) as [db|e db] eqn:Hex; simpl; [|done].
  destruct (evolve_one_step_march ys ft d da Hfk Hmarch Hstep)
    as (Hga & Hya & dt & Hdt & Hta & Hprog).
  apply update_extrema_traced in Hex.
  pose proof (traced_standing _ _ _ Hex) as Hstb.
  apply traced_clock in Hex as (Htb & _).
  destruct (count_step_march db) as (Ht1 & Hy1 & Hg1 & Hp1 & Hs1).
  set (d1 := count_step db) in *.
  assert (Hg : gait d1 = gait d)
    by (rewrite Hg1, (gait_of_standing _ _ Hstb); exact Hga).
  assert (Hy : yieldtime d1 = yieldtime d).
  { rewrite Hy1. destruct (standing_fields _ _ Hstb) as (-> & _). exact Hya. }
  assert (Hp : patience d1 = patience da)
    by (rewrite Hp1; by apply patience_of_standing).
  assert (Hs : smallsteps d1 = smallsteps da).
  { rewrite Hs1. by destruct (standing_fields _ _ Hstb) as (_&_&_& -> &_). }
  assert (Ht : (time d1 == time d
                + Qmin (Qmin dt (ft - time d)) (yieldtime d - time d))%Q)
    by (rewrite Ht1, Htb; exact Hta).
  assert (Hc : checkpoint d1 = false).
  { destruct (gait_fields _ _ Hg) as (-> & _).
    by destruct Hmarch as (? & _). }
  clearbody d1. clear Hta Htb Ht1 Hy1 Hg1 Hp1 Hs1 Hstb Hya Hga Hstep.
  rewrite <- Hp, <- Hs in Hprog. clear Hp Hs da db.
  pose proof Hmarch as (_ & _ & Hmin & _ & _ & _ & HtY & Htf).
  set (c := Qmin (Qmin dt (ft - time d)) (yieldtime d - time d)) in *.
  assert (Hc0 : (0 <= c)%Q).
  { unfold c. apply Q.min_glb; [apply Q.min_glb|]; lra. }
  assert (HcY : (c <= yieldtime d - time d)%Q) by apply Q.le_min_r.
  assert (Hcf : (c <= ft - time d)%Q).
  { unfold c. eapply Qle_trans; [apply Q.le_min_l|apply Q.le_min_r]. }
  assert (Hcases : (c == dt)%Q \/ (c == ft - time d)%Q
                   \/ (c == yieldtime d - time d)%Q).
  { unfold c.
    destruct (Q.min_spec (Qmin dt (ft - time d)) (yieldtime d - time d))
      as [[_ ->] | [_ ->]]; [|by right; right].
    destruct (Q.min_spec dt (ft - time d)) as [[_ ->] | [_ ->]];
      [by left|by right; left]. }
  clearbody c.
  destruct (Qltb (time d1) (ft - epsilon)) eqn:Hfin; simpl.
  2: { by destruct (Qltb ft (time d1)). }
  apply Qltb_true in Hfin.
  destruct (Qltb (time d1) (yieldtime d1)) eqn:Hyld; simpl.
  - apply Qltb_true in Hyld. rewrite Hy in Hyld. split.
    { apply (marching_of ft d); [done|done| |]; rewrite ?Hy; lra. }
    destruct Hprog as [[Hsmall Hpat] | [Hbig Hzero]].
    + apply effort_after_small_step; [done|done|done| | |done];
        rewrite ?Hy; lra.
    + apply effort_after_stride; [done| |done].
      assert (Hcdt : (c == dt)%Q) by (destruct Hcases as [?|[?|?]]; [done|lra|lra]).
      unfold strides. rewrite Hy.
      destruct (gait_fields _ _ Hg) as (_ & _ & _ & -> & _).
      apply Nat.add_lt_le_mono; [|done].
      apply ceiling_drop.
      * apply Qdiv_pos; [done|lra].
      * rewrite <- Qdiv_less_one by done. apply Qdiv_le; [done|lra].
  - apply Qltb_false in Hyld. rewrite Hy in Hyld. rewrite Hc.
    destruct (reinitialise_march ys d1) as (Ht' & Hy' & Hg' & Hp' & Hs').
    split.
    { apply (marching_of ft d); [by rewrite Hg'|done| |];
        rewrite ?Ht', ?Hy', ?Hy; lra. }
    destruct Hprog as [[Hsmall Hpat] | [Hbig Hzero]].
    + apply effort_after_small_step;
        [done|done|by rewrite Hg'| | |by rewrite Hp'].
      * rewrite Ht'. lra.
      * rewrite Hy', Hy. lra.
    + apply effort_after_stride; [by rewrite Hg'| |by rewrite Hs'].
      unfold strides. rewrite Ht', Hy', Hy.
      change (evolve_min_timestep (reinitialise ys d1))
        with (evolve_min_timestep d1).
      destruct (gait_fields _ _ Hg) as (_ & _ & _ & -> & _).
      apply Nat.add_le_lt_mono.
      * apply ceiling_mono, Qdiv_le; [done|lra].
      * apply ceiling_drop.
        -- apply Qdiv_pos; [done|lra].
        -- rewrite <- Qdiv_less_one by done. apply Qdiv_le; [done|lra].
Qed.

(** The loop of a marching run ends: after more passes than its effort it
    has finished or raised. *)
Lemma evolve_loop_ends `{External} (ys ft : Q) :
  (forall kernel, compute_fluxes_override = Some kernel ->
                  forward_kernel kernel) ->
  (0 <= epsilon)%Q -> (0 < ys)%Q ->
  forall (fuel : nat) (d : Domain),
  marching ft d -> (effort ys ft d < fuel)%nat ->
  ending (evolve_loop fuel ys (Some ft) d) <> Running.
Proof.
  intros Hfk Heps Hys.
  induction fuel as [|fuel IH]; intros d Hmarch Hfuel; [lia|].
  pose proof (evolve_iteration_progress ys ft d Hfk Heps Hys Hmarch) as Hpass.
  cbn [evolve_loop].
  destruct (evolve_iteration ys (Some ft) d) as [d'|d'|d'|e d']; try done.
  - destruct Hpass as [Hm' He']. simpl. apply IH; [done|lia].
  - destruct Hpass as [Hm' He']. apply IH; [done|lia].
Qed.

(** The statements of [evolve] before its first yield leave a run that
    marches, with an effort below [tries]. *)
Lemma evolve_prologue_march `{External} (ys ft : Q) (duration : option Q)
  (d d0 : Domain) :
  (0 < ys)%Q ->
  checkpoint d = false -> timestepping_method d ∈ methods ->
  (0 < evolve_min_timestep d)%Q -> (0 <= CFL d)%Q ->
  (0 <= evolve_max_timestep d)%Q -> forward_terms (forcing_terms d) ->
  (time d <= ft)%Q ->
  evolve_prologue ys (Some ft) duration d = Normal d0 ->
  marching ft d0 /\ (effort ys ft d0 < tries ys ft d)%nat.
Proof.
  intros Hys Hcp Hme Hmin HC Hmax Hfw Hft Hpro.
  destruct (evolve_prologue_clock _ _ _ _ _ Hcp Hpro) as (Ht0 & Hy0 & Hc0).
  assert (Hf : gait d0 = gait d /\ smallsteps d0 = smallsteps d).
  { revert Hpro. unfold evolve_prologue.
    destruct (boundary_objects d); [|done].
    destruct (is_Some_b (Some ft) && is_Some_b duration); [done|].
    set (dA := upd_number_of_first_order_steps 0 _).
    assert (HA : gait dA = gait d /\ smallsteps dA = smallsteps d)
      by (unfold dA; by destruct duration).
    destruct HA as [HgA HsA]. clearbody dA. intros Hret.
    tock Hret with update_ghosts_traced as d1 Ht1 Hts1 Hst1.
    tock Hret with distribute_to_vertices_and_edges_traced
      as d2 Ht2 Hts2 Hst2.
    tock Hret with update_extrema_traced as d3 Ht3 Hts3 Hst3.
    apply and_then_Normal in Hret as (d4 & Hop & Hret). cbv beta in Hret.
    apply update_boundary_traced, traced_standing in Hop.
    assert (Hst : standing d4 = standing dA)
      by (rewrite Hop, Hst3, Hst2, Hst1; done).
    assert (Hd0 : d0 = d4).
    { destruct (checkpoint d4) eqn:Hc4; [|by injection Hret].
      destruct (standing_fields _ _ Hst) as (_ & Hc & _).
      destruct (gait_fields _ _ HgA) as (HcA & _). congruence. }
    subst d0. split.
    - rewrite (gait_of_standing _ _ Hst). exact HgA.
    - destruct (standing_fields _ _ Hst) as (_&_&_& -> &_). exact HsA. }
  destruct Hf as [Hg Hs].
  split.
  - destruct (gait_fields _ _ Hg) as (_ & _ & HC0 & Hmin0 & Hmax0 & Hme0 & Hft0).
    unfold marching. rewrite Hc0, HC0, Hmin0, Hmax0, Hme0, Hft0, Ht0, Hy0.
    split_and!; try done. lra.
  - destruct (gait_fields _ _ Hg) as (_ & HM & _ & Hmin0 & _).
    unfold effort, strides, tries. rewrite HM, Hmin0, Ht0, Hy0.
    assert (Hb : (Z.to_nat (Qceiling ((ft - (time d + ys)) / ys))
                  <= Z.to_nat (Qceiling ((ft - time d) / ys)))%nat).
    { apply ceiling_mono, Qdiv_le; [done|lra]. }
    assert (Hp : (patience d0 <= Z.to_nat (max_smallsteps d - smallsteps d)
                                 + S (Z.to_nat (max_smallsteps d)))%nat).
    { unfold patience. rewrite HM, Hs.
      destruct (decide (_order_ d0 = 1)); lia. }
    set (W := (2 * Z.to_nat (max_smallsteps d) + 2)%nat).
    assert (Hmul : ((Z.to_nat (Qceiling ((ft - time d) / evolve_min_timestep d))
                     + Z.to_nat (Qceiling ((ft - (time d + ys)) / ys))) * W
                    <= (Z.to_nat (Qceiling ((ft - time d) / evolve_min_timestep d))
                        + Z.to_nat (Qceiling ((ft - time d) / ys))) * W)%nat)
      by (apply Nat.mul_le_mono_r; lia).
    lia.
Qed.

(** An [evolve] towards a final time ends: with one of the three schemes,
    a positive minimal timestep and no negative flux timestep, [tries]
    passes of the loop take it to the final time or to an exception. *)
Lemma evolve_ends `{External} (ys ft : Q) (duration : option Q)
  (fuel : nat) (skip_initial_step : bool) (d : Domain) :
  (forall kernel, compute_fluxes_override = Some kernel ->
                  forward_kernel kernel) ->
  (0 <= epsilon)%Q -> (0 < ys)%Q ->
  checkpoint d = false -> timestepping_method d ∈ methods ->
  (0 < evolve_min_timestep d)%Q -> (0 <= CFL d)%Q ->
  (0 <= evolve_max_timestep d)%Q -> forward_terms (forcing_terms d) ->
  (time d <= ft)%Q -> (tries ys ft d <= fuel)%nat ->
  ending (evolve fuel (Some ys) (Some ft) duration skip_initial_step d)
  <> Running.
Proof.
  intros Hfk Heps Hys Hcp Hme Hmin HC Hmax Hfw Hft Hfuel. unfold evolve.
  change (default (evolve_max_timestep d) (Some ys)) with ys.
  destruct (evolve_prologue ys (Some ft) duration d) as [d0|e d0] eqn:Hpro;
    [|done].
  destruct (evolve_prologue_march ys ft duration d d0) as [Hm0 He0];
    try done.
  assert (Hloop : ending (evolve_loop fuel ys (Some ft) d0) <> Running)
    by (apply evolve_loop_ends; [done|done|done|done|lia]).
  by destruct skip_initial_step.
Qed.

(** The yields of a run of the loop that has not finished, with a yield
    step that is not negative: the yield points after the [k]-th, one by
    one, each more than [epsilon] before the final time. *)
Lemma evolve_loop_unfinished `{External} (t0 ys : Q) (finaltime : option Q) :
  (0 <= ys)%Q ->
  forall (fuel : nat) (d : Domain) (k : nat),
  checkpoint d = false ->
  (yieldtime d == yield_point t0 ys (S k))%Q ->
  (time d <= yieldtime d)%Q ->
  ending (evolve_loop fuel ys finaltime d) <> Finished ->
  exists m : nat,
    Forall2 Qeq (yields (evolve_loop fuel ys finaltime d))
      (map (fun j => yield_point t0 ys (k + j)) (seq 1 m)) /\
    (forall j ft, (1 <= j <= m)%nat -> finaltime = Some ft ->
       yield_point t0 ys (k + j) < ft - epsilon)%Q.
Proof.
  intros Hys. induction fuel as [|fuel IH]; intros d k Hcp Hk Htime; simpl.
  { intros _. exists 0%nat. split; [constructor|]. intros j ft; lia. }
  pose proof (evolve_iteration_spec ys finaltime d Hcp) as Hpass.
  destruct (evolve_iteration ys finaltime d) as [d'|d'|d'|e d']; simpl.
  - done.
  - intros Hfin. destruct Hpass as (Hp & Hreached & Hfrom & Hbefore).
    destruct (pace_fields _ _ Hp) as [Hy Hc].
    assert (Hat : (time d' == yield_point t0 ys (S k))%Q).
    { rewrite Hy in Hreached. destruct Hfrom as [Hle | Heq]; [lra|].
      rewrite Heq in *. lra. }
    destruct (reinitialise_clock ys d') as (Ht' & Hy' & Hc').
    destruct (IH (reinitialise ys d') (S k)) as (m & Hl & Hlt).
    + congruence.
    + rewrite Hy', Hy, (yield_point_succ t0 ys (S k)). lra.
    + rewrite Ht', Hy', Hy. lra.
    + exact Hfin.
    + exists (S m). split.
      * rewrite <- cons_seq, <- fmap_S_seq. simpl.
        constructor; [by rewrite Nat.add_1_r|].
        rewrite <- list_fmap_compose.
        erewrite list_fmap_ext; [exact Hl|].
        intros i j _. simpl. f_equal. lia.
      * intros j ft Hj Hft. destruct (decide (j = 1%nat)) as [->|Hne].
        -- rewrite Nat.add_1_r, <- Hat. by apply Hbefore.
        -- replace (k + j)%nat with (S k + (j - 1))%nat by lia.
           apply Hlt; [lia|done].
  - intros Hfin. destruct Hpass as (Hp & _ & Hfrom).
    destruct (pace_fields _ _ Hp) as [Hy Hc].
    apply (IH d' k); [congruence|by rewrite Hy| |exact Hfin].
    rewrite Hy. destruct Hfrom as [Hle | ->]; done.
  - intros _. exists 0%nat. split; [constructor|]. intros j ft; lia.
Qed.

(** A steady domain stays steady under another of the three schemes. *)
Lemma steady_method (cfl delta : Q) (method : string) (d : Domain) :
  method ∈ methods -> steady cfl delta d ->
  steady cfl delta (upd_timestepping_method method d).
Proof.
  intros Hm (_ & ? & ? & ? & ? & ? & ? & Hlim & ? & Hb & ? & ? & ?).
  unfold steady. split_and!; try done; apply Hlim.
Qed.




(** * Further properties of the driver *)

(** ** Runs of evolve without a final time *)

Lemma evolve_loop_without_finaltime `{External} (ys : Q) :
  forall (fuel : nat) (d : Domain),
  ending (evolve_loop fuel ys None d) <> Finished.
Proof.
  induction fuel as [|fuel IH]; intros d; simpl; [done|].
  unfold evolve_iteration.
  destruct (_ <- evolve_one_step ys None d ;;; _) as [d1|e d1]; [|done].
  destruct (negb (Qltb (time d1) (yieldtime d1))); [|apply IH].
  destruct (if checkpoint d1 then _ else _) as [d2|e d2]; [|done].
  simpl. apply IH.
Qed.

Lemma evolve_prologue_finaltime `{External} (ys : Q) (ft du : option Q)
  (d d0 : Domain) :
  checkpoint d = false ->
  evolve_prologue ys ft du d = Normal d0 ->
  finaltime d0 = match du, ft with
                 | Some du, _ => Some (starttime d + du)%Q
                 | None, Some ft => Some ft
                 | None, None => finaltime d
                 end /\
  starttime d0 = starttime d /\ _order_ d0 = default_order d.
Proof.
  intros Hcp. unfold evolve_prologue.
  destruct (boundary_objects d); [|done].
  destruct (is_Some_b ft && is_Some_b du); [done|].
  set (dA := upd_number_of_first_order_steps 0 _).
  assert (HA : finaltime dA
               = match du, ft with
                 | Some du, _ => Some (starttime d + du)%Q
                 | None, Some ft => Some ft
                 | None, None => finaltime d
                 end /\ starttime dA = starttime d /\
               _order_ dA = default_order d /\ checkpoint dA = false).
  { unfold dA. by destruct ft, du. }
  clearbody dA. destruct HA as (Hf & Hst & Ho & Hc).
  intros Hret.
  apply and_then_Normal in Hret as (d1 & H1 & Hret). cbv beta in Hret.
  apply update_ghosts_traced in H1 as [H1 _].
  apply and_then_Normal in Hret as (d2 & H2 & Hret). cbv beta in Hret.
  apply distribute_to_vertices_and_edges_traced in H2 as [H2 _].
  apply and_then_Normal in Hret as (d3 & H3 & Hret). cbv beta in Hret.
  apply update_extrema_traced in H3 as [H3 _].
  apply and_then_Normal in Hret as (d4 & H4 & Hret). cbv beta in Hret.
  apply update_boundary_traced in H4 as [H4 _].
  assert (H' : controls d4 = controls dA) by congruence.
  unfold controls in H'. injection H' as ?.
  replace (checkpoint d4) with false in Hret by congruence.
  injection Hret as <-. split_and!; congruence.
Qed.

(** X1: [evolve] called without [finaltime] never makes its final yield,
    whatever [duration] is: the loop tests the argument [finaltime] only, and
    [duration] is only stored, as [self.finaltime = starttime + duration]. *)
Theorem evolve_without_finaltime_never_finishes `{External} (fuel : nat)
  (yieldstep duration : option Q) (skip_initial_step : bool) (d : Domain) :
  ending (evolve fuel yieldstep None duration skip_initial_step d)
  <> Finished /\
  (forall du d0,
     checkpoint d = false ->
     evolve_prologue (default (evolve_max_timestep d) yieldstep) None
       (Some du) d = Normal d0 ->
     finaltime d0 = Some (starttime d + du)%Q).
Proof.
  split.
  - unfold evolve.
    destruct (evolve_prologue _ None duration d) as [d0|e d0]; [|done].
    destruct skip_initial_step; simpl; apply evolve_loop_without_finaltime.
  - intros du d0 Hcp Hpro.
    by destruct (evolve_prologue_finaltime _ _ _ _ _ Hcp Hpro) as (-> & _).
Qed.

(** ** Arguments that evolve rejects *)

(** X2: [evolve] raises before it yields anything when the boundary objects
    have not been bound, leaving the domain as it was; and when both
    [finaltime] and [duration] are given, with only [_order_] reset to
    [default_order].  The missing boundary objects are reported first. *)
Theorem evolve_rejects_its_arguments `{External} (fuel : nat)
  (yieldstep ft du : option Q) (skip_initial_step : bool) (d : Domain) :
  (boundary_objects d = None ->
   exists msg,
     evolve fuel yieldstep ft du skip_initial_step d
     = mkRun [] (Failed (AssertionError msg)) d) /\
  (is_Some (boundary_objects d) -> is_Some ft -> is_Some du ->
   evolve fuel yieldstep ft du skip_initial_step d
   = mkRun [] (Failed OnlyOneOfFinaltimeAndDuration)
       (upd_order (default_order d) d)).
Proof.
  unfold evolve, evolve_prologue. split.
  - intros ->. by eexists.
  - intros [objs ->] [t ->] [t' ->]. done.
Qed.

(** ** No yield point is skipped *)

Lemma evolve_loop_consecutive `{External} (t0 ys : Q) (ft : option Q) :
  (0 <= ys)%Q ->
  forall (fuel : nat) (d : Domain) (k : nat),
  checkpoint d = false ->
  (yieldtime d == yield_point t0 ys (S k))%Q ->
  (time d <= yieldtime d)%Q ->
  forall (j : nat) (y : Q),
  yields (evolve_loop fuel ys ft d) !! j = Some y ->
  (y == yield_point t0 ys (S k + j))%Q \/
  (ft = Some y /\ S j = length (yields (evolve_loop fuel ys ft d)) /\
   ending (evolve_loop fuel ys ft d) = Finished).
Proof.
  intros Hys. induction fuel as [|fuel IH]; intros d k Hcp Hk Htime j y;
    simpl; [done|].
  pose proof (evolve_iteration_spec ys ft d Hcp) as Hpass.
  destruct (evolve_iteration ys ft d) as [d'|d'|d'|e d']; simpl.
  - destruct Hpass as (_ & Hft & _).
    destruct j as [|j]; [|done]. intros [= <-]. by right.
  - destruct Hpass as (Hp & Hreached & Hfrom & _).
    destruct (pace_fields _ _ Hp) as [Hy Hc].
    assert (Hat : (time d' == yield_point t0 ys (S k))%Q).
    { rewrite Hy in Hreached. destruct Hfrom as [Hle | Heq]; [lra|].
      rewrite Heq in *. lra. }
    destruct (reinitialise_clock ys d') as (Ht' & Hy' & Hc').
    destruct j as [|j].
    + intros [= <-]. left. by rewrite Nat.add_0_r.
    + simpl. intros Hj.
      assert (Hc1 : checkpoint (reinitialise ys d') = false) by congruence.
      assert (Hk1 : (yieldtime (reinitialise ys d')
                     == yield_point t0 ys (S (S k)))%Q).
      { rewrite Hy', Hy, (yield_point_succ t0 ys (S k)). lra. }
      assert (Ht1 : (time (reinitialise ys d')
                     <= yieldtime (reinitialise ys d'))%Q).
      { rewrite Ht', Hy', Hy. lra. }
      destruct (IH (reinitialise ys d') (S k) Hc1 Hk1 Ht1 j y Hj)
        as [Hpt | (Hf & Hlen & Hend)].
      * left. replace (S (k + S j)) with (S (S k) + j)%nat by lia.
        exact Hpt.
      * right. split; [done|]. split; [|done]. by rewrite Hlen.
  - destruct Hpass as (Hp & _ & Hfrom).
    destruct (pace_fields _ _ Hp) as [Hy Hc].
    apply (IH d' k); [congruence|by rewrite Hy|].
    rewrite Hy. destruct Hfrom as [Hle | ->]; done.
  - done.
Qed.



(** ** What evolve leaves alone *)

Lemma configuration_of_controls (d d' : Domain) :
  controls d' = controls d -> configuration d' = configuration d.
Proof. unfold controls, configuration. intros [= ]. congruence. Qed.

Lemma configuration_of_schedule (d d' : Domain) :
  schedule d' = schedule d -> configuration d' = configuration d.
Proof. unfold schedule, configuration. intros [= ]. congruence. Qed.

Lemma configuration_traced (c : Call) (d d' : Domain) :
  traced c d d' -> configuration d' = configuration d.
Proof. intros [Hc _]. by apply configuration_of_controls. Qed.

Lemma configuration_upd_time (t : Q) (d : Domain) :
  configuration (upd_time t d) = configuration d.
Proof. done. Qed.

Lemma update_timestep_configuration `{External} (yieldstep : Q)
  (ft : option Q) (d d' : Domain) :
  update_timestep yieldstep ft d = Normal d' ->
  configuration d' = configuration d.
Proof.
  intros Hret. apply update_timestep_normal in Hret as (Hs & _).
  by apply configuration_of_schedule.
Qed.

Tactic Notation "keep" hyp(Hret) "with" constr(lem) "as" ident(d1) ident(Hk) :=
  apply and_then_Normal in Hret as (d1 & Hk & Hret);
  cbv beta zeta in Hret;
  apply lem in Hk; try apply configuration_traced in Hk;
  rewrite ?configuration_upd_time in Hk.

Ltac chain_configuration :=
  repeat match goal with
         | Hk : configuration _ = configuration _ |- _ =>
             rewrite Hk; clear Hk
         end;
  reflexivity.

Lemma evolve_one_step_configuration `{External} (yieldstep : Q)
  (ft : option Q) (d d' : Domain) :
  evolve_one_step yieldstep ft d = Normal d' ->
  configuration d' = configuration d.
Proof.
  unfold evolve_one_step. repeat case_decide; intros Hret.
  - unfold evolve_one_euler_step in Hret.
    keep Hret with compute_fluxes_traced as d1 K1.
    keep Hret with compute_forcing_terms_traced as d2 K2.
    keep Hret with update_timestep_configuration as d3 K3.
    keep Hret with update_conserved_quantities_traced as d4 K4.
    keep Hret with update_ghosts_traced as d5 K5.
    keep Hret with distribute_to_vertices_and_edges_traced as d6 K6.
    apply update_boundary_traced, configuration_traced in Hret.
    chain_configuration.
  - unfold evolve_one_rk2_step in Hret.
    keep Hret with backup_conserved_quantities_traced as d0 K0.
    keep Hret with compute_fluxes_traced as d1 K1.
    keep Hret with compute_forcing_terms_traced as d2 K2.
    keep Hret with update_timestep_configuration as d3 K3.
    keep Hret with update_conserved_quantities_traced as d4 K4.
    keep Hret with update_ghosts_traced as d5 K5.
    keep Hret with distribute_to_vertices_and_edges_traced as d6 K6.
    keep Hret with update_boundary_traced as d7 K7.
    keep Hret with compute_fluxes_traced as d8 K8.
    keep Hret with compute_forcing_terms_traced as d9 K9.
    keep Hret with update_conserved_quantities_traced as d10 K10.
    keep Hret with saxpy_conserved_quantities_traced as d11 K11.
    keep Hret with update_ghosts_traced as d12 K12.
    keep Hret with distribute_to_vertices_and_edges_traced as d13 K13.
    apply update_boundary_traced, configuration_traced in Hret.
    chain_configuration.
  - unfold evolve_one_rk3_step in Hret.
    keep Hret with backup_conserved_quantities_traced as d0 K0.
    keep Hret with compute_fluxes_traced as d1 K1.
    keep Hret with compute_forcing_terms_traced as d2 K2.
    keep Hret with update_timestep_configuration as d3 K3.
    keep Hret with update_conserved_quantities_traced as d4 K4.
    keep Hret with update_ghosts_traced as d5 K5.
    keep Hret with distribute_to_vertices_and_edges_traced as d6 K6.
    keep Hret with update_boundary_traced as d7 K7.
    keep Hret with compute_fluxes_traced as d8 K8.
    keep Hret with compute_forcing_terms_traced as d9 K9.
    keep Hret with update_conserved_quantities_traced as d10 K10.
    keep Hret with saxpy_conserved_quantities_traced as d11 K11.
    keep Hret with update_ghosts_traced as d12 K12.
    keep Hret with distribute_to_vertices_and_edges_traced as d13 K13.
    keep Hret with update_boundary_traced as d14 K14.
    keep Hret with compute_fluxes_traced as d15 K15.
    keep Hret with compute_forcing_terms_traced as d16 K16.
    keep Hret with update_conserved_quantities_traced as d17 K17.
    keep Hret with saxpy_conserved_quantities_traced as d18 K18.
    keep Hret with update_ghosts_traced as d19 K19.
    keep Hret with distribute_to_vertices_and_edges_traced as d20 K20.
    apply update_boundary_traced, configuration_traced in Hret.
    chain_configuration.
  - by injection Hret as <-.
Qed.

Lemma configuration_count_step (d : Domain) :
  configuration (count_step d) = configuration d.
Proof. unfold count_step. by case_decide. Qed.

Lemma evolve_iteration_configuration `{External} (ys : Q) (ft : option Q)
  (d : Domain) :
  checkpoint d = false ->
  match evolve_iteration ys ft d with
  | Abort _ _ => True
  | FinalYield d' | Yield d' | Continue d' =>
      configuration d' = configuration d
  end.
Proof.
  intros Hcp. unfold evolve_iteration.
  destruct (evolve_one_step ys ft d) as [da|e da] eqn:Hstep; simpl; [|done].
  apply evolve_one_step_configuration in Hstep.
  destruct (update_extrema da) as [db|e db] eqn:Hex; simpl; [|done].
  apply update_extrema_traced, configuration_traced in Hex.
  pose proof (configuration_count_step db) as Hcount.
  set (d1 := count_step db) in *.
  assert (H1 : configuration d1 = configuration d) by congruence.
  assert (Hc1 : checkpoint d1 = false).
  { unfold configuration in H1. injection H1 as ?. congruence. }
  clearbody d1. rewrite Hc1.
  destruct ft as [ft|].
  - destruct (negb (Qltb (time d1) (ft - epsilon))).
    + destruct (Qltb ft (time d1)); [done|exact H1].
    + destruct (negb (Qltb (time d1) (yieldtime d1))); exact H1.
  - destruct (negb (Qltb (time d1) (yieldtime d1))); exact H1.
Qed.

Lemma evolve_loop_configuration `{External} (ys : Q) (ft : option Q) :
  forall (fuel : nat) (d : Domain),
  checkpoint d = false ->
  match ending (evolve_loop fuel ys ft d) with
  | Failed _ => True
  | _ => configuration (domain_after (evolve_loop fuel ys ft d))
         = configuration d
  end.
Proof.
  induction fuel as [|fuel IH]; intros d Hcp; simpl; [done|].
  pose proof (evolve_iteration_configuration ys ft d Hcp) as Hpass.
  destruct (evolve_iteration ys ft d) as [d'|d'|d'|e d']; simpl; try done.
  - assert (Hc : checkpoint (reinitialise ys d') = false).
    { simpl. unfold configuration in Hpass. injection Hpass as ?.
      congruence. }
    specialize (IH (reinitialise ys d') Hc).
    destruct (ending _); [|done|]; rewrite IH; exact Hpass.
  - assert (Hc : checkpoint d' = false).
    { unfold configuration in Hpass. injection Hpass as ?. congruence. }
    specialize (IH d' Hc).
    destruct (ending _); [|done|]; rewrite IH; exact Hpass.
Qed.

Lemma evolve_prologue_configuration `{External} (ys : Q)
  (ft du : option Q) (d d0 : Domain) :
  checkpoint d = false ->
  evolve_prologue ys ft du d = Normal d0 ->
  configuration d0 = configuration d.
Proof.
  intros Hcp. unfold evolve_prologue.
  destruct (boundary_objects d) eqn:Hobjs; [|done].
  destruct (is_Some_b ft && is_Some_b du); [done|].
  set (dA := upd_number_of_first_order_steps 0 _).
  assert (HA : configuration dA = configuration d).
  { unfold dA. by destruct ft, du. }
  clearbody dA. intros Hret.
  keep Hret with update_ghosts_traced as d1 K1.
  keep Hret with distribute_to_vertices_and_edges_traced as d2 K2.
  keep Hret with update_extrema_traced as d3 K3.
  keep Hret with update_boundary_traced as d4 K4.
  assert (H4 : configuration d4 = configuration d) by congruence.
  assert (Hc4 : checkpoint d4 = false).
  { unfold configuration in H4. injection H4 as ?. congruence. }
  rewrite Hc4 in Hret. by injection Hret as <-.
Qed.

Lemma evolve_configuration `{External} (fuel : nat)
  (yieldstep ft du : option Q) (skip_initial_step : bool) (d : Domain) :
  checkpoint d = false ->
  match ending (evolve fuel yieldstep ft du skip_initial_step d) with
  | Failed _ => True
  | _ => configuration
           (domain_after (evolve fuel yieldstep ft du skip_initial_step d))
         = configuration d
  end.
Proof.
  intros Hcp. unfold evolve.
  destruct (evolve_prologue _ ft du d) as [d0|e d0] eqn:Hpro; [|done].
  pose proof (evolve_prologue_configuration _ _ _ _ _ Hcp Hpro) as H0.
  assert (Hc0 : checkpoint d0 = false).
  { unfold configuration in H0. injection H0 as ?. congruence. }
  pose proof (evolve_loop_configuration
                (default (evolve_max_timestep d) yieldstep) ft fuel d0 Hc0)
    as Hloop.
  destruct skip_initial_step; simpl;
    (destruct (ending _); [|done|]; rewrite Hloop; exact H0).
Qed.

(** X4: with checkpointing off, a run of [evolve] that has not raised has
    left the configuration of the domain alone: the CFL number, the timestep
    limits, the default order, the timestepping method, the start time, the
    names of the conserved and evolved quantities, the boundary objects, the
    forcing terms and the ghost settings. *)
Theorem evolve_keeps_the_configuration `{External} (fuel : nat)
  (yieldstep ft du : option Q) (skip_initial_step : bool) (d : Domain)
  (Hcp : checkpoint d = false) :
  let r := evolve fuel yieldstep ft du skip_initial_step d in
  match ending r with
  | Failed _ => True
  | _ => configuration (domain_after r) = configuration d
  end.
Proof. by apply evolve_configuration. Qed.

(** X4, witness: the pond at rest evolved from time 10 to time 12. *)
Lemma evolve_keeps_the_configuration_witness :
  configuration
    (domain_after (@evolve (Rest_class (3 # 10)) 20 (Some (1 # 2)%Q)
                     (Some 12%Q) None false pond_at_10))
  = configuration pond_at_10.
Proof.
  assert (Hcp : checkpoint pond_at_10 = false) by reflexivity.
  pose proof (@evolve_keeps_the_configuration (Rest_class (3 # 10)) 20
                (Some (1 # 2)%Q) (Some 12%Q) None false pond_at_10 Hcp)
    as Hthm.
  cbv zeta in Hthm.
  destruct (ending _) eqn:He in Hthm; [exact Hthm| |exact Hthm].
  vm_compute in He. discriminate He.
Defined.

(** ** Runs that reach the final time *)

Lemma evolve_loop_final `{External} (ys : Q) (ft : option Q) :
  forall (fuel : nat) (d : Domain),
  ending (evolve_loop fuel ys ft d) = Finished ->
  exists f, ft = Some f /\
            time (domain_after (evolve_loop fuel ys ft d)) = f /\
            last (yields (evolve_loop fuel ys ft d)) = Some f.
Proof.
  induction fuel as [|fuel IH]; intros d; simpl; [done|].
  unfold evolve_iteration.
  destruct (_ <- evolve_one_step ys ft d ;;; _) as [d1|e d1]; [|done].
  set (at_yieldtime := if negb (Qltb (time d1) (yieldtime d1)) then _ else _).
  assert (Hat : ending (match at_yieldtime with
                        | Abort e d' => mkRun [] (Failed e) d'
                        | FinalYield d' => mkRun [time d'] Finished d'
                        | Yield d' =>
                            yield_first (time d')
                              (evolve_loop fuel ys ft (reinitialise ys d'))
                        | Continue d' => evolve_loop fuel ys ft d'
                        end) = Finished ->
                exists f, ft = Some f /\
                  time (domain_after
                          (match at_yieldtime with
                           | Abort e d' => mkRun [] (Failed e) d'
                           | FinalYield d' => mkRun [time d'] Finished d'
                           | Yield d' =>
                               yield_first (time d')
                                 (evolve_loop fuel ys ft (reinitialise ys d'))
                           | Continue d' => evolve_loop fuel ys ft d'
                           end)) = f /\
                  last (yields
                          (match at_yieldtime with
                           | Abort e d' => mkRun [] (Failed e) d'
                           | FinalYield d' => mkRun [time d'] Finished d'
                           | Yield d' =>
                               yield_first (time d')
                                 (evolve_loop fuel ys ft (reinitialise ys d'))
                           | Continue d' => evolve_loop fuel ys ft d'
                           end)) = Some f).
  { unfold at_yieldtime.
    destruct (negb (Qltb (time d1) (yieldtime d1))); [|apply IH].
    destruct (if checkpoint d1 then _ else _) as [d2|e d2]; [|done].
    simpl. intros Hfin.
    destruct (IH _ Hfin) as (f & Hf & Ht & Hl).
    exists f. split; [done|]. split; [done|].
    destruct (yields _) as [|y l] eqn:Hy; [done|]. exact Hl. }
  clearbody at_yieldtime.
  destruct ft as [f|]; [|exact Hat].
  destruct (negb (Qltb (time d1) (f - epsilon))); [|exact Hat].
  destruct (Qltb f (time d1)); [done|].
  simpl. intros _. by exists f.
Qed.



(** ** The base class cannot evolve *)

Lemma for_each_quantity_total_function (f : Quantity -> Quantity)
  (names : list string) :
  forall d : Domain,
  (exists d1, for_each_quantity (fun Qn => Ok (f Qn)) names d = Normal d1) \/
  exists name d1,
    for_each_quantity (fun Qn => Ok (f Qn)) names d
    = Raised (KeyError name) d1 /\
    name ∈ names /\ quantities d !! name = None.
Proof.
  induction names as [|name names IH]; intros d; simpl; [eauto|].
  unfold query, get_quantity.
  destruct (quantities d !! name) as [Qn|] eqn:Hq.
  - destruct (IH (upd_quantities (<[name:=f Qn]> (quantities d)) d))
      as [[d1 ->] | (name' & d1 & -> & Hin & Hnone)]; [eauto|].
    right. exists name', d1. split; [done|]. split.
    + apply elem_of_cons. by right.
    + simpl in Hnone. by apply lookup_insert_None in Hnone as [? _].
  - right. exists name, d. split; [done|]. split; [|done].
    apply elem_of_cons. by left.
Qed.

(** X6: in the base class, where [compute_fluxes] is not overridden, every
    step raises: an Euler step raises the [compute_fluxes] exception at once,
    an RK2 or RK3 step raises it after the backup of the conserved
    quantities unless the backup itself failed on a missing quantity; so
    [evolve] raises in the first pass of its loop, after the optional
    initial yield and no other. *)
Theorem base_class_cannot_evolve `{External}
  (Hbase : compute_fluxes_override = None) (ft : option Q) (d : Domain) :
  compute_fluxes d
  = Raised ComputeFluxesNotOverridden (enter compute_fluxes_ d) /\
  (forall ys, evolve_one_euler_step ys ft d
   = Raised ComputeFluxesNotOverridden (enter compute_fluxes_ d)) /\
  (forall ys, timestepping_method d ∈ methods ->
   exists e d', evolve_one_step ys ft d = Raised e d' /\
     (e = ComputeFluxesNotOverridden \/
      exists name, e = KeyError name /\ name ∈ conserved_quantities d /\
                   quantities d !! name = None)) /\
  (forall (fuel : nat) (yieldstep du : option Q) (skip_initial_step : bool)
          (d0 : Domain),
     checkpoint d = false ->
     timestepping_method d ∈ methods ->
     evolve_prologue (default (evolve_max_timestep d) yieldstep) ft du d
     = Normal d0 ->
     let r := evolve (S fuel) yieldstep ft du skip_initial_step d in
     yields r = (if skip_initial_step then [] else [time d]) /\
     exists e, ending r = Failed e).
Proof.
  assert (Hflux : forall d, compute_fluxes d
            = Raised ComputeFluxesNotOverridden (enter compute_fluxes_ d)).
  { intros d1. unfold compute_fluxes. by rewrite Hbase. }
  assert (Heuler : forall ys d, evolve_one_euler_step ys ft d
            = Raised ComputeFluxesNotOverridden (enter compute_fluxes_ d)).
  { intros ys d1. unfold evolve_one_euler_step. by rewrite Hflux. }
  assert (Hbackup : forall d,
            (exists d1, backup_conserved_quantities d = Normal d1) \/
            exists name d1,
              backup_conserved_quantities d = Raised (KeyError name) d1 /\
              name ∈ conserved_quantities d /\ quantities d !! name = None).
  { intros d1. unfold backup_conserved_quantities.
    apply (for_each_quantity_total_function Quantity_backup_centroid_values
             (conserved_quantities d1) (enter backup_conserved_quantities_ d1)). }
  assert (Hstep : forall ys d, timestepping_method d ∈ methods ->
    exists e d', evolve_one_step ys ft d = Raised e d' /\
      (e = ComputeFluxesNotOverridden \/
       exists name, e = KeyError name /\ name ∈ conserved_quantities d /\
                    quantities d !! name = None)).
  { intros ys d1 Hm. unfold evolve_one_step, get_timestepping_method.
    unfold methods in Hm. rewrite !elem_of_cons, elem_of_nil in Hm.
    destruct Hm as [Hm|[Hm|[Hm|[]]]]; rewrite Hm; simpl.
    - rewrite Heuler. eauto.
    - unfold evolve_one_rk2_step.
      destruct (Hbackup d1) as [[d2 ->] | (name & d2 & -> & ?)]; simpl.
      + rewrite Hflux. simpl. eauto.
      + eauto 10.
    - unfold evolve_one_rk3_step.
      destruct (Hbackup d1) as [[d2 ->] | (name & d2 & -> & ?)]; simpl.
      + rewrite Hflux. simpl. eauto.
      + eauto 10. }
  split; [apply Hflux|]. split; [intros ys; apply Heuler|].
  split; [intros ys; apply Hstep|].
  intros fuel yieldstep du skip d0 Hcp Hm Hpro r. subst r.
  unfold evolve. rewrite Hpro.
  destruct (evolve_prologue_clock _ _ _ _ _ Hcp Hpro) as (Ht0 & _ & _).
  pose proof (evolve_prologue_configuration _ _ _ _ _ Hcp Hpro) as Hconf.
  assert (Hm0 : timestepping_method d0 ∈ methods).
  { unfold configuration in Hconf. injection Hconf as ?. congruence. }
  destruct (Hstep (default (evolve_max_timestep d) yieldstep) d0 Hm0)
    as (e & d' & He & _).
  assert (Hloop : evolve_loop (S fuel)
                    (default (evolve_max_timestep d) yieldstep) ft d0
                  = mkRun [] (Failed e) d').
  { simpl. unfold evolve_iteration. by rewrite He. }
  rewrite Hloop. destruct skip; simpl; rewrite ?Ht0; eauto.
Qed.

(** X6, witness: the bound pond in the base class, evolved from time 10:
    the run yields 10 and raises. *)
Lemma base_class_cannot_evolve_witness :
  let r := @evolve Generic_Domain_class 5 (Some (1 # 2)%Q) (Some 12%Q) None
             false pond_at_10 in
  yields r = [10%Q] /\ ending r = Failed ComputeFluxesNotOverridden.
Proof.
  destruct (@base_class_cannot_evolve Generic_Domain_class eq_refl
              (Some 12%Q) pond_at_10) as (_ & _ & _ & Hrun).
  split.
  - eapply (Hrun 4%nat (Some (1 # 2)%Q) None false).
    + reflexivity.
    + replace (timestepping_method pond_at_10) with "euler"%string
        by (vm_compute; reflexivity).
      unfold methods. apply elem_of_cons. by left.
    + vm_compute. reflexivity.
  - vm_compute. reflexivity.
Defined.

(** ** The Euler and RK2 steps *)





(** ** Extrema monitoring *)

Lemma update_info_block_spec `{External} (t : Q) (Qn : Quantity)
  (indices : option (list nat)) (info : InfoBlock) :
  (0 <= single_precision)%Q ->
  let info' := update_info_block t Qn indices info in
  (exists x', info_max info' = Some x' /\
     (Quantity_get_maximum_value Qn indices <= x' + single_precision)%Q /\
     (forall x, info_max info = Some x -> x <= x')%Q) /\
  (exists x', info_min info' = Some x' /\
     (x' - single_precision <= Quantity_get_minimum_value Qn indices)%Q /\
     (forall x, info_min info = Some x -> x' <= x)%Q).
Proof.
  intros Hsp. unfold update_info_block.
  set (maxval := Quantity_get_maximum_value Qn indices).
  set (minval := Quantity_get_minimum_value Qn indices).
  destruct info as [mn mx mnl mxl mnt mxt]. simpl.
  assert (Hmax : exists x', info_max
      (if match mx with
          | Some m => Qltb (m + single_precision) maxval
          | None => true
          end
       then mkInfoBlock mn (Some maxval) mnl
              (Some (Quantity_get_maximum_location Qn)) mnt (Some t)
       else mkInfoBlock mn mx mnl mxl mnt mxt) = Some x' /\
      (maxval <= x' + single_precision)%Q /\
      (forall x, mx = Some x -> x <= x')%Q /\
      info_min
      (if match mx with
          | Some m => Qltb (m + single_precision) maxval
          | None => true
          end
       then mkInfoBlock mn (Some maxval) mnl
              (Some (Quantity_get_maximum_location Qn)) mnt (Some t)
       else mkInfoBlock mn mx mnl mxl mnt mxt) = mn).
  { destruct mx as [m|]; simpl.
    - destruct (Qltb (m + single_precision) maxval) eqn:Hlt; simpl.
      + apply Qltb_true in Hlt. exists maxval.
        split; [done|]. split; [lra|]. split; [|done].
        intros x [= <-]. lra.
      + apply Qltb_false in Hlt. exists m.
        split; [done|]. split; [lra|]. split; [|done].
        intros x [= <-]. lra.
    - exists maxval. split; [done|]. split; [lra|]. done. }
  destruct Hmax as (x' & Hx' & Hle & Hmono & Hmn).
  set (info1 := if match mx with
                   | Some m => Qltb (m + single_precision) maxval
                   | None => true
                   end then _ else _) in *.
  clearbody info1. destruct info1 as [mn1 mx1 mnl1 mxl1 mnt1 mxt1].
  simpl in *. subst mn1 mx1.
  destruct mn as [m|]; simpl.
  - destruct (Qltb minval (m - single_precision)) eqn:Hlt; simpl.
    + apply Qltb_true in Hlt. split; [eauto|].
      exists minval. split; [done|]. split; [lra|]. intros x [= <-]. lra.
    + apply Qltb_false in Hlt. split; [eauto|].
      exists m. split; [done|]. split; [lra|]. intros x [= <-]. lra.
  - split; [eauto|]. exists minval. split; [done|]. split; [lra|]. done.
Qed.

Lemma update_extrema_loop `{External} (d0 : Domain)
  (l : list (string * InfoBlock)) :
  NoDup l.*1 ->
  forall d',
  foldr (fun '(quantity_name, info) o =>
           d <- o ;;;
           query d (match quantities d !! quantity_name with
                    | Some Qn => Ok Qn
                    | None => apply_expression_to_dictionary
                                quantity_name (quantities d)
                    end)
             (fun Qn =>
                let info' := update_info_block (time d) Qn
                               (monitor_indices d) info in
                Normal (upd_quantities_to_be_monitored
                          (Some (<[quantity_name := info']>
                                   (default ∅
                                      (quantities_to_be_monitored d))))
                          d)))
        (Normal d0) l = Normal d' ->
  quantities d' = quantities d0 /\ controls d' = controls d0 /\
  calls d' = calls d0 /\ monitor_indices d' = monitor_indices d0 /\
  (is_Some (quantities_to_be_monitored d0) ->
   is_Some (quantities_to_be_monitored d')) /\
  (forall name info, (name, info) ∈ l ->
     exists Qn, monitored_quantity d0 name = Ok Qn /\
       default ∅ (quantities_to_be_monitored d') !! name
       = Some (update_info_block (time d0) Qn (monitor_indices d0) info)) /\
  (forall name, name ∉ l.*1 ->
     default ∅ (quantities_to_be_monitored d') !! name
     = default ∅ (quantities_to_be_monitored d0) !! name).
Proof.
  induction l as [|[n i] l IH]; intros Hnd d'; simpl.
  { intros [= <-]. split_and!; try done. intros name info Hin.
    by apply elem_of_nil in Hin. }
  apply NoDup_cons in Hnd as [Hn Hnd]. simpl in Hn.
  destruct (foldr _ _ l) as [d1|e d1] eqn:Hfold; simpl; [|done].
  destruct (IH Hnd d1 eq_refl) as (Hq & Hc & Hcalls & Hidx & Hsome & Hin & Hout).
  assert (Ht : time d1 = time d0).
  { unfold controls in Hc. by injection Hc as ?. }
  unfold query.
  destruct (match quantities d1 !! n with
            | Some Qn => Ok Qn
            | None => apply_expression_to_dictionary n (quantities d1)
            end) as [Qn|e] eqn:Hres; [|done].
  intros [= <-]. simpl. split; [done|]. split; [done|]. split; [done|].
  split; [done|]. split; [by eauto|]. split.
  - intros name info Hmem. apply elem_of_cons in Hmem as [[= -> ->] | Hmem].
    + exists Qn. split.
      * unfold monitored_quantity. by rewrite <- Hq.
      * by rewrite lookup_insert_eq, Ht, Hidx.
    + destruct (Hin name info Hmem) as (Qn' & HQn' & Hlook).
      exists Qn'. split; [done|].
      rewrite lookup_insert_ne; [done|].
      intros <-. apply Hn. apply list_elem_of_fmap. by exists (n, info).
  - intros name Hname. apply not_elem_of_cons in Hname as [Hne Hname].
    rewrite lookup_insert_ne by done. by apply Hout.
Qed.

(** X9: [update_extrema].  With monitoring switched off, or at a model time
    outside the monitored interval, nothing is recorded.  Otherwise, when
    the call returns, the quantities are untouched, the monitored names are
    the same, and every block holds a maximum and a minimum: the maximum has
    not decreased and is at least the current largest value less the
    tolerance [single_precision], the minimum has not increased and is at
    most the current smallest value plus the tolerance. *)
Theorem update_extrema_contract `{External} (d d' : Domain)
  (Hsp : (0 <= single_precision)%Q)
  (Hret : update_extrema d = Normal d') :
  quantities d' = quantities d /\
  (quantities_to_be_monitored d = None -> d' = enter update_extrema_ d) /\
  (~ in_monitor_interval d -> d' = enter update_extrema_ d) /\
  (in_monitor_interval d ->
   forall m, quantities_to_be_monitored d = Some m ->
   exists m', quantities_to_be_monitored d' = Some m' /\
     (forall name, m !! name = None -> m' !! name = None) /\
     (forall name info, m !! name = Some info ->
        exists Qn info' mx mn,
          monitored_quantity d name = Ok Qn /\
          m' !! name = Some info' /\
          info_max info' = Some mx /\ info_min info' = Some mn /\
          (Quantity_get_maximum_value Qn (monitor_indices d)
           <= mx + single_precision)%Q /\
          (mn - single_precision
           <= Quantity_get_minimum_value Qn (monitor_indices d))%Q /\
          (forall x, info_max info = Some x -> x <= mx)%Q /\
          (forall x, info_min info = Some x -> mn <= x)%Q)).
Proof.
  unfold update_extrema in Hret. simpl in Hret.
  destruct (quantities_to_be_monitored d) as [m|] eqn:Hm.
  2: { injection Hret as <-. split; [done|]. split; [done|].
       split; [done|]. intros _ m' [=]. }
  destruct (match monitor_time_interval d with
            | Some (t0, t1) => Qltb (time d) t0 || Qltb t1 (time d)
            | None => false
            end) eqn:Hwin.
  - injection Hret as <-. split; [done|]. split; [done|]. split; [done|].
    intros Hin. exfalso.
    destruct (monitor_time_interval d) as [[t0 t1]|] eqn:Hiv; [|done].
    destruct (Hin t0 t1 Hiv) as [Hlo Hhi].
    apply orb_true_iff in Hwin as [Hlt | Hlt]; apply Qltb_true in Hlt; lra.
  - destruct (update_extrema_loop (enter update_extrema_ d) (map_to_list m)
                (NoDup_fst_map_to_list m) d' Hret)
      as (Hq & _ & _ & _ & Hsome & Hin & Hout).
    split; [done|]. split; [done|]. split.
    { intros Hnot. exfalso. apply Hnot. intros t0 t1 Hiv.
      rewrite Hiv in Hwin. apply orb_false_iff in Hwin as [H0 H1].
      apply Qltb_false in H0, H1. done. }
    intros _ m0 [= <-].
    destruct Hsome as [m' Hm']; [simpl; by rewrite Hm|].
    exists m'. rewrite Hm' in Hin, Hout. simpl in Hin, Hout.
    split; [done|]. split.
    + intros name Hnone. rewrite Hout; [by rewrite Hm|].
      intros Hmem. apply list_elem_of_fmap in Hmem as ([n i] & -> & Hmem).
      apply elem_of_map_to_list in Hmem. simpl in Hnone. congruence.
    + intros name info Hlook.
      destruct (Hin name info) as (Qn & HQn & Hnew).
      { by apply elem_of_map_to_list. }
      destruct (update_info_block_spec (time d) Qn (monitor_indices d) info
                  Hsp) as ((mx & Hmx & Hmx1 & Hmx2) & (mn & Hmn & Hmn1 & Hmn2)).
      exists Qn, (update_info_block (time d) Qn (monitor_indices d) info),
        mx, mn.
      done.
Qed.

(** X9, witness: the monitored pond at rest, stage 10 everywhere: the first
    call records the maximum 10. *)
Lemma update_extrema_contract_witness :
  let d' := final (@update_extrema Generic_Domain_class monitored_pond) in
  exists m' info',
    quantities_to_be_monitored d' = Some m' /\
    m' !! "stage"%string = Some info' /\
    info_max info' = Some 10%Q.
Proof.
  assert (Hsp : (0 <= @single_precision Generic_Domain_class)%Q)
    by (vm_compute; intros [=]).
  assert (Hret : @update_extrema Generic_Domain_class monitored_pond
                 = Normal (final (@update_extrema Generic_Domain_class
                                    monitored_pond)))
    by (vm_compute; reflexivity).
  destruct (@update_extrema_contract Generic_Domain_class monitored_pond _
              Hsp Hret) as (_ & _ & _ & Hrec).
  destruct (Hrec ltac:(intros t0 t1 [=])
              {[ "stage"%string := empty_info_block ]} eq_refl)
    as (m' & Hm' & _ & Hblocks).
  destruct (Hblocks "stage"%string empty_info_block eq_refl)
    as (Qn & info' & mx & mn & _ & Hlook & _).
  exists m', info'. split; [exact Hm'|]. split; [exact Hlook|].
  rewrite Hm' in *.
  vm_compute in Hm'. injection Hm' as <-.
  vm_compute in Hlook. injection Hlook as <-. reflexivity.
Defined.

(** ** Ghost cells *)

Lemma num_put_spec (ids : list nat) (vals : list Q) :
  forall (a : list Q) (k : nat) (a' : list Q),
  num_put a ids vals k = Ok a' ->
  (k + length ids <= length vals)%nat ->
  NoDup ids ->
  length a' = length a /\
  (forall j i, ids !! j = Some i -> a' !! i = vals !! (k + j)%nat) /\
  (forall i, i ∉ ids -> a' !! i = a !! i).
Proof.
  induction ids as [|i ids IH]; intros a k a'; simpl.
  { intros [= <-] _ _. split; [done|]. split; [|done]. intros j i' [=]. }
  intros Hput Hlen Hnd. apply NoDup_cons in Hnd as [Hi Hnd].
  rewrite Nat.mod_small in Hput by lia.
  destruct (lookup_lt_is_Some_2 vals k) as [v Hv]; [lia|].
  rewrite Hv in Hput.
  destruct (setitem a i v) as [a1|e] eqn:Hset; [|done]. simpl in Hput.
  apply setitem_Ok in Hset as [Hia ->].
  destruct (IH _ _ _ Hput ltac:(lia) Hnd) as (Hl & Hin & Hout).
  rewrite length_insert in Hl. split; [done|]. split.
  - intros [|j] i'; simpl.
    + intros [= <-]. rewrite (Hout i Hi), list_lookup_insert_eq by done.
      by rewrite Nat.add_0_r.
    + intros Hj. rewrite (Hin j i' Hj). f_equal. lia.
  - intros i' Hi'. apply not_elem_of_cons in Hi' as [Hne Hi'].
    rewrite (Hout i' Hi'). by rewrite list_lookup_insert_ne.
Qed.

(** X10: [update_ghosts].  A processor with no entry in [full_send_dict]
    exchanges nothing; an entry there without one in [ghost_recv_dict] is a
    [KeyError].  With both, distinct conserved names and as many full ids
    as distinct ghost ids, a call that returns has copied, in every
    conserved quantity, the centroid value of each full cell into its ghost
    cell, as the values were before the call, and has changed nothing else
    of the quantities. *)
Theorem update_ghosts_contract (d : Domain) :
  match full_send_dict d !! processor d, ghost_recv_dict d !! processor d with
  | None, _ => update_ghosts d = Normal (enter update_ghosts_ d)
  | Some _, None =>
      update_ghosts d
      = Raised (KeyError "ghost_recv_dict") (enter update_ghosts_ d)
  | Some Idf, Some Idg =>
      forall d', update_ghosts d = Normal d' ->
      NoDup (conserved_quantities d) ->
      length Idf = length Idg -> NoDup Idg ->
      (forall name, name ∉ conserved_quantities d ->
         quantities d' !! name = quantities d !! name) /\
      (forall name, name ∈ conserved_quantities d ->
         exists Qn cv,
           quantities d !! name = Some Qn /\
           quantities d' !! name = Some (upd_centroid_values cv Qn) /\
           length cv = length (centroid_values Qn) /\
           (forall k g f, Idg !! k = Some g -> Idf !! k = Some f ->
              cv !! g = centroid_values Qn !! f) /\
           (forall i, i ∉ Idg -> cv !! i = centroid_values Qn !! i))
  end.
Proof.
  unfold update_ghosts. simpl.
  destruct (full_send_dict d !! processor d) as [Idf|]; [|done].
  destruct (ghost_recv_dict d !! processor d) as [Idg|]; [|done].
  intros d' Hret Hnames Hlen Hnd.
  destruct (for_each_quantity_lookup _ _ _ _ Hnames Hret) as [Hin Hout].
  split; [exact Hout|].
  intros name Hname. destruct (Hin name Hname) as (Qn & Qn' & HQn & Hf & HQn').
  simpl in HQn.
  destruct (num_take (centroid_values Qn) Idf) as [vals|e] eqn:Htake;
    [|done].
  simpl in Hf.
  destruct (num_put (centroid_values Qn) Idg vals 0) as [cv|e] eqn:Hput;
    [|done].
  simpl in Hf. injection Hf as <-.
  pose proof (rmap_Ok_length _ _ _ Htake) as Hvals.
  destruct (num_put_spec _ _ _ _ _ Hput ltac:(simpl; lia) Hnd)
    as (Hl & Hcopied & Hkept).
  exists Qn, cv. split; [done|]. split; [done|]. split; [done|].
  split; [|done].
  intros k g f Hg Hf. rewrite (Hcopied k g Hg). simpl.
  destruct (rmap_Ok_lookup _ _ _ Htake k f Hf) as (x & -> & Hx).
  by apply getitem_Ok in Hx.
Qed.

(** X10, witness: the pond of two triangles whose second triangle is a ghost
    of the first: the stale stage 7 of the ghost is replaced by the 10 of the
    full triangle. *)
Lemma update_ghosts_contract_witness :
  exists Qn cv,
    quantities ghost_pond !! "stage"%string = Some Qn /\
    quantities (final (update_ghosts ghost_pond)) !! "stage"%string
    = Some (upd_centroid_values cv Qn) /\
    centroid_values Qn = [10; 7]%Q /\ cv !! 1%nat = Some 10%Q.
Proof.
  pose proof (update_ghosts_contract ghost_pond) as Hthm.
  change (full_send_dict ghost_pond !! processor ghost_pond)
    with (Some [0%nat]) in Hthm.
  change (ghost_recv_dict ghost_pond !! processor ghost_pond)
    with (Some [1%nat]) in Hthm.
  cbv iota beta in Hthm.
  assert (Hret : update_ghosts ghost_pond
                 = Normal (final (update_ghosts ghost_pond)))
    by (vm_compute; reflexivity).
  destruct (Hthm _ Hret) as [_ Hin].
  - apply (bool_decide_unpack _). vm_compute. exact I.
  - reflexivity.
  - apply NoDup_singleton.
  - destruct (Hin "stage"%string) as (Qn & cv & HQn & HQn' & _ & Hcopy & _).
    { apply elem_of_cons. by left. }
    exists Qn, cv. split; [exact HQn|]. split; [exact HQn'|].
    vm_compute in HQn. injection HQn as <-.
    split; [reflexivity|].
    by rewrite (Hcopy 0%nat 1%nat 0%nat eq_refl eq_refl).
Defined.

(** ** Integrity of the domain *)

Lemma check_conserved_are_quantities_Ok (names : list string) (d : Domain) :
  check_conserved_are_quantities names d = Ok tt <->
  forall name, name ∈ names -> is_Some (quantities d !! name).
Proof.
  induction names as [|name names IH]; simpl.
  { split; [|done]. intros _ name Hin. by apply elem_of_nil in Hin. }
  case_decide as Hq.
  - rewrite IH. split.
    + intros Hall n Hn. apply elem_of_cons in Hn as [->|Hn]; auto.
    + intros Hall n Hn. apply Hall, elem_of_cons. by right.
  - split; [done|]. intros Hall. destruct Hq. apply Hall, elem_of_cons.
    by left.
Qed.

Lemma check_conserved_come_first_Ok (names : list string) (d : Domain) :
  forall i : nat,
  check_conserved_come_first i names d = Ok tt <->
  forall j name, names !! j = Some name ->
                 evolved_quantities d !! (i + j)%nat = Some name.
Proof.
  induction names as [|name names IH]; intros i; simpl.
  { split; [|done]. intros _ j name [=]. }
  unfold getitem.
  destruct (evolved_quantities d !! i) as [first|] eqn:Hi; simpl.
  - case_decide as Heq.
    + subst first. rewrite IH. split.
      * intros Hall [|j] n; simpl.
        -- intros [= <-]. by rewrite Nat.add_0_r.
        -- intros Hj. rewrite <- Nat.add_succ_comm. by apply Hall.
      * intros Hall j n Hj. rewrite Nat.add_succ_comm.
        by apply (Hall (S j)).
    + split; [done|]. intros Hall.
      specialize (Hall 0%nat name eq_refl). rewrite Nat.add_0_r in Hall.
      congruence.
  - split; [done|]. intros Hall.
    specialize (Hall 0%nat name eq_refl). rewrite Nat.add_0_r in Hall.
    congruence.
Qed.

Lemma prefix_by_lookup {A : Type} (l1 l2 : list A) :
  (forall j x, l1 !! j = Some x -> l2 !! j = Some x) <-> l1 `prefix_of` l2.
Proof.
  revert l2. induction l1 as [|a l1 IH]; intros l2.
  { split; [intros _; apply prefix_nil|]. intros _ j x [=]. }
  split.
  - intros Hall. destruct l2 as [|b l2].
    { by specialize (Hall 0%nat a eq_refl). }
    specialize (Hall 0%nat a eq_refl) as H0. simpl in H0.
    injection H0 as ->. apply prefix_cons, IH.
    intros j x Hj. by apply (Hall (S j)).
  - intros [k ->] j x Hj. by apply lookup_app_l_Some.
Qed.

Lemma rmap_app_Ok {A B : Type} (f : A -> result B) (l1 l2 : list A)
  (bs : list B) :
  rmap f (l1 ++ l2) = Ok bs -> rmap f l1 = Ok (take (length l1) bs).
Proof.
  revert bs. induction l1 as [|a l1 IH]; intros bs; simpl; [done|].
  destruct (f a) as [b|e]; simpl; [|done].
  destruct (rmap f (l1 ++ l2)) as [bs'|e] eqn:Hrest; simpl; [|done].
  intros [= <-]. by rewrite (IH bs' eq_refl).
Qed.

Lemma check_conserved_come_first_short (names k : list string)
  (d : Domain) :
  k <> [] ->
  forall i : nat,
  (forall j name, names !! j = Some name ->
                  evolved_quantities d !! (i + j)%nat = Some name) ->
  (i + length names)%nat = length (evolved_quantities d) ->
  check_conserved_come_first i (names ++ k) d = Error IndexError.
Proof.
  intros Hk. induction names as [|name names IH]; intros i Hall Hlen; simpl.
  - destruct k as [|x k]; [done|]. simpl. unfold getitem.
    rewrite lookup_ge_None_2; [done|]. simpl in Hlen. lia.
  - unfold getitem. specialize (Hall 0%nat name eq_refl) as H0.
    rewrite Nat.add_0_r in H0. rewrite H0. simpl.
    rewrite decide_True by done. apply IH.
    + intros j n Hj. rewrite Nat.add_succ_comm. by apply (Hall (S j)).
    + simpl in Hlen. lia.
Qed.

(** X11: [check_integrity] returns exactly when the mesh is sound, every
    conserved name is a quantity and the conserved names are the first of
    the evolved names; an evolved list too short for the conserved one is an
    [IndexError], not an assertion.  On a domain that passed, the conserved
    values of a cell are the first of its evolved values. *)
Theorem check_integrity_contract (mesh_check_integrity : result unit)
  (d : Domain) :
  (check_integrity mesh_check_integrity d = Ok tt <->
   mesh_check_integrity = Ok tt /\
   (forall name, name ∈ conserved_quantities d ->
                 is_Some (quantities d !! name)) /\
   conserved_quantities d `prefix_of` evolved_quantities d) /\
  (forall e, mesh_check_integrity = Error e ->
             check_integrity mesh_check_integrity d = Error e) /\
  (mesh_check_integrity = Ok tt ->
   (forall name, name ∈ conserved_quantities d ->
                 is_Some (quantities d !! name)) ->
   evolved_quantities d `prefix_of` conserved_quantities d ->
   (length (evolved_quantities d) < length (conserved_quantities d))%nat ->
   check_integrity mesh_check_integrity d = Error IndexError) /\
  (check_integrity mesh_check_integrity d = Ok tt ->
   forall vol_id vertex edge q,
     get_evolved_quantities d vol_id vertex edge = Ok q ->
     get_conserved_quantities d vol_id vertex edge
     = Ok (take (length (conserved_quantities d)) q)).
Proof.
  assert (Hiff : check_integrity mesh_check_integrity d = Ok tt <->
    mesh_check_integrity = Ok tt /\
    (forall name, name ∈ conserved_quantities d ->
                  is_Some (quantities d !! name)) /\
    conserved_quantities d `prefix_of` evolved_quantities d).
  { unfold check_integrity.
    destruct mesh_check_integrity as [[]|e]; simpl.
    2: { split; [done|]. by intros [? _]. }
    destruct (check_conserved_are_quantities (conserved_quantities d) d)
      as [[]|e] eqn:Hsub; simpl.
    - pose proof (proj1 (check_conserved_are_quantities_Ok _ _) Hsub)
        as Hall.
      rewrite check_conserved_come_first_Ok, <- prefix_by_lookup.
      simpl. tauto.
    - split; [done|]. intros (_ & Hall & _).
      apply (proj2 (check_conserved_are_quantities_Ok _ _)) in Hall.
      congruence. }
  split; [exact Hiff|]. split; [|split].
  - intros e ->. done.
  - intros -> Hsub [k Hk] Hlen. unfold check_integrity. simpl.
    apply (proj2 (check_conserved_are_quantities_Ok _ _)) in Hsub.
    rewrite Hsub. simpl. rewrite Hk.
    apply check_conserved_come_first_short; [|done|done].
    intros ->. rewrite Hk, app_nil_r in Hlen. lia.
  - intros Hok vol_id vertex edge q. apply Hiff in Hok as (_ & _ & [k Hk]).
    unfold get_evolved_quantities, get_conserved_quantities.
    destruct (is_Some_b vertex && is_Some_b edge); [done|].
    rewrite Hk. apply rmap_app_Ok.
Qed.

(** X11, witness: the pond that evolves a tracer besides its three
    conserved quantities passes, and the conserved values of its cell are
    the first three of the evolved ones. *)
Lemma check_integrity_contract_witness :
  check_integrity (Ok tt) tracer_pond = Ok tt /\
  get_evolved_quantities tracer_pond 0 None None = Ok [10; 0; 0; 5]%Q /\
  get_conserved_quantities tracer_pond 0 None None = Ok [10; 0; 0]%Q.
Proof.
  assert (Hok : check_integrity (Ok tt) tracer_pond = Ok tt)
    by (vm_compute; reflexivity).
  assert (Hev : get_evolved_quantities tracer_pond 0 None None
                = Ok [10; 0; 0; 5]%Q) by (vm_compute; reflexivity).
  destruct (check_integrity_contract (Ok tt) tracer_pond)
    as (_ & _ & _ & Hfirst).
  split; [exact Hok|]. split; [exact Hev|].
  exact (Hfirst Hok 0%nat None None _ Hev).
Defined.

(** ** Naming of the simulation *)

Lemma string_length_append (a b : string) :
  String.length (String.append a b)
  = (String.length a + String.length b)%nat.
Proof. induction a as [|c a IH]; simpl; [done|]. by rewrite IH. Qed.

Lemma substring_whole (b : string) : String.substring 0 (String.length b) b = b.
Proof. induction b as [|c b IH]; simpl; [done|]. by rewrite IH. Qed.

Lemma substring_append_front (a b : string) :
  String.substring 0 (String.length a) (String.append a b) = a.
Proof.
  induction a as [|c a IH]; simpl.
  - by destruct b.
  - by rewrite IH.
Qed.

Lemma substring_append_back (a b : string) :
  String.substring (String.length a) (String.length b) (String.append a b) = b.
Proof.
  induction a as [|c a IH]; simpl; [apply substring_whole|exact IH].
Qed.

Lemma substring_split (n : string) :
  forall k : nat, (k <= String.length n)%nat ->
  n = String.append (String.substring 0 k n) (String.substring k (String.length n - k) n).
Proof.
  induction n as [|c n IH]; intros k Hk; simpl in *.
  - by destruct k.
  - destruct k as [|k]; simpl.
    + by rewrite substring_whole.
    + change (String c n
              = String c (String.append (String.substring 0 k n)
                            (String.substring k (String.length n - k) n))).
      f_equal. apply IH. lia.
Qed.

Lemma endswith_spec (name suffix : string) :
  endswith name suffix = true <->
  exists front, name = String.append front suffix.
Proof.
  unfold endswith. rewrite andb_true_iff, Nat.leb_le, String.eqb_eq. split.
  - intros [Hlen Hsuf].
    exists (String.substring 0 (String.length name - String.length suffix) name).
    pose proof (substring_split name
                  (String.length name - String.length suffix) ltac:(lia))
      as Hsplit.
    replace (String.length name
             - (String.length name - String.length suffix))%nat
      with (String.length suffix) in Hsplit by lia.
    by rewrite Hsuf in Hsplit.
  - intros [front ->]. rewrite string_length_append. split; [lia|].
    replace (String.length front + String.length suffix
             - String.length suffix)%nat
      with (String.length front) by lia.
    apply substring_append_back.
Qed.

(** X12: the name of the simulation.  [set_name] removes one trailing
    '.sww' and no more, so that [get_name] after [set_name(n + '.sww')] is
    [n]; a name that does not end in '.sww' is stored as it is; the data
    directory is not touched, nor the name by [set_datadir]. *)
Theorem set_name_get_name (n : string) (s : Storage) :
  get_name (set_name (String.append n ".sww") s) = n /\
  ((forall front, n <> String.append front ".sww") ->
   get_name (set_name n s) = n) /\
  get_datadir (set_name n s) = get_datadir s /\
  (forall dir, get_datadir (set_datadir dir s) = dir /\
               get_name (set_datadir dir s) = get_name s).
Proof.
  split; [|split; [|done]].
  - unfold get_name, set_name. simpl.
    rewrite (proj2 (endswith_spec _ _)) by eauto.
    rewrite string_length_append. simpl.
    replace (String.length n + 4 - 4)%nat with (String.length n) by lia.
    apply substring_append_front.
  - intros Hno. unfold get_name, set_name. simpl.
    destruct (endswith n ".sww") eqn:Hend; [|done].
    apply endswith_spec in Hend as [front ->]. by destruct (Hno front).
Qed.

(** ** Further setters and getters *)

(** X13: [set_CFL] accepts exactly the positive values, and warns exactly
    for those above 1.  A rejected value leaves the domain as it was, with
    no warning: the assignment made before the assertion, for values above
    1, is never followed by a failing assertion. *)
Theorem set_CFL_contract (cfl : Q) (d : Domain) :
  ((0 < cfl)%Q ->
   (set_CFL cfl d).2 = Normal (upd_CFL cfl d) /\
   CFL (final (set_CFL cfl d).2) = cfl) /\
  ((cfl <= 0)%Q ->
   set_CFL cfl d = ([], Raised (AssertionError "") d)) /\
  ((set_CFL cfl d).1 <> [] <-> (1 < cfl)%Q).
Proof.
  unfold set_CFL.
  destruct (Qltb 1 cfl) eqn:H1; destruct (Qltb 0 cfl) eqn:H0; simpl;
    try apply Qltb_true in H1; try apply Qltb_false in H1;
    try apply Qltb_true in H0; try apply Qltb_false in H0;
    (split; [intros ?; try lra; done|]);
    (split; [intros ?; try lra; done|]);
    (split; [intros ?; try lra; done | intros ?; try lra; done]).
Qed.

(** X14: every name that [get_quantity_names] returns is a valid argument
    of [get_quantity], which returns the quantity stored under it; any
    other name is a [KeyError]; and no name is returned twice. *)
Theorem get_quantity_names_are_valid (d : Domain) (name : string) :
  (name ∈ get_quantity_names d <->
   exists Qn, get_quantity d name = Ok Qn) /\
  (forall Qn, get_quantity d name = Ok Qn <->
              quantities d !! name = Some Qn) /\
  (name ∉ get_quantity_names d ->
   get_quantity d name = Error (KeyError name)) /\
  NoDup (get_quantity_names d).
Proof.
  unfold get_quantity_names, get_quantity.
  assert (Hin : name ∈ (map_to_list (quantities d)).*1 <->
                is_Some (quantities d !! name)).
  { rewrite list_elem_of_fmap. split.
    - intros ([n Qn] & -> & Hmem). apply elem_of_map_to_list in Hmem.
      by exists Qn.
    - intros [Qn HQn]. exists (name, Qn). split; [done|].
      by apply elem_of_map_to_list. }
  split; [|split; [|split]].
  - rewrite Hin. destruct (quantities d !! name) as [Qn|]; split.
    + by exists Qn.
    + by exists Qn.
    + by intros [? ?].
    + by intros [? ?].
  - intros Qn. destruct (quantities d !! name); split; congruence.
  - rewrite Hin. destruct (quantities d !! name) as [Qn|]; [|done].
    intros Hno. destruct Hno. by exists Qn.
  - apply NoDup_fst_map_to_list.
Qed.

(** ** Boundary vectors in the base class *)

Lemma update_boundary_entry_base `{External} (i vol_id edge_id : nat)
  (B : Boundary) (d : Domain) :
  conserved_values_to_evolved_values_override = None ->
  length (evaluate B (time d) (quantities d) vol_id edge_id)
  <> length (evolved_quantities d) ->
  exists e,
    update_boundary_entry i ((vol_id, edge_id), Some B) d = Raised e d /\
    (length (evaluate B (time d) (quantities d) vol_id edge_id)
     <> length (conserved_quantities d) -> e = BoundaryWrongLength) /\
    (length (evaluate B (time d) (quantities d) vol_id edge_id)
     = length (conserved_quantities d) ->
     match get_evolved_quantities d vol_id None (Some edge_id) with
     | Ok _ => e = ConservedToEvolvedNotOverridden
     | Error e' => e = e'
     end).
Proof.
  intros Hbase Hlen. unfold update_boundary_entry.
  rewrite decide_False by done.
  case_decide as Hcons.
  - unfold query.
    destruct (get_evolved_quantities d vol_id None (Some edge_id))
      as [q_evol|e'] eqn:Hget.
    + unfold conserved_values_to_evolved_values. rewrite Hbase.
      unfold conserved_values_to_evolved_values_default.
      unfold get_evolved_quantities in Hget. simpl in Hget.
      apply rmap_Ok_length in Hget.
      rewrite decide_False by congruence.
      exists ConservedToEvolvedNotOverridden. done.
    + exists e'. done.
  - exists BoundaryWrongLength. done.
Qed.

Lemma update_boundary_from_base `{External}
  (objs : list ((nat * nat) * option Boundary)) :
  conserved_values_to_evolved_values_override = None ->
  forall (i : nat) (d : Domain) (k vol_id edge_id : nat) (B : Boundary),
  objs !! k = Some ((vol_id, edge_id), Some B) ->
  (forall t qs, length (evaluate B t qs vol_id edge_id)
                <> length (evolved_quantities d)) ->
  exists e d', update_boundary_from i objs d = Raised e d'.
Proof.
  intros Hbase. induction objs as [|entry objs IH];
    intros i d k vol_id edge_id B Hk Hlen; [done|].
  cbn [update_boundary_from].
  destruct k as [|k]; simpl in Hk.
  - injection Hk as ->.
    destruct (update_boundary_entry_base i vol_id edge_id B d Hbase
                (Hlen _ _)) as (e & -> & _).
    simpl. eauto.
  - pose proof (update_boundary_entry_frame i entry d) as [Hc _].
    destruct (update_boundary_entry i entry d) as [d1|e d1]; simpl in *;
      [|eauto].
    apply (IH (S i) d1 k vol_id edge_id B Hk).
    intros t qs. unfold controls in Hc. injection Hc as ?.
    replace (evolved_quantities d1) with (evolved_quantities d) by done.
    apply Hlen.
Qed.

(** X15: in the base class, where [conserved_values_to_evolved_values] is
    not overridden, a boundary object has to return one value for each
    evolved quantity.  For any other length the entry raises and writes
    nothing: the contract error when the length is not that of the
    conserved quantities either, and otherwise the error of the default
    conversion, or of the reading of the evolved edge values before it.
    So [update_boundary] raises as soon as one bound object returns such
    vectors. *)
Theorem base_class_boundary_vectors `{External}
  (Hbase : conserved_values_to_evolved_values_override = None)
  (d : Domain) (objs : list ((nat * nat) * option Boundary))
  (k vol_id edge_id : nat) (B : Boundary)
  (Hobjs : boundary_objects d = Some objs)
  (Hk : objs !! k = Some ((vol_id, edge_id), Some B))
  (Hlen : forall t qs, length (evaluate B t qs vol_id edge_id)
                       <> length (evolved_quantities d)) :
  (forall i d1, evolved_quantities d1 = evolved_quantities d ->
     exists e,
       update_boundary_entry i ((vol_id, edge_id), Some B) d1 = Raised e d1 /\
       (length (evaluate B (time d1) (quantities d1) vol_id edge_id)
        <> length (conserved_quantities d1) -> e = BoundaryWrongLength) /\
       (length (evaluate B (time d1) (quantities d1) vol_id edge_id)
        = length (conserved_quantities d1) ->
        match get_evolved_quantities d1 vol_id None (Some edge_id) with
        | Ok _ => e = ConservedToEvolvedNotOverridden
        | Error e' => e = e'
        end)) /\
  exists e d', update_boundary d = Raised e d'.
Proof.
  split.
  - intros i d1 Hev. apply update_boundary_entry_base; [done|].
    rewrite Hev. apply Hlen.
  - unfold update_boundary. simpl. rewrite Hobjs.
    by apply (update_boundary_from_base objs Hbase 0
                (enter update_boundary_ d) k vol_id edge_id B).
Qed.

(** X15, witness: the tracer pond has four evolved quantities and boundary
    objects that return the three conserved values; its boundary update
    fails in the default conversion. *)
Lemma base_class_boundary_vectors_witness :
  exists d',
    @update_boundary Generic_Domain_class bound_tracer_pond
    = Raised ConservedToEvolvedNotOverridden d'.
Proof.
  assert (Hobjs : exists objs,
            boundary_objects bound_tracer_pond = Some objs /\
            objs !! 0%nat
            = Some ((0, 0)%nat,
                    Some (Dirichlet_boundary "wall" [10; 0; 0]%Q))).
  { eexists. split; vm_compute; reflexivity. }
  destruct Hobjs as (objs & Hobjs & Hk).
  destruct (@base_class_boundary_vectors Generic_Domain_class eq_refl
              bound_tracer_pond objs 0%nat 0%nat 0%nat
              (Dirichlet_boundary "wall" [10; 0; 0]%Q) Hobjs Hk)
    as [_ (e & d' & Hraise)].
  { intros t qs. vm_compute. lia. }
  exists d'. rewrite Hraise. f_equal.
  assert (Hrun : exists d0,
            @update_boundary Generic_Domain_class bound_tracer_pond
            = Raised ConservedToEvolvedNotOverridden d0).
  { eexists. vm_compute. reflexivity. }
  destruct Hrun as [d0 Hrun]. congruence.
Defined.

(** ** The spatial order and the reconstruction *)

(** X16: the spatial order.  [set_default_order] accepts 1 and 2 only, and
    sets both the default and the active order.  With an active order of 1
    or 2 and all conserved names known, [distribute_to_vertices_and_edges]
    returns; whenever it returns, on distinct conserved names, it has
    replaced the vertex and edge values of each conserved quantity by its
    first- or second-order extrapolation and has changed nothing else.  With
    any other order it raises 'Unknown order' at the first conserved
    quantity, and passes only when there is none. *)
Theorem spatial_order_contract `{External} (d : Domain) :
  (forall n : Z,
     (n = 1 \/ n = 2 ->
      set_default_order n d = Normal (upd_order n (upd_default_order n d))) /\
     (n <> 1 -> n <> 2 ->
      exists msg, set_default_order n d = Raised (AssertionError msg) d)) /\
  (_order_ d = 1 \/ _order_ d = 2 ->
   (forall name, name ∈ conserved_quantities d ->
                 is_Some (quantities d !! name)) ->
   exists d', distribute_to_vertices_and_edges d = Normal d') /\
  (forall d', distribute_to_vertices_and_edges d = Normal d' ->
     NoDup (conserved_quantities d) ->
     (forall name, name ∉ conserved_quantities d ->
        quantities d' !! name = quantities d !! name) /\
     (forall name, name ∈ conserved_quantities d ->
        exists Qn,
          quantities d !! name = Some Qn /\
          quantities d' !! name
          = Some (let '(vv, ev) :=
                    if decide (_order_ d = 1)
                    then Quantity_extrapolate_first_order Qn
                    else Quantity_extrapolate_second_order Qn in
                  upd_edge_values ev (upd_vertex_values vv Qn)))) /\
  (_order_ d <> 1 -> _order_ d <> 2 ->
   forall name rest, conserved_quantities d = name :: rest ->
     is_Some (quantities d !! name) ->
     distribute_to_vertices_and_edges d
     = Raised UnknownOrder (enter distribute_to_vertices_and_edges_ d)) /\
  (conserved_quantities d = [] ->
   distribute_to_vertices_and_edges d
   = Normal (enter distribute_to_vertices_and_edges_ d)).
Proof.
  split; [|split; [|split; [|split]]].
  - intros n. unfold set_default_order. split.
    + intros Hn. rewrite decide_True; [done|].
      rewrite !elem_of_cons. tauto.
    + intros H1 H2. rewrite decide_False; [by eexists|].
      rewrite !elem_of_cons, elem_of_nil. tauto.
  - intros Ho Hall. unfold distribute_to_vertices_and_edges.
    set (f := fun Qn =>
                if decide (_order_ d = 1) then
                  let '(vv, ev) := Quantity_extrapolate_first_order Qn in
                  Ok (upd_edge_values ev (upd_vertex_values vv Qn))
                else if decide (_order_ d = 2) then
                  let '(vv, ev) := Quantity_extrapolate_second_order Qn in
                  Ok (upd_edge_values ev (upd_vertex_values vv Qn))
                else Error UnknownOrder).
    assert (Hf : forall Qn, exists Qn', f Qn = Ok Qn' /\
              length (boundary_values Qn') = length (boundary_values Qn)).
    { intros Qn. unfold f. repeat case_decide;
        [destruct (Quantity_extrapolate_first_order Qn)
        |destruct (Quantity_extrapolate_second_order Qn)
        |lia]; by eexists. }
    destruct (for_each_quantity_runs f (conserved_quantities d) Hf
                (enter distribute_to_vertices_and_edges_ d))
      as (d' & Hrun & _); [|by exists d'].
    intros name Hname. unfold slots. rewrite lookup_fmap.
    destruct (Hall name Hname) as [Qn HQn]. simpl. rewrite HQn. by eexists.
  - intros d' Hret Hnames. unfold distribute_to_vertices_and_edges in Hret.
    destruct (for_each_quantity_lookup _ _ _ _ Hnames Hret) as [Hin Hout].
    split; [exact Hout|]. intros name Hname.
    destruct (Hin name Hname) as (Qn & Qn' & HQn & Hf & HQn').
    exists Qn. split; [exact HQn|]. rewrite HQn'. f_equal.
    simpl in Hf. destruct (decide (_order_ d = 1)).
    + destruct (Quantity_extrapolate_first_order Qn). by injection Hf.
    + destruct (decide (_order_ d = 2)); [|done].
      destruct (Quantity_extrapolate_second_order Qn). by injection Hf.
  - intros H1 H2 name rest Hcons [Qn HQn].
    unfold distribute_to_vertices_and_edges. simpl. rewrite Hcons. simpl.
    unfold query, get_quantity. simpl. rewrite HQn.
    by rewrite !decide_False by done.
  - intros Hnone. unfold distribute_to_vertices_and_edges. simpl.
    by rewrite Hnone.
Qed.

(** ** Setting up the monitoring of extrema *)

Lemma monitor_names_runs `{External} (d : Domain) (names : list string) :
  (forall name, name ∈ names -> exists Qn, monitored_quantity d name = Ok Qn) ->
  forall m : gmap string InfoBlock,
  exists m',
    monitor_names names (upd_quantities_to_be_monitored (Some m) d)
    = Normal (upd_quantities_to_be_monitored (Some m') d) /\
    forall name, m' !! name = if decide (name ∈ names)
                              then Some empty_info_block else m !! name.
Proof.
  induction names as [|n names IH]; intros Hvalid m.
  { exists m. split; [done|]. intros name.
    rewrite decide_False; [done|]. apply not_elem_of_nil. }
  cbn [monitor_names].
  assert (Hn : (if decide (is_Some (quantities d !! n))
                then Ok tt
                else _ <~ apply_expression_to_dictionary n (quantities d) ;;
                     Ok tt) = Ok tt).
  { destruct (Hvalid n) as [Qn HQn]; [apply elem_of_cons; by left|].
    unfold monitored_quantity in HQn. case_decide as Hq; [done|].
    destruct (quantities d !! n) as [Qn'|] eqn:Hlook.
    - destruct Hq. by eexists.
    - by rewrite HQn. }
  change (quantities (upd_quantities_to_be_monitored (Some m) d))
    with (quantities d).
  rewrite Hn. unfold query.
  destruct (IH ltac:(intros name Hname; apply Hvalid, elem_of_cons; by right)
              (<[n := empty_info_block]> m)) as (m' & Hrun & Hlook).
  exists m'. split; [exact Hrun|].
  intros name. rewrite Hlook.
  destruct (decide (name = n)) as [->|Hne].
  - rewrite lookup_insert_eq.
    rewrite (decide_True (P := n ∈ n :: names))
      by (apply elem_of_cons; by left).
    by destruct (decide (n ∈ names)).
  - rewrite lookup_insert_ne by done.
    destruct (decide (name ∈ names)) as [Hin|Hnin].
    + rewrite decide_True; [done|]. apply elem_of_cons. by right.
    + rewrite decide_False; [done|]. apply not_elem_of_cons. done.
Qed.

(** X17: [set_quantities_to_be_monitored] with a list of names that are
    quantities or valid expressions.  The monitored dictionary is replaced
    by one empty extrema block per name before anything else is looked at.
    Without a polygon the time interval is stored and [monitor_polygon] set
    to [None], but [monitor_indices] is left as it was; a list of points
    sets the indices first, then the polygon and the time interval.  A time
    interval that is not a pair raises an [AssertionError] with polygon and
    time interval as they were: without a polygon nothing but the
    dictionary has changed, with a list of points the indices have been set
    as well.  A failing [inside_polygon] and a polygon given as a string
    raise with only the dictionary replaced: a string that names a quantity
    or is a valid expression is reported as a quantity list passed as
    separate arguments, any other string as a polygon that must not be a
    string.  A single name stands for the list of that name, and [None]
    switches monitoring off. *)
Theorem monitoring_setup_contract `{External}
  (inside_polygon_of_centroids : list (Q * Q) -> result (list nat))
  (names : list string) (d : Domain)
  (monitor_polygon : option (list (Q * Q)))
  (Hvalid : forall name, name ∈ names ->
              exists Qn, monitored_quantity d name = Ok Qn) :
  let set := set_quantities_to_be_monitored inside_polygon_of_centroids in
  exists m',
    (forall name, m' !! name = if decide (name ∈ names)
                               then Some empty_info_block else None) /\
    let d' := upd_quantities_to_be_monitored (Some m') d in
    set (NameList names) NoPolygon None d monitor_polygon
    = (None, upd_monitor_time_interval None d', None) /\
    (forall t0 t1,
       set (NameList names) NoPolygon (Some [t0; t1]) d monitor_polygon
       = (None, upd_monitor_time_interval (Some (t0, t1)) d', None)) /\
    ((forall points indices,
        inside_polygon_of_centroids points = Ok indices ->
        let d'' := upd_monitor_indices (Some indices) d' in
        set (NameList names) (PolygonPoints points) None d monitor_polygon
        = (None, upd_monitor_time_interval None d'', Some points) /\
        (forall t0 t1,
           set (NameList names) (PolygonPoints points) (Some [t0; t1]) d
             monitor_polygon
           = (None, upd_monitor_time_interval (Some (t0, t1)) d'',
              Some points)) /\
        (forall ti, length ti <> 2%nat ->
           set (NameList names) (PolygonPoints points) (Some ti) d
             monitor_polygon
           = (Some (Propagated (AssertionError "")), d'', monitor_polygon))) /\
     (forall points e ti,
        inside_polygon_of_centroids points = Error e ->
        set (NameList names) (PolygonPoints points) ti d monitor_polygon
        = (Some (Propagated e), d', monitor_polygon))) /\
    (forall ti, length ti <> 2%nat ->
       set (NameList names) NoPolygon (Some ti) d monitor_polygon
       = (Some (Propagated (AssertionError "")), d', monitor_polygon)) /\
    (forall s ti,
       exists e,
         set (NameList names) (PolygonString s) ti d monitor_polygon
         = (Some e, d', monitor_polygon) /\
         (e = QuantitiesNotInAList s \/ e = PolygonIsAString s) /\
         (e = QuantitiesNotInAList s <->
          exists Qn, monitored_quantity d s = Ok Qn)) /\
    (forall name polygon ti,
       set (OneName name) polygon ti d monitor_polygon
       = set (NameList [name]) polygon ti d monitor_polygon) /\
    (forall polygon ti,
       set NoNames polygon ti d monitor_polygon
       = (None,
          upd_monitor_indices None
            (upd_monitor_time_interval None
               (upd_quantities_to_be_monitored None d)),
          None)).
Proof.
  intros set.
  destruct (monitor_names_runs d names Hvalid ∅) as (m' & Hrun & Hlook).
  exists m'. split.
  { intros name. rewrite Hlook. by case_decide. }
  intros d'. subst set. unfold set_quantities_to_be_monitored.
  rewrite Hrun. fold d'.
  split; [done|]. split; [done|]. split.
  { split.
    - intros points indices ->. cbv zeta. split; [done|]. split; [done|].
      intros ti Hlen. destruct ti as [|t0 [|t1 [|t2 ti]]]; done.
    - intros points e ti ->. done. }
  split.
  { intros ti Hlen. destruct ti as [|t0 [|t1 [|t2 ti]]]; done. }
  split; [|done].
  intros s ti.
  change (quantities d') with (quantities d). unfold monitored_quantity.
  case_decide as Hq.
  - exists (QuantitiesNotInAList s). split; [done|]. split; [by left|].
    split; [|done]. intros _. destruct Hq as [Qn HQn]. rewrite HQn.
    by exists Qn.
  - destruct (quantities d !! s) as [Qn|] eqn:Hs.
    { destruct Hq. by eexists. }
    destruct (apply_expression_to_dictionary s (quantities d)) as [Qn|e].
    + exists (QuantitiesNotInAList s). split; [done|]. split; [by left|].
      split; [|done]. intros _. by exists Qn.
    + exists (PolygonIsAString s). split; [done|]. split; [by right|].
      split; [done|]. by intros [Qn [=]].
Qed.

(** X17, witness: on the bound pond, monitoring the stage with the name of
    a second quantity passed where the polygon belongs; and with a polygon
    and a time interval of one entry, which leaves the indices set. *)
Lemma monitoring_setup_contract_witness :
  exists d' d'',
    @set_quantities_to_be_monitored Generic_Domain_class
      (fun _ => Ok [0%nat]) (NameList ["stage"%string])
      (PolygonString "xmomentum") None (bound_pond 1) None
    = (Some (QuantitiesNotInAList "xmomentum"), d', None) /\
    is_Some (quantities_to_be_monitored d') /\
    @set_quantities_to_be_monitored Generic_Domain_class
      (fun _ => Ok [0%nat]) (NameList ["stage"%string])
      (PolygonPoints [(0, 0); (1, 0); (0, 1)]%Q) (Some [1%Q]) (bound_pond 1)
      None
    = (Some (Propagated (AssertionError "")), d'', None) /\
    monitor_indices (bound_pond 1) = None /\
    monitor_indices d'' = Some [0%nat].
Proof.
  destruct (@monitoring_setup_contract Generic_Domain_class
              (fun _ => Ok [0%nat]) ["stage"%string] (bound_pond 1) None)
    as (m' & _ & _ & _ & [Hpoints _] & _ & Hstring & _).
  { intros name Hname. rewrite elem_of_cons, elem_of_nil in Hname.
    destruct Hname as [->|[]]. eexists. vm_compute. reflexivity. }
  destruct (Hstring "xmomentum"%string None) as (e & Hset & _ & [_ He]).
  destruct (Hpoints [(0, 0); (1, 0); (0, 1)]%Q [0%nat] eq_refl)
    as (_ & _ & Hbad).
  specialize (Hbad [1%Q] ltac:(simpl; lia)).
  rewrite He in Hset.
  - eexists _, _. split; [exact Hset|]. split; [by eexists|].
    split; [exact Hbad|]. split; [vm_compute; reflexivity|reflexivity].
  - eexists. vm_compute. reflexivity.
Defined.

(** ** The constructor *)

Lemma init_conserved_come_first_Ok (conserved evolved : list string) :
  forall i : nat,
  init_conserved_come_first i conserved evolved = Ok tt <->
  forall j name, conserved !! j = Some name ->
                 evolved !! (i + j)%nat = Some name.
Proof.
  induction conserved as [|name names IH]; intros i; simpl.
  { split; [|done]. intros _ j name [=]. }
  unfold getitem.
  destruct (evolved !! i) as [first|] eqn:Hi; simpl.
  - case_decide as Heq.
    + subst first. rewrite IH. split.
      * intros Hall [|j] n; simpl.
        -- intros [= <-]. by rewrite Nat.add_0_r.
        -- intros Hj. rewrite <- Nat.add_succ_comm. by apply Hall.
      * intros Hall j n Hj. rewrite Nat.add_succ_comm.
        by apply (Hall (S j)).
    + split; [done|]. intros Hall.
      specialize (Hall 0%nat name eq_refl). rewrite Nat.add_0_r in Hall.
      congruence.
  - split; [done|]. intros Hall.
    specialize (Hall 0%nat name eq_refl). rewrite Nat.add_0_r in Hall.
    congruence.
Qed.

Lemma init_conserved_come_first_prefix (conserved evolved : list string) :
  init_conserved_come_first 0 conserved evolved = Ok tt <->
  conserved `prefix_of` evolved.
Proof. by rewrite init_conserved_come_first_Ok, <- prefix_by_lookup. Qed.

Lemma add_quantities_lookup (new_quantity : Quantity) (names : list string) :
  forall (m : gmap string Quantity) (name : string),
  add_quantities new_quantity names m !! name
  = if decide (name ∈ names) then Some new_quantity else m !! name.
Proof.
  unfold add_quantities.
  induction names as [|n names IH]; intros m name; cbn [foldl].
  { destruct (decide (name ∈ [])) as [Hin|_]; [|done].
    by apply elem_of_nil in Hin. }
  rewrite IH. destruct (decide (name ∈ names)) as [Hin|Hnin].
  - rewrite decide_True; [done|]. apply elem_of_cons. by right.
  - destruct (decide (name = n)) as [->|Hne].
    + rewrite lookup_insert_eq. rewrite decide_True; [done|].
      apply elem_of_cons. by left.
    + rewrite lookup_insert_ne by done. rewrite decide_False; [done|].
      intros Hin. apply elem_of_cons in Hin as [?|?]; done.
Qed.

Lemma ghost_flags_set (N : nat) (ids : list nat) :
  (exists us, rmap (fun id => if decide (id < N)%nat then Ok tt
                              else Error IndexError) ids = Ok us) <->
  Forall (fun id => (id < N)%nat) ids.
Proof.
  induction ids as [|id ids IH]; simpl.
  { split; [by constructor|]. by eexists. }
  case_decide as Hid; simpl.
  - destruct (rmap _ ids) as [us|e] eqn:Hrest; simpl.
    + split; [|by eexists]. intros _. constructor; [done|].
      apply IH. by eexists.
    + split; [by intros [us' [=]]|]. intros Hall.
      apply Forall_cons in Hall as [_ Hall]. apply IH in Hall as [us [=]].
  - split; [by intros [us [=]]|]. intros Hall.
    by apply Forall_cons in Hall as [? _].
Qed.

Lemma ghost_flags_error (N : nat) (ids : list nat) (e : exn) :
  rmap (fun id => if decide (id < N)%nat then Ok tt
                  else Error IndexError) ids = Error e -> e = IndexError.
Proof.
  induction ids as [|id ids IH]; simpl; [done|].
  case_decide as Hid; simpl; [|by intros [= <-]].
  destruct (rmap _ ids) as [us|e'] eqn:Hrest; simpl; [done|].
  intros [= <-]. by apply IH.
Qed.

(** What [__init__] has decided once its loops and setters have run: the
    constructed domain, if any. *)
Lemma Generic_Domain_init_cases (config : Config) (mesh : MeshData)
  (new_quantity : Quantity) (conserved evolved other : option (list string))
  (send recv : option (gmap nat (list nat))) (iproc numproc : nat) :
  let cons := default [] conserved in
  let evol := default cons evolved in
  let oth := default [] other in
  let N := mesh_number_of_triangles mesh in
  let ids := ghost_ids (default ∅ recv) in
  let r := Generic_Domain_init config mesh new_quantity conserved evolved
             other send recv iproc numproc in
  let fresh :=
    mkDomain N (mesh_number_of_full_triangles mesh) (mesh_boundary mesh)
      (mesh_neighbours mesh) cons evol
      (add_quantities new_quantity oth
         (add_quantities new_quantity evol ∅))
      [] iproc (default ∅ send) (default ∅ recv)
      (config_protect_against_isolated_degenerate_timesteps config)
      (config_default_order config) (config_default_order config)
      0 (config_max_smallsteps config) 0 0 (config_CFL config)
      (config_timestepping_method config) None
      (config_max_timestep config) (config_min_timestep config)
      None None 0 None 0 0 0 0 0 0 None None None false (zeros N) [] [] in
  let passed := cons `prefix_of` evol /\
                Forall (fun id => (id < N)%nat) ids in
  let configured := config_default_order config ∈ [1; 2] /\
                    config_timestepping_method config ∈ methods in
  (passed /\ configured /\ r.2 = Ok fresh \/
   (~ (passed /\ configured)) /\ exists e, r.2 = Error e) /\
  (r.1 <> [] <->
   passed /\ (1 < numproc)%nat /\
   Exists (fun id => (id < mesh_number_of_full_nodes mesh)%nat) ids).
Proof.
  intros cons evol oth N ids r fresh passed configured.
  subst r. unfold Generic_Domain_init.
  fold cons. fold evol. fold oth. fold N. fold ids. fold fresh.
  destruct (init_conserved_come_first 0 cons evol) as [[]|e] eqn:Hp.
  2: { assert (Hn : ~ cons `prefix_of` evol).
       { intros Hpre. apply init_conserved_come_first_prefix in Hpre.
         congruence. }
       split.
       - right. split; [|by eexists]. by intros [[? _] _].
       - split; [done|]. by intros [[? _] _]. }
  apply init_conserved_come_first_prefix in Hp.
  destruct (rmap _ ids) as [us|e] eqn:Hg.
  2: { assert (Hn : ~ Forall (fun id => (id < N)%nat) ids).
       { intros Hall. apply ghost_flags_set in Hall as [us Hus].
         congruence. }
       split.
       - right. split; [|by eexists]. by intros [[_ ?] _].
       - split; [done|]. by intros [[_ ?] _]. }
  assert (Hall : Forall (fun id => (id < N)%nat) ids).
  { apply ghost_flags_set. by eexists. }
  split.
  - unfold set_default_order.
    destruct (decide (config_default_order config ∈ [1; 2])) as [Ho|Ho].
    2: { right. split; [|by eexists]. by intros [_ [? _]]. }
    unfold set_timestepping_method.
    change (upd_order (config_default_order config)
              (upd_default_order (config_default_order config) fresh))
      with fresh.
    destruct (decide (config_timestepping_method config ∈ methods))
      as [Hm|Hm].
    2: { right. split; [|by eexists]. by intros [_ [_ ?]]. }
    left. split; [done|]. split; [done|]. reflexivity.
  - set (warn := existsb _ ids && _).
    assert (Hw : warn = true <->
                 (1 < numproc)%nat /\
                 Exists (fun id => (id < mesh_number_of_full_nodes mesh)%nat)
                   ids).
    { unfold warn. rewrite andb_true_iff, Nat.ltb_lt, existsb_exists.
      rewrite Exists_exists. split.
      - intros [(id & Hin & Hlt) Hnp]. split; [done|]. exists id.
        split; [by apply list_elem_of_In|]. by apply Nat.ltb_lt.
      - intros [Hnp (id & Hin & Hlt)]. split; [|done]. exists id.
        split; [by apply list_elem_of_In|]. by apply Nat.ltb_lt. }
    destruct warn.
    + assert (Hyes : (1 < numproc)%nat /\
                Exists (fun id => (id < mesh_number_of_full_nodes mesh)%nat)
                  ids) by by apply Hw.
      split; [intros _; by split|]. intros _.
      destruct (set_default_order _ _) as [d1|e1 d1]; [|done].
      by destruct (set_timestepping_method _ _).
    + split; [|intros [_ Hyes]; by apply Hw in Hyes].
      destruct (set_default_order _ _) as [d1|e1 d1]; [|done].
      by destruct (set_timestepping_method _ _).
Qed.

(** X18: [__init__] builds a domain exactly when the conserved names are the
    first of the evolved names, every ghost id is a triangle of the mesh and
    the configured default order and timestepping method are valid; it warns
    only in a parallel run.  The domain built holds one fresh quantity per
    evolved or other name and no other, has its clock at zero, passes
    [check_integrity] on a sound mesh, and cannot be evolved before its
    boundary is set: [evolve] raises an [AssertionError] without a yield. *)
Theorem constructor_contract `{External} (config : Config) (mesh : MeshData)
  (new_quantity : Quantity) (conserved evolved other : option (list string))
  (send recv : option (gmap nat (list nat))) (iproc numproc : nat) :
  let cons := default [] conserved in
  let evol := default cons evolved in
  let oth := default [] other in
  let ids := ghost_ids (default ∅ recv) in
  let r := Generic_Domain_init config mesh new_quantity conserved evolved
             other send recv iproc numproc in
  ((exists d, r.2 = Ok d) <->
   cons `prefix_of` evol /\
   Forall (fun id => (id < mesh_number_of_triangles mesh)%nat) ids /\
   config_default_order config ∈ [1; 2] /\
   config_timestepping_method config ∈ methods) /\
  (r.1 <> [] -> (1 < numproc)%nat) /\
  (forall d, r.2 = Ok d ->
     conserved_quantities d = cons /\
     evolved_quantities d = evol /\
     (forall name, quantities d !! name
                   = if decide (name ∈ evol ++ oth) then Some new_quantity
                     else None) /\
     time d = 0%Q /\ starttime d = 0%Q /\ finaltime d = None /\
     boundary_map d = None /\
     _order_ d = config_default_order config /\
     timestepping_method d = config_timestepping_method config /\
     check_integrity (Ok tt) d = Ok tt /\
     forall (fuel : nat) (yieldstep ft du : option Q)
            (skip_initial_step : bool),
     exists msg,
       evolve fuel yieldstep ft du skip_initial_step d
       = mkRun [] (Failed (AssertionError msg)) d).
Proof.
  intros cons evol oth ids r.
  destruct (Generic_Domain_init_cases config mesh new_quantity conserved
              evolved other send recv iproc numproc) as [Hcases Hwarn].
  cbv zeta in Hcases, Hwarn. fold cons evol oth ids r in Hcases, Hwarn.
  split; [|split].
  - destruct Hcases as [([Hp Hg] & [Ho Hm] & Hr)|[Hn [e Hr]]].
    + split; [done|]. intros _. by eexists.
    + split.
      * intros [d Hd]. rewrite Hr in Hd. done.
      * intros (Hp & Hg & Ho & Hm). by destruct Hn.
  - intros Hw. by apply Hwarn in Hw as (_ & ? & _).
  - intros d Hd.
    destruct Hcases as [([Hp Hg] & [Ho Hm] & Hr)|[Hn [e Hr]]].
    2: { rewrite Hr in Hd. done. }
    rewrite Hr in Hd. injection Hd as <-.
    assert (Hq : forall name,
      add_quantities new_quantity oth
        (add_quantities new_quantity evol ∅) !! name
      = if decide (name ∈ evol ++ oth) then Some new_quantity else None).
    { intros name. rewrite !add_quantities_lookup, lookup_empty.
      destruct (decide (name ∈ oth)) as [Hin|Hnin].
      - rewrite decide_True; [done|]. apply elem_of_app. by right.
      - destruct (decide (name ∈ evol)) as [Hin|Hnin'].
        + rewrite decide_True; [done|]. apply elem_of_app. by left.
        + rewrite decide_False; [done|].
          intros Hin. apply elem_of_app in Hin as [?|?]; done. }
    cbn [conserved_quantities evolved_quantities quantities time starttime
         finaltime boundary_map _order_ timestepping_method].
    split_and!; try done.
    + unfold check_integrity. cbn [rbind].
      match goal with
      | |- context [check_conserved_are_quantities ?l ?d] =>
          assert (Hsub : check_conserved_are_quantities l d = Ok tt)
      end.
      { apply check_conserved_are_quantities_Ok.
        cbn [conserved_quantities quantities]. intros name Hin.
        rewrite Hq. rewrite decide_True; [by eexists|].
        apply elem_of_app. left. destruct Hp as [k ->].
        apply elem_of_app. by left. }
      rewrite Hsub. cbn [rbind].
      apply check_conserved_come_first_Ok.
      cbn [conserved_quantities evolved_quantities].
      by apply prefix_by_lookup.
    + intros fuel yieldstep ft du skip_initial_step.
      unfold evolve, evolve_prologue. cbn [boundary_objects].
      by eexists.
Qed.

Lemma constructor_contract_witness :
  let r := Generic_Domain_init pond_config pond_mesh (constant_quantity 1 3 0)
             (Some ["stage"; "xmomentum"; "ymomentum"]%string) None
             (Some ["elevation"; "friction"]%string) None None 0 1 in
  r.1 = [] /\
  exists d, r.2 = Ok d /\
    evolved_quantities d = ["stage"; "xmomentum"; "ymomentum"]%string /\
    quantities d !! "friction"%string = Some (constant_quantity 1 3 0) /\
    quantities d !! "depth"%string = None /\
    check_integrity (Ok tt) d = Ok tt /\
    upd_quantities (quantities (pond 1)) d = pond 1.
Proof.
  intros r.
  pose proof (@constructor_contract Generic_Domain_class pond_config
                pond_mesh (constant_quantity 1 3 0)
                (Some ["stage"; "xmomentum"; "ymomentum"]%string) None
                (Some ["elevation"; "friction"]%string) None None 0%nat
                1%nat) as Hc.
  cbv zeta in Hc. fold r in Hc. destruct Hc as (Hiff & Hwarn & Hfresh).
  split.
  - destruct (r.1) as [|w ws] eqn:Hw; [done|].
    assert (Hlt : (1 < 1)%nat) by (by apply Hwarn). lia.
  - assert (Hok : exists d, r.2 = Ok d).
    { apply Hiff. split_and!.
      - done.
      - unfold ghost_ids. cbn [default]. rewrite map_to_list_empty.
        constructor.
      - apply elem_of_cons. by left.
      - unfold methods. apply elem_of_cons. by left. }
    destruct Hok as [d Hd]. exists d.
    destruct (Hfresh d Hd) as (_ & Hev & Hq & _ & _ & _ & _ & _ & _ & Hci & _).
    split; [done|]. split; [exact Hev|].
    split; [by rewrite Hq|]. split; [by rewrite Hq|].
    split; [exact Hci|].
    assert (Hr : r.2 = Ok
              (upd_quantities {[ "stage"%string := constant_quantity 1 3 0;
                                 "xmomentum"%string := constant_quantity 1 3 0;
                                 "ymomentum"%string := constant_quantity 1 3 0;
                                 "elevation"%string := constant_quantity 1 3 0;
                                 "friction"%string := constant_quantity 1 3 0 ]}
                 (pond 1))) by (vm_compute; reflexivity).
    rewrite Hr in Hd. injection Hd as <-. vm_compute. reflexivity.
Defined.
